(* ===== verification/_CoqProject ===== *)
-Q . S2P
Prelude.v
RustStr.v
Wide.v
F64.v
NetAddr.v
Externs.v
Toy.v
FileSys.v
PrintTypes.v
Printing.v
Cups.v
WindowsPrint.v
Protocol.v
IpWhitelist.v
Config.v
JobQueue.v
Download.v
Document.v
Office.v
Converters.v
OfficeScripts.v
Activity.v
Sqlite.v
TaskHistory.v
RemoteStore.v
State.v
TestPrint.v
ResourcePolicy.v
Proxy.v
Browser.v
Renderer.v
ConfigTransfer.v
Worker.v
WorkerSpec.v
Server.v
RemoteClient.v
RemoteWorker.v
Commands.v
Doctor.v
Executor.v
Cli.v
Ipc.v
Agent.v
Desktop.v
Apps.v
System.v
Interleave.v
Session.v
CliIntegration.v
CliLinks.v
