(* ===== verification/Prelude.v ===== *)
(** * PrintBridge: a verification library of the local print agent

    PrintBridge is a print agent.  A browser page connects to it over a local
    WebSocket and submits print jobs; a remote service can be polled for more.
    A job goes through a queue to a worker, which obtains a document (a
    download, a data URL, an image, an Office file, a rendered HTML page, or raw
    printer data), chooses printer, paper and copies, and hands it to the
    platform's print queue.  What happened is broadcast to the connections,
    kept in a history database and reported to the remote service.

    The library models the Rust crates under [src/crates/] and the two programs of
    [src/apps/] and proves what makes them correct.  Every definition is executable,
    step relations apart, and is named after the function it translates.

    ** The parts, and where they are modelled

<<
    component (source under src/)                    file
    wire protocol, validation (core/protocol.rs)     Protocol
    IP allow list (core/ip_whitelist.rs)             IpWhitelist, NetAddr
    configuration (core/config.rs)                   Config
    job queue (core/queue.rs)                        JobQueue
    printing data, backend trait (core/printing.rs)  PrintTypes
    print helpers (runtime/printing/mod.rs,
      windows_buffer.rs)                             Printing
    CUPS backend (runtime/printing/cups.rs)          Cups
    Windows backend (runtime/printing/windows.rs)    WindowsPrint, Wide
    log entries and log store (core/activity.rs,
      runtime/logs.rs)                               Activity
    history database (runtime/task_history.rs)       TaskHistory, Sqlite
    remote database (runtime/remote_store.rs)        RemoteStore, Sqlite
    shared state (runtime/state.rs, html/mod.rs)     State
    downloads (runtime/download.rs)                  Download
    documents, images (runtime/document.rs)          Document
    Office conversion (runtime/office.rs)            Office
    Office converters (runtime/office/*.rs)          Converters
    the PowerShell scripts of the Windows
      converters (runtime/office/windows.rs)         OfficeScripts
    print worker (runtime/queue.rs)                  Worker, WorkerSpec
    HTML resource policy (html/resource_policy.rs)   ResourcePolicy
    HTML filtering proxy (html/proxy.rs)             Proxy
    HTML renderer (html/browser.rs): the browser's
      discovery and launch, the rendering            Browser, Renderer
    WebSocket server (runtime/server.rs)             Server
    remote protocol and client
      (core/remote_protocol.rs, remote_client.rs)    RemoteClient
    remote worker (runtime/remote_worker.rs)         RemoteWorker
    test print (runtime/test_print.rs)               TestPrint
    diagnosis (runtime/doctor.rs)                    Doctor
    settings transfer (cli/config_transfer.rs)       ConfigTransfer
    commands and their service (cli/command.rs,
      service.rs, policy.rs, output.rs)              Commands
    command executor (runtime/command_executor.rs)   Executor
    command line (cli/parser.rs, interaction.rs)     Cli
    local IPC (cli/client.rs, runtime/ipc/unix.rs,
      ipc/windows.rs)                                Ipc
    agent life cycle (runtime/agent.rs, builder.rs,
      agent_guard.rs)                                Agent
    desktop handlers, tray (apps/desktop)            Desktop
    installing the command (apps/desktop,
      cli_integration/*.rs)                          CliIntegration, CliLinks
    entry points, parser and signals (apps/server,
      apps/desktop)                                  Apps
    a session of the desktop application: setup,
      window, tray (apps/desktop lib.rs, tray.rs)    Session
    the tasks of a running agent, interleaved
      (AgentRuntime::start)                          System
    the same, with clients served inside a job       Interleave
>>

    Two programs are built from these parts.  In the agent, the server, the worker
    and the remote worker share one state; [Agent] assembles, starts and stops
    them.  A command of the terminal goes through [Cli] to the command service of
    [Commands], which asks a running agent over the local socket ([Ipc]) or runs
    it offline; in both cases [Executor] carries it out on a state.  The window and
    the tray ([Desktop]) use the same executor in the process of the agent.

    Below them, [RustStr] has the operations of [str] on UTF-8 bytes, [F64] the
    binary64 numbers (the Standard Library's executable IEEE 754), [NetAddr] the
    address parser of [std::net], [FileSys] a file system whose every operation
    may fail and leave a partial file behind, together with the state and error
    monad [M] all handlers are written in, and [Sqlite] the value of a table and
    the failures of a call.  [Externs] states the crates the program calls (url,
    base64, ipnet, serde_json, chrono) as classes of operations with classes of
    laws; [Toy] has concrete instances that satisfy the laws, used by the
    witnesses only.  Nothing is proved about a crate: its laws are hypotheses.

    ** State and operations

    - [State.AgentState] is the Rust [AgentState]: the configuration, the queue,
      the log, the statuses broadcast so far, the two stores, the file system
      and the counter of the environment's answers.  A handler of the worker,
      the server or the remote worker is a function on it, [M AgentState E A];
      [zoom] runs an operation of a component (queue, store, file system) in it,
      the way the code takes that component's lock.
    - Everything the program asks of the outside is a field of [RuntimeEnv]
      ([State]), [ProxyEnv] ([Proxy]) or of a class next to its client: the clock,
      random ids, the print backend ([PrintTypes.PrintBackend], the Rust trait),
      the HTML renderer, the Office converter, the HTTP client, DNS.  Answers are
      indexed by a counter, so that two calls may be answered differently, and
      the theorems hold for every environment.
    - Errors are values: [result E A] with one inductive type per Rust error enum
      and its [Display] text.  Panics the code can reach (the overflow of a date)
      are outcomes of the model.
    - Integers are [N] with the bounds of their Rust type where the code can
      reach them; addresses have a width; bytes are [ascii].

    ** What the theorems show

    - Queue ([JobQueue]): acceptance is all or nothing, every reachable queue
      satisfies its invariant, jobs are handed over once and in order, and the
      queue refines an abstract append-only log.
    - Acceptance ([Protocol], [Server]): the validation accepts exactly the
      well-formed jobs; every client message has exactly the stated outcome; a
      connection is upgraded exactly when address and Origin are admitted, and
      is told the statuses of its own jobs only (the answer to [get_print_queue]
      lists everybody's waiting jobs).
    - The running agent ([System]): however the clients, the workers and the commands
      interleave, no job is accepted twice, jobs are finished in the order they were
      accepted, every client that keeps up is told the whole story of its own jobs and
      of no others, each job reaches the print queue at most once, within the limits in
      force at that moment, and the print worker's turns finish every accepted job.  [Interleave] shows that serving clients in the
      middle of a job adds no state to those reached, and [Session] that nothing a user
      does in the desktop application does either.
    - Worker ([WorkerSpec]): processing never fails and tells one complete story
      to the log, the channel, the history and the remote reports; at most one
      submission, within the configured limits.
    - Documents ([Download], [Document], [Office]): what is written on success,
      and that failures leave nothing behind unless removing failed.
    - Stores ([TaskHistory], [RemoteStore]): the tables of every reachable history
      are consistent; queries return what they promise; retries are bounded.
    - Remote tasks ([RemoteClient], [RemoteWorker]): no job is queued twice over any
      polls, failures and restarts; a poll and a round of reports account for all
      they received; and a defect, a valid job lost to an invalid sibling.
    - HTML isolation ([ResourcePolicy], [Proxy]): a rendered page reaches only public
      addresses, or the loopback Origin approved for it, also when DNS answers
      change; the inline page is served under its secret authority only.
    - Rendering ([Browser], [Renderer]): every browser a rendering starts is
      sandboxed behind the filtering proxy of this rendering, with a profile of its
      own, ends within its limits, and is gone afterwards.
    - Platform printing ([Cups], [WindowsPrint], [Converters], [TestPrint]): one
      submission or none, with the requested printer, paper and copies; the
      papers a driver describes are read within the bounds of their buffers; the
      calls of the Windows spooler follow its protocol and release everything.
    - Scripts ([OfficeScripts]): a conversion by Microsoft Office or WPS, and the
      clean-up after it timed out, touch no application the user had open, whichever
      call throws, whenever the script is killed, and whatever other programs do, as
      long as no process number is given again between two calls.
    - Commands ([Commands], [Executor], [Ipc], [Cli], [Doctor]): a command is executed
      once, in one place, changes only what its name says, and the terminal runs
      exactly the commands of its story.
    - Programs ([Agent], [Desktop], [Apps], [Session]): starting and stopping, rolling
      back a failed save, the answers of every handler, exit codes; exactly when the
      setup of the desktop application succeeds and where it starts; what ends the
      application and what its window does until then; and two defects of its tray.
    - Installation ([CliIntegration], [CliLinks]): the path entry and the link are
      added once and taken out again without touching anything else; the buffers and
      handles of the registry; and three defects.
    - Configuration ([Config], [State], [IpWhitelist], [ConfigTransfer]): saving and
      loading round trip, a valid configuration in force stays valid (loading alone
      does not validate), an
      exported configuration imports exactly the chosen fields, and a preview
      shows what an import does without revealing a token.

    A theorem about all histories quantifies over lists of calls from the initial
    state.  Theorems with hypotheses have a witness next to them that applies
    them at a concrete input.

    ** Bounds and fuel

    The few loops that are not structural take the length of what they consume
    as fuel: [RustStr.trim_any] and [RustStr.words] the text,
    [NetAddr.read_groups] the groups of an address,
    [Activity.pop_front_while_over] the log (its lemma proves this is enough).
    [Printing.read_buffer_loop] makes the four attempts of the code's constant,
    [RustStr.replace_go] takes the length of the text, [Browser.has_version_loop]
    looks at a process 101 times, as often as the code's limit and pause allow,
    and the waiting loop of [Renderer] has as many rounds as its duration has
    pauses ([Renderer.wait_returns] proves it returns within them).
    Streams (the chunks of a download, the frames of a socket, the requests of a
    browser) are lists.  The main loops of the two workers are given by the
    function of one round ([Worker.process_job], [RemoteWorker.remote_round]).
    The buffers of [WindowsPrint] are lists of bytes at an address; addresses are
    64-bit and their sums wrap around, as in a release build.

    ** What is not modelled, and why

    The tasks of the agent run concurrently; the code guards each component with
    one lock, and a step of [System] is one round of a task: a frame of a client, a
    job of the print worker, a poll.  What clients do between two locks of a job is
    modelled by [Interleave.fine_step]; what happens between two locks of a poll, and
    the questions about printers during a job, which ask the same print system, are
    not.  Of the named pipe of Windows ([ipc/windows.rs]) the creation and the loop are
    modelled ([Ipc]), not its foreign calls.  Drawing the window and the menus of the
    desktop application, its web page and the installers are user interface; [osascript],
    which runs the scripts of the macOS installation, and the automation objects of the
    Office programs are other programs.  The Win32 calls, the layout of
    their structures, the browser, the converters and the operating system's
    commands are parameters, and so are decoding images, writing PDF and all
    cryptography. *)

From stdpp Require Export base tactics strings pretty numbers list gmap.
From Stdlib Require Export Lia.

#[export] Set Default Goal Selector "!".

(** ** The result type of fallible Rust code

    [result E T] is Rust's [Result<T, E>]; the error type comes first so that
    [result E] is a monad and [x ← e; k] is the [?] operator. *)

Inductive result (E T : Type) : Type :=
  | Ok (t : T)
  | Err (e : E).
Arguments Ok {E T} _.
Arguments Err {E T} _.

#[export] Instance result_ret {E} : MRet (result E) := λ _ t, Ok t.
#[export] Instance result_bind {E} : MBind (result E) := λ _ _ f m,
  match m with Ok t => f t | Err e => Err e end.
#[export] Instance result_fmap {E} : FMap (result E) := λ _ _ f m,
  match m with Ok t => Ok (f t) | Err e => Err e end.
#[export] Instance result_eq_dec {E T} `{EqDecision E, EqDecision T} :
  EqDecision (result E T).
Proof. solve_decision. Defined.

(** [Result::map_err], [Result::is_ok], [Result::ok] and [Option::ok_or]. *)
Definition map_err {E F T} (f : E → F) (r : result E T) : result F T :=
  match r with Ok t => Ok t | Err e => Err (f e) end.
Definition is_ok {E T} (r : result E T) : bool :=
  match r with Ok _ => true | Err _ => false end.
Definition result_ok {E T} (r : result E T) : option T :=
  match r with Ok t => Some t | Err _ => None end.
Definition ok_or {E T} (e : E) (o : option T) : result E T :=
  match o with Some t => Ok t | None => Err e end.

(** [Option::filter], [Option::or_else] (the alternative is a value here, the
    closures of the source are pure), [Option::unwrap_or] and [is_some]. *)
Definition opt_filter {A} (p : A → bool) (o : option A) : option A :=
  match o with Some a => if p a then Some a else None | None => None end.
Definition opt_or {A} (o alt : option A) : option A :=
  match o with Some a => Some a | None => alt end.
Definition unwrap_or {A} (o : option A) (d : A) : A :=
  match o with Some a => a | None => d end.
Definition is_some {A} (o : option A) : bool :=
  match o with Some _ => true | None => false end.
Definition is_none {A} (o : option A) : bool := negb (is_some o).

(** [for x in l { f(x)?; }] *)
Fixpoint try_for_each {A E} (f : A → result E unit) (l : list A) : result E unit :=
  match l with
  | [] => Ok tt
  | x :: l' => _ ← f x; try_for_each f l'
  end.

(** [Iterator::find] and [Iterator::any], [Iterator::find_map]. *)
Fixpoint iter_find {A} (p : A → bool) (l : list A) : option A :=
  match l with
  | [] => None
  | x :: l' => if p x then Some x else iter_find p l'
  end.
Fixpoint iter_find_map {A B} (f : A → option B) (l : list A) : option B :=
  match l with
  | [] => None
  | x :: l' => match f x with Some y => Some y | None => iter_find_map f l' end
  end.

(** ** Machine integers

    Unsigned integers are [N]; the widths show where the source saturates or
    checks them. *)

Definition u16_max : N := 65535.
Definition u32_max : N := 4294967295.
Definition u64_max : N := 18446744073709551615.
Definition i64_max : N := 9223372036854775807.
Definition saturating_mul_u64 (a b : N) : N := N.min (a * b) u64_max.
Definition saturating_add_u64 (a b : N) : N := N.min (a + b) u64_max.
Definition saturating_add_u32 (a b : N) : N := N.min (a + b) u32_max.

(** [max_file_size_mb.saturating_mul(1024 * 1024)] is written in four places
    of the source. *)
Definition mib : N := 1048576.

(** ** Automation *)

Create HintDb pb discriminated.
Create Rewrite HintDb pb.

(** Splits every [match] of the hypotheses and the goal and cleans up. *)
Ltac crush_match :=
  repeat first [ progress simplify_eq/= | case_match ]; try done.

(** Unfolds the monadic operations of [result] and [option]. *)
Ltac unfold_monad :=
  cbv [mret mbind fmap result_ret result_bind result_fmap option_ret option_bind
       option_fmap] in *.

(** ** Lemmas on results and options *)

Lemma result_bind_ok {E A B} (m : result E A) (f : A → result E B) b :
  m ≫= f = Ok b ↔ ∃ a, m = Ok a ∧ f a = Ok b.
Proof.
  destruct m as [t|e]; split; cbn.
  - intros H; by exists t.
  - intros (?&?&?); by simplify_eq.
  - done.
  - intros (?&?&?); by simplify_eq.
Qed.

Lemma result_bind_err {E A B} (m : result E A) (f : A → result E B) e :
  m ≫= f = Err e ↔ m = Err e ∨ ∃ a, m = Ok a ∧ f a = Err e.
Proof.
  destruct m as [t|e']; split; cbn.
  - intros H; right; by exists t.
  - intros [|(?&?&?)]; by simplify_eq.
  - intros H; left; congruence.
  - intros [|(?&?&?)]; by simplify_eq.
Qed.

Lemma map_err_ok {E F T} (f : E → F) (r : result E T) t :
  map_err f r = Ok t ↔ r = Ok t.
Proof. destruct r; simpl; split; congruence. Qed.

Lemma ok_or_ok {E T} (e : E) (o : option T) t : ok_or e o = Ok t ↔ o = Some t.
Proof. destruct o; simpl; split; congruence. Qed.

Lemma opt_filter_some {A} (p : A → bool) o a :
  opt_filter p o = Some a ↔ o = Some a ∧ p a = true.
Proof.
  destruct o as [x|]; simpl; [|intuition congruence].
  destruct (p x) eqn:?; intuition congruence.
Qed.

Lemma opt_filter_none {A} (p : A → bool) o :
  opt_filter p o = None ↔ ∀ a, o = Some a → p a = false.
Proof.
  destruct o as [x|]; simpl; [|by split].
  destruct (p x) eqn:?; split; intros H; [done| |by intros ? [= <-]|done].
  specialize (H x eq_refl). congruence.
Qed.

Lemma is_some_true {A} (o : option A) : is_some o = true ↔ is_Some o.
Proof.
  split; [|by intros [? ->]].
  destruct o; [by eexists|done].
Qed.

Lemma is_some_false {A} (o : option A) : is_some o = false ↔ o = None.
Proof. by destruct o. Qed.

Lemma is_ok_true {E T} (r : result E T) : is_ok r = true ↔ ∃ t, r = Ok t.
Proof. destruct r as [t|e]; simpl; split; [by exists t|done|done|by intros [??]]. Qed.

Lemma try_for_each_ok {A E} (f : A → result E unit) l :
  try_for_each f l = Ok tt ↔ Forall (λ a, f a = Ok tt) l.
Proof.
  induction l as [|a l IH]; simpl; [by split|].
  rewrite Forall_cons, <-IH, result_bind_ok. split.
  - by intros ([]&?&?).
  - intros [??]; by exists tt.
Qed.

(** The loop stops at the first element that fails, with its error. *)
Lemma try_for_each_err {A E} (f : A → result E unit) l e :
  try_for_each f l = Err e ↔
  ∃ l1 a l2, l = l1 ++ a :: l2 ∧ Forall (λ b, f b = Ok tt) l1 ∧ f a = Err e.
Proof.
  induction l as [|x l IH]; simpl.
  { split; [done|]. by intros ([|]&?&?&?&_). }
  rewrite result_bind_err. split.
  - intros [Hx|([]&Hx&(l1&a&l2&->&?&?)%IH)].
    + exists [], x, l. by repeat split.
    + exists (x :: l1), a, l2. repeat split; eauto.
  - intros (l1&a&l2&Hl&Hl1&Ha). destruct l1 as [|y l1]; simplify_list_eq; [by left|].
    right. apply Forall_cons in Hl1 as [??]. exists tt. split; [done|].
    apply IH. naive_solver.
Qed.

Lemma iter_find_some {A} (p : A → bool) l a :
  iter_find p l = Some a →
  ∃ l1 l2, l = l1 ++ a :: l2 ∧ p a = true ∧ Forall (λ b, p b = false) l1.
Proof.
  induction l as [|x l IH]; simpl; [done|].
  destruct (p x) eqn:Hx.
  - intros [= ->]. exists [], l. eauto.
  - intros (l1&l2&->&?&?)%IH. exists (x :: l1), l2. eauto.
Qed.

Lemma iter_find_none {A} (p : A → bool) l :
  iter_find p l = None ↔ Forall (λ b, p b = false) l.
Proof.
  induction l as [|x l IH]; simpl; [by split|].
  rewrite Forall_cons, <-IH. destruct (p x); naive_solver.
Qed.

Lemma existsb_true {A} (p : A → bool) l : existsb p l = true ↔ ∃ a, a ∈ l ∧ p a = true.
Proof. rewrite existsb_exists. by setoid_rewrite list_elem_of_In. Qed.

Lemma forallb_true {A} (p : A → bool) l : forallb p l = true ↔ ∀ a, a ∈ l → p a = true.
Proof. rewrite forallb_forall. by setoid_rewrite list_elem_of_In. Qed.

Lemma existsb_false {A} (p : A → bool) l : existsb p l = false ↔ ∀ a, a ∈ l → p a = false.
Proof.
  induction l as [|x l IH]; simpl; [set_solver|].
  rewrite orb_false_iff, IH. set_solver.
Qed.

#[export] Hint Rewrite @result_bind_ok @result_bind_err @map_err_ok @ok_or_ok
  @opt_filter_some @is_some_true @is_some_false : pb.

(** Deleting elements keeps distinct keys distinct. *)
Lemma filter_all {A} (P : A → Prop) `{∀ a, Decision (P a)} (l : list A) :
  (∀ a, a ∈ l → P a) → filter P l = l.
Proof.
  induction l as [|a l IH]; intros Hl; [done|].
  rewrite filter_cons_True by (apply Hl; by left). rewrite IH; [done|]. intros b Hb. apply Hl. by right.
Qed.
Lemma filter_none {A} (P : A → Prop) `{∀ a, Decision (P a)} (l : list A) :
  (∀ a, a ∈ l → ¬ P a) → filter P l = [].
Proof.
  induction l as [|a l IH]; intros Hl; [done|].
  rewrite filter_cons_False by (apply Hl; by left). apply IH. intros b Hb. apply Hl. by right.
Qed.
Lemma NoDup_map_filter {A B} (f : A → B) (P : A → Prop) `{∀ a, Decision (P a)} l :
  NoDup (map f l) → NoDup (map f (filter P l)).
Proof.
  induction l as [|a l IH]; [done|]. cbn [map]. rewrite NoDup_cons. intros [Ha Hn].
  rewrite filter_cons. destruct (decide (P a)); [|by apply IH].
  cbn [map]. apply NoDup_cons. split; [|by apply IH]. intros Hin. apply Ha.
  apply list_elem_of_fmap in Hin as (b&->&[_ Hb]%list_elem_of_filter).
  apply list_elem_of_fmap. by exists b.
Qed.

Lemma Forall_filter_keep {A} (Q P : A → Prop) `{∀ a, Decision (P a)} l :
  Forall Q l → Forall Q (filter P l).
Proof.
  rewrite !Forall_forall. intros HQ a [_ Ha]%list_elem_of_filter. by apply HQ.
Qed.
