(* ===== verification/RustStr.v ===== *)
(** * Rust's [str] operations

    A Rust string is its UTF-8 bytes, a Rocq [string]; a [char] pattern is the
    bytes of its encoding.  The operations are those of Rust's standard library
    that the program calls: [trim], [split], [split_once], [strip_prefix],
    [lines], [split_whitespace], the ASCII case operations, and the decimal
    printing and parsing of integers.  Each is a function on the list of bytes
    with a wrapper on strings. *)

From S2P Require Import Prelude.
From Stdlib Require Import Ascii.
Open Scope string_scope.
Open Scope nat_scope.
Open Scope list_scope.

Abbreviation bytes := (list ascii).
Definition to_bytes : string → bytes := String.list_ascii_of_string.
Definition of_bytes : bytes → string := String.string_of_list_ascii.

Lemma of_to_bytes s : of_bytes (to_bytes s) = s.
Proof. apply String.string_of_list_ascii_of_string. Qed.
Lemma to_of_bytes l : to_bytes (of_bytes l) = l.
Proof. apply String.list_ascii_of_string_of_list_ascii. Qed.
Lemma to_bytes_inj s t : to_bytes s = to_bytes t → s = t.
Proof. intros H. by rewrite <-(of_to_bytes s), <-(of_to_bytes t), H. Qed.
Lemma of_bytes_inj l k : of_bytes l = of_bytes k → l = k.
Proof. intros H. by rewrite <-(to_of_bytes l), <-(to_of_bytes k), H. Qed.
Lemma to_bytes_app s t : to_bytes (s +:+ t) = to_bytes s ++ to_bytes t.
Proof. induction s as [|c s IH]; simpl; [done|]. by f_equal. Qed.
Lemma to_bytes_length s : length (to_bytes s) = String.length s.
Proof. induction s as [|c s IH]; simpl; [done|]. by f_equal. Qed.

#[export] Hint Rewrite of_to_bytes to_of_bytes to_bytes_app to_bytes_length : pb.

(** [str::len] counts bytes; as a [u64]. *)
Definition str_len (s : string) : N := N.of_nat (String.length s).
Definition is_empty (s : string) : bool := if s is "" then true else false.

Lemma is_empty_true s : is_empty s = true ↔ s = "".
Proof. by destruct s. Qed.

Lemma str_app_nil_r s : s +:+ "" = s.
Proof. apply to_bytes_inj. by rewrite to_bytes_app, app_nil_r. Qed.
Lemma str_app_assoc s t u : s +:+ (t +:+ u) = (s +:+ t) +:+ u.
Proof. apply to_bytes_inj. by rewrite !to_bytes_app, app_assoc. Qed.
Lemma str_len_app s t : str_len (s +:+ t) = (str_len s + str_len t)%N.
Proof.
  unfold str_len. rewrite <-!to_bytes_length, to_bytes_app, length_app. lia.
Qed.

(** ** Prefixes, suffixes and substrings *)

Module Bytes.

Fixpoint strip_prefix (p l : bytes) : option bytes :=
  match p, l with
  | [], _ => Some l
  | a :: p', b :: l' => if Ascii.eqb a b then strip_prefix p' l' else None
  | _ :: _, [] => None
  end.

Definition strip_suffix (p l : bytes) : option bytes :=
  reverse <$> strip_prefix (reverse p) (reverse l).

(** [str::split_once]: the first occurrence of a non-empty pattern. *)
Fixpoint split_once (p l : bytes) : option (bytes * bytes) :=
  match strip_prefix p l with
  | Some r => Some ([], r)
  | None =>
      match l with
      | [] => None
      | c :: l' => (λ '(a, b), (c :: a, b)) <$> split_once p l'
      end
  end.

(** [str::rsplit_once]: the last occurrence. *)
Definition rsplit_once (p l : bytes) : option (bytes * bytes) :=
  (λ '(a, b), (reverse b, reverse a)) <$> split_once (reverse p) (reverse l).

(** [str::split(char)]: the pieces between the occurrences of a byte, one more
    than there are occurrences. *)
Fixpoint split_by (f : ascii → bool) (l : bytes) : list bytes :=
  match l with
  | [] => [[]]
  | c :: l' =>
      if f c then [] :: split_by f l'
      else match split_by f l' with
           | [] => [[c]]
           | w :: ws => (c :: w) :: ws
           end
  end.

(** The UTF-8 encodings of the code points with the property White_Space, for
    which [char::is_whitespace] holds. *)
Definition white_space : list bytes :=
  map (map ascii_of_N)
  [[9]; [10]; [11]; [12]; [13]; [32]; [194; 133]; [194; 160]; [225; 154; 128];
   [226; 128; 128]; [226; 128; 129]; [226; 128; 130]; [226; 128; 131];
   [226; 128; 132]; [226; 128; 133]; [226; 128; 134]; [226; 128; 135];
   [226; 128; 136]; [226; 128; 137]; [226; 128; 138]; [226; 128; 168];
   [226; 128; 169]; [226; 128; 175]; [226; 129; 159]; [227; 128; 128]]%N.

Definition strip_any (ps : list bytes) (l : bytes) : option bytes :=
  iter_find_map (λ p, strip_prefix p l) ps.

(** Strips patterns from the front until none matches; the fuel is the length,
    and every round removes a byte when no pattern is empty. *)
Fixpoint trim_any (fuel : nat) (ps : list bytes) (l : bytes) : bytes :=
  match fuel with
  | 0 => l
  | S n => match strip_any ps l with Some r => trim_any n ps r | None => l end
  end.

Definition trim_start (ps : list bytes) (l : bytes) : bytes :=
  trim_any (length l) ps l.
Definition trim_end (ps : list bytes) (l : bytes) : bytes :=
  reverse (trim_start (reverse <$> ps) (reverse l)).
Definition trim (ps : list bytes) (l : bytes) : bytes :=
  trim_end ps (trim_start ps l).

(** [str::split_whitespace]: the maximal runs without white space. *)
Fixpoint words (fuel : nat) (cur l : bytes) : list bytes :=
  let emit := if cur is [] then [] else [reverse cur] in
  match fuel with
  | 0 => emit
  | S n =>
      match strip_any white_space l with
      | Some r => emit ++ words n [] r
      | None => match l with [] => emit | c :: l' => words n (c :: cur) l' end
      end
  end.

(** [str::lines]: split at line feeds, the final empty line dropped, a carriage
    return before the line feed removed. *)
Definition strip_cr (l : bytes) : bytes :=
  default l (strip_suffix ["013"%char] l).
Fixpoint drop_last_empty (ls : list bytes) : list bytes :=
  match ls with
  | [] => []
  | [l] => if l is [] then [] else [l]
  | l :: ls' => strip_cr l :: drop_last_empty ls'
  end.
Definition lines (l : bytes) : list bytes :=
  drop_last_empty (split_by (Ascii.eqb "010"%char) l).

(** [str::replace]: the occurrences that do not overlap, from the left; there are
    at most as many as there are bytes. *)
Fixpoint replace_go (fuel : nat) (p r l : bytes) : bytes :=
  match fuel with
  | 0 => l
  | S n => match split_once p l with
           | Some (a, b) => a ++ r ++ replace_go n p r b
           | None => l
           end
  end.
Definition replace (p r l : bytes) : bytes := replace_go (length l) p r l.

(** The longest prefix of bytes that satisfy [f], and what follows it. *)
Fixpoint span (f : ascii → bool) (l : bytes) : bytes * bytes :=
  match l with
  | [] => ([], [])
  | c :: l' => if f c then let '(a, b) := span f l' in (c :: a, b) else ([], l)
  end.

End Bytes.

(** ** The operations on strings *)

Definition strip_prefix (p s : string) : option string :=
  of_bytes <$> Bytes.strip_prefix (to_bytes p) (to_bytes s).
Definition strip_suffix (p s : string) : option string :=
  of_bytes <$> Bytes.strip_suffix (to_bytes p) (to_bytes s).
Definition starts_with (p s : string) : bool := is_some (strip_prefix p s).
Definition ends_with (p s : string) : bool := is_some (strip_suffix p s).
Definition split_once (p s : string) : option (string * string) :=
  (λ '(a, b), (of_bytes a, of_bytes b)) <$> Bytes.split_once (to_bytes p) (to_bytes s).
Definition rsplit_once (p s : string) : option (string * string) :=
  (λ '(a, b), (of_bytes a, of_bytes b)) <$> Bytes.rsplit_once (to_bytes p) (to_bytes s).
Definition contains (p s : string) : bool := is_some (split_once p s).
Definition split_char (c : ascii) (s : string) : list string :=
  map of_bytes (Bytes.split_by (Ascii.eqb c) (to_bytes s)).
Definition trim (s : string) : string :=
  of_bytes (Bytes.trim Bytes.white_space (to_bytes s)).
Definition trim_start_matches (p s : string) : string :=
  of_bytes (Bytes.trim_start [to_bytes p] (to_bytes s)).
Definition trim_end_matches (p s : string) : string :=
  of_bytes (Bytes.trim_end [to_bytes p] (to_bytes s)).
Definition lines (s : string) : list string := map of_bytes (Bytes.lines (to_bytes s)).
Definition split_whitespace (s : string) : list string :=
  map of_bytes (Bytes.words (String.length s) [] (to_bytes s)).

Definition replace (p r s : string) : string :=
  of_bytes (Bytes.replace (to_bytes p) (to_bytes r) (to_bytes s)).
(** A byte that is not a UTF-8 continuation starts a character. *)
Definition is_continuation (c : ascii) : bool :=
  (128 <=? N_of_ascii c)%N && (N_of_ascii c <? 192)%N.

(** [String::from_utf8]: the bytes are well-formed UTF-8. *)
Definition in_range (lo hi : N) (c : ascii) : bool :=
  (lo <=? N_of_ascii c)%N && (N_of_ascii c <=? hi)%N.
Fixpoint utf8_valid (l : bytes) : bool :=
  match l with
  | [] => true
  | a :: l1 =>
      if in_range 0 127 a then utf8_valid l1
      else match l1 with
      | [] => false
      | b :: l2 =>
          if in_range 194 223 a then is_continuation b && utf8_valid l2
          else match l2 with
          | [] => false
          | c :: l3 =>
              let second := if in_range 224 224 a then in_range 160 191 b
                            else if in_range 237 237 a then in_range 128 159 b
                            else in_range 225 239 a && is_continuation b in
              if in_range 224 239 a then second && is_continuation c && utf8_valid l3
              else match l3 with
              | [] => false
              | d :: l4 =>
                  let second := if in_range 240 240 a then in_range 144 191 b
                                else if in_range 244 244 a then in_range 128 143 b
                                else in_range 241 243 a && is_continuation b in
                  second && is_continuation c && is_continuation d && utf8_valid l4
              end
          end
      end
  end.

(** ASCII case: bytes above 127 are left alone. *)
Definition is_ascii_upper (c : ascii) : bool :=
  (65 <=? N_of_ascii c)%N && (N_of_ascii c <=? 90)%N.
Definition ascii_lower (c : ascii) : ascii :=
  if is_ascii_upper c then ascii_of_N (N_of_ascii c + 32) else c.
Definition to_ascii_lowercase (s : string) : string :=
  of_bytes (map ascii_lower (to_bytes s)).
Definition eq_ignore_ascii_case (s t : string) : bool :=
  bool_decide (to_ascii_lowercase s = to_ascii_lowercase t).

Definition to_digit (c : ascii) : option N :=
  let n := N_of_ascii c in
  if (48 <=? n)%N && (n <=? 57)%N then Some (n - 48)%N else None.
Definition is_ascii_digit (c : ascii) : bool := is_some (to_digit c).

Definition is_ascii_alphanumeric (c : ascii) : bool :=
  is_ascii_digit c || is_ascii_upper c ||
  ((97 <=? N_of_ascii c)%N && (N_of_ascii c <=? 122)%N).

(** [str::parse::<uN>]: an optional plus sign, at least one digit, the value
    at most [max]. *)
Fixpoint digits_go (acc : N) (l : bytes) : option N :=
  match l with
  | [] => Some acc
  | c :: l' => d ← to_digit c; digits_go (10 * acc + d)%N l'
  end.
Definition parse_uint (max : N) (s : string) : option N :=
  let l := to_bytes s in
  let l := default l (Bytes.strip_prefix ["+"%char] l) in
  match l with
  | [] => None
  | _ => n ← digits_go 0 l; if (n <=? max)%N then Some n else None
  end.

(** [slice::join(sep)]. *)
Fixpoint join (sep : string) (l : list string) : string :=
  match l with
  | [] => ""
  | [s] => s
  | s :: l' => s +:+ sep +:+ join sep l'
  end.

(** ** Lemmas on bytes *)

Module BytesFacts.
Import Bytes.

Lemma b_strip_prefix_spec p l r : strip_prefix p l = Some r ↔ l = p ++ r.
Proof.
  revert l; induction p as [|a p IH]; intros l; simpl.
  { split; [by intros [= ->]|by intros ->]. }
  destruct l as [|b l]; [done|]. destruct (Ascii.eqb_spec a b) as [->|Hne].
  - rewrite IH. split; congruence.
  - split; congruence.
Qed.

Lemma strip_suffix_spec p l r : strip_suffix p l = Some r ↔ l = r ++ p.
Proof.
  unfold strip_suffix. rewrite fmap_Some. split.
  - intros (r'&H%b_strip_prefix_spec&->).
    by rewrite <-(reverse_involutive l), H, reverse_app, reverse_involutive.
  - intros ->. exists (reverse r). rewrite reverse_involutive. split; [|done].
    apply b_strip_prefix_spec. by rewrite reverse_app.
Qed.

Lemma strip_any_spec ps l r : strip_any ps l = Some r → ∃ p, p ∈ ps ∧ l = p ++ r.
Proof.
  unfold strip_any. induction ps as [|p ps IH]; simpl; [done|].
  destruct (strip_prefix p l) as [r'|] eqn:Hp.
  - intros [= ->]. apply b_strip_prefix_spec in Hp. exists p. set_solver.
  - intros (q&?&?)%IH. exists q. set_solver.
Qed.

Lemma strip_any_none ps l : strip_any ps l = None ↔ ∀ p, p ∈ ps → strip_prefix p l = None.
Proof.
  unfold strip_any. induction ps as [|p ps IH]; simpl; [set_solver|].
  destruct (strip_prefix p l) eqn:Hp.
  - split; [done|]. intros H. specialize (H p). rewrite Hp in H. set_solver.
  - rewrite IH. split; [set_solver|]. intros H q ?. apply H. set_solver.
Qed.

(** A pattern that matches the front of a prefix matches the front of the whole. *)
Lemma strip_any_prefix ps l k : strip_any ps (l ++ k) = None → strip_any ps l = None.
Proof.
  rewrite !strip_any_none. intros H p Hp. specialize (H p Hp).
  destruct (strip_prefix p l) as [r|] eqn:Hl; [|done].
  apply b_strip_prefix_spec in Hl as ->.
  rewrite <-(app_assoc p) in H.
  by rewrite (proj2 (b_strip_prefix_spec p _ (r ++ k)) eq_refl) in H.
Qed.

Section trimming.
Context (ps : list bytes) (Hps : [] ∉ ps).
Implicit Types l : bytes.

Lemma trim_any_spec n l :
  ∃ k, l = k ++ trim_any n ps l ∧
       (length l ≤ n → strip_any ps (trim_any n ps l) = None).
Proof using Hps.
  revert l; induction n as [|n IH]; intros l; simpl.
  { exists []. split; [done|]. destruct l; simpl; [|lia]. intros _.
    apply strip_any_none. intros [|a p] Hp; done. }
  destruct (strip_any ps l) as [r|] eqn:Hl; [|by exists []].
  apply strip_any_spec in Hl as (p&Hp&->).
  destruct (IH r) as (k&Hk&Hn). exists (p ++ k). split.
  - rewrite <-app_assoc. by f_equal.
  - rewrite length_app. intros. apply Hn. destruct p; [done|]. simpl in *. lia.
Qed.

Lemma trim_start_none l : strip_any ps (trim_start ps l) = None.
Proof using Hps. by destruct (trim_any_spec (length l) l) as (?&_&H); apply H. Qed.

Lemma trim_start_suffix l : ∃ k, l = k ++ trim_start ps l.
Proof using Hps. destruct (trim_any_spec (length l) l) as (k&?&_). by exists k. Qed.

Lemma trim_start_id l : strip_any ps l = None → trim_start ps l = l.
Proof. unfold trim_start. destruct l; simpl; [done|]. by intros ->. Qed.
End trimming.

Section trimming_both.
Context (ps : list bytes) (Hps : [] ∉ ps).
Implicit Types l : bytes.

Lemma reverse_not_nil : [] ∉ (reverse <$> ps).
Proof using Hps.
  intros (p&Hp&?)%list_elem_of_fmap. apply Hps.
  by rewrite <-(reverse_involutive p), <-Hp in H.
Qed.

Lemma trim_end_prefix l : ∃ k, l = trim_end ps l ++ k.
Proof using Hps.
  destruct (trim_start_suffix (reverse <$> ps) reverse_not_nil (reverse l)) as [k Hk].
  exists (reverse k). unfold trim_end.
  by rewrite <-reverse_app, <-Hk, reverse_involutive.
Qed.

Lemma trim_end_none l : strip_any (reverse <$> ps) (reverse (trim_end ps l)) = None.
Proof using Hps.
  unfold trim_end. rewrite reverse_involutive. apply trim_start_none, reverse_not_nil.
Qed.

Lemma trim_end_id l :
  strip_any (reverse <$> ps) (reverse l) = None → trim_end ps l = l.
Proof.
  intros H. unfold trim_end. by rewrite trim_start_id, reverse_involutive by done.
Qed.

(** A trimmed text has no pattern left at either end. *)
Lemma trim_none l :
  strip_any ps (trim ps l) = None ∧
  strip_any (reverse <$> ps) (reverse (trim ps l)) = None.
Proof using Hps.
  unfold trim. split; [|apply trim_end_none].
  destruct (trim_end_prefix (trim_start ps l)) as [k Hk].
  apply (strip_any_prefix _ _ k). rewrite <-Hk. by apply trim_start_none.
Qed.

Lemma trim_id l :
  strip_any ps l = None → strip_any (reverse <$> ps) (reverse l) = None →
  trim ps l = l.
Proof.
  intros Hs He. unfold trim. by rewrite (trim_start_id _ l Hs), (trim_end_id l He).
Qed.

Lemma b_trim_idemp l : trim ps (trim ps l) = trim ps l.
Proof using Hps. apply trim_id; apply trim_none. Qed.
End trimming_both.

Lemma white_space_nonempty : [] ∉ white_space.
Proof. apply (bool_decide_unpack ([] ∉ white_space)). by vm_compute. Qed.

Lemma b_split_once_char c l a b :
  split_once [c] l = Some (a, b) ↔ l = a ++ c :: b ∧ c ∉ a.
Proof.
  revert a; induction l as [|x l IH]; intros a; simpl.
  { split; [done|]. intros [H _]. by destruct a. }
  destruct (Ascii.eqb_spec c x) as [<-|Hne].
  - split.
    + intros [= <- <-]. split; [done|set_solver].
    + intros [H Hc]. destruct a as [|y a]; simplify_list_eq; [done|set_solver].
  - destruct (split_once [c] l) as [[a' b']|] eqn:Hl; simpl.
    + split.
      * intros [= <- <-]. destruct (proj1 (IH a')) as [-> ?]; [done|].
        split; [done|set_solver].
      * intros [H Hc]. destruct a as [|y a]; simplify_list_eq.
        assert (Some (a', b') = Some (a, b)) as [= -> ->]; [|done].
        apply IH. split; [done|set_solver].
    + split; [done|]. intros [H Hc]. destruct a as [|y a]; simplify_list_eq.
      assert (None = Some (a, b)); [|done]. apply IH. split; [done|set_solver].
Qed.

Lemma b_split_once_char_none c l : split_once [c] l = None ↔ c ∉ l.
Proof.
  split.
  - intros H Hin. apply list_elem_of_split_l in Hin as (l1&l2&->&?).
    by rewrite (proj2 (b_split_once_char c _ l1 l2)) in H.
  - intros H. destruct (split_once [c] l) as [[a b]|] eqn:Hl; [|done].
    apply b_split_once_char in Hl as [-> _]. set_solver.
Qed.

Lemma split_by_nonempty f l : split_by f l ≠ [].
Proof. destruct l as [|c l]; simpl; [done|]. destruct (f c); [done|]. by destruct (split_by f l). Qed.

End BytesFacts.

(** ** Lemmas on strings *)

Lemma trim_idemp s : trim (trim s) = trim s.
Proof.
  unfold trim. rewrite to_of_bytes. f_equal.
  apply BytesFacts.b_trim_idemp, BytesFacts.white_space_nonempty.
Qed.

Lemma strip_prefix_spec p s r : strip_prefix p s = Some r ↔ s = p +:+ r.
Proof.
  unfold strip_prefix. rewrite fmap_Some. setoid_rewrite BytesFacts.b_strip_prefix_spec.
  split.
  - intros (l&H&->). apply to_bytes_inj. by rewrite to_bytes_app, to_of_bytes.
  - intros ->. exists (to_bytes r). by rewrite to_bytes_app, of_to_bytes.
Qed.

Lemma starts_with_spec p s : starts_with p s = true ↔ ∃ r, s = p +:+ r.
Proof.
  unfold starts_with. rewrite is_some_true. unfold is_Some.
  by setoid_rewrite strip_prefix_spec.
Qed.

(** A comma splits a text once, at its first occurrence. *)
Lemma split_once_char c s a b :
  split_once (String c "") s = Some (a, b) ↔
  s = a +:+ String c b ∧ c ∉ to_bytes a.
Proof.
  unfold split_once. rewrite fmap_Some. split.
  - intros ([x y]&[H ?]%BytesFacts.b_split_once_char&[= -> ->]).
    rewrite to_of_bytes. split; [|done]. apply to_bytes_inj.
    rewrite to_bytes_app. simpl. by rewrite !to_of_bytes.
  - intros [-> ?]. exists (to_bytes a, to_bytes b). rewrite !of_to_bytes.
    split; [|done]. apply BytesFacts.b_split_once_char. by rewrite to_bytes_app.
Qed.

Lemma split_once_char_none c s : split_once (String c "") s = None ↔ c ∉ to_bytes s.
Proof.
  unfold split_once. change (to_bytes (String c "")) with [c].
  by rewrite fmap_None, BytesFacts.b_split_once_char_none.
Qed.

Lemma split_once_spec c s a b :
  split_once (String c "") s = Some (a, b) → s = a +:+ String c b.
Proof. by intros [-> _]%split_once_char. Qed.

(** The pieces around a separator: joined by it they give the text back. *)
Lemma split_by_join c l :
  to_bytes (join (String c "") (map of_bytes (Bytes.split_by (Ascii.eqb c) l))) = l.
Proof.
  induction l as [|a l IH]; [done|]. simpl.
  pose proof (BytesFacts.split_by_nonempty (Ascii.eqb c) l).
  destruct (Bytes.split_by (Ascii.eqb c) l) as [|w ws] eqn:Hw; [done|].
  destruct (Ascii.eqb_spec c a) as [->|Hne].
  - cbn [map join]. rewrite <-IH. by destruct ws.
  - cbn [map join] in *. destruct (map of_bytes ws).
    + exact (f_equal (cons a) IH).
    + exact (f_equal (cons a) IH).
Qed.

Lemma split_by_free c l w : w ∈ Bytes.split_by (Ascii.eqb c) l → c ∉ w.
Proof.
  revert w. induction l as [|a l IH]; simpl; intros w.
  { intros ->%list_elem_of_singleton. apply not_elem_of_nil. }
  pose proof (BytesFacts.split_by_nonempty (Ascii.eqb c) l).
  destruct (Ascii.eqb_spec c a) as [->|Hne].
  { intros [->|?]%elem_of_cons; [apply not_elem_of_nil|by apply IH]. }
  destruct (Bytes.split_by (Ascii.eqb c) l) as [|x xs]; [done|].
  intros [->|?]%elem_of_cons.
  - apply not_elem_of_cons. split; [done|]. apply IH. by left.
  - apply IH. by right.
Qed.

Lemma split_by_no c w : c ∉ w → Bytes.split_by (Ascii.eqb c) w = [w].
Proof.
  induction w as [|a w IH]; [done|]. intros [Hne Hw]%not_elem_of_cons. simpl.
  destruct (Ascii.eqb_spec c a) as [->|_]; [done|]. by rewrite IH.
Qed.

Lemma split_by_app c w l :
  c ∉ w → Bytes.split_by (Ascii.eqb c) (w ++ c :: l) = w :: Bytes.split_by (Ascii.eqb c) l.
Proof.
  induction w as [|a w IH]; simpl.
  - intros _. by rewrite Ascii.eqb_refl.
  - intros [Hne Hw]%not_elem_of_cons.
    destruct (Ascii.eqb_spec c a) as [->|_]; [done|]. by rewrite IH.
Qed.

Lemma split_char_spec c s ps :
  split_char c s = ps ↔
  ps ≠ [] ∧ s = join (String c "") ps ∧ Forall (λ w, c ∉ to_bytes w) ps.
Proof.
  unfold split_char. split.
  - intros <-. split_and!.
    + intros H%map_eq_nil. by apply BytesFacts.split_by_nonempty in H.
    + apply to_bytes_inj. by rewrite split_by_join.
    + apply Forall_map, Forall_forall. intros w Hw. rewrite to_of_bytes.
      eauto using split_by_free.
  - intros (Hne&->&Hf). induction ps as [|w ps IH]; [done|].
    apply Forall_cons in Hf as [Hw Hf]. destruct ps as [|v ps].
    + cbn [join]. rewrite split_by_no by done. cbn. by rewrite of_to_bytes.
    + cbn [join]. rewrite !to_bytes_app. cbn [to_bytes String.list_ascii_of_string app].
      rewrite split_by_app by done. cbn [map]. rewrite of_to_bytes. f_equal.
      by apply IH.
Qed.

(** Printing a number and reading it back. *)
Lemma to_digit_pretty n : (n < 10)%N → to_digit (pretty_N_char n) = Some n.
Proof.
  intros H. assert (n = 0 ∨ n = 1 ∨ n = 2 ∨ n = 3 ∨ n = 4 ∨ n = 5 ∨ n = 6 ∨ n = 7 ∨
    n = 8 ∨ n = 9)%N as Hn by lia.
  by destruct_or! Hn; subst.
Qed.

Lemma digits_go_pretty n s : digits_go 0 (to_bytes (pretty_N_go n s)) = digits_go n (to_bytes s).
Proof.
  revert s. induction n as [n IH] using (well_founded_induction N.lt_wf_0); intros s.
  destruct (decide (0 < n)%N) as [Hn|]; [|by replace n with 0%N by lia].
  rewrite pretty_N_go_step by done. rewrite IH by (by apply N.div_lt).
  simpl. rewrite to_digit_pretty by (apply N.mod_lt; lia). simpl. f_equal.
  pose proof (N.div_mod n 10). lia.
Qed.

Lemma pretty_N_no_plus (n : N) :
  ∃ c l, to_bytes (pretty n) = c :: l ∧ is_Some (to_digit c).
Proof.
  unfold pretty, pretty_N. case_decide; [by exists "0"%char, []|].
  assert (∀ m s, (∃ c l, to_bytes s = c :: l ∧ is_Some (to_digit c)) ∨ (0 < m)%N →
     ∃ c l, to_bytes (pretty_N_go m s) = c :: l ∧ is_Some (to_digit c)) as Hgo.
  { intros m. induction m as [m IH] using (well_founded_induction N.lt_wf_0).
    intros s Hs. destruct (decide (0 < m)%N) as [Hm|].
    - rewrite pretty_N_go_step by done. apply IH; [by apply N.div_lt|]. left.
      eexists _, _. split; [done|]. rewrite to_digit_pretty; [done|].
      apply N.mod_lt; lia.
    - replace m with 0%N by lia. rewrite pretty_N_go_0. destruct Hs; [done|lia]. }
  apply Hgo. right. lia.
Qed.

Lemma parse_uint_pretty (max n : N) : (n ≤ max)%N → parse_uint max (pretty n) = Some n.
Proof.
  intros Hn. unfold parse_uint.
  assert (digits_go 0 (to_bytes (pretty n)) = Some n) as Hgo.
  { unfold pretty, pretty_N. case_decide; [by subst|]. apply digits_go_pretty. }
  destruct (pretty_N_no_plus n) as (c&l&Hl&[d Hd]). rewrite Hl in *.
  assert (c ≠ "+"%char) by (intros ->; done).
  simpl. destruct c as [[] [] [] [] [] [] [] []]; try done; simpl in *;
  rewrite Hgo; simpl; by rewrite (proj2 (N.leb_le n max)).
Qed.

Example utf8_examples :
  utf8_valid (to_bytes "héllo 配置 😀") = true ∧
  map (λ l, utf8_valid (map ascii_of_N l))
    [[192; 128]; [237; 160; 128]; [244; 144; 128; 128]; [128]; [226; 130]; [240; 143; 128; 128]]%N
  = repeat false 6.
Proof. vm_compute. by split. Qed.

(** ** Words of visible characters

    A visible ASCII character starts no white space, so the first word of a text
    that begins with visible characters up to a space is what comes before it. *)
Definition visible (c : ascii) : bool := (33 <=? N_of_ascii c)%N && (N_of_ascii c <=? 126)%N.

Lemma strip_white_space_visible c l :
  visible c = true → Bytes.strip_any Bytes.white_space (c :: l) = None.
Proof.
  intros Hc. apply BytesFacts.strip_any_none. intros p Hp.
  assert (forallb (λ p : bytes, match p with b :: _ => negb (visible b) | [] => false end)
    Bytes.white_space = true) as H by (vm_compute; reflexivity).
  rewrite forallb_forall in H. setoid_rewrite <-list_elem_of_In in H. specialize (H p Hp).
  destruct p as [|b p]; [done|]. simpl. destruct (Ascii.eqb_spec b c) as [->|]; [|done].
  by rewrite Hc in H.
Qed.

Lemma words_visible l : ∀ fuel cur rest,
  Forall (λ c, visible c = true) l → length l ≤ fuel →
  Bytes.words fuel cur (l ++ rest) = Bytes.words (fuel - length l) (reverse l ++ cur) rest.
Proof.
  induction l as [|c l IH]; intros fuel cur rest Hl Hf.
  { by rewrite Nat.sub_0_r. }
  apply Forall_cons in Hl as [Hc Hl]. destruct fuel as [|fuel]; simpl in Hf; [lia|].
  cbn [app Bytes.words length Nat.sub]. rewrite strip_white_space_visible by done.
  rewrite IH by (done || lia). by rewrite reverse_cons, <-app_assoc.
Qed.

(** The first word, before a space or at the end. *)
Lemma first_word_visible (s rest : string) :
  s ≠ "" → Forall (λ c, visible c = true) (to_bytes s) →
  head (split_whitespace (s +:+ " " +:+ rest)) = Some s.
Proof.
  intros Hs Hv. unfold split_whitespace. rewrite !to_bytes_app. cbn [to_bytes String.list_ascii_of_string app].
  assert (String.length (s +:+ " " +:+ rest) = length (to_bytes s) + S (String.length rest)) as ->.
  { rewrite to_bytes_length. rewrite <-!to_bytes_length, !to_bytes_app, !length_app. simpl. lia. }
  rewrite words_visible by (done || lia).
  replace (length (to_bytes s) + S (String.length rest) - length (to_bytes s))
    with (S (String.length rest)) by lia.
  cbn [Bytes.words]. rewrite app_nil_r.
  assert (Bytes.strip_any Bytes.white_space (" "%char :: to_bytes rest) = Some (to_bytes rest)) as ->
    by reflexivity.
  destruct (reverse (to_bytes s)) as [|c l] eqn:Hr.
  { exfalso. apply Hs. apply to_bytes_inj, (inj reverse). by rewrite Hr. }
  rewrite <-Hr, reverse_involutive. cbn. by rewrite of_to_bytes.
Qed.

(** The lines of a text whose every line is terminated. *)
Lemma drop_last_empty_terminated ls :
  Bytes.drop_last_empty (ls ++ [[]]) = map Bytes.strip_cr ls.
Proof.
  induction ls as [|l ls IH]; [done|]. cbn [app map Bytes.drop_last_empty]. rewrite <-IH.
  by destruct ls.
Qed.
Definition unlines (ls : list string) : string :=
  of_bytes (flat_map (λ l, to_bytes l ++ ["010"%char]) ls).
Lemma lines_unlines ls :
  Forall (λ l, "010"%char ∉ to_bytes l) ls →
  lines (unlines ls) = map (λ l, of_bytes (Bytes.strip_cr (to_bytes l))) ls.
Proof.
  intros H. unfold lines, unlines, Bytes.lines. rewrite to_of_bytes.
  assert (Bytes.split_by (Ascii.eqb "010"%char)
    (flat_map (λ l, to_bytes l ++ ["010"%char]) ls) = map to_bytes ls ++ [[]]) as ->.
  { induction H as [|l ls Hl _ IH]; [done|]. simpl. rewrite <-app_assoc. simpl.
    rewrite split_by_app by done. by rewrite IH. }
  by rewrite drop_last_empty_terminated, !map_map.
Qed.
Lemma strip_cr_word w rest :
  ∃ rest', Bytes.strip_cr (w ++ " "%char :: rest) = w ++ " "%char :: rest'.
Proof.
  unfold Bytes.strip_cr. destruct (Bytes.strip_suffix _ _) as [r|] eqn:Hr; [|by exists rest].
  apply BytesFacts.strip_suffix_spec in Hr. simpl.
  destruct rest as [|c rest _] using rev_ind.
  - apply app_inj_tail in Hr as [_ [=]].
  - rewrite app_comm_cons, app_assoc in Hr. apply app_inj_tail in Hr as [<- _]. by exists rest.
Qed.
