(* ===== verification/Wide.v ===== *)
(** * Wide strings: the UTF-16 text of the Win32 interfaces

    [OsStr::encode_wide] and [String::from_utf16_lossy] of the standard library,
    on the UTF-8 bytes of a [str], and the proof that text survives the way
    through a wide string. *)

From S2P Require Import Prelude RustStr.
From Stdlib Require Import Ascii.
Open Scope N_scope.
Open Scope list_scope.

(** ** Code points *)

Definition byte_value (c : ascii) : N := N_of_ascii c.
(** The payload of a continuation byte. *)
Definition tail_bits (c : ascii) : N := N_of_ascii c - 128.

(** The code points of well-formed UTF-8. *)
Fixpoint utf8_decode (l : bytes) : list N :=
  match l with
  | [] => []
  | a :: l1 =>
      if byte_value a <? 128 then byte_value a :: utf8_decode l1
      else match l1 with
      | [] => []
      | b :: l2 =>
          if byte_value a <? 224
          then ((byte_value a - 192) * 64 + tail_bits b) :: utf8_decode l2
          else match l2 with
          | [] => []
          | c :: l3 =>
              if byte_value a <? 240
              then ((byte_value a - 224) * 4096 + tail_bits b * 64 + tail_bits c) :: utf8_decode l3
              else match l3 with
              | [] => []
              | d :: l4 =>
                  ((byte_value a - 240) * 262144 + tail_bits b * 4096 + tail_bits c * 64
                   + tail_bits d) :: utf8_decode l4
              end
          end
      end
  end.

(** The UTF-8 bytes of a code point. *)
Definition tail_byte (n : N) : ascii := ascii_of_N (128 + n mod 64).
Definition encode_utf8 (c : N) : bytes :=
  if c <? 128 then [ascii_of_N c]
  else if c <? 2048 then [ascii_of_N (192 + c / 64); tail_byte c]
  else if c <? 65536 then [ascii_of_N (224 + c / 4096); tail_byte (c / 64); tail_byte c]
  else [ascii_of_N (240 + c / 262144); tail_byte (c / 4096); tail_byte (c / 64); tail_byte c].

(** ** UTF-16 *)

Definition encode_utf16 (c : N) : list N :=
  if c <? 65536 then [c]
  else [55296 + (c - 65536) / 1024; 56320 + (c - 65536) mod 1024].

Definition is_surrogate (u : N) : bool := (55296 <=? u) && (u <? 57344).
Definition is_low_surrogate (u : N) : bool := (56320 <=? u) && (u <? 57344).
Definition REPLACEMENT_CHARACTER : N := 65533.

Fixpoint decode_utf16_lossy (l : list N) : list N :=
  match l with
  | [] => []
  | u :: l' =>
      if negb (is_surrogate u) then u :: decode_utf16_lossy l'
      else match l' with
      | v :: l'' =>
          if negb (is_low_surrogate u) && is_low_surrogate v
          then (65536 + (u - 55296) * 1024 + (v - 56320)) :: decode_utf16_lossy l''
          else REPLACEMENT_CHARACTER :: decode_utf16_lossy l'
      | [] => [REPLACEMENT_CHARACTER]
      end
  end.

Definition encode_wide (s : string) : list N :=
  flat_map encode_utf16 (utf8_decode (to_bytes s)).
Definition from_utf16_lossy (l : list N) : string :=
  of_bytes (flat_map encode_utf8 (decode_utf16_lossy l)).

(** [wide_null] ([printing/windows.rs]): the text with its terminator. *)
Definition wide_null (value : string) : list N := encode_wide value ++ [0].

(** The 16-bit units of some bytes. *)
Fixpoint u16s (bytes : list N) : list N :=
  match bytes with
  | low :: high :: bytes' => (low + 256 * high) :: u16s bytes'
  | _ => []
  end.
(** The bytes of some units. *)
Definition unit_bytes (units : list N) : list N := flat_map (λ u, [u mod 256; u / 256]) units.

(** [slice.iter().position(|value| *value == 0)] *)
Fixpoint position_zero (l : list N) : option nat :=
  match l with
  | [] => None
  | u :: l' => if u =? 0 then Some O else S <$> position_zero l'
  end.

(** ** Properties *)

Lemma u16s_unit_bytes units : u16s (unit_bytes units) = units.
Proof.
  induction units as [|u units IH]; [done|]. cbn [unit_bytes flat_map app u16s].
  unfold unit_bytes in IH. rewrite IH. f_equal. pose proof (N.div_mod u 256). lia.
Qed.

(** A Unicode scalar value. *)
Definition scalar (c : N) : Prop := c < 55296 ∨ 57344 ≤ c < 1114112.

#[local] Ltac Zify.zify_post_hook ::= Z.to_euclidean_division_equations.

Lemma decode_encode_utf16 (cs : list N) :
  Forall scalar cs → decode_utf16_lossy (flat_map encode_utf16 cs) = cs.
Proof.
  induction 1 as [|c cs Hc Hcs IH]; [done|]. unfold scalar in Hc. cbn [flat_map].
  unfold encode_utf16 at 1.
  destruct (N.ltb_spec c 65536); cbn [app decode_utf16_lossy].
  - assert (is_surrogate c = false) as ->.
    { apply andb_false_iff. rewrite N.leb_gt, N.ltb_ge. lia. }
    simpl. by rewrite IH.
  - set (u := 55296 + _). set (v := 56320 + _).
    assert (is_surrogate u = true) as ->.
    { apply andb_true_iff. rewrite N.leb_le, N.ltb_lt. lia. }
    assert (is_low_surrogate u = false) as ->.
    { apply andb_false_iff. rewrite N.leb_gt, N.ltb_ge. lia. }
    assert (is_low_surrogate v = true) as ->.
    { apply andb_true_iff. rewrite N.leb_le, N.ltb_lt. lia. }
    cbn [negb andb]. rewrite IH. f_equal. lia.
Qed.

Lemma in_range_spec lo hi c : in_range lo hi c = true ↔ lo ≤ byte_value c ≤ hi.
Proof. unfold in_range, byte_value. rewrite andb_true_iff, !N.leb_le. done. Qed.
Lemma is_continuation_spec c : is_continuation c = true ↔ 128 ≤ byte_value c < 192.
Proof. unfold is_continuation, byte_value. rewrite andb_true_iff, N.leb_le, N.ltb_lt. done. Qed.
Lemma not_in_range lo hi c : ¬ (lo ≤ byte_value c ≤ hi) → in_range lo hi c = false.
Proof. intros H. apply not_true_iff_false. by rewrite in_range_spec. Qed.
Lemma byte_eq n c : n = byte_value c → ascii_of_N n = c.
Proof. intros ->. apply ascii_N_embedding. Qed.

(** A character of UTF-8, and the ranges its bytes may have. *)
Definition is_tail (c : ascii) : Prop := 128 ≤ byte_value c < 192.
Inductive utf8_char : bytes → N → Prop :=
  | char1 a : byte_value a < 128 → utf8_char [a] (byte_value a)
  | char2 a b : 194 ≤ byte_value a < 224 → is_tail b →
      utf8_char [a; b] ((byte_value a - 192) * 64 + tail_bits b)
  | char3 a b c n : 224 ≤ byte_value a < 240 → is_tail b → is_tail c →
      n = (byte_value a - 224) * 4096 + tail_bits b * 64 + tail_bits c →
      2048 ≤ n → scalar n → utf8_char [a; b; c] n
  | char4 a b c d n : 240 ≤ byte_value a < 245 → is_tail b → is_tail c → is_tail d →
      n = (byte_value a - 240) * 262144 + tail_bits b * 4096 + tail_bits c * 64 + tail_bits d →
      65536 ≤ n < 1114112 → utf8_char [a; b; c; d] n.

Lemma utf8_char_scalar l n : utf8_char l n → scalar n.
Proof.
  destruct 1; unfold scalar, is_tail, tail_bits, byte_value in *; try done; lia.
Qed.

Lemma encode_utf8_char l n : utf8_char l n → encode_utf8 n = l.
Proof.
  destruct 1; unfold encode_utf8, tail_byte, is_tail, tail_bits in *;
    fold byte_value in *; repeat case_match;
    rewrite ?N.ltb_lt, ?N.ltb_ge in *; unfold byte_value in *; try lia;
    repeat f_equal; apply byte_eq; unfold byte_value; lia.
Qed.

(** Well-formed UTF-8 is a sequence of characters. *)
Lemma utf8_valid_char l :
  utf8_valid l = true → l ≠ [] →
  ∃ p n l', l = p ++ l' ∧ utf8_char p n ∧ utf8_valid l' = true ∧
    utf8_decode l = n :: utf8_decode l'.
Proof.
  destruct l as [|a l1]; [done|]. intros H _. cbn [utf8_valid] in H. cbn [utf8_decode].
  destruct (in_range 0 127 a) eqn:Ha.
  { apply in_range_spec in Ha. exists [a], (byte_value a), l1.
    rewrite (proj2 (N.ltb_lt _ _)) by lia. split_and!; try done. constructor. lia. }
  assert (byte_value a <? 128 = false) as ->.
  { apply N.ltb_ge. apply not_true_iff_false in Ha. rewrite in_range_spec in Ha. lia. }
  destruct l1 as [|b l2]; [done|]. destruct (in_range 194 223 a) eqn:Ha2.
  { apply in_range_spec in Ha2. apply andb_true_iff in H as [Hb H].
    apply is_continuation_spec in Hb. rewrite (proj2 (N.ltb_lt _ _)) by lia.
    exists [a; b], ((byte_value a - 192) * 64 + tail_bits b), l2. split_and!; try done.
    constructor; [lia|done]. }
  apply not_true_iff_false in Ha2. rewrite in_range_spec in Ha2.
  destruct l2 as [|c l3]; [done|]. destruct (in_range 224 239 a) eqn:Ha3.
  { apply in_range_spec in Ha3. rewrite !andb_true_iff in H. destruct H as [[Hb Hc] H].
    apply is_continuation_spec in Hc.
    rewrite (proj2 (N.ltb_ge _ _)), (proj2 (N.ltb_lt _ _)) by lia.
    eexists [a; b; c], _, l3. split_and!; try done.
    assert (is_tail b ∧ 2048 ≤ (byte_value a - 224) * 4096 + tail_bits b * 64 + tail_bits c ∧
      scalar ((byte_value a - 224) * 4096 + tail_bits b * 64 + tail_bits c)) as (?&?&?).
    { unfold scalar, is_tail, tail_bits in *. fold (byte_value b) (byte_value c) in *.
      destruct (in_range 224 224 a) eqn:Hr; [|destruct (in_range 237 237 a) eqn:Hr2];
        rewrite ?andb_true_iff, ?in_range_spec, ?is_continuation_spec in Hb;
        rewrite ?in_range_spec in *; rewrite <-?not_true_iff_false, ?in_range_spec in *; lia. }
    econstructor; try done; lia. }
  apply not_true_iff_false in Ha3. rewrite in_range_spec in Ha3.
  destruct l3 as [|d l4]; [done|]. rewrite !andb_true_iff in H. destruct H as [[[Hb Hc] Hd] H].
  apply is_continuation_spec in Hc, Hd.
  assert (240 ≤ byte_value a < 245 ∧ is_tail b ∧
    65536 ≤ (byte_value a - 240) * 262144 + tail_bits b * 4096 + tail_bits c * 64
      + tail_bits d < 1114112) as (?&?&?).
  { unfold is_tail, tail_bits in *. fold (byte_value b) (byte_value c) (byte_value d) in *.
    destruct (in_range 240 240 a) eqn:Hr; [|destruct (in_range 244 244 a) eqn:Hr2];
      rewrite ?andb_true_iff, ?in_range_spec, ?is_continuation_spec in Hb;
      rewrite ?in_range_spec in *; rewrite <-?not_true_iff_false, ?in_range_spec in *; lia. }
  rewrite !(proj2 (N.ltb_ge _ _)) by lia.
  eexists [a; b; c; d], _, l4. split_and!; try done. by econstructor.
Qed.

Lemma encode_utf8_decode l :
  utf8_valid l = true →
  flat_map encode_utf8 (utf8_decode l) = l ∧ Forall scalar (utf8_decode l).
Proof.
  induction l as [l IH] using (induction_ltof1 _ (@length ascii)). intros H.
  destruct (decide (l = [])) as [->|Hl]; [by split; [|constructor]|].
  destruct (utf8_valid_char l H Hl) as (p&n&l'&->&Hp&H'&->).
  destruct (IH l') as [H1 H2]; [|done|].
  { unfold ltof. rewrite length_app. destruct Hp; simpl; lia. }
  cbn [flat_map]. rewrite H1, (encode_utf8_char p n) by done. split; [done|].
  constructor; [by eapply utf8_char_scalar|done].
Qed.

(** Text survives the way through a wide string. *)
Lemma wide_roundtrip s :
  utf8_valid (to_bytes s) = true → from_utf16_lossy (encode_wide s) = s.
Proof.
  intros H. destruct (encode_utf8_decode _ H) as [H1 H2].
  unfold from_utf16_lossy, encode_wide. rewrite decode_encode_utf16, H1 by done.
  apply of_to_bytes.
Qed.

Lemma position_zero_lt l n : position_zero l = Some n → (n < length l)%nat.
Proof.
  revert n. induction l as [|u l IH]; simpl; [done|]. intros n.
  destruct (u =? 0); [intros [= <-]; lia|].
  intros (m&Hm&->)%fmap_Some. specialize (IH m Hm). lia.
Qed.

Example wide_examples :
  encode_wide "A配😀" = [65; 37197; 55357; 56832] ∧
  from_utf16_lossy [65; 55357; 66] = of_bytes (map ascii_of_N [65; 239; 191; 189; 66]).
Proof. by vm_compute. Qed.

(** ** Well-formed text, put together and taken apart *)

Lemma utf8_valid_char_app p n l : utf8_char p n → utf8_valid (p ++ l) = utf8_valid l.
Proof.
  assert (∀ c, is_tail c → is_continuation c = true) as Ht.
  { intros c Hc. by apply is_continuation_spec. }
  destruct 1 as [a Ha|a b Ha Hb|a b c n Ha Hb Hc Hn Hlo Hs|a b c d n Ha Hb Hc Hd Hn Hlo];
    cbn [app utf8_valid].
  - by rewrite (proj2 (in_range_spec 0 127 a)) by lia.
  - rewrite (not_in_range 0 127 a), (proj2 (in_range_spec 194 223 a)) by lia. by rewrite Ht.
  - rewrite (not_in_range 0 127 a), (not_in_range 194 223 a),
      (proj2 (in_range_spec 224 239 a)), (Ht c) by (lia || done).
    unfold is_tail, tail_bits in *. fold (byte_value b) (byte_value c) in *. unfold scalar in Hs.
    match goal with |- (?x && true && _) = _ => assert (x = true) as -> end; [|done].
    destruct (in_range 224 224 a) eqn:Hr; [apply in_range_spec in Hr; apply in_range_spec; lia|].
    destruct (in_range 237 237 a) eqn:Hr2; [apply in_range_spec in Hr2; apply in_range_spec; lia|].
    rewrite <-not_true_iff_false, in_range_spec in Hr. rewrite (proj2 (in_range_spec 225 239 a)) by lia.
    by apply is_continuation_spec.
  - rewrite (not_in_range 0 127 a), (not_in_range 194 223 a), (not_in_range 224 239 a),
      (Ht c), (Ht d) by (lia || done).
    unfold is_tail, tail_bits in *. fold (byte_value b) (byte_value c) (byte_value d) in *.
    match goal with |- (?x && true && true && _) = _ => assert (x = true) as -> end; [|done].
    destruct (in_range 240 240 a) eqn:Hr; [apply in_range_spec in Hr; apply in_range_spec; lia|].
    destruct (in_range 244 244 a) eqn:Hr2; [apply in_range_spec in Hr2; apply in_range_spec; lia|].
    rewrite <-not_true_iff_false, in_range_spec in Hr, Hr2.
    rewrite (proj2 (in_range_spec 241 243 a)) by lia. by apply is_continuation_spec.
Qed.

(** Induction on the characters of a text. *)
Lemma utf8_ind (P : bytes → Prop) :
  P [] → (∀ p n l, utf8_char p n → utf8_valid l = true → P l → P (p ++ l)) →
  ∀ l, utf8_valid l = true → P l.
Proof.
  intros H0 Hs l. induction l as [l IH] using (induction_ltof1 _ (@length ascii)). intros H.
  destruct (decide (l = [])) as [->|Hl]; [done|].
  destruct (utf8_valid_char l H Hl) as (p&n&l'&->&Hp&H'&_).
  apply (Hs p n); [done..|]. apply IH; [|done].
  unfold ltof. rewrite length_app. destruct Hp; simpl; lia.
Qed.

Lemma utf8_valid_app l k : utf8_valid l = true → utf8_valid (l ++ k) = utf8_valid k.
Proof.
  revert l. apply utf8_ind; [done|]. intros p n l Hp _ IH. rewrite <-app_assoc.
  by rewrite (utf8_valid_char_app p n).
Qed.
Lemma utf8_valid_ascii c l : byte_value c < 128 → utf8_valid (c :: l) = utf8_valid l.
Proof. intros Hc. apply (utf8_valid_char_app [c] (byte_value c)). by constructor. Qed.

(** An ASCII character is a boundary. *)
Lemma utf8_valid_split l c k :
  byte_value c < 128 → utf8_valid (l ++ c :: k) = true → utf8_valid l = true ∧ utf8_valid k = true.
Proof.
  intros Hc Hv. remember (l ++ c :: k) as t eqn:Ht. revert t Hv l Ht.
  refine (utf8_ind _ _ _); [by intros []|].
  intros p n t Hp Hv IH l Ht. destruct l as [|x l]; cbn [app] in Ht.
  { split; [done|]. assert (utf8_valid (c :: k) = true) as H by by rewrite <-Ht, (utf8_valid_char_app p n).
    by rewrite utf8_valid_ascii in H. }
  assert (∃ l', x :: l = p ++ l' ∧ t = l' ++ c :: k) as (l'&->&Ht').
  { unfold is_tail in *. destruct Hp; unfold is_tail in *; cbn [app] in Ht; destruct l as [|y [|z [|u l]]];
      cbn [app] in Ht; simplify_eq; try lia; eexists; split; try done. }
  destruct (IH l' Ht') as [H1 H2]. split; [|done]. by rewrite (utf8_valid_char_app p n).
Qed.

(** The terminator does not occur in the units of a text without it. *)
Lemma encode_wide_no_zero s :
  utf8_valid (to_bytes s) = true → "000"%char ∉ to_bytes s → 0 ∉ encode_wide s.
Proof.
  unfold encode_wide. generalize (to_bytes s) as l. refine (utf8_ind _ _ _).
  { intros _. apply not_elem_of_nil. }
  intros p n l Hp Hv IH Hn.
  destruct (utf8_valid_char (p ++ l)) as (p'&n'&l'&Heq&Hp'&Hv'&->).
  { by rewrite (utf8_valid_char_app p n). }
  { by destruct Hp. }
  assert (p' = p ∧ n' = n ∧ l' = l) as (->&->&->).
  { destruct Hp, Hp'; unfold is_tail in *; cbn [app] in Heq; simplify_eq; try lia; done. }
  cbn [flat_map]. intros [H|H]%elem_of_app; [|apply IH; [|done]; set_solver].
  assert (n = 0) as ->.
  { unfold encode_utf16 in H. destruct (n <? 65536); [by apply list_elem_of_singleton in H|].
    apply elem_of_cons in H as [H|H%list_elem_of_singleton]; lia. }
  assert (p = ["000"%char]) as ->; [|by apply Hn; left].
  inversion Hp as [a Ha Ha0|a b Ha Hb Hz|a b c n Ha Hb Hc Hz Hlo Hs|a b c d n Ha Hb Hc Hd Hz Hlo];
    subst; try lia.
  f_equal. symmetry. by apply (byte_eq 0).
Qed.
