(* ===== verification/F64.v ===== *)
(** * Rust's [f64]

    IEEE 754 binary64 through the Standard Library's executable specification
    floats: NaN, the infinities, signed zeros and round-to-nearest-even as the
    hardware has them.  Decimal literals of the source ([0.1], [25.4], ...) are
    correctly rounded quotients. *)

From S2P Require Import Prelude RustStr.
From Stdlib Require Import ZArith Floats.SpecFloat.
Open Scope Z_scope.

Abbreviation f64 := spec_float.
#[export] Instance f64_eq_dec : EqDecision f64.
Proof. solve_decision. Defined.

(** Countability, for keys and concrete codecs. *)
#[export] Program Instance f64_countable : Countable f64 :=
  inj_countable'
    (λ a, match a with
          | S754_zero s => inl (inl s)
          | S754_infinity s => inl (inr s)
          | S754_nan => inr (inl tt)
          | S754_finite s m e => inr (inr (s, m, e))
          end)
    (λ x : (bool + bool) + (unit + bool * positive * Z),
          match x with
          | inl (inl s) => S754_zero s
          | inl (inr s) => S754_infinity s
          | inr (inl _) => S754_nan
          | inr (inr (s, m, e)) => S754_finite s m e
          end) _.
Next Obligation. by intros []. Qed.

Definition prec : Z := 53.
Definition emax : Z := 1024.
Definition f64_of_Z (z : Z) : f64 := binary_normalize prec emax z 0 false.
Definition f64_add : f64 → f64 → f64 := SFadd prec emax.
Definition f64_sub : f64 → f64 → f64 := SFsub prec emax.
Definition f64_mul : f64 → f64 → f64 := SFmul prec emax.
Definition f64_div : f64 → f64 → f64 := SFdiv prec emax.
Definition f64_ltb (a b : f64) : bool := SFltb a b.
Definition f64_leb (a b : f64) : bool := SFleb a b.
Definition f64_abs (a : f64) : f64 := SFabs a.
(** A decimal literal with numerator [n] and denominator [10^d]. *)
Definition f64_lit (n d : Z) : f64 := f64_div (f64_of_Z n) (f64_of_Z (10 ^ d)).
Definition f64_zero : f64 := S754_zero false.
(** [f64::EPSILON], that is [2^-52]. *)
Definition f64_epsilon : f64 := binary_normalize prec emax 1 (-52) false.

Definition is_finite (a : f64) : bool :=
  match a with S754_zero _ | S754_finite _ _ _ => true | _ => false end.

(** [f64::trunc] and [f64::fract]. *)
Definition f64_trunc (a : f64) : f64 :=
  match a with
  | S754_finite s m e =>
      if 0 <=? e then a
      else match Z.shiftr (Zpos m) (- e) with
           | Zpos m' => binary_normalize prec emax (if s then Zneg m' else Zpos m') 0 s
           | _ => S754_zero s
           end
  | _ => a
  end.
Definition f64_fract (a : f64) : f64 := f64_sub a (f64_trunc a).

(** [f64::min] and [f64::max] on numbers: a NaN argument is ignored. *)
Definition is_nan (a : f64) : bool := match a with S754_nan => true | _ => false end.
Definition f64_min (a b : f64) : f64 :=
  if is_nan a then b else if is_nan b then a else if f64_ltb b a then b else a.
Definition f64_max (a b : f64) : f64 :=
  if is_nan a then b else if is_nan b then a else if f64_ltb a b then b else a.

(** [f64::round]: half away from zero. *)
Definition f64_round (a : f64) : f64 :=
  match a with
  | S754_finite s m e =>
      if 0 <=? e then a
      else match Z.shiftr (Zpos m + Z.shiftl 1 (- e - 1)) (- e) with
           | Zpos m' => binary_normalize prec emax (if s then Zneg m' else Zpos m') 0 s
           | _ => S754_zero s
           end
  | _ => a
  end.
(** [f64::clamp] with ordered bounds. *)
Definition f64_clamp (a lo hi : f64) : f64 :=
  if f64_ltb a lo then lo else if f64_ltb hi a then hi else a.

(** [str::parse::<f64>] on a text of digits and points (the only ones it is given
    here): at most one point and at least one digit, correctly rounded. *)
Definition decimal_ratio (m : N) (d : Z) : f64 :=
  match m with
  | N0 => S754_zero false
  | Npos p => SFdiv prec emax (S754_finite false p 0) (S754_finite false (Z.to_pos (10 ^ d)) 0)
  end.
Definition parse_decimal (s : string) : option f64 :=
  let '(whole, frac) := default (s, "") (split_once "." s) in
  let digits := (whole +:+ frac)%string in
  if is_empty digits then None
  else (λ m, decimal_ratio m (Z.of_N (str_len frac))) <$> digits_go 0 (to_bytes digits).

(** ** [f32]: the same numbers with 24 bits of precision *)

Definition prec32 : Z := 24.
Definition emax32 : Z := 128.
Definition f32_of_Z (z : Z) : spec_float := binary_normalize prec32 emax32 z 0 false.
Definition f32_add : spec_float → spec_float → spec_float := SFadd prec32 emax32.
Definition f32_sub : spec_float → spec_float → spec_float := SFsub prec32 emax32.
Definition f32_mul : spec_float → spec_float → spec_float := SFmul prec32 emax32.
Definition f32_div : spec_float → spec_float → spec_float := SFdiv prec32 emax32.
Definition f32_lit (n d : Z) : spec_float := f32_div (f32_of_Z n) (f32_of_Z (10 ^ d)).
(** [as f32]: round to nearest, ties to even. *)
Definition f32_of_f64 (a : f64) : spec_float :=
  match a with
  | S754_finite s m e => binary_normalize prec32 emax32 (if s then Zneg m else Zpos m) e s
  | _ => a
  end.
(** [f32::round() as u8]: half away from zero, then saturating. *)
Definition f32_round_u8 (a : spec_float) : Z :=
  match a with
  | S754_finite false m e =>
      Z.min 255 (if 0 <=? e then Z.shiftl (Zpos m) e
                 else Z.shiftr (Zpos m + Z.shiftl 1 (- e - 1)) (- e))
  | S754_infinity false => 255
  | _ => 0
  end.

(** ** [format!("{:.d}")]: the exact value rounded half to even at [d] digits *)

Definition div_half_even (n d : Z) : Z :=
  let q := n / d in
  let r := n mod d in
  match Z.compare (2 * r) d with
  | Lt => q
  | Gt => q + 1
  | Eq => if Z.even q then q else q + 1
  end.

(** The magnitude [m * 2^e] in units of [10^-d]. *)
Definition scaled (m : positive) (e d : Z) : Z :=
  let n := Zpos m * 10 ^ d in
  if 0 <=? e then n * 2 ^ e else div_half_even n (2 ^ (- e)).

Fixpoint pad_digits (n : nat) (v : Z) (acc : string) : string :=
  match n with
  | O => acc
  | S n' => pad_digits n' (v / 10) (String (pretty_N_char (Z.to_N (v mod 10))) acc)
  end.

Definition format_units (d : nat) (u : Z) : string :=
  let p := 10 ^ Z.of_nat d in
  pretty (Z.to_N (u / p)) +:+
  match d with O => "" | _ => "." +:+ pad_digits d (u mod p) "" end.

Definition f64_format (d : nat) (a : f64) : string :=
  let sign (s : bool) := if s then "-" else "" in
  match a with
  | S754_nan => "NaN"
  | S754_infinity s => sign s +:+ "inf"
  | S754_zero s => sign s +:+ format_units d 0
  | S754_finite s m e => sign s +:+ format_units d (scaled m e (Z.of_nat d))
  end.

(** ** Comparisons *)

Lemma f64_ltb_nan_l b : f64_ltb S754_nan b = false.
Proof. done. Qed.
Lemma f64_ltb_nan_r a : f64_ltb a S754_nan = false.
Proof. by destruct a. Qed.

(** Being greater than zero excludes NaN, both zeros and negative numbers, and
    allows the positive infinity. *)
Lemma f64_pos_spec a :
  f64_ltb f64_zero a = true ↔
  a = S754_infinity false ∨ ∃ m e, a = S754_finite false m e.
Proof.
  destruct a as [s|s| |s m e]; cbn; split.
  - done.
  - by intros [|(?&?&?)].
  - destruct s; [done|]. by left.
  - by intros [[= ->]|(?&?&?)].
  - done.
  - by intros [|(?&?&?)].
  - destruct s; [done|]. intros _. right. by eexists _, _.
  - by intros [|(?&?&[= -> -> ->])].
Qed.
