(* ===== verification/NetAddr.v ===== *)
(** * [std::net]: IP addresses

    Addresses as numbers of their width, the textual parser of Rust's standard
    library ([IpAddr::from_str]), the classification predicates the program
    uses, and the bit-level meaning of a CIDR prefix. *)

From S2P Require Import Prelude RustStr.
From Stdlib Require Import Ascii.
Open Scope string_scope.
Open Scope N_scope.
Open Scope list_scope.

(** An address is a 32-bit or a 128-bit number in network order. *)
Inductive IpAddr : Type :=
  | V4 (n : N)
  | V6 (n : N).
#[export] Instance IpAddr_eq_dec : EqDecision IpAddr.
Proof. solve_decision. Defined.

Definition ip_width (a : IpAddr) : N := match a with V4 _ => 32 | V6 _ => 128 end.
Definition ip_bits (a : IpAddr) : N := match a with V4 n | V6 n => n end.
(** The values the Rust type has. *)
Definition ip_wf (a : IpAddr) : bool := ip_bits a <? 2 ^ ip_width a.

Record SocketAddr : Type := mkSocketAddr { sa_ip : IpAddr; sa_port : N }.
#[export] Instance SocketAddr_eq_dec : EqDecision SocketAddr.
Proof. solve_decision. Defined.

Definition v4 (a b c d : N) : IpAddr := V4 (((a * 256 + b) * 256 + c) * 256 + d).

(** ** Classification *)

Definition is_loopback (a : IpAddr) : bool :=
  match a with
  | V4 n => N.shiftr n 24 =? 127
  | V6 n => n =? 1
  end.
Definition v6_is_unspecified (n : N) : bool := n =? 0.
Definition v6_is_multicast (n : N) : bool := N.shiftr n 120 =? 255.
(** [(segments[0] & 0xffc0) == 0xfe80] *)
Definition v6_is_unicast_link_local (n : N) : bool := N.shiftr n 118 =? 1018.
(** [to_ipv4_mapped]: the form [::ffff:a.b.c.d]. *)
Definition v6_to_ipv4_mapped (n : N) : option N :=
  if N.shiftr n 32 =? 65535 then Some (n mod 2 ^ 32) else None.

(** ** The parser *)

Definition to_digit_radix (radix : N) (c : ascii) : option N :=
  let n := N_of_ascii c in
  let d := if (48 <=? n) && (n <=? 57) then Some (n - 48)
           else if (97 <=? n) && (n <=? 122) then Some (n - 87)
           else if (65 <=? n) && (n <=? 90) then Some (n - 55)
           else None in
  opt_filter (λ v, v <? radix) d.

(** The digits at the front: their value, their number, and the rest. *)
Fixpoint take_digits (radix acc : N) (cnt : nat) (l : bytes) : N * nat * bytes :=
  match l with
  | [] => (acc, cnt, [])
  | c :: l' =>
      match to_digit_radix radix c with
      | Some d => take_digits radix (acc * radix + d) (S cnt) l'
      | None => (acc, cnt, l)
      end
  end.

(** [Parser::read_number]: too many digits, none at all, or a leading zero where
    that is not allowed make it fail; so does a value above [max] ([try_into]). *)
Definition read_number (radix : N) (max_digits : nat) (allow_zero_prefix : bool)
    (max : N) (l : bytes) : option (N * bytes) :=
  let '(v, cnt, rest) := take_digits radix 0 0 l in
  let leading_zero := match l with c :: _ => Ascii.eqb c "0"%char | [] => false end in
  if (max_digits <? cnt)%nat then None
  else if (cnt =? 0)%nat then None
  else if negb allow_zero_prefix && leading_zero && (1 <? cnt)%nat then None
  else if v <=? max then Some (v, rest) else None.

(** [Parser::read_separator]: the separator precedes every item but the first. *)
Definition read_separator {A} (sep : ascii) (i : nat)
    (p : bytes → option (A * bytes)) (l : bytes) : option (A * bytes) :=
  match i with
  | O => p l
  | S _ => l' ← Bytes.strip_prefix [sep] l; p l'
  end.

Definition read_ipv4_addr (l : bytes) : option (N * bytes) :=
  let octet i := read_separator "."%char i (read_number 10 3 false 255) in
  '(a, l) ← octet 0%nat l;
  '(b, l) ← octet 1%nat l;
  '(c, l) ← octet 2%nat l;
  '(d, l) ← octet 3%nat l;
  Some (((a * 256 + b) * 256 + c) * 256 + d, l).

(** [read_groups]: up to [limit] groups of sixteen bits, the last two possibly
    written as an IPv4 address; whether they were, and the rest. *)
Fixpoint read_groups (fuel i limit : nat) (acc : list N) (l : bytes)
  : list N * bool * bytes :=
  match fuel with
  | O => (reverse acc, false, l)
  | S n =>
      let v4 := if (S i <? limit)%nat
                then read_separator ":"%char i read_ipv4_addr l else None in
      match v4 with
      | Some (a, l') => (reverse acc ++ [a / 65536; a mod 65536], true, l')
      | None =>
          match read_separator ":"%char i (read_number 16 4 true 65535) l with
          | Some (g, l') => read_groups n (S i) limit (g :: acc) l'
          | None => (reverse acc, false, l)
          end
      end
  end.

Definition groups_value (gs : list N) : N := fold_left (λ acc g, acc * 65536 + g) gs 0.

Definition read_ipv6_addr (l : bytes) : option (N * bytes) :=
  let '(head, head_ipv4, l) := read_groups 8 0 8 [] l in
  if (length head =? 8)%nat then Some (groups_value head, l)
  else if (head_ipv4 : bool) then None
  else
    l ← Bytes.strip_prefix [":"%char] l;
    l ← Bytes.strip_prefix [":"%char] l;
    let limit := (8 - (length head + 1))%nat in
    let '(tail, _, l) := read_groups limit 0 limit [] l in
    Some (groups_value (head ++ replicate (8 - length head - length tail) 0 ++ tail), l).

(** [str::parse::<IpAddr>]: the whole text must be consumed. *)
Definition parse_ip (s : string) : option IpAddr :=
  let r := match read_ipv4_addr (to_bytes s) with
           | Some (n, rest) => Some (V4 n, rest)
           | None =>
               match read_ipv6_addr (to_bytes s) with
               | Some (n, rest) => Some (V6 n, rest)
               | None => None
               end
           end in
  match r with Some (a, []) => Some a | _ => None end.

(** ** The printer ([Display]) *)

Definition octets (n : N) : list N := map (λ k, N.shiftr n k mod 256) [24; 16; 8; 0].
Definition segments (n : N) : list N :=
  map (λ k, N.shiftr n k mod 65536) [112; 96; 80; 64; 48; 32; 16; 0].
Definition display_ipv4 (n : N) : string := join "." (map pretty (octets n)).

(** A group in lower-case hexadecimal, without leading zeros. *)
Definition hex_char (d : N) : ascii := ascii_of_N (if d <? 10 then 48 + d else 87 + d).
Definition display_group (g : N) : string :=
  let digits := map (λ k, N.shiftr g k mod 16) [12; 8; 4; 0] in
  let significant := default [0] ((λ '(i, _), drop i digits) <$> list_find (λ d, d ≠ 0) digits) in
  of_bytes (map hex_char significant).

(** The first of the longest runs of zero groups: its start and length. *)
Fixpoint longest_zeros (i : nat) (cur best : nat * nat) (gs : list N) : nat * nat :=
  match gs with
  | [] => best
  | g :: gs' =>
      if g =? 0 then
        let cur := if (cur.2 =? 0)%nat then (i, 1%nat) else (cur.1, S cur.2) in
        longest_zeros (S i) cur (if (best.2 <? cur.2)%nat then cur else best) gs'
      else longest_zeros (S i) (0%nat, 0%nat) best gs'
  end.
Definition display_groups (gs : list N) : string := join ":" (map display_group gs).
Definition display_ipv6 (n : N) : string :=
  match v6_to_ipv4_mapped n with
  | Some v4 => "::ffff:" +:+ display_ipv4 v4
  | None =>
      let gs := segments n in
      let '(start, len) := longest_zeros 0 (0, 0)%nat (0, 0)%nat gs in
      if (1 <? len)%nat
      then display_groups (take start gs) +:+ "::" +:+ display_groups (drop (start + len) gs)
      else display_groups gs
  end.
Definition display_ip (a : IpAddr) : string :=
  match a with V4 n => display_ipv4 n | V6 n => display_ipv6 n end.
Definition display_socket_addr (a : SocketAddr) : string :=
  match sa_ip a with
  | V4 n => display_ipv4 n +:+ ":" +:+ pretty (sa_port a)
  | V6 n => "[" +:+ display_ipv6 n +:+ "]:" +:+ pretty (sa_port a)
  end.
Example display_parses :
  map (λ s, display_ip <$> parse_ip s)
    ["127.0.0.1"; "::1"; "::"; "fe80::1:0:0:2"; "2001:db8::ff"; "::ffff:10.0.0.1"; "1:0:0:2:0:0:0:3"]
  = map Some ["127.0.0.1"; "::1"; "::"; "fe80::1:0:0:2"; "2001:db8::ff"; "::ffff:10.0.0.1";
              "1:0:0:2::3"].
Proof. vm_compute. reflexivity. Qed.

(** ** CIDR prefixes *)

(** The two addresses agree on the first [p] bits of their family. *)
Definition prefix_match (net : IpAddr) (p : N) (a : IpAddr) : bool :=
  match net, a with
  | V4 n, V4 m => N.shiftr n (32 - p) =? N.shiftr m (32 - p)
  | V6 n, V6 m => N.shiftr n (128 - p) =? N.shiftr m (128 - p)
  | _, _ => false
  end.

(** A prefix is the interval of the addresses that share it. *)
Lemma shiftr_eqb_range n m k :
  (N.shiftr n k =? N.shiftr m k) = true ↔
  N.shiftr n k * 2 ^ k ≤ m < (N.shiftr n k + 1) * 2 ^ k.
Proof.
  rewrite N.eqb_eq, !N.shiftr_div_pow2.
  assert (2 ^ k ≠ 0) as Hk by (by apply N.pow_nonzero).
  pose proof (N.div_mod m (2 ^ k) Hk) as Hm. pose proof (N.mod_lt m (2 ^ k) Hk).
  generalize dependent (n / 2 ^ k). intros q. split.
  - intros ->. generalize dependent (m mod 2 ^ k). generalize (m / 2 ^ k).
    generalize dependent (2 ^ k). intros. nia.
  - intros []. apply (N.div_unique m (2 ^ k) q (m - q * 2 ^ k)); lia.
Qed.

Lemma prefix_match_v4 n p m :
  prefix_match (V4 n) p (V4 m) = true ↔
  N.shiftr n (32 - p) * 2 ^ (32 - p) ≤ m < (N.shiftr n (32 - p) + 1) * 2 ^ (32 - p).
Proof. apply shiftr_eqb_range. Qed.

Lemma prefix_match_v6 n p m :
  prefix_match (V6 n) p (V6 m) = true ↔
  N.shiftr n (128 - p) * 2 ^ (128 - p) ≤ m < (N.shiftr n (128 - p) + 1) * 2 ^ (128 - p).
Proof. apply shiftr_eqb_range. Qed.
