(* ===== verification/Externs.v ===== *)
(** * Interfaces of the crates the program calls

    The crates [url], [base64], [ipnet], [serde_json] and [chrono] are not part
    of the repository: each is a class of operations that the models take as a
    parameter, with a class of laws that states documented behaviour some
    theorem relies on.  [Toy.v] instantiates them for the witnesses. *)

From S2P Require Import Prelude RustStr NetAddr.
Open Scope string_scope.
Open Scope N_scope.
Open Scope list_scope.

(** ** [url] *)

Class UrlOps := {
  Url : Type;
  Url_eq_dec :: EqDecision Url;
  Url_parse : string → option Url;
  url_scheme : Url → string;
  (** The serialised host: an IPv6 address is written in brackets. *)
  url_host_str : Url → option string;
  url_port : Url → option N;
  url_port_or_known_default : Url → option N;
  url_username : Url → string;
  url_password : Url → option string;
  url_path : Url → string;
  url_query : Url → option string;
  url_as_str : Url → string;
  (** [url.origin() == other.origin()] and
      [url.origin().ascii_serialization()]. *)
  url_same_origin : Url → Url → bool;
  url_origin_ascii : Url → string;
  (** [base.join(reference)]. *)
  url_join : Url → string → option Url
}.

Class UrlLaws `{U : UrlOps} : Prop := {
  (** An HTTP URL always has a host and a port (RFC 6454 tuple origin). *)
  url_http_host u s :
    Url_parse s = Some u → url_scheme u = "http" ∨ url_scheme u = "https" →
    is_Some (url_host_str u);
  url_http_port u s :
    Url_parse s = Some u → url_scheme u = "http" ∨ url_scheme u = "https" →
    is_Some (url_port_or_known_default u);
  (** Equal origins print the same. *)
  url_same_origin_ascii u v :
    url_same_origin u v = true → url_origin_ascii u = url_origin_ascii v;
  (** A host that contains a colon is an IPv6 address and is bracketed. *)
  url_host_bracketed u h :
    url_host_str u = Some h → contains ":" h = true → starts_with "[" h = true
}.

(** ** [base64], the STANDARD engine *)

Class Base64Ops := {
  b64_encode : string → string;
  b64_decode : string → option string
}.
Class Base64Laws `{B : Base64Ops} : Prop := {
  b64_decode_encode s : b64_decode (b64_encode s) = Some s
}.

(** ** [ipnet] *)

Class IpNetOps := {
  IpNet : Type;
  IpNet_parse : string → option IpNet;
  net_addr : IpNet → IpAddr;
  net_prefix_len : IpNet → N;
  net_contains : IpNet → IpAddr → bool
}.
Class IpNetLaws `{I : IpNetOps} : Prop := {
  (** The textual form is an address and a prefix length around a slash. *)
  IpNet_parse_slash s n : IpNet_parse s = Some n → contains "/" s = true;
  net_prefix_le s n :
    IpNet_parse s = Some n → net_prefix_len n ≤ ip_width (net_addr n);
  net_addr_wf s n : IpNet_parse s = Some n → ip_wf (net_addr n) = true;
  net_contains_prefix n a :
    net_contains n a = prefix_match (net_addr n) (net_prefix_len n) a;
  (** An address, a slash and a length in decimal denote that network. *)
  IpNet_parse_cidr a addr len :
    contains "/" a = false → parse_ip a = Some addr → ip_wf addr = true →
    len ≤ ip_width addr →
    ∃ n, IpNet_parse (a +:+ ("/" +:+ pretty len)) = Some n ∧
      net_addr n = addr ∧ net_prefix_len n = len
}.

(** ** [serde_json] for one serialisable type

    The derived codecs round trip on the values they can represent ([ok]); a
    non-finite float, for one, is printed as [null]. *)

Class JsonCodec (A : Type) := {
  to_json : A → string;
  (** The error is serde_json's message. *)
  from_json : string → result string A
}.
Class JsonLaws (A : Type) `{JsonCodec A} (ok : A → Prop) : Prop :=
  from_to_json a : ok a → from_json (to_json a) = Ok a.
