(* ===== verification/Toy.v ===== *)
(** * Concrete instances of the interfaces

    Small executable implementations of the classes of [Externs.v] that satisfy
    their laws.  No theorem about the program uses them: the witnesses do, to
    run the models on concrete inputs. *)

From S2P Require Import Prelude RustStr NetAddr Externs.
From Stdlib Require Import Ascii.
Open Scope string_scope.
Open Scope N_scope.
Open Scope list_scope.

(** ** URLs: [scheme://host[:port]/rest], or [data:rest] *)

Record ToyUrl := mkToyUrl {
  tu_scheme : string; tu_host : option string; tu_port : option N; tu_rest : string
}.
#[export] Instance ToyUrl_eq_dec : EqDecision ToyUrl.
Proof. solve_decision. Defined.

Definition known_port (scheme : string) : option N :=
  if bool_decide (scheme = "http") then Some 80
  else if bool_decide (scheme = "https") then Some 443 else None.

(** The host and the port of an authority; brackets are kept. *)
Definition toy_authority (s : string) : option (string * option N) :=
  match rsplit_once ":" s with
  | Some (h, p) =>
      if ends_with "]" s then Some (s, None)
      else if contains ":" h && negb (starts_with "[" h) then None
      else n ← parse_uint u16_max p; Some (h, Some n)
  | None => Some (s, None)
  end.

Definition toy_parse (s : string) : option ToyUrl :=
  match strip_prefix "data:" s with
  | Some r => Some (mkToyUrl "data" None None r)
  | None =>
      '(sch, r) ← split_once "://" s;
      let '(auth, rest) := match split_once "/" r with
                           | Some (a, b) => (a, "/" +:+ b) | None => (r, "/") end in
      '(h, p) ← toy_authority auth;
      if is_empty h || (contains ":" h && negb (starts_with "[" h)) then None
      else Some (mkToyUrl (to_ascii_lowercase sch) (Some h)
        (opt_filter (λ n, negb (bool_decide (known_port (to_ascii_lowercase sch) = Some n))) p)
        rest)
  end.

Definition toy_port (u : ToyUrl) : option N :=
  match tu_port u with Some p => Some p | None => known_port (tu_scheme u) end.
Definition toy_origin (u : ToyUrl) : string :=
  match tu_host u with
  | Some h => tu_scheme u +:+ "://" +:+ h +:+
              match tu_port u with Some p => ":" +:+ pretty p | None => "" end
  | None => "null"
  end.
Definition toy_as_str (u : ToyUrl) : string :=
  match tu_host u with
  | Some _ => toy_origin u +:+ tu_rest u
  | None => tu_scheme u +:+ ":" +:+ tu_rest u
  end.

#[export] Instance toy_url : UrlOps := {|
  Url := ToyUrl;
  Url_parse := toy_parse;
  url_scheme := tu_scheme;
  url_host_str u := opt_filter (λ h, negb (contains ":" h) || starts_with "[" h) (tu_host u);
  url_port := tu_port;
  url_port_or_known_default := toy_port;
  url_username _ := "";
  url_password _ := None;
  url_path u := match split_once "?" (tu_rest u) with Some (p, _) => p | None => tu_rest u end;
  url_query u := snd <$> split_once "?" (tu_rest u);
  url_as_str := toy_as_str;
  url_same_origin u v := is_some (tu_host u) && bool_decide (toy_origin u = toy_origin v);
  url_origin_ascii := toy_origin;
  url_join u r := if starts_with "/" r
                  then Some (mkToyUrl (tu_scheme u) (tu_host u) (tu_port u) r)
                  else toy_parse r
|}.

Lemma toy_parse_host s u :
  toy_parse s = Some u →
  tu_scheme u = "data" ∨
  ∃ h, tu_host u = Some h ∧ negb (contains ":" h) || starts_with "[" h = true.
Proof.
  unfold toy_parse. destruct (strip_prefix _ _); [intros [= <-]; by left|].
  destruct (split_once "://" s) as [[sch r]|]; [|done]. simpl.
  destruct (match split_once "/" r with Some (a, b) => _ | None => _ end) as [auth rest].
  destruct (toy_authority auth) as [[h p]|]; [|done]. simpl.
  destruct (is_empty h || _) eqn:Hh; [done|]. intros [= <-]. right. exists h.
  apply orb_false_iff in Hh as [_ Hh]. split; [done|].
  destruct (contains ":" h), (starts_with "[" h); done.
Qed.

#[export] Instance toy_url_laws : UrlLaws.
Proof.
  split; simpl.
  - intros u s [Hd|(h&Hh&Hb)]%toy_parse_host Hs; [rewrite Hd in Hs; naive_solver|].
    rewrite Hh. simpl. rewrite Hb. by eexists.
  - intros u s _ Hs. unfold toy_port. destruct (tu_port u); [by eexists|].
    destruct Hs as [-> | ->]; by eexists.
  - intros u v [_ H]%andb_true_iff. by apply bool_decide_eq_true in H.
  - intros u h [_ H]%opt_filter_some Hc. by rewrite Hc in H.
Qed.

(** ** Base64: every byte as two letters *)

Definition toy_encode (s : string) : string :=
  of_bytes (flat_map (λ c, [ascii_of_N (65 + N_of_ascii c / 16); ascii_of_N (65 + N_of_ascii c mod 16)])
    (to_bytes s)).
Fixpoint toy_decode_go (l : bytes) : option bytes :=
  match l with
  | [] => Some []
  | a :: b :: l' =>
      let a := N_of_ascii a in let b := N_of_ascii b in
      if (65 <=? a) && (a <=? 80) && (65 <=? b) && (b <=? 80)
      then cons (ascii_of_N ((a - 65) * 16 + (b - 65))) <$> toy_decode_go l'
      else None
  | _ => None
  end.

#[export] Instance toy_base64 : Base64Ops := {|
  b64_encode := toy_encode;
  b64_decode s := of_bytes <$> toy_decode_go (to_bytes s)
|}.

#[export] Instance toy_base64_laws : Base64Laws.
Proof.
  split. intros s. simpl. unfold toy_encode. rewrite to_of_bytes.
  assert (toy_decode_go (flat_map (λ c, [ascii_of_N (65 + N_of_ascii c / 16);
    ascii_of_N (65 + N_of_ascii c mod 16)]) (to_bytes s)) = Some (to_bytes s)) as ->.
  { induction (to_bytes s) as [|c l IH]; [done|]. simpl. rewrite IH.
    by destruct c as [[] [] [] [] [] [] [] []]. }
  simpl. by rewrite of_to_bytes.
Qed.

(** ** CIDR prefixes *)

Record ToyNet := mkToyNet { tn_addr : IpAddr; tn_len : N }.
Definition toy_net_parse (s : string) : option ToyNet :=
  '(a, l) ← split_once "/" s;
  a ← parse_ip a; l ← parse_uint (ip_width a) l;
  if ip_wf a then Some (mkToyNet a l) else None.

#[export] Instance toy_ipnet : IpNetOps := {|
  IpNet := ToyNet;
  IpNet_parse := toy_net_parse;
  net_addr := tn_addr;
  net_prefix_len := tn_len;
  net_contains n a := prefix_match (tn_addr n) (tn_len n) a
|}.

Lemma parse_uint_le max s n : parse_uint max s = Some n → n ≤ max.
Proof.
  unfold parse_uint. destruct (default _ _); [done|].
  destruct (digits_go _ _) as [v|]; [simpl|done].
  destruct (v <=? max) eqn:Hv; [|done]. intros [= <-]. by apply N.leb_le.
Qed.

#[export] Instance toy_ipnet_laws : IpNetLaws.
Proof.
  assert (∀ s n, toy_net_parse s = Some n → contains "/" s = true ∧
    tn_len n ≤ ip_width (tn_addr n) ∧ ip_wf (tn_addr n) = true) as Hp.
  { intros s n. unfold toy_net_parse, contains.
    destruct (split_once "/" s) as [[a l]|]; [simpl|done].
    destruct (parse_ip a) as [ip|]; [simpl|done].
    destruct (parse_uint _ l) as [p|] eqn:Hl; [simpl|done].
    destruct (ip_wf ip) eqn:?; [|done]. intros [= <-]. by eauto using parse_uint_le. }
  split; simpl; [naive_solver..|done|].
  intros a addr len Hc Ha Hw Hl. exists (mkToyNet addr len). split; [|done].
  unfold toy_net_parse.
  assert (split_once "/" (a +:+ ("/" +:+ pretty len)) = Some (a, pretty len)) as ->.
  { apply split_once_char. split; [done|]. apply split_once_char_none.
    unfold contains in Hc. by destruct (split_once "/" a). }
  simpl. rewrite Ha. simpl. rewrite parse_uint_pretty by done. simpl. by rewrite Hw.
Qed.

(** ** A codec for every countable type: the decimal digits of its encoding *)

Definition toy_codec (A : Type) `{Countable A} : JsonCodec A := {|
  to_json a := pretty (Npos (encode a));
  from_json s := match digits_go 0 (to_bytes s) with
                 | Some (Npos p) => ok_or "invalid value" (decode p)
                 | _ => Err "invalid value"
                 end
|}.

Lemma toy_codec_laws (A : Type) `{Countable A} (ok : A → Prop) :
  @JsonLaws A (toy_codec A) ok.
Proof.
  intros a _. simpl. unfold pretty, pretty_N.
  rewrite decide_False by done. rewrite digits_go_pretty. simpl.
  by rewrite decode_encode.
Qed.
