(* ===== verification/FileSys.v ===== *)
(** * The file system and the runtime environment

    Files and directories with the failures any operation may meet, and the
    error monad over a state in which the runtime's handlers are written. *)

From S2P Require Import Prelude RustStr.
Open Scope string_scope.
Open Scope list_scope.

(** ** A state and error monad

    [M S E A] is a handler of the source: it reads and changes the state [S] and
    returns or fails with [E].  A failure does not undo what was done. *)

Definition M (S E A : Type) : Type := S → result E A * S.

#[export] Instance M_ret {S E} : MRet (M S E) := λ _ a s, (Ok a, s).
#[export] Instance M_bind {S E} : MBind (M S E) := λ _ _ k m s,
  match m s with
  | (Ok a, s') => k a s'
  | (Err e, s') => (Err e, s')
  end.

Section monad.
Context {S E : Type}.
Definition raise {A} (e : E) : M S E A := λ s, (Err e, s).
Definition lift {A} (r : result E A) : M S E A := λ s, (r, s).
Definition gets {A} (f : S → A) : M S E A := λ s, (Ok (f s), s).
Definition modify (f : S → S) : M S E unit := λ s, (Ok tt, f s).
(** Runs a computation and hands its result over, failed or not. *)
Definition attempt {E' A} (m : M S E' A) : M S E (result E' A) := λ s,
  let '(r, s') := m s in (Ok r, s').
(** [map_err] and the [?] conversion between error types. *)
Definition mapping_err {E' A} (f : E' → E) (m : M S E' A) : M S E A := λ s,
  let '(r, s') := m s in (map_err f r, s').
Definition when (b : bool) (m : M S E unit) : M S E unit := if b then m else mret tt.
End monad.

(** A computation on a part of the state. *)
Definition zoom {S T E A} (get : S → T) (set : T → S → S) (m : M T E A) : M S E A := λ s,
  let '(r, t) := m (get s) in (r, set t s).

Lemma M_bind_eq {S E A B} (m : M S E A) (k : A → M S E B) s :
  (m ≫= k) s = match m s with (Ok a, s') => k a s' | (Err e, s') => (Err e, s') end.
Proof. done. Qed.

(** The steps of a handler. *)
Lemma lift_bind {S E A B} (r : result E A) (k : A → M S E B) s :
  (lift r ≫= k) s = match r with Ok a => k a s | Err e => (Err e, s) end.
Proof. by destruct r. Qed.
Lemma attempt_bind {S E E' A B} (m : M S E' A) (k : result E' A → M S E B) s :
  (attempt m ≫= k) s = let '(r, s') := m s in k r s'.
Proof. unfold attempt. rewrite M_bind_eq. by destruct (m s). Qed.
Lemma gets_bind {S E A B} (f : S → A) (k : A → M S E B) s : (gets f ≫= k) s = k (f s) s.
Proof. done. Qed.
Lemma modify_bind {S E B} (f : S → S) (k : unit → M S E B) s : (modify f ≫= k) s = k tt (f s).
Proof. done. Qed.
Ltac m_step :=
  cbv beta iota zeta;
  first [rewrite lift_bind | rewrite attempt_bind | rewrite gets_bind | rewrite modify_bind
        | rewrite M_bind_eq].
Ltac m_step_in H :=
  cbv beta iota zeta in H;
  first [rewrite lift_bind in H | rewrite attempt_bind in H | rewrite gets_bind in H
        | rewrite modify_bind in H | rewrite M_bind_eq in H].

Lemma M_bind_ok {S E A B} (m : M S E A) (k : A → M S E B) s b s' :
  (m ≫= k) s = (Ok b, s') ↔ ∃ a s1, m s = (Ok a, s1) ∧ k a s1 = (Ok b, s').
Proof.
  unfold mbind, M_bind. destruct (m s) as [[a|e] s1]; cbn beta iota; split.
  - intros H. by exists a, s1.
  - intros (?&?&[= <- <-]&?). done.
  - done.
  - intros (?&?&[=]&_).
Qed.

Lemma M_bind_err {S E A B} (m : M S E A) (k : A → M S E B) s e s' :
  (m ≫= k) s = (Err e, s') ↔
  m s = (Err e, s') ∨ ∃ a s1, m s = (Ok a, s1) ∧ k a s1 = (Err e, s').
Proof.
  unfold mbind, M_bind. destruct (m s) as [[a|e'] s1]; cbn beta iota; split.
  - intros H. right. by exists a, s1.
  - intros [[=]|(?&?&[= <- <-]&?)]. done.
  - intros [= <- <-]. by left.
  - intros [[= <- <-]|(?&?&[=]&_)]. done.
Qed.

(** ** What every run of a handler respects

    [respects R m]: the state after [m] is related to the one before, whether
    [m] succeeds or fails. *)

Definition respects {S E A} (R : S → S → Prop) (m : M S E A) : Prop := ∀ s, R s (m s).2.

Section respects.
Context {S : Type} (R : S → S → Prop) `{!PreOrder R}.

Lemma respects_ret {E A} (a : A) : respects R (mret a : M S E A).
Proof. intros s. reflexivity. Qed.
Lemma respects_raise {E A} (e : E) : respects R (raise e : M S E A).
Proof. intros s. reflexivity. Qed.
Lemma respects_lift {E A} (r : result E A) : respects R (lift r : M S E A).
Proof. intros s. reflexivity. Qed.
Lemma respects_gets {E A} (f : S → A) : respects R (gets f : M S E A).
Proof. intros s. reflexivity. Qed.
Lemma respects_modify {E} (f : S → S) : (∀ s, R s (f s)) → respects R (modify f : M S E unit).
Proof. intros H s. apply H. Qed.
Lemma respects_bind {E A B} (m : M S E A) (k : A → M S E B) :
  respects R m → (∀ a, respects R (k a)) → respects R (m ≫= k).
Proof.
  intros Hm Hk s. rewrite M_bind_eq. specialize (Hm s).
  destruct (m s) as [[a|e] s1]; [|done]. simpl in Hm. etrans; [exact Hm|apply Hk].
Qed.
Lemma respects_bind_lift {E A B} (r : result E A) (k : A → M S E B) :
  (∀ a, r = Ok a → respects R (k a)) → respects R (lift r ≫= k).
Proof. intros Hk s. rewrite lift_bind. destruct r as [a|e]; [by apply Hk|reflexivity]. Qed.
Lemma respects_attempt {E E' A} (m : M S E' A) :
  respects R m → respects R (attempt m : M S E (result E' A)).
Proof. intros Hm s. unfold attempt. specialize (Hm s). by destruct (m s). Qed.
Lemma respects_mapping {E E' A} (f : E' → E) (m : M S E' A) :
  respects R m → respects R (mapping_err f m).
Proof. intros Hm s. unfold mapping_err. specialize (Hm s). by destruct (m s). Qed.
End respects.
Create HintDb respects.
#[export] Hint Resolve respects_ret respects_raise respects_lift respects_gets respects_bind
  respects_attempt respects_mapping : respects.
(** Splits a handler into its steps. *)
Ltac respects_step :=
  cbv zeta;
  match goal with
  | |- respects ?R (lift _ ≫= _) =>
      let H := constr:(_ : PreOrder R) in
      apply (respects_bind_lift R (PreOrder0 := H)); intros ? ?
  | |- respects ?R (_ ≫= _) =>
      let H := constr:(_ : PreOrder R) in apply (respects_bind R (PreOrder0 := H)); [|intros ?]
  | |- respects ?R (mapping_err _ _) => apply (respects_mapping R)
  | |- respects ?R (attempt _) => apply (respects_attempt R)
  | |- respects _ (if ?b then _ else _) => destruct b
  | |- respects _ (match ?x with _ => _ end) => destruct x
  | |- respects ?R _ =>
      let H := constr:(_ : PreOrder R) in
      first
        [ simple apply (respects_lift R (PreOrder0 := H))
        | simple apply (respects_raise R (PreOrder0 := H))
        | simple apply (respects_gets R (PreOrder0 := H))
        | simple apply (respects_ret R (PreOrder0 := H)) ]
  end.
Ltac solve_respects := repeat respects_step; eauto with respects.

(** ** What every run of a handler returns

    [returns m φ]: [m] never fails, and what it returns satisfies [φ]. *)

Definition returns {S E A} (m : M S E A) (φ : A → Prop) : Prop :=
  ∀ s, ∃ a s', m s = (Ok a, s') ∧ φ a.

Section returns.
Context {S E : Type}.

Lemma returns_ret {A} (a : A) (φ : A → Prop) : φ a → returns (mret a : M S E A) φ.
Proof. intros H s. by exists a, s. Qed.
Lemma returns_gets {A} (f : S → A) : returns (gets f : M S E A) (λ _, True).
Proof. intros s. by exists (f s), s. Qed.
Lemma returns_attempt {E' A} (m : M S E' A) :
  returns (attempt m : M S E (result E' A)) (λ _, True).
Proof. intros s. unfold attempt. destruct (m s) as [r s']. by exists r, s'. Qed.
Lemma returns_bind {A B} (m : M S E A) (k : A → M S E B) φ ψ :
  returns m φ → (∀ a, φ a → returns (k a) ψ) → returns (m ≫= k) ψ.
Proof.
  intros Hm Hk s. rewrite M_bind_eq. destruct (Hm s) as (a&s'&->&Ha). by apply (Hk a).
Qed.
End returns.

(** ** What a handler that succeeds returns

    [yields m φ]: every value [m] returns satisfies [φ]. *)

Definition yields {S E A} (m : M S E A) (φ : A → Prop) : Prop :=
  ∀ s a, (m s).1 = Ok a → φ a.

Section yields.
Context {S E : Type}.

Lemma yields_ret {A} (a : A) (φ : A → Prop) : φ a → yields (mret a : M S E A) φ.
Proof. by intros H s a' [= <-]. Qed.
Lemma yields_raise {A} (e : E) (φ : A → Prop) : yields (raise e : M S E A) φ.
Proof. by intros s a. Qed.
Lemma yields_lift {A} (r : result E A) (φ : A → Prop) :
  (∀ a, r = Ok a → φ a) → yields (lift r : M S E A) φ.
Proof. intros H s a. apply H. Qed.
Lemma yields_bind {A B} (m : M S E A) (k : A → M S E B) (φ : B → Prop) :
  (∀ a, yields (k a) φ) → yields (m ≫= k) φ.
Proof.
  intros Hk s b. rewrite M_bind_eq. destruct (m s) as [[a|e] s']; [apply Hk|done].
Qed.
End yields.
Ltac yields_step :=
  cbv zeta;
  match goal with
  | |- yields (_ ≫= _) _ => apply yields_bind; intros ?
  | |- yields (mret _) _ => apply yields_ret
  | |- yields (raise _) _ => apply yields_raise
  | |- yields (if ?b then _ else _) _ => destruct b
  | |- yields (match ?x with _ => _ end) _ => destruct x
  end.

(** ** The errors a handler can fail with

    [raises m φ]: every error of [m] satisfies [φ]. *)

Definition raises {S E A} (m : M S E A) (φ : E → Prop) : Prop :=
  ∀ s e, (m s).1 = Err e → φ e.

Section raises.
Context {S E : Type} (φ : E → Prop).

Lemma raises_ret {A} (a : A) : raises (mret a : M S E A) φ.
Proof. by intros s e. Qed.
Lemma raises_gets {A} (f : S → A) : raises (gets f : M S E A) φ.
Proof. by intros s e. Qed.
Lemma raises_modify (f : S → S) : raises (modify f : M S E unit) φ.
Proof. by intros s e. Qed.
Lemma raises_raise {A} (e : E) : φ e → raises (raise e : M S E A) φ.
Proof. by intros H s e' [= <-]. Qed.
Lemma raises_lift {A} (r : result E A) : (∀ e, r = Err e → φ e) → raises (lift r : M S E A) φ.
Proof. intros H s e. apply H. Qed.
Lemma raises_attempt {E' A} (m : M S E' A) : raises (attempt m : M S E (result E' A)) φ.
Proof. intros s e. unfold attempt. by destruct (m s). Qed.
Lemma raises_mapping {E' A} (f : E' → E) (m : M S E' A) :
  (∀ e, φ (f e)) → raises (mapping_err f m) φ.
Proof.
  intros H s e. unfold mapping_err. destruct (m s) as [[a|e'] s']; [done|]. by intros [= <-].
Qed.
Lemma raises_bind {A B} (m : M S E A) (k : A → M S E B) :
  raises m φ → (∀ a, raises (k a) φ) → raises (m ≫= k) φ.
Proof.
  intros Hm Hk s e. rewrite M_bind_eq. specialize (Hm s).
  destruct (m s) as [[a|e'] s']; [apply Hk|]. simpl in *. intros [= ->]. by apply Hm.
Qed.
End raises.
Ltac raises_step :=
  cbv zeta;
  match goal with
  | |- raises (_ ≫= _) _ => apply raises_bind; [|intros ?]
  | |- raises (mapping_err _ _) _ => apply raises_mapping; intros ?
  | |- raises (attempt _) _ => apply raises_attempt
  | |- raises (lift _) _ => apply raises_lift
  | |- raises (raise _) _ => apply raises_raise
  | |- raises (gets _) _ => apply raises_gets
  | |- raises (modify _) _ => apply raises_modify
  | |- raises (mret _) _ => apply raises_ret
  | |- raises (if ?b then _ else _) _ => destruct b
  | |- raises (match ?x with _ => _ end) _ => destruct x
  end.

(** ** Files *)

Inductive ErrorKind := NotFound | PermissionDenied | InvalidData | InvalidInput | AlreadyExists | OtherKind.
Record IoError := mkIoError { io_kind : ErrorKind; io_message : string }.
#[export] Instance ErrorKind_eq_dec : EqDecision ErrorKind.
Proof. solve_decision. Defined.
#[export] Instance IoError_eq_dec : EqDecision IoError.
Proof. solve_decision. Defined.

(** The files with their contents and the directories the program made.  The
    [n]-th operation on the file system may fail; a failed write may leave some
    content behind. *)
Record Fs := mkFs {
  fs_files : gmap string string;
  fs_dirs : gset string;
  fs_tick : nat;
  fs_fault : nat → option (IoError * option string)
}.
Definition fs_step (fs : Fs) : Fs := mkFs (fs_files fs) (fs_dirs fs) (S (fs_tick fs)) (fs_fault fs).
Definition fs_with_files (f : gmap string string → gmap string string) (fs : Fs) : Fs :=
  mkFs (f (fs_files fs)) (fs_dirs fs) (fs_tick fs) (fs_fault fs).
Definition fs_with_dirs (f : gset string → gset string) (fs : Fs) : Fs :=
  mkFs (fs_files fs) (f (fs_dirs fs)) (fs_tick fs) (fs_fault fs).
Definition fault_now (fs : Fs) : option (IoError * option string) := fs_fault fs (fs_tick fs).
#[global] Arguments fault_now : simpl never.
(** No operation fails from now on. *)
Definition no_faults (fs : Fs) : Prop := ∀ n, (fs_tick fs ≤ n)%nat → fs_fault fs n = None.

Abbreviation IO := (M Fs IoError).

Definition not_found : IoError := mkIoError NotFound "No such file or directory".

(** [Path::exists]: an error counts as absence. *)
Definition fs_exists {E} (path : string) : M Fs E bool := λ fs,
  (Ok (match fault_now fs with Some _ => false | None => is_some (fs_files fs !! path) end),
   fs_step fs).

(** Reading a whole file. *)
Definition fs_read (path : string) : IO string := λ fs,
  (match fault_now fs with
   | Some (e, _) => Err e
   | None => ok_or not_found (fs_files fs !! path)
   end, fs_step fs).

(** Creating parent directories; only a failure is visible. *)
Definition fs_create_dir_all (path : string) : IO unit := λ fs,
  (match fault_now fs with Some (e, _) => Err e | None => Ok tt end, fs_step fs).

(** Writing content to a file from the start: [fs::write], [File::create] with
    an empty content, and the destination of [fs::copy]. *)
Definition fs_write (path content : string) : IO unit := λ fs,
  match fault_now fs with
  | Some (e, Some residue) => (Err e, fs_step (fs_with_files <[path := residue]> fs))
  | Some (e, None) => (Err e, fs_step fs)
  | None => (Ok tt, fs_step (fs_with_files <[path := content]> fs))
  end.

(** [File::create]: the file exists and is empty, or nothing happened. *)
Definition fs_create (path : string) : IO unit := λ fs,
  match fault_now fs with
  | Some (e, _) => (Err e, fs_step fs)
  | None => (Ok tt, fs_step (fs_with_files <[path := ""]> fs))
  end.

(** [write_all] on an open file: more bytes at its end. *)
Definition fs_append (path chunk : string) : IO unit := λ fs,
  fs_write path (default "" (fs_files fs !! path) +:+ chunk) fs.

Definition fs_flush : IO unit := λ fs,
  (match fault_now fs with Some (e, _) => Err e | None => Ok tt end, fs_step fs).

Definition fs_remove_file (path : string) : IO unit := λ fs,
  match fault_now fs with
  | Some (e, _) => (Err e, fs_step fs)
  | None =>
      match fs_files fs !! path with
      | None => (Err not_found, fs_step fs)
      | Some _ => (Ok tt, fs_step (fs_with_files (delete path) fs))
      end
  end.

Definition fs_copy (from to : string) : IO unit :=
  content ← fs_read from; fs_write to content.

Definition fs_create_dir (path : string) : IO unit := λ fs,
  match fault_now fs with
  | Some (e, _) => (Err e, fs_step fs)
  | None =>
      if bool_decide (path ∈ fs_dirs fs)
      then (Err (mkIoError AlreadyExists "File exists"), fs_step fs)
      else (Ok tt, fs_step (fs_with_dirs (union {[path]}) fs))
  end.

(** [remove_dir_all]: the directory and everything below it. *)
Definition below (dir path : string) : bool := starts_with (dir +:+ "/") path.
Definition fs_remove_dir_all (path : string) : IO unit := λ fs,
  match fault_now fs with
  | Some (e, _) => (Err e, fs_step fs)
  | None =>
      if bool_decide (path ∈ fs_dirs fs)
      then (Ok tt, fs_step (fs_with_dirs (λ d, d ∖ {[path]})
                     (fs_with_files (filter (λ '(p, _), below path p = false)) fs)))
      else (Err not_found, fs_step fs)
  end.

#[global] Arguments fs_exists _ _ _ : simpl never.
#[global] Arguments fs_read _ _ : simpl never.
#[global] Arguments fs_create_dir_all _ _ : simpl never.
#[global] Arguments fs_write _ _ _ : simpl never.
#[global] Arguments fs_create _ _ : simpl never.
#[global] Arguments fs_append _ _ _ : simpl never.
#[global] Arguments fs_flush _ : simpl never.
#[global] Arguments fs_remove_file _ _ : simpl never.
#[global] Arguments fs_create_dir _ _ : simpl never.
#[global] Arguments fs_remove_dir_all _ _ : simpl never.

(** [let _ = remove_file(path)] *)
Definition fs_remove_quietly {E} (path : string) : M Fs E unit :=
  _ ← attempt (fs_remove_file path); mret tt.

(** ** Path names *)

(** The directory part with its slash, and the file name. *)
Definition path_split (path : string) : string * string :=
  match rsplit_once "/" path with
  | Some (d, f) => (d +:+ "/", f)
  | None => ("", path)
  end.
(** [file_stem] and [extension] of a file name: the text around the last dot,
    unless the name has none or starts with it. *)
Definition stem_ext (name : string) : string * option string :=
  match rsplit_once "." name with
  | Some (s, e) => if is_empty s then (name, None) else (s, Some e)
  | None => (name, None)
  end.
Definition path_extension (path : string) : option string :=
  (stem_ext (path_split path).2).2.
Definition path_file_stem (path : string) : option string :=
  let name := (path_split path).2 in
  if is_empty name then None else Some (stem_ext name).1.
(** [Path::with_extension] *)
Definition with_extension (path ext : string) : string :=
  let '(dir, name) := path_split path in
  if is_empty name then path else dir +:+ (stem_ext name).1 +:+ "." +:+ ext.

(** ** Lemmas *)

Lemma no_faults_now fs : no_faults fs → fault_now fs = None.
Proof. intros H. by apply H. Qed.
Lemma no_faults_step fs : no_faults fs → no_faults (fs_step fs).
Proof. intros H n Hn. apply H. simpl in Hn. lia. Qed.

Lemma fs_remove_quietly_spec {E} path fs :
  ∃ fs', fs_remove_quietly (E := E) path fs = (Ok tt, fs') ∧
    fs_fault fs' = fs_fault fs ∧ fs_tick fs' = S (fs_tick fs) ∧ fs_dirs fs' = fs_dirs fs ∧
    (fault_now fs = None → fs_files fs' = delete path (fs_files fs)) ∧
    (fs_files fs' = fs_files fs ∨ fs_files fs' = delete path (fs_files fs)).
Proof.
  unfold fs_remove_quietly, attempt, fs_remove_file, mbind, M_bind, mret, M_ret.
  destruct (fault_now fs) as [[e r]|] eqn:Hf.
  { eexists. split; [done|]. simpl. split_and!; try done. by left. }
  destruct (fs_files fs !! path) eqn:Hp.
  - eexists. split; [done|]. simpl. split_and!; try done. by right.
  - eexists. split; [done|]. simpl. rewrite delete_id by done. split_and!; try done. by left.
Qed.

(** ** What an operation may change *)

(** Only [path] changed. *)
Definition only_path (path : string) (fs fs' : Fs) : Prop :=
  (∀ p, p ≠ path → fs_files fs' !! p = fs_files fs !! p) ∧ fs_dirs fs' = fs_dirs fs ∧
  fs_fault fs' = fs_fault fs.
(** The last operation on the file system failed. *)
Definition last_op_failed (fs : Fs) : Prop := fs_fault fs (pred (fs_tick fs)) ≠ None.
(** After a failure: the file is gone, unless its removal failed too. *)
Definition cleaned (path : string) (fs' : Fs) : Prop :=
  fs_files fs' !! path = None ∨ last_op_failed fs'.

Lemma only_path_refl path fs : only_path path fs fs.
Proof. by split_and!. Qed.
Lemma only_path_trans path fs1 fs2 fs3 :
  only_path path fs1 fs2 → only_path path fs2 fs3 → only_path path fs1 fs3.
Proof.
  intros (H1&H2&H3) (H4&H5&H6). split_and!; [|congruence..].
  intros p Hp. by rewrite H4, H1.
Qed.

Lemma fs_write_only path c fs : only_path path fs (fs_write path c fs).2.
Proof.
  unfold fs_write. destruct (fault_now fs) as [[e [r|]]|]; simpl; split_and!; try done;
    intros p Hp; simpl; by rewrite lookup_insert_ne.
Qed.
Lemma fs_write_ok path content fs fs' :
  fs_write path content fs = (Ok tt, fs') → fs_files fs' !! path = Some content.
Proof.
  unfold fs_write. destruct (fault_now fs) as [[e [r|]]|]; [done..|].
  intros [= <-]. simpl. by rewrite lookup_insert, decide_True.
Qed.

Lemma fs_create_only path fs : only_path path fs (fs_create path fs).2.
Proof.
  unfold fs_create. destruct (fault_now fs) as [[e r]|]; simpl; split_and!; try done.
  intros p Hp; simpl; by rewrite lookup_insert_ne.
Qed.

Lemma fs_remove_quietly_cleaned {E} path fs :
  ∃ fs', fs_remove_quietly (E := E) path fs = (Ok tt, fs') ∧ only_path path fs fs' ∧
    cleaned path fs'.
Proof.
  destruct (fs_remove_quietly_spec (E := E) path fs) as (fs'&Hr&Hf&Ht&Hd&Hdel&Hor).
  exists fs'. split_and!; [done| |].
  - split_and!; [|done..]. intros p Hp. destruct Hor as [-> | ->]; [done|].
    by rewrite lookup_delete_ne.
  - unfold cleaned, last_op_failed. rewrite Hf, Ht. simpl.
    destruct (fs_fault fs (fs_tick fs)) eqn:Hn; [by right|left].
    rewrite Hdel by done. by rewrite lookup_delete, decide_True.
Qed.
