(* ===== verification/PrintTypes.v ===== *)
(** * Printing data ([crates/core/src/printing.rs])

    The data the platform backends exchange with the agent, and the backend
    interface itself: [PrintBackend] is the trait of the source, a record of
    operations whose implementations (CUPS, Windows, a test double) are values. *)

From S2P Require Import Prelude RustStr F64.
Open Scope string_scope.
Open Scope N_scope.
Open Scope list_scope.

Record PrinterInfo := mkPrinterInfo {
  pi_name : string;
  pi_is_default : bool;
  pi_dpi : option N;
  pi_port : option string;
  pi_is_local : option bool;
  pi_is_network : option bool;
  pi_is_virtual : option bool
}.
#[export] Instance PrinterInfo_eq_dec : EqDecision PrinterInfo.
Proof. solve_decision. Defined.

(** [PrinterInfo::new] *)
Definition PrinterInfo_new (name : string) (is_default : bool) : PrinterInfo :=
  mkPrinterInfo name is_default None None None None None.

Record PaperInfo := mkPaperInfo {
  pa_id : string;
  pa_name : string;
  pa_width_mm : f64;
  pa_height_mm : f64
}.
#[export] Instance PaperInfo_eq_dec : EqDecision PaperInfo.
Proof. solve_decision. Defined.

Record PrinterTrayInfo := mkPrinterTrayInfo { pt_id : string; pt_name : string }.
#[export] Instance PrinterTrayInfo_eq_dec : EqDecision PrinterTrayInfo.
Proof. solve_decision. Defined.

Record PrinterMediaTypeInfo := mkPrinterMediaTypeInfo { pm_id : string; pm_name : string }.
#[export] Instance PrinterMediaTypeInfo_eq_dec : EqDecision PrinterMediaTypeInfo.
Proof. solve_decision. Defined.

Record PrintOptions := mkPrintOptions {
  po_printer_name : string;
  po_paper : PaperInfo;
  po_copies : N
}.
#[export] Instance PrintOptions_eq_dec : EqDecision PrintOptions.
Proof. solve_decision. Defined.

Record RawPrintOptions := mkRawPrintOptions { ro_printer_name : string }.
#[export] Instance RawPrintOptions_eq_dec : EqDecision RawPrintOptions.
Proof. solve_decision. Defined.

Record PrintSubmission := mkPrintSubmission {
  su_submitted_at : string;
  su_backend : string;
  su_system_job_id : option string;
  su_tracking_supported : bool
}.
#[export] Instance PrintSubmission_eq_dec : EqDecision PrintSubmission.
Proof. solve_decision. Defined.

Inductive PrintTrackingOutcome :=
  | TrackCompleted (message : string)
  | TrackFailed (message : string)
  | TrackUnknown (message : string).
#[export] Instance PrintTrackingOutcome_eq_dec : EqDecision PrintTrackingOutcome.
Proof. solve_decision. Defined.

Inductive PrintError :=
  | PrinterNotFound (name : string)
  | PaperNotFound (name : string)
  | CommandFailed (command message : string)
  | UnsupportedPlatform.
#[export] Instance PrintError_eq_dec : EqDecision PrintError.
Proof. solve_decision. Defined.

(** The [Display] of [PrintError]. *)
Definition PrintError_display (e : PrintError) : string :=
  match e with
  | PrinterNotFound n => "printer not found: " +:+ n
  | PaperNotFound n => "paper not found: " +:+ n
  | CommandFailed c m => "print command failed: " +:+ c +:+ ": " +:+ m
  | UnsupportedPlatform => "printing is not supported on this platform"
  end.

Abbreviation PrintResult := (result PrintError).

(** The trait [PrintBackend].  What a backend answers depends on the platform,
    so an implementation is a value of this record; a path is a string and the
    bytes of a raw job are a byte string. *)
Record PrintBackend := mkPrintBackend {
  list_printers : PrintResult (list PrinterInfo);
  list_papers : string → PrintResult (list PaperInfo);
  list_trays : string → PrintResult (list PrinterTrayInfo);
  list_media_types : string → PrintResult (list PrinterMediaTypeInfo);
  print_pdf : string → PrintOptions → PrintResult PrintSubmission;
  print_raw : string → RawPrintOptions → PrintResult PrintSubmission;
  track_submission : PrintSubmission → PrintOptions → PrintTrackingOutcome;
  track_raw_submission : PrintSubmission → RawPrintOptions → PrintTrackingOutcome
}.

(** The default methods of the trait. *)
Definition default_list_trays (_ : string) : PrintResult (list PrinterTrayInfo) := Ok [].
Definition default_list_media_types (_ : string) : PrintResult (list PrinterMediaTypeInfo) :=
  Ok [].
Definition default_track_submission (_ : PrintSubmission) (_ : PrintOptions)
  : PrintTrackingOutcome :=
  TrackUnknown "platform does not provide trackable print status".
Definition default_track_raw_submission (_ : PrintSubmission) (_ : RawPrintOptions)
  : PrintTrackingOutcome :=
  TrackUnknown "platform does not provide trackable raw print status".
