(* ===== verification/Printing.v ===== *)
(** * Platform-independent printing rules ([crates/runtime/src/printing/mod.rs],
    [crates/runtime/src/printing/windows_buffer.rs])

    Paper names and media options, the matching of a requested paper against
    those of the driver, the SumatraPDF settings, and the retry loop that reads
    a variable-length Win32 structure. *)

From S2P Require Import Prelude RustStr F64 FileSys PrintTypes.
From Stdlib Require Import ZArith.
From stdpp Require Import sorting.
Open Scope string_scope.
Open Scope N_scope.
Open Scope list_scope.

(** [format_mm]: an integral value without decimals, else two decimals with the
    trailing zeros and point removed. *)
Definition format_mm (value : f64) : string :=
  if f64_ltb (f64_abs (f64_fract value)) f64_epsilon then f64_format 0 value
  else trim_end_matches "." (trim_end_matches "0" (f64_format 2 value)).

Definition paper_name (width_mm height_mm : f64) : string :=
  format_mm width_mm +:+ " x " +:+ format_mm height_mm +:+ " mm".
Definition custom_media_option (width_mm height_mm : f64) : string :=
  "Custom." +:+ format_mm width_mm +:+ "x" +:+ format_mm height_mm +:+ "mm".
Definition is_cups_media_token (value : string) : bool := starts_with "Custom." value.
Definition cups_media_option (paper : PaperInfo) : string :=
  if is_cups_media_token (pa_id paper) then pa_id paper
  else custom_media_option (pa_width_mm paper) (pa_height_mm paper).

(** [|a - b| < eps] *)
Definition f64_near (eps a b : f64) : bool := f64_ltb (f64_abs (f64_sub a b)) eps.

Definition find_matching_paper (papers : list PaperInfo) (paper : PaperInfo) : option PaperInfo :=
  iter_find (λ candidate,
    f64_near (f64_lit 1 2) (pa_width_mm candidate) (pa_width_mm paper)
    && f64_near (f64_lit 1 2) (pa_height_mm candidate) (pa_height_mm paper)) papers.
Definition resolve_paper_for_print (papers : list PaperInfo) (paper : PaperInfo) : PaperInfo :=
  default paper (find_matching_paper papers paper).

Definition mm (n : Z) : f64 := f64_of_Z n.
Definition common_label_papers : list PaperInfo :=
  [mkPaperInfo "label_40x30" "40 x 30 mm" (mm 40) (mm 30);
   mkPaperInfo "label_50x30" "50 x 30 mm" (mm 50) (mm 30);
   mkPaperInfo "label_60x40" "60 x 40 mm" (mm 60) (mm 40);
   mkPaperInfo "label_80x50" "80 x 50 mm" (mm 80) (mm 50);
   mkPaperInfo "label_100x150" "100 x 150 mm" (mm 100) (mm 150)].

(** [windows_physical_paper_dimensions] *)
Definition windows_physical_paper_dimensions
    (form_width form_height physical_width physical_height : f64) : option (f64 * f64) :=
  let error width height :=
    f64_max (f64_abs (f64_sub width physical_width)) (f64_abs (f64_sub height physical_height)) in
  let direct := error form_width form_height in
  let rotated := error form_height form_width in
  if f64_ltb direct (mm 1) && f64_leb direct rotated then Some (form_width, form_height)
  else if f64_ltb rotated (mm 1) then Some (form_height, form_width)
  else None.

(** [sumatra_print_settings] *)
Definition sumatra_print_settings (copies : N) (requested : PaperInfo)
    (driver_papers : list PaperInfo) : PrintResult string :=
  let matches width height :=
    f64_near (f64_lit 1 1) width (pa_width_mm requested)
    && f64_near (f64_lit 1 1) height (pa_height_mm requested) in
  paper ← ok_or
    (PaperNotFound (paper_name (pa_width_mm requested) (pa_height_mm requested) +:+
       "; configure this paper size and orientation in the Windows printer driver first"))
    (iter_find (λ p, matches (pa_width_mm p) (pa_height_mm p)) driver_papers);
  paper_kind ← ok_or (PaperNotFound (pa_name paper))
    (opt_filter (λ id, 0 <? id) (parse_uint u16_max (pa_id paper)));
  let orientation := if f64_ltb (pa_height_mm requested) (pa_width_mm requested)
                     then "landscape" else "portrait" in
  Ok (pretty (N.max copies 1) +:+ "x,fit," +:+ orientation +:+ ",paperkind=" +:+
      pretty paper_kind).

(** ** What both platform backends use *)

(** A command with its arguments, and what it leaves when it could be started. *)
Record SysCommand := mkSysCommand { sc_program : string; sc_args : list string }.
#[export] Instance SysCommand_eq_dec : EqDecision SysCommand.
Proof. solve_decision. Defined.
Record Output := mkOutput { out_success : bool; out_stdout : string; out_stderr : string }.

(** [Iterator::max], and [starts_with] for one of several prefixes. *)
Definition iter_max (l : list N) : option N :=
  match l with [] => None | n :: l' => Some (fold_left N.max l' n) end.
Definition starts_with_any (prefixes : list string) (s : string) : bool :=
  existsb (λ prefix, starts_with prefix s) prefixes.

(** ** Reading a buffer that may grow *)

Inductive BufferRead := Complete (count : N) | Resize (bytes : N) | BFailed (message : string).

(** The query sees the buffer (as 64-bit words) and may write into it; it
    returns the buffer as it left it.  A query is a handler: it may act on the
    state it captured.  [n] is the number of rounds left. *)
Section read_buffer.
Context {St E : Type} (print_error : PrintError → E).
Context (query : list N → M St E (BufferRead * list N)).

Definition usize_capacity (buffer : list N) : N := N.of_nat (length buffer) * 8.
Definition buffer_resize (bytes : N) (buffer : list N) : list N :=
  buffer ++ replicate (N.to_nat ((bytes + 7) / 8) - length buffer) 0.

Fixpoint read_buffer_loop (n : nat) (command : string) (buffer : list N)
  : M St E (list N * N) :=
  let changed := raise (print_error
    (CommandFailed command "printer data changed repeatedly while reading")) in
  match n with
  | O => changed
  | S n' =>
      '(answer, buffer) ← query buffer;
      match answer with
      | Complete count => mret (buffer, count)
      | Resize bytes =>
          if (usize_capacity buffer <? bytes) && (bytes <=? u32_max - 7)
          then read_buffer_loop n' command (buffer_resize bytes buffer)
          else changed
      | BFailed message => raise (print_error (CommandFailed command message))
      end
  end.
Definition read_buffer (command : string) : M St E (list N * N) :=
  read_buffer_loop 4 command [].
End read_buffer.

(** A query that also records the capacities it was called with. *)
Definition logged {St E} (query : list N → M St E (BufferRead * list N)) (buffer : list N)
  : M (St * list N) E (BufferRead * list N) := λ '(s, trace),
  let '(r, s') := query buffer s in (r, (s', trace ++ [usize_capacity buffer])).

(** ** The backend of a platform *)

(** [UnsupportedPrintBackend]: an error for everything the trait has no default for. *)
Definition unsupported_print_backend : PrintBackend := {|
  list_printers := Err UnsupportedPlatform;
  list_papers _ := Err UnsupportedPlatform;
  list_trays := default_list_trays;
  list_media_types := default_list_media_types;
  print_pdf _ _ := Err UnsupportedPlatform;
  print_raw _ _ := Err UnsupportedPlatform;
  track_submission := default_track_submission;
  track_raw_submission := default_track_raw_submission
|}.
(** [default_backend], by the [target_os] of the build. *)
Definition default_backend (target_os : string) (cups_macos cups_linux windows : PrintBackend)
  : PrintBackend :=
  if bool_decide (target_os = "macos") then cups_macos
  else if bool_decide (target_os = "linux") then cups_linux
  else if bool_decide (target_os = "windows") then windows
  else unsupported_print_backend.

(** ** Properties *)

(** No build without a backend ever reports a submission or invents a printer. *)
Lemma unsupported_prints_nothing target_os cups_macos cups_linux windows :
  target_os ∉ ["macos"; "linux"; "windows"] →
  let backend := default_backend target_os cups_macos cups_linux windows in
  list_printers backend = Err UnsupportedPlatform ∧
  (∀ path options, print_pdf backend path options = Err UnsupportedPlatform) ∧
  ∀ data options, print_raw backend data options = Err UnsupportedPlatform.
Proof.
  intros Hos. unfold default_backend. rewrite !bool_decide_eq_false_2 by set_solver. done.
Qed.

Lemma div_ceil_range b : b ≤ (b + 7) / 8 * 8 ∧ (b + 7) / 8 * 8 < b + 8.
Proof.
  pose proof (N.div_mod (b + 7) 8 ltac:(done)) as H1.
  pose proof (N.mod_lt (b + 7) 8 ltac:(done)) as H2. revert H1 H2.
  generalize ((b + 7) / 8) as q, ((b + 7) mod 8) as r. lia.
Qed.
Lemma div_ceil_ge b : b ≤ (b + 7) / 8 * 8.
Proof. apply div_ceil_range. Qed.
Lemma div_ceil_lt b : (b + 7) / 8 * 8 < b + 8.
Proof. apply div_ceil_range. Qed.

Lemma resized_capacity b bytes :
  usize_capacity b < bytes →
  usize_capacity (buffer_resize bytes b) = (bytes + 7) / 8 * 8.
Proof.
  unfold usize_capacity, buffer_resize. rewrite length_app, length_replicate. intros H.
  pose proof (div_ceil_ge bytes). lia.
Qed.

(** A query writes into the buffer, it does not change its size. *)
Definition keeps_length {St E} (query : list N → M St E (BufferRead * list N)) : Prop :=
  ∀ b s answer b' s', query b s = (Ok (answer, b'), s') → length b' = length b.

Section read_buffer_properties.
Context {St E : Type} (print_error : PrintError → E).
Context (query : list N → M St E (BufferRead * list N)) (Hquery : keeps_length query).

(** What a round may end with. *)
Definition buffer_outcome (command : string) (r : result E (list N * N)) : Prop :=
  match r with
  | Ok (buffer, _) => usize_capacity buffer ≤ u32_max
  | Err e => (∃ m, e = print_error (CommandFailed command m)) ∨ ∃ b s, (query b s).1 = Err e
  end.

Lemma read_buffer_loop_spec n command b s t :
  usize_capacity b ≤ u32_max →
  let '(r, (_, t')) := read_buffer_loop print_error (logged query) n command b (s, t) in
  ∃ cs, t' = t ++ cs ∧ (length cs ≤ n)%nat ∧ Forall (λ c, usize_capacity b ≤ c) cs ∧
    StronglySorted N.lt cs ∧ Forall (λ c, c ≤ u32_max) cs ∧ buffer_outcome command r.
Proof using Hquery.
  revert b s t. induction n as [|n IH]; intros b s t Hb; cbn [read_buffer_loop].
  { exists []. rewrite app_nil_r. split_and!; [done|simpl; lia|constructor..|].
    left. by eexists. }
  rewrite M_bind_eq. unfold logged at 1. destruct (query b s) as [r s1] eqn:Hq.
  assert (∀ r', buffer_outcome command r' →
    ∃ cs, t ++ [usize_capacity b] = t ++ cs ∧ (length cs ≤ S n)%nat ∧
      Forall (λ c, usize_capacity b ≤ c) cs ∧ StronglySorted N.lt cs ∧
      Forall (λ c, c ≤ u32_max) cs ∧ buffer_outcome command r') as Hend.
  { intros r' Hr'. exists [usize_capacity b]. split_and!; [done|simpl; lia| | | |done];
      repeat constructor; done. }
  destruct r as [[answer b']|e].
  2:{ apply Hend. right. exists b, s. by rewrite Hq. }
  apply Hquery in Hq.
  assert (usize_capacity b' = usize_capacity b) as Hcap by (unfold usize_capacity; by rewrite Hq).
  destruct answer as [c|bytes|m]; [apply Hend; simpl; lia| |apply Hend; left; by eexists].
  destruct (_ && _) eqn:Hc; [|apply Hend; left; by eexists].
  apply andb_true_iff in Hc as [H1%N.ltb_lt H2%N.leb_le].
  pose proof (div_ceil_ge bytes) as Hge. pose proof (div_ceil_lt bytes) as Hlt.
  specialize (IH (buffer_resize bytes b') s1 (t ++ [usize_capacity b])).
  rewrite resized_capacity in IH by done.
  specialize (IH ltac:(unfold u32_max in *; lia)).
  destruct (read_buffer_loop _ _ _ _ _ _) as [r [s2 t']].
  destruct IH as (cs&->&Hn&Hle&Hsort&Hmax&Hr). exists (usize_capacity b :: cs).
  split_and!.
  - by rewrite <-app_assoc.
  - simpl. lia.
  - constructor; [lia|]. eapply Forall_impl; [exact Hle|]. simpl. lia.
  - constructor; [done|]. eapply Forall_impl; [exact Hle|]. simpl. lia.
  - by constructor.
  - done.
Qed.
End read_buffer_properties.

(** Reading a Win32 structure ends after at most four queries, each with a
    strictly larger buffer than the one before and never above the 32-bit limit
    the API can express, whatever the driver answers and the query does; a
    failure is the command's own error or one the query raised. *)
Theorem read_buffer_bounded {St E} (print_error : PrintError → E)
    (query : list N → M St E (BufferRead * list N)) (command : string) (s : St) :
  keeps_length query →
  let '(r, (_, trace)) := read_buffer print_error (logged query) command (s, []) in
  (length trace ≤ 4)%nat ∧ StronglySorted N.lt trace ∧ Forall (λ c, c ≤ u32_max) trace ∧
  buffer_outcome print_error query command r.
Proof.
  intros Hq. pose proof (read_buffer_loop_spec print_error query Hq 4 command [] s []) as H.
  unfold read_buffer. destruct (read_buffer_loop _ _ _ _ _ _) as [r [s' trace]].
  by destruct H as (cs&->&H1&_&H2&H3&H4).
Qed.

(** A driver whose data keeps growing. *)
Definition growing_query (b : list N) : M unit PrintError (BufferRead * list N) :=
  mret (Resize (usize_capacity b + 8), b).
Lemma read_buffer_bounded_witness :
  let '(r, (_, trace)) := read_buffer id (logged growing_query) "EnumFormsW" (tt, []) in
  (length trace ≤ 4)%nat ∧ StronglySorted N.lt trace ∧ Forall (λ c, c ≤ u32_max) trace ∧
  buffer_outcome id growing_query "EnumFormsW" r.
Proof.
  apply (read_buffer_bounded id growing_query "EnumFormsW" tt).
  intros b s answer b' s'. by intros [= _ <- _].
Defined.

(** SumatraPDF settings are produced exactly when the driver has a paper of
    the requested size (within a tenth of a millimetre, orientation included)
    whose first match has a positive 16-bit paper number; they then ask for at
    least one copy and for that paper number. *)
Theorem sumatra_print_settings_spec (copies : N) (requested : PaperInfo)
    (papers : list PaperInfo) (s : string) :
  sumatra_print_settings copies requested papers = Ok s ↔
  ∃ before paper after kind,
    papers = before ++ paper :: after ∧
    (let near p := f64_near (f64_lit 1 1) (pa_width_mm p) (pa_width_mm requested)
                   && f64_near (f64_lit 1 1) (pa_height_mm p) (pa_height_mm requested) in
     near paper = true ∧ Forall (λ p, near p = false) before) ∧
    parse_uint u16_max (pa_id paper) = Some kind ∧ 0 < kind ∧
    s = pretty (N.max copies 1) +:+ "x,fit," +:+
        (if f64_ltb (pa_height_mm requested) (pa_width_mm requested)
         then "landscape" else "portrait") +:+ ",paperkind=" +:+ pretty kind.
Proof.
  unfold sumatra_print_settings. rewrite result_bind_ok. setoid_rewrite ok_or_ok. split.
  - intros (paper&Hp&H). apply iter_find_some in Hp as (l1&l2&->&Hn&Hf).
    apply result_bind_ok in H as (kind&Hk&[= <-]).
    apply ok_or_ok, opt_filter_some in Hk as [Hk Hpos%N.ltb_lt].
    exists l1, paper, l2, kind. by split_and!.
  - intros (l1&paper&l2&kind&->&[Hn Hf]&Hk&Hpos%N.ltb_lt&->). exists paper. split.
    + induction Hf as [|p l1 Hp Hf IH]; simpl; [by rewrite Hn|by rewrite Hp].
    + apply result_bind_ok. exists kind. split; [|done].
      by apply ok_or_ok, opt_filter_some.
Qed.
