(* ===== verification/Cups.v ===== *)
(** * The CUPS print backend ([crates/runtime/src/printing/cups.rs])

    Listing printers, papers, trays and media through [lpstat] and [lpoptions],
    submitting with [lp], and asking what became of a job: the commands that are
    run, in order, and the parsers of their output.  The commands themselves are
    the environment's; their output is text. *)

From S2P Require Import Prelude RustStr F64 FileSys PrintTypes Printing.
From Stdlib Require Import Ascii ZArith.
Open Scope string_scope.
Open Scope N_scope.
Open Scope list_scope.

(** ** Parsing the output of the commands *)

Definition parse_lp_job_id (output : string) : option string :=
  '(_, request) ← split_once "request id is " output;
  part ← head (split_whitespace request);
  Some (trim_end_matches "." part).

Definition completed_jobs_contains_job (output job_id : string) : bool :=
  existsb (λ line,
    match head (split_whitespace line) with
    | Some token => bool_decide (trim_end_matches "." token = job_id)
    | None => false
    end) (lines output).

(** [classify_port]: local, network, virtual. *)
Definition classify_port (port : string) : option bool * option bool * option bool :=
  let lower := to_ascii_lowercase port in
  let is_virtual := starts_with "file:" lower || contains "pdf" lower || contains "fax" lower in
  let is_network := starts_with_any
    ["ipp:"; "ipps:"; "http:"; "https:"; "socket:"; "lpd:"; "smb:"; "dnssd:"] lower in
  let is_local := starts_with_any ["usb:"; "serial:"; "parallel:"] lower in
  if is_virtual then (Some false, Some false, Some true)
  else if is_network then (Some false, Some true, Some false)
  else if is_local then (Some true, Some false, Some false)
  else (None, None, None).

Definition parse_lpstat_destination (default_printer : option string)
    (ports : gmap string string) (line : string) : option PrinterInfo :=
  let name := trim line in
  if is_empty name then None
  else
    let printer := PrinterInfo_new name (bool_decide (default_printer = Some name)) in
    Some (match ports !! name with
          | Some port =>
              let '(is_local, is_network, is_virtual) := classify_port port in
              mkPrinterInfo (pi_name printer) (pi_is_default printer) (pi_dpi printer)
                (Some port) is_local is_network is_virtual
          | None => printer
          end).
Definition parse_lpstat_destinations (output : string) (default_printer : option string)
    (ports : gmap string string) : list PrinterInfo :=
  omap (parse_lpstat_destination default_printer ports) (lines output).

Definition parse_lpstat_device (line : string) : option (string * string) :=
  '(prefix, port) ← split_once ": " line;
  let name := trim (unwrap_or (strip_prefix "device for " prefix) prefix) in
  if is_empty name || is_empty (trim port) then None else Some (name, trim port).
(** Collecting into a [HashMap]: a later entry replaces an earlier one. *)
Definition collect_map (l : list (string * string)) : gmap string string :=
  fold_left (λ m '(k, v), <[k := v]> m) l ∅.
Definition parse_lpstat_devices (output : string) : gmap string string :=
  collect_map (omap parse_lpstat_device (lines output)).

Definition parse_default_destination (output : string) : option string :=
  iter_find_map (λ line,
    '(_, destination) ← opt_or (rsplit_once ":" line) (rsplit_once "：" line);
    let destination := trim destination in
    if is_empty destination then None else Some destination) (lines output).

Record OptionChoice := mkOptionChoice { oc_id : string; oc_name : string }.

Definition option_starts_with (line : string) (prefixes : list string) : bool :=
  starts_with_any prefixes (to_ascii_lowercase line).

Definition parse_option_choice (choice : string) : option OptionChoice :=
  if is_empty choice then None
  else
    let '(id, name) := unwrap_or (split_once "/" choice) (choice, choice) in
    Some (mkOptionChoice id (replace "_" " " name)).
Definition parse_option_choices (line : string) : list OptionChoice :=
  match split_once ":" line with
  | None => []
  | Some (_, choices) =>
      omap (λ choice, parse_option_choice (trim_start_matches "*" choice))
        (split_whitespace choices)
  end.

Definition option_lines (prefixes : list string) (output : string) : list string :=
  filter (λ line, option_starts_with line prefixes) (lines output).
Definition parse_lpoptions_trays (output : string) : list PrinterTrayInfo :=
  map (λ choice, mkPrinterTrayInfo (oc_id choice) (oc_name choice))
    (flat_map parse_option_choices (option_lines ["inputslot/"; "mediasource/"] output)).
Definition parse_lpoptions_media_types (output : string) : list PrinterMediaTypeInfo :=
  map (λ choice, mkPrinterMediaTypeInfo (oc_id choice) (oc_name choice))
    (flat_map parse_option_choices (option_lines ["mediatype/"; "mediaclass/"] output)).

Definition parse_dpi_choice (choice : string) : option N :=
  let lower := to_ascii_lowercase choice in
  let before := match split_once "dpi" lower with Some (before, _) => before | None => lower end in
  iter_max (omap (parse_uint u32_max)
    (map of_bytes (Bytes.split_by (λ c, negb (is_ascii_digit c)) (to_bytes before)))).
Definition parse_lpoptions_dpi (output : string) : option N :=
  iter_max (omap (λ choice, parse_dpi_choice (oc_id choice))
    (flat_map parse_option_choices (option_lines ["resolution/"; "printerresolution/"] output))).

(** ** Paper sizes *)

Definition normalized_media_token (choice : string) : string :=
  of_bytes (flat_map (λ c,
    if is_continuation c then []
    else if is_ascii_alphanumeric c then [ascii_lower c] else ["_"%char]) (to_bytes choice)).
Definition media_token_has_part (token part : string) : bool :=
  existsb (λ item, bool_decide (item = part)) (split_char "_"%char token).

Definition known_paper_size (choice : string) : option (string * f64 * f64) :=
  let token := normalized_media_token choice in
  let has := media_token_has_part token in
  if has "a3" || has "a3jis" then Some ("A3", mm 297, mm 420)
  else if has "a4" || has "a4jis" then Some ("A4", mm 210, mm 297)
  else if has "a5" || has "a5jis" then Some ("A5", mm 148, mm 210)
  else if has "a6" || has "a6jis" then Some ("A6", mm 105, mm 148)
  else if has "b4jis" then Some ("B4", mm 257, mm 364)
  else if has "b5jis" then Some ("B5", mm 182, mm 257)
  else if has "b6jis" then Some ("B6", mm 128, mm 182)
  else if has "letter" then Some ("Letter", f64_lit 2159 1, f64_lit 2794 1)
  else if has "legal" then Some ("Legal", f64_lit 2159 1, f64_lit 3556 1)
  else if has "tabloid" then Some ("Tabloid", f64_lit 2794 1, f64_lit 4318 1)
  else if has "ledger" then Some ("Ledger", f64_lit 4318 1, f64_lit 2794 1)
  else if has "executive" then Some ("Executive", f64_lit 18415 2, f64_lit 2667 1)
  else None.

Definition round_mm (value : f64) : f64 := f64_div (f64_round (f64_mul value (mm 100))) (mm 100).

Inductive SizeUnit := UnitMm | UnitIn.
(** The text but for its last [n] bytes. *)
Definition str_drop_end (n : nat) (s : string) : string :=
  of_bytes (take (String.length s - n) (to_bytes s)).
Definition strip_unit_suffix (size : string) : string * option SizeUnit :=
  let lower_size := to_ascii_lowercase size in
  if ends_with "mm" lower_size then (str_drop_end 2 size, Some UnitMm)
  else if ends_with "in" lower_size then (str_drop_end 2 size, Some UnitIn)
  else (size, None).

Definition is_number_char (c : ascii) : bool := is_ascii_digit c || Ascii.eqb c "."%char.
Definition trailing_number (value : string) : option f64 :=
  parse_decimal (of_bytes (reverse (Bytes.span is_number_char (reverse (to_bytes value))).1)).
Definition leading_number (value : string) : option f64 :=
  parse_decimal (of_bytes (Bytes.span is_number_char (to_bytes value)).1).

Definition parse_dimension_pair (size : string) : option (f64 * f64) :=
  let normalized_size := replace "mmx" "x" size in
  let '(size_without_unit, unit) := strip_unit_suffix normalized_size in
  '(before, after) ← rsplit_once "x" size_without_unit;
  width ← trailing_number before;
  height ← leading_number after;
  let use_inches := match unit with
                    | Some UnitIn => true
                    | Some UnitMm => false
                    | None => f64_leb width (mm 20) && f64_leb height (mm 20)
                    end in
  if use_inches
  then Some (round_mm (f64_mul width (f64_lit 254 1)), round_mm (f64_mul height (f64_lit 254 1)))
  else Some (round_mm width, round_mm height).

Definition parse_paper_choice (choice : string) : option PaperInfo :=
  match known_paper_size choice with
  | Some (name, width_mm, height_mm) => Some (mkPaperInfo choice name width_mm height_mm)
  | None =>
      let size := unwrap_or (opt_or (strip_prefix "Custom." choice) (strip_prefix "custom_" choice))
                    choice in
      '(width_mm, height_mm) ← parse_dimension_pair size;
      Some (mkPaperInfo choice (paper_name width_mm height_mm) width_mm height_mm)
  end.
Definition parse_paper_line (line : string) : list PaperInfo :=
  match split_once ":" line with
  | None => []
  | Some (_, choices) =>
      omap (λ choice, parse_paper_choice (trim_start_matches "*" choice)) (split_whitespace choices)
  end.
Definition parse_lpoptions_papers (output : string) : list PaperInfo :=
  flat_map parse_paper_line (option_lines ["pagesize/"; "media/"] output).

(** ** Running the commands *)

(** The answers of the operating system, by the number of the call; the two
    streams are read with [from_utf8_lossy]. *)
Class CupsEnv := {
  cups_run : nat → SysCommand → result IoError Output;
  cups_now : nat → string;
  cups_uuid : nat → string;
  cups_temp_dir : string
}.
(** The files, the number of calls, and the commands run so far, each with the
    files it saw. *)
Record CupsWorld := mkCupsWorld {
  cw_fs : Fs; cw_tick : nat; cw_commands : list (SysCommand * gmap string string)
}.

Inductive CupsPlatform := CupsMacos | CupsLinux.
Definition backend_name (platform : CupsPlatform) : string :=
  match platform with CupsMacos => "macos-cups" | CupsLinux => "linux-cups" end.
Definition raw_backend_name (platform : CupsPlatform) : string :=
  match platform with CupsMacos => "macos-cups-raw" | CupsLinux => "linux-cups-raw" end.

Definition command_error (command message : string) : PrintError := CommandFailed command message.

Section cups.
Context `{C : CupsEnv}.
Abbreviation CupsM := (M CupsWorld PrintError).

(** [Command::output] *)
Definition run_output {E} (command : SysCommand) : M CupsWorld E (result IoError Output) := λ w,
  (Ok (cups_run (cw_tick w) command),
   mkCupsWorld (cw_fs w) (S (cw_tick w)) (cw_commands w ++ [(command, fs_files (cw_fs w))])).
(** The output, or the failure to start the command. *)
Definition start_command (command : SysCommand) : CupsM Output :=
  output ← run_output command;
  lift (map_err (λ error, command_error (sc_program command) (io_message error)) output).

Definition run_command (command : string) (args : list string) : CupsM string :=
  output ← start_command (mkSysCommand command args);
  if out_success output then mret (out_stdout output)
  else raise (command_error command (trim (out_stderr output))).

Definition read_lpoptions (printer_name : string) : CupsM string :=
  output ← start_command (mkSysCommand "lpoptions" ["-p"; printer_name; "-l"]);
  if out_success output then mret (out_stdout output) else raise (PrinterNotFound printer_name).

Definition current_default_printer : CupsM (option string) :=
  output ← attempt (run_command "lpstat" ["-d"]);
  mret (result_ok output ≫= parse_default_destination).
Definition current_printer_ports : CupsM (gmap string string) :=
  output ← attempt (run_command "lpstat" ["-v"]);
  mret (unwrap_or (parse_lpstat_devices <$> result_ok output) ∅).

Definition with_dpi (printer : PrinterInfo) (dpi : option N) : PrinterInfo :=
  mkPrinterInfo (pi_name printer) (pi_is_default printer) dpi (pi_port printer)
    (pi_is_local printer) (pi_is_network printer) (pi_is_virtual printer).
Fixpoint read_dpis (printers : list PrinterInfo) : CupsM (list PrinterInfo) :=
  match printers with
  | [] => mret []
  | printer :: printers' =>
      output ← attempt (read_lpoptions (pi_name printer));
      rest ← read_dpis printers';
      mret (with_dpi printer (result_ok output ≫= parse_lpoptions_dpi) :: rest)
  end.
Definition cups_list_printers : CupsM (list PrinterInfo) :=
  printers_output ← run_command "lpstat" ["-e"];
  default_printer ← current_default_printer;
  ports ← current_printer_ports;
  read_dpis (parse_lpstat_destinations printers_output default_printer ports).

Definition ensure_printer_exists (printer_name : string) : CupsM unit :=
  printers ← cups_list_printers;
  if existsb (λ printer, bool_decide (pi_name printer = printer_name)) printers then mret tt
  else raise (PrinterNotFound printer_name).

Definition cups_list_papers (printer_name : string) : CupsM (list PaperInfo) :=
  _ ← ensure_printer_exists printer_name;
  output ← read_lpoptions printer_name;
  let papers := parse_lpoptions_papers output in
  mret (if bool_decide (papers = []) then common_label_papers else papers).
Definition cups_list_trays (printer_name : string) : CupsM (list PrinterTrayInfo) :=
  _ ← ensure_printer_exists printer_name;
  output ← read_lpoptions printer_name;
  mret (parse_lpoptions_trays output).
Definition cups_list_media_types (printer_name : string) : CupsM (list PrinterMediaTypeInfo) :=
  _ ← ensure_printer_exists printer_name;
  output ← read_lpoptions printer_name;
  mret (parse_lpoptions_media_types output).

(** ** Submitting *)

Definition resolve_print_paper (options : PrintOptions) : CupsM PaperInfo :=
  papers ← cups_list_papers (po_printer_name options);
  mret (resolve_paper_for_print papers (po_paper options)).

(** The end of both submissions. *)
Definition lp_submission (name : string) (output : Output) : CupsM PrintSubmission :=
  if out_success output then
    let system_job_id := parse_lp_job_id (out_stdout output) in
    n ← gets cw_tick;
    mret (mkPrintSubmission (cups_now n) name system_job_id (is_some system_job_id))
  else raise (command_error "lp" (trim (out_stderr output))).

Definition lp_pdf_command (path : string) (options : PrintOptions) (paper : PaperInfo)
  : SysCommand :=
  let copies := pretty (N.max (po_copies options) 1) in
  let media := "media=" +:+ cups_media_option paper in
  mkSysCommand "lp" ["-d"; po_printer_name options; "-n"; copies; "-o"; media; path].
Definition cups_print_pdf (platform : CupsPlatform) (path : string) (options : PrintOptions)
  : CupsM PrintSubmission :=
  _ ← ensure_printer_exists (po_printer_name options);
  paper ← resolve_print_paper options;
  output ← start_command (lp_pdf_command path options paper);
  lp_submission (backend_name platform) output.

Definition on_cups_fs {A} (m : IO A) : CupsM A :=
  mapping_err (λ error, command_error "raw-temp-file" (io_message error))
    (zoom cw_fs (λ fs w, mkCupsWorld fs (cw_tick w) (cw_commands w)) m).
Definition temp_raw_path (uuid : string) : string :=
  cups_temp_dir +:+ "/print-bridge-raw-" +:+ uuid +:+ ".bin".
Definition write_raw_temp_file (path data : string) : CupsM unit :=
  _ ← on_cups_fs (fs_create path);
  _ ← on_cups_fs (fs_append path data);
  on_cups_fs fs_flush.

Definition cups_print_raw (platform : CupsPlatform) (data : string) (options : RawPrintOptions)
  : CupsM PrintSubmission :=
  _ ← ensure_printer_exists (ro_printer_name options);
  n ← gets cw_tick;
  let path := temp_raw_path (cups_uuid n) in
  _ ← write_raw_temp_file path data;
  output ← run_output (mkSysCommand "lp" ["-d"; ro_printer_name options; "-o"; "raw"; path]);
  _ ← attempt (on_cups_fs (fs_remove_file path));
  output ← lift (map_err (λ error, command_error "lp" (io_message error)) output);
  lp_submission (raw_backend_name platform) output.

(** [track_cups_submission], the body of both tracking methods. *)
Definition track_cups_submission (submission : PrintSubmission)
  : M CupsWorld Empty_set PrintTrackingOutcome :=
  match su_system_job_id submission with
  | None => mret (TrackUnknown "CUPS did not expose a print job id")
  | Some job_id =>
      output ← run_output (mkSysCommand "lpstat" ["-W"; "completed"; "-o"]);
      mret (match output with
            | Ok output =>
                if out_success output then
                  if completed_jobs_contains_job (out_stdout output) job_id
                  then TrackCompleted "CUPS reports the print job as completed"
                  else TrackUnknown "CUPS job status was no longer available"
                else TrackUnknown (trim (out_stderr output))
            | Err error => TrackUnknown (io_message error)
            end)
  end.

(** The CUPS backend as the agent sees it: the trait's operations at a world. *)
Definition cups_backend (platform : CupsPlatform) (w : CupsWorld) : PrintBackend := {|
  list_printers := (cups_list_printers w).1;
  list_papers printer_name := (cups_list_papers printer_name w).1;
  list_trays printer_name := (cups_list_trays printer_name w).1;
  list_media_types printer_name := (cups_list_media_types printer_name w).1;
  print_pdf path options := (cups_print_pdf platform path options w).1;
  print_raw data options := (cups_print_raw platform data options w).1;
  track_submission submission _ :=
    match (track_cups_submission submission w).1 with Ok o => o | Err e => match e with end end;
  track_raw_submission submission _ :=
    match (track_cups_submission submission w).1 with Ok o => o | Err e => match e with end end
|}.
End cups.

(** ** The examples of the source's tests *)

Example parses_dimensions :
  map (λ s, parse_paper_choice s)
    ["8.5x11"; "12x18"; "Custom.60x40mm"; "iso_a4_210x297mm"; "220mmx330mm"; "A4Wide";
     "na_legal_8.5x14in"; "A3JIS"] =
  [Some (mkPaperInfo "8.5x11" "215.9 x 279.4 mm" (f64_lit 2159 1) (f64_lit 2794 1));
   Some (mkPaperInfo "12x18" "304.8 x 457.2 mm" (f64_lit 3048 1) (f64_lit 4572 1));
   Some (mkPaperInfo "Custom.60x40mm" "60 x 40 mm" (mm 60) (mm 40));
   Some (mkPaperInfo "iso_a4_210x297mm" "A4" (mm 210) (mm 297));
   Some (mkPaperInfo "220mmx330mm" "220 x 330 mm" (mm 220) (mm 330));
   None;
   Some (mkPaperInfo "na_legal_8.5x14in" "Legal" (f64_lit 2159 1) (f64_lit 3556 1));
   Some (mkPaperInfo "A3JIS" "A3" (mm 297) (mm 420))].
Proof. vm_compute. reflexivity. Qed.
Example parses_devices_and_options :
  parse_lpoptions_dpi
    ("Resolution/Output Resolution: *203dpi 300x300dpi 600dpi" +:+ String "010" "") = Some 600 ∧
  parse_default_destination "系统默认目的位置：HP_LaserJet" = Some "HP_LaserJet" ∧
  completed_jobs_contains_job "Printer-10 user 1024" "Printer-1" = false ∧
  parse_lp_job_id "request id is HP_LaserJet-42 (1 file(s))" = Some "HP_LaserJet-42".
Proof. vm_compute. by split_and!. Qed.

(** ** Properties of the commands *)

Section commands.
Context `{C : CupsEnv}.
Implicit Types (w : CupsWorld).

(** Only commands other than [lp] were run, and no file changed. *)
Definition queried w w' : Prop :=
  cw_fs w' = cw_fs w ∧
  ∃ cs, cw_commands w' = cw_commands w ++ cs ∧ Forall (λ c, sc_program c.1 ≠ "lp") cs.
#[local] Instance queried_preorder : PreOrder queried.
Proof.
  split.
  - intros w. split; [done|]. exists []. by rewrite app_nil_r.
  - intros w1 w2 w3 [H1 (c1&Hc1&Hf1)] [H2 (c2&Hc2&Hf2)]. split; [congruence|].
    exists (c1 ++ c2). rewrite Hc2, Hc1, app_assoc. split; [done|]. by apply Forall_app.
Qed.

Lemma run_output_queried {E} command :
  sc_program command ≠ "lp" → respects queried (run_output (E := E) command).
Proof.
  intros Hc w. split; [done|]. eexists. split; [done|]. by apply Forall_singleton.
Qed.
Lemma start_command_queried command :
  sc_program command ≠ "lp" → respects queried (start_command command).
Proof. intros Hc. unfold start_command. solve_respects. by apply run_output_queried. Qed.
Lemma run_command_queried command args :
  command ≠ "lp" → respects queried (run_command command args).
Proof. intros Hc. unfold run_command. solve_respects. by apply start_command_queried. Qed.
Lemma read_lpoptions_queried name : respects queried (read_lpoptions name).
Proof. unfold read_lpoptions. solve_respects. by apply start_command_queried. Qed.
Hint Resolve read_lpoptions_queried : respects.
Lemma read_dpis_queried l : respects queried (read_dpis l).
Proof. induction l; simpl; solve_respects. Qed.
Hint Resolve read_dpis_queried : respects.
Lemma list_printers_queried : respects queried cups_list_printers.
Proof.
  unfold cups_list_printers, current_default_printer, current_printer_ports. solve_respects;
    by apply run_command_queried.
Qed.
Hint Resolve list_printers_queried : respects.
Lemma ensure_printer_queried name : respects queried (ensure_printer_exists name).
Proof. unfold ensure_printer_exists. solve_respects. Qed.
Hint Resolve ensure_printer_queried : respects.
Lemma list_papers_queried name : respects queried (cups_list_papers name).
Proof. unfold cups_list_papers. solve_respects. Qed.
Hint Resolve list_papers_queried : respects.
Lemma resolve_paper_queried options : respects queried (resolve_print_paper options).
Proof. unfold resolve_print_paper. solve_respects. Qed.

(** A printer the system listed. *)
Definition listed (name : string) : Prop :=
  ∃ w printers, (cups_list_printers w).1 = Ok printers ∧ name ∈ map pi_name printers.
Lemma ensure_printer_ok name w w' :
  ensure_printer_exists name w = (Ok tt, w') → listed name.
Proof.
  intros H. apply M_bind_ok in H as (printers&w1&H1&H).
  destruct (existsb _ printers) eqn:He; [|done].
  apply existsb_true in He as (p&Hp&Hn%bool_decide_eq_true).
  exists w, printers. rewrite H1. split; [done|]. apply list_elem_of_fmap. by exists p.
Qed.

(** What [lp] answered, as the outcome of a submission. *)
Definition lp_outcome (name : string) (n : nat) (output : result IoError Output)
  : PrintResult PrintSubmission :=
  match output with
  | Err error => Err (CommandFailed "lp" (io_message error))
  | Ok output =>
      if out_success output then
        Ok (mkPrintSubmission (cups_now n) name (parse_lp_job_id (out_stdout output))
              (is_some (parse_lp_job_id (out_stdout output))))
      else Err (CommandFailed "lp" (trim (out_stderr output)))
  end.

(** Two papers of the same size, to half a millimetre in each direction. *)
Definition same_size (p q : PaperInfo) : bool :=
  f64_near (f64_lit 1 2) (pa_width_mm p) (pa_width_mm q) &&
  f64_near (f64_lit 1 2) (pa_height_mm p) (pa_height_mm q).
Lemma resolved_paper papers requested :
  let paper := resolve_paper_for_print papers requested in
  paper ∈ papers ∧ same_size paper requested = true ∨
  paper = requested ∧ Forall (λ p, same_size p requested = false) papers.
Proof.
  unfold resolve_paper_for_print, find_matching_paper. cbv zeta.
  change (λ candidate, _ && _) with (λ p, same_size p requested).
  destruct (iter_find _ papers) as [p|] eqn:Hp; cbn [default].
  - left. apply iter_find_some in Hp as (l1&l2&->&?&_). split; [set_solver|done].
  - right. split; [done|]. by apply iter_find_none.
Qed.

(** C27: CUPS prints a document with one [lp] command or not at all.  Everything
    else that is run only asks questions, no file changes, and the command names
    a printer the system listed, the document, at least one copy, and a medium: the
    one of a paper the driver offers in the requested size, or, when it offers none,
    the requested paper itself, as a custom size.  The submission succeeds exactly
    when [lp] does, with the job id it printed. *)
Theorem cups_print_pdf_once (platform : CupsPlatform) (path : string) (options : PrintOptions) w :
  let '(r, w') := cups_print_pdf platform path options w in
  (queried w w' ∧ ∃ e, r = Err e) ∨
  (∃ w1 papers,
     let media := cups_media_option (resolve_paper_for_print papers (po_paper options)) in
     let command := mkSysCommand "lp" ["-d"; po_printer_name options;
                      "-n"; pretty (N.max (po_copies options) 1);
                      "-o"; "media=" +:+ media; path] in
     queried w w1 ∧ listed (po_printer_name options) ∧
     (∃ w0, (cups_list_papers (po_printer_name options) w0).1 = Ok papers) ∧
     (let paper := resolve_paper_for_print papers (po_paper options) in
      paper ∈ papers ∧ same_size paper (po_paper options) = true ∨
      paper = po_paper options ∧ Forall (λ p, same_size p (po_paper options) = false) papers) ∧
     cw_fs w' = cw_fs w ∧
     cw_commands w' = cw_commands w1 ++ [(command, fs_files (cw_fs w))] ∧
     r = lp_outcome (backend_name platform) (cw_tick w') (cups_run (cw_tick w1) command)).
Proof.
  unfold cups_print_pdf. rewrite M_bind_eq.
  pose proof (ensure_printer_queried (po_printer_name options) w) as Hq.
  destruct (ensure_printer_exists _ w) as [[[]|e] w1] eqn:He; [|left; split; [done|by eexists]].
  apply ensure_printer_ok in He. rewrite M_bind_eq. unfold resolve_print_paper. rewrite M_bind_eq.
  pose proof (list_papers_queried (po_printer_name options) w1) as Hq1.
  destruct (cups_list_papers _ w1) as [[papers|e] w2] eqn:Hp;
    (assert (queried w w2) as Hq2 by (etrans; [exact Hq|exact Hq1]));
    [|left; split; [exact Hq2|by eexists]].
  assert (∃ w0, (cups_list_papers (po_printer_name options) w0).1 = Ok papers) as Hw0
    by (exists w1; by rewrite Hp).
  pose proof (resolved_paper papers (po_paper options)) as Hpaper.
  unfold mret at 1, M_ret at 1. cbn beta iota. unfold start_command.
  rewrite !M_bind_eq. unfold run_output, lift at 1. destruct Hq2 as [Hfs Hcs].
  unfold lp_pdf_command. cbv zeta. set (command := mkSysCommand _ _).
  destruct (cups_run (cw_tick w2) command) as [output|e] eqn:Hr; cbn [map_err].
  2:{ right. exists w2, papers. fold command. rewrite Hr. cbn in Hpaper |- *. rewrite <-Hfs. repeat (split; [done|]). done. }
  cbn beta iota. unfold lp_submission, lp_outcome. destruct (out_success output) eqn:Ho;
    right; exists w2, papers; fold command; rewrite Hr; cbn in Hpaper |- *; rewrite Ho, <-Hfs; repeat (split; [done|]); done.
Qed.

Lemma write_raw_spec path data w :
  let '(r, w') := write_raw_temp_file path data w in
  cw_commands w' = cw_commands w ∧ cw_tick w' = cw_tick w ∧ only_path path (cw_fs w) (cw_fs w') ∧
  (r = Ok tt → fs_files (cw_fs w') !! path = Some data).
Proof.
  unfold write_raw_temp_file, on_cups_fs, mapping_err, zoom. rewrite M_bind_eq.
  pose proof (fs_create_only path (cw_fs w)) as H1.
  assert (∀ fs', fs_create path (cw_fs w) = (Ok tt, fs') → fs_files fs' !! path = Some "") as Hc.
  { unfold fs_create. destruct (fault_now _) as [[]|]; [done|]. intros fs' [= <-].
    simpl. by rewrite lookup_insert, decide_True. }
  destruct (fs_create path (cw_fs w)) as [[[]|e] fs1]; simpl; [|by split_and!].
  specialize (Hc _ eq_refl). simpl in H1.
  assert (fs_append path data fs1 = fs_write path data fs1) as Happ
    by (unfold fs_append; by rewrite Hc).
  rewrite M_bind_eq. simpl. rewrite Happ. pose proof (fs_write_only path data fs1) as H2.
  pose proof (fs_write_ok path data fs1) as Hw.
  destruct (fs_write path data fs1) as [[[]|e] fs2]; simpl in *.
  2:{ split_and!; [done|done|by eapply only_path_trans|done]. }
  specialize (Hw _ eq_refl). unfold fs_flush.
  assert (only_path path (cw_fs w) fs2) as H3 by (by eapply only_path_trans).
  destruct (fault_now fs2) as [[]|]; simpl; split_and!; done.
Qed.

Lemma remove_raw_spec path w :
  ∃ r w', attempt (on_cups_fs (fs_remove_file path)) w = (Ok r : PrintResult _, w') ∧
    cw_commands w' = cw_commands w ∧ cw_tick w' = cw_tick w ∧
    only_path path (cw_fs w) (cw_fs w') ∧ cleaned path (cw_fs w').
Proof.
  destruct (fs_remove_quietly_cleaned (E := PrintError) path (cw_fs w)) as (fs'&H&Ho&Hc).
  unfold fs_remove_quietly, attempt, on_cups_fs, mapping_err, zoom in *.
  rewrite M_bind_eq in H. destruct (fs_remove_file path (cw_fs w)) as [r fs''].
  injection H as ->. by eexists _, _.
Qed.

(** CUPS prints raw data with one [lp -o raw] command or not at all.  The
    command names a listed printer and a fresh temporary file that holds exactly
    the data while it runs; afterwards the file is gone, unless its removal
    failed, whatever [lp] did; nothing else changes. *)
Theorem cups_print_raw_once (platform : CupsPlatform) (data : string) (options : RawPrintOptions) w :
  let '(r, w') := cups_print_raw platform data options w in
  ∃ w1, queried w w1 ∧
    let path := temp_raw_path (cups_uuid (cw_tick w1)) in
    let command := mkSysCommand "lp" ["-d"; ro_printer_name options; "-o"; "raw"; path] in
    only_path path (cw_fs w) (cw_fs w') ∧
    ((cw_commands w' = cw_commands w1 ∧ ∃ e, r = Err e) ∨
     (listed (ro_printer_name options) ∧ cleaned path (cw_fs w') ∧
      (∃ files, cw_commands w' = cw_commands w1 ++ [(command, files)] ∧
         files !! path = Some data) ∧
      r = lp_outcome (raw_backend_name platform) (cw_tick w') (cups_run (cw_tick w1) command))).
Proof.
  unfold cups_print_raw. rewrite M_bind_eq.
  pose proof (ensure_printer_queried (ro_printer_name options) w) as Hq.
  destruct (ensure_printer_exists _ w) as [[[]|e] w1] eqn:He; simpl in Hq.
  2:{ exists w1. split; [done|]. destruct Hq as [-> _]. split; [apply only_path_refl|].
      left. split; [done|by eexists]. }
  apply ensure_printer_ok in He. rewrite gets_bind. cbv zeta. rewrite M_bind_eq.
  pose proof (write_raw_spec (temp_raw_path (cups_uuid (cw_tick w1))) data w1) as Hw.
  destruct Hq as [Hfs Hcs]. rewrite <-Hfs.
  destruct (write_raw_temp_file _ _ w1) as [[[]|e] w2]; destruct Hw as (H1&H2&H3&H4).
  2:{ exists w1. split; [done|]. split; [done|]. left. split; [done|by eexists]. }
  rewrite M_bind_eq. unfold run_output. cbn beta iota. rewrite H2.
  set (command := mkSysCommand "lp" _).
  set (w3 := mkCupsWorld _ _ _).
  destruct (remove_raw_spec (temp_raw_path (cups_uuid (cw_tick w1))) w3) as (r&w4&Hr&H5&H6&H7&H8).
  rewrite M_bind_eq, Hr, lift_bind. unfold lp_submission.
  assert (only_path (temp_raw_path (cups_uuid (cw_tick w1))) (cw_fs w1) (cw_fs w4)) as Ho
    by (by eapply only_path_trans).
  assert (∃ files, cw_commands w4 = cw_commands w1 ++ [(command, files)] ∧
    files !! temp_raw_path (cups_uuid (cw_tick w1)) = Some data) as Hf.
  { rewrite H5. simpl. rewrite H1. eexists. split; [done|]. by apply H4. }
  destruct (cups_run (cw_tick w1) command) as [output|e] eqn:Hrun;
    [cbn [map_err]; destruct (out_success output) eqn:Hs|];
    (exists w1; split; [done|]; cbv zeta; fold command; split; [done|]; right;
     split; [done|]; split; [done|]; split; [done|];
     rewrite Hrun; unfold lp_outcome; rewrite ?Hs; done).
Qed.
End commands.

(** ** Job ids *)

(** A job id as CUPS makes it: visible characters, not ending with a point. *)
Definition job_token (id : string) : Prop :=
  id ≠ "" ∧ Forall (λ c, visible c = true) (to_bytes id) ∧ ends_with "." id = false.

Lemma trim_points_id id : ends_with "." id = false → trim_end_matches "." id = id.
Proof.
  intros H. unfold trim_end_matches. rewrite BytesFacts.trim_end_id; [apply of_to_bytes|].
  apply BytesFacts.strip_any_none. intros p Hp.
  apply list_elem_of_fmap in Hp as (q&->&->%list_elem_of_singleton).
  unfold ends_with, strip_suffix, Bytes.strip_suffix in H. apply is_some_false in H.
  by apply fmap_None, fmap_None in H.
Qed.

(** The lines of [lpstat -o]: a job id, a space, and the rest. *)
Definition status_line (l : string * string) : string := l.1 +:+ " " +:+ l.2.

Lemma status_line_token k rest :
  job_token k →
  head (split_whitespace (of_bytes (Bytes.strip_cr (to_bytes (status_line (k, rest)))))) = Some k.
Proof.
  intros (Hne&Hv&_). unfold status_line. cbn [fst snd]. rewrite !to_bytes_app.
  change (to_bytes " " ++ to_bytes rest) with (" "%char :: to_bytes rest).
  destruct (strip_cr_word (to_bytes k) (to_bytes rest)) as [rest' ->].
  assert (of_bytes (to_bytes k ++ " "%char :: rest') = k +:+ (" " +:+ of_bytes rest')) as ->.
  { apply to_bytes_inj. by rewrite !to_bytes_app, !to_of_bytes. }
  by apply first_word_visible.
Qed.

(** The job a submission is tracked by is the one [lp] named, and no other.
    The id is read back from the message of [lp], and a job is reported completed
    exactly when a line of the listing of completed jobs begins with that id: an
    id that is a prefix of another, like Printer-1 and Printer-10, is not
    confused with it. *)
Theorem job_tracking_exact (id : string) (jobs : list (string * string)) :
  job_token id →
  Forall (λ l, job_token l.1 ∧ "010"%char ∉ to_bytes l.2) jobs →
  parse_lp_job_id ("request id is " +:+ (id +:+ " (1 file(s))")) = Some id ∧
  (completed_jobs_contains_job (unlines (map status_line jobs)) id = true ↔ id ∈ map fst jobs).
Proof.
  intros Hid Hjobs. split.
  { destruct Hid as (Hne&Hv&Hd). unfold parse_lp_job_id.
    assert (split_once "request id is " ("request id is " +:+ (id +:+ " (1 file(s))")) =
      Some ("", id +:+ " (1 file(s))")) as ->.
    { unfold split_once. simpl. by rewrite of_to_bytes. }
    cbn [mbind option_bind]. 
    change (" (1 file(s))") with (" " +:+ "(1 file(s))").
    rewrite (first_word_visible id "(1 file(s))") by done. simpl. by rewrite trim_points_id. }
  unfold completed_jobs_contains_job. rewrite lines_unlines.
  2:{ apply Forall_map. eapply Forall_impl; [exact Hjobs|]. intros [k rest] [(_&Hv&_) Hr] Hin.
      unfold status_line in Hin. rewrite !to_bytes_app in Hin. simpl in Hin.
      apply elem_of_app in Hin as [Hin|[?|?]%elem_of_cons]; [|done|done].
      eapply Forall_forall in Hv; [|exact Hin]. done. }
  rewrite existsb_true. rewrite Forall_forall in Hjobs. split.
  - intros (line&Hl&Ht). apply list_elem_of_fmap in Hl as (line'&->&Hl).
    apply list_elem_of_fmap in Hl as ([k rest]&->&Hin).
    destruct (Hjobs _ Hin) as [Hk _]. rewrite status_line_token in Ht by done.
    apply bool_decide_eq_true in Ht. destruct Hk as (_&_&Hd). rewrite trim_points_id in Ht by done.
    apply list_elem_of_fmap. by exists (k, rest).
  - intros Hin. apply list_elem_of_fmap in Hin as ([k rest]&->&Hin).
    destruct (Hjobs _ Hin) as [Hk _]. eexists. split.
    + apply list_elem_of_fmap. eexists. split; [done|]. apply list_elem_of_fmap.
      by exists (k, rest).
    + rewrite status_line_token by done. apply bool_decide_eq_true.
      destruct Hk as (_&_&Hd). by rewrite trim_points_id.
Qed.

(** ** Media *)

Lemma span_all f l : Forall (λ c, f c = true) l → Bytes.span f l = (l, []).
Proof. induction 1 as [|c l Hc _ IH]; [done|]. simpl. by rewrite Hc, IH. Qed.

Lemma split_once_absent c p l k :
  c ∉ l → Bytes.split_once (c :: p) (l ++ k) = (λ '(a, b), (l ++ a, b)) <$> Bytes.split_once (c :: p) k.
Proof.
  induction l as [|x l IH]; intros Hc.
  { simpl. by destruct (Bytes.split_once _ k) as [[]|]. }
  apply not_elem_of_cons in Hc as [Hx Hc]. cbn [app Bytes.split_once Bytes.strip_prefix].
  destruct (Ascii.eqb_spec c x) as [->|_]; [done|]. rewrite IH by done.
  by destruct (Bytes.split_once _ k) as [[]|].
Qed.

Lemma split_by_subset f l w c : w ∈ Bytes.split_by f l → c ∈ w → c ∈ l.
Proof.
  revert w. induction l as [|x l IH]; simpl; intros w.
  { intros ->%list_elem_of_singleton. done. }
  destruct (f x).
  { intros [->|Hw]%elem_of_cons Hc; [by apply not_elem_of_nil in Hc|]. right. by eapply IH. }
  destruct (Bytes.split_by f l) as [|y ys].
  { intros ->%list_elem_of_singleton ->%list_elem_of_singleton. by left. }
  intros [->|Hw]%elem_of_cons.
  - intros [->|Hc]%elem_of_cons; [by left|]. right. eapply IH; [by left|done].
  - intros Hc. right. eapply IH; [by right|done].
Qed.

(** The characters of a normalised size, and the names none of them makes up. *)
Definition is_size_char (c : ascii) : bool :=
  is_ascii_digit c || existsb (Ascii.eqb c) ["_"; "x"; "m"]%char.
Definition known_parts : list string :=
  ["a3"; "a3jis"; "a4"; "a4jis"; "a5"; "a5jis"; "a6"; "a6jis"; "b4jis"; "b5jis"; "b6jis";
   "letter"; "legal"; "tabloid"; "ledger"; "executive"].

Lemma custom_token_unknown s :
  Forall (λ c, is_number_char c = true ∨ c = "x"%char ∨ c = "m"%char) (to_bytes s) →
  known_paper_size ("Custom." +:+ s) = None.
Proof.
  intros Hs.
  assert (∀ part, part ∈ known_parts →
    media_token_has_part (normalized_media_token ("Custom." +:+ s)) part = false) as Hpart.
  { intros part Hp. unfold media_token_has_part. apply existsb_false. intros item Hi.
    apply bool_decide_eq_false. intros ->. unfold split_char, normalized_media_token in Hi.
    rewrite to_of_bytes, to_bytes_app, flat_map_app in Hi.
    set (t := flat_map _ (to_bytes s)) in Hi.
    change (flat_map _ (to_bytes "Custom.")) with (to_bytes "custom" ++ ["_"%char]) in Hi.
    rewrite <-app_assoc in Hi. cbn [app] in Hi.
    rewrite split_by_app in Hi by (apply (bool_decide_unpack _); by vm_compute).
    assert (Forall (λ c, is_size_char c = true) t) as Ht.
    { subst t. clear -Hs. induction Hs as [|c l Hc _ IH]; [constructor|]. simpl.
      apply Forall_app. split; [|done].
      destruct Hc as [Hc|[->| ->]]; [|by repeat constructor..].
      destruct c as [[] [] [] [] [] [] [] []]; try discriminate Hc; by repeat constructor. }
    rewrite Forall_forall in Ht. cbn [map] in Hi. apply elem_of_cons in Hi as [->|Hi].
    { revert Hp. apply (bool_decide_unpack _). by vm_compute. }
    apply list_elem_of_fmap in Hi as (w&->&Hw).
    assert (forallb (λ p, existsb (λ c, negb (is_size_char c)) (to_bytes p)) known_parts = true)
      as Hk by (vm_compute; reflexivity).
    rewrite forallb_true in Hk. specialize (Hk _ Hp). apply existsb_true in Hk as (c&Hc&Hn).
    rewrite to_of_bytes in Hc. rewrite Ht in Hn by (by eapply split_by_subset). done. }
  unfold known_paper_size. cbv zeta.
  rewrite !Hpart by (apply (bool_decide_unpack _); by vm_compute). done.
Qed.

Lemma dimension_pair_parsed (a b : string) (w h : f64) :
  Forall (λ c, is_number_char c = true) (to_bytes a) →
  Forall (λ c, is_number_char c = true) (to_bytes b) →
  parse_decimal a = Some w → parse_decimal b = Some h →
  parse_dimension_pair (a +:+ "x" +:+ b +:+ "mm") = Some (round_mm w, round_mm h).
Proof.
  intros Ha Hb Hw Hh. unfold parse_dimension_pair.
  assert (∀ c l, Forall (λ c, is_number_char c = true) l → is_number_char c = false → c ∉ l) as Hno.
  { intros c l Hl Hc Hin. eapply Forall_forall in Hl; [|exact Hin]. congruence. }
  set (ab := to_bytes a ++ "x"%char :: to_bytes b).
  assert (to_bytes (a +:+ "x" +:+ b +:+ "mm") = ab ++ ["m"; "m"]%char) as Hsize.
  { unfold ab. rewrite !to_bytes_app. cbn. by rewrite <-app_assoc. }
  assert ("m"%char ∉ ab) as Hm.
  { unfold ab. intros [?|[[=]|?]%elem_of_cons]%elem_of_app;
      by eapply (Hno "m"%char); [| |eassumption]. }
  assert (replace "mmx" "x" (a +:+ "x" +:+ b +:+ "mm") = a +:+ "x" +:+ b +:+ "mm") as ->.
  { unfold replace. rewrite Hsize. apply to_bytes_inj. rewrite Hsize, to_of_bytes.
    unfold Bytes.replace. destruct (length _); [done|]. cbn [Bytes.replace_go].
    change (to_bytes "mmx") with ["m"; "m"; "x"]%char. by rewrite split_once_absent. }
  assert (strip_unit_suffix (a +:+ "x" +:+ b +:+ "mm") = (of_bytes ab, Some UnitMm)) as ->.
  { unfold strip_unit_suffix.
    assert (ends_with "mm" (to_ascii_lowercase (a +:+ "x" +:+ b +:+ "mm")) = true) as ->.
    { unfold ends_with, strip_suffix, to_ascii_lowercase. rewrite to_of_bytes, Hsize, map_app.
      by rewrite (proj2 (BytesFacts.strip_suffix_spec _ _ (map ascii_lower ab))). }
    unfold str_drop_end. rewrite <-to_bytes_length, Hsize, length_app. simpl.
    f_equal. f_equal. by rewrite Nat.add_sub, take_app_length. }
  assert (rsplit_once "x" (of_bytes ab) = Some (a, b)) as ->.
  { unfold rsplit_once, Bytes.rsplit_once. rewrite to_of_bytes. unfold ab.
    rewrite reverse_app, reverse_cons, <-app_assoc. cbn [app].
    change (reverse (to_bytes "x")) with ["x"%char].
    rewrite (proj2 (BytesFacts.b_split_once_char "x"%char _ (reverse (to_bytes b))
      (reverse (to_bytes a)))).
    { cbn. by rewrite !reverse_involutive, !of_to_bytes. }
    split; [done|]. rewrite elem_of_reverse. by apply Hno. }
  cbn [mbind option_bind]. unfold trailing_number, leading_number.
  rewrite !span_all by (by rewrite ?Forall_reverse). cbn [fst].
  by rewrite reverse_involutive, !of_to_bytes, Hw, Hh.
Qed.

(** A whole number of millimetres survives being printed and read. *)
Definition dimension_ok (n : Z) : bool :=
  let s := format_mm (mm n) in
  bool_decide (parse_decimal s = Some (mm n)) && bool_decide (round_mm (mm n) = mm n)
  && forallb is_number_char (to_bytes s).
Definition MAX_CHECKED_MM : Z := 1300.
Lemma dimensions_ok : forallb dimension_ok (seqZ 1 MAX_CHECKED_MM) = true.
Proof. vm_compute. reflexivity. Qed.
Lemma dimension_ok_at n : (1 ≤ n ≤ MAX_CHECKED_MM)%Z → dimension_ok n = true.
Proof.
  intros Hn. pose proof dimensions_ok as H. rewrite forallb_true in H. apply H.
  apply elem_of_seqZ. unfold MAX_CHECKED_MM in *. lia.
Qed.

(** The medium named to [lp] is the paper of the job.  For papers of whole
    millimetres up to 1300 by 1300, the custom medium the backend prints with is
    read back by the backend's own parser as a paper of exactly that size, never
    taken for a named standard size or for inches. *)
Theorem media_roundtrip (id name : string) (w h : Z) :
  (1 ≤ w ≤ MAX_CHECKED_MM)%Z → (1 ≤ h ≤ MAX_CHECKED_MM)%Z → is_cups_media_token id = false →
  let token := cups_media_option (mkPaperInfo id name (mm w) (mm h)) in
  parse_paper_choice token = Some (mkPaperInfo token (paper_name (mm w) (mm h)) (mm w) (mm h)).
Proof.
  intros Hw Hh Hid token. subst token. unfold cups_media_option. cbn [pa_id]. rewrite Hid.
  apply dimension_ok_at in Hw, Hh. unfold dimension_ok in Hw, Hh.
  rewrite !andb_true_iff, !bool_decide_eq_true, forallb_forall in Hw, Hh.
  setoid_rewrite <-list_elem_of_In in Hw. setoid_rewrite <-list_elem_of_In in Hh.
  destruct Hw as [[Hw1 Hw2] Hw3], Hh as [[Hh1 Hh2] Hh3]. rewrite <-Forall_forall in Hw3, Hh3.
  cbn [pa_width_mm pa_height_mm]. unfold custom_media_option.
  set (a := format_mm (mm w)) in *. set (b := format_mm (mm h)) in *. unfold parse_paper_choice.
  rewrite custom_token_unknown.
  - assert (strip_prefix "Custom." ("Custom." +:+ a +:+ "x" +:+ b +:+ "mm") =
      Some (a +:+ "x" +:+ b +:+ "mm")) as -> by (by apply strip_prefix_spec).
    cbn [opt_or unwrap_or]. rewrite (dimension_pair_parsed a b (mm w) (mm h)) by done.
    cbn [mbind option_bind]. by rewrite Hw2, Hh2.
  - rewrite !to_bytes_app. rewrite !Forall_app. split_and!.
    + eapply Forall_impl; [exact Hw3|]. auto.
    + apply Forall_singleton. by right; left.
    + eapply Forall_impl; [exact Hh3|]. auto.
    + apply Forall_cons. split; [|apply Forall_singleton]; by right; right.
Qed.

(** ** Witnesses *)

Lemma job_tracking_exact_witness :
  (job_token "Printer-1" ∧ job_token "Printer-10") ∧
  parse_lp_job_id ("request id is " +:+ ("Printer-1" +:+ " (1 file(s))")) = Some "Printer-1" ∧
  (completed_jobs_contains_job
     (unlines (map status_line [("Printer-10", "user 1024"); ("Printer-2", "user 9")])) "Printer-1"
   = true ↔ "Printer-1" ∈ ["Printer-10"; "Printer-2"]).
Proof.
  assert (∀ k, forallb visible (to_bytes k) = true → negb (is_empty k) = true →
    ends_with "." k = false → job_token k) as Hk.
  { intros k Hv Hne Hd. split_and!; [by destruct k| |exact Hd].
    apply Forall_forall. intros c Hc. rewrite forallb_true in Hv. by apply Hv. }
  split; [split; apply Hk; reflexivity|].
  apply (job_tracking_exact "Printer-1" [("Printer-10", "user 1024"); ("Printer-2", "user 9")]).
  - apply Hk; reflexivity.
  - repeat constructor; try (apply Hk; reflexivity);
      apply (bool_decide_unpack _); vm_compute; reflexivity.
Defined.

Lemma media_roundtrip_witness :
  parse_paper_choice "Custom.60x40mm" =
    Some (mkPaperInfo "Custom.60x40mm" "60 x 40 mm" (mm 60) (mm 40)).
Proof.
  apply (media_roundtrip "label_60x40" "60 x 40 mm" 60 40); [unfold MAX_CHECKED_MM; lia..|reflexivity].
Defined.
