(* ===== verification/WindowsPrint.v ===== *)
(** * The Windows print backend ([crates/runtime/src/printing/windows.rs])

    Printers through PowerShell, papers and raw jobs through the calls of the
    Win32 spooler, documents through SumatraPDF.  The unsafe code is modelled with
    its buffers: reading outside of one is the fault [Undefined].  The calls
    themselves and the layout of their structures are the environment's. *)

From S2P Require Import Prelude RustStr Wide F64 FileSys Externs PrintTypes Printing.
From Stdlib Require Import Ascii ZArith.
Open Scope string_scope.
Open Scope N_scope.
Open Scope list_scope.

(** ** The printers PowerShell lists *)

(** What the code tells apart in a [serde_json::Value]. *)
Inductive PrintQuality :=
  | QualityNumber (as_u64 : option N) | QualityString (value : string) | QualityOther.
Record PowerShellPrinter := mkPowerShellPrinter {
  ps_name : string; ps_default : option bool; ps_port_name : option string;
  ps_printer_type : option string; ps_device_type : option string;
  ps_driver_name : option string; ps_print_quality : option PrintQuality
}.
Inductive PrinterJson := One (printer : PowerShellPrinter) | Many (printers : list PowerShellPrinter).

Definition parse_dpi_text (value : string) : option N :=
  let lower := to_ascii_lowercase value in
  let before := match split_once "dpi" lower with Some (before, _) => before | None => lower end in
  iter_max (omap (parse_uint u32_max)
    (map of_bytes (Bytes.split_by (λ c, negb (is_ascii_digit c)) (to_bytes before)))).
Definition parse_print_quality_dpi (value : PrintQuality) : option N :=
  match value with
  | QualityNumber number => opt_filter (λ n, n <=? u32_max) number
  | QualityString value => parse_dpi_text value
  | QualityOther => None
  end.

(** Local, network, virtual. *)
Definition classify_windows_printer (name : string)
    (printer_type device_type driver_name port : option string)
  : option bool * option bool * option bool :=
  let text := to_ascii_lowercase
    (join " " (omap id [Some name; printer_type; device_type; driver_name; port])) in
  let port := to_ascii_lowercase (unwrap_or port "") in
  let is_virtual := existsb (λ word, contains word text)
    ["pdf"; "xps"; "onenote"; "fax"; "document writer"] in
  let is_network := starts_with_any ["\\"; "ip_"; "tcp"; "http"; "wsd"] port
    || contains "connection" text || contains "network" text in
  let is_local := starts_with_any ["usb"; "lpt"; "com"] port || contains "local" text in
  if is_virtual then (Some false, Some false, Some true)
  else if is_network then (Some false, Some true, Some false)
  else if is_local then (Some true, Some false, Some false)
  else (None, None, None).

(** [From<PowerShellPrinter> for PrinterInfo] *)
Definition printer_from_powershell (value : PowerShellPrinter) : PrinterInfo :=
  let dpi := ps_print_quality value ≫= parse_print_quality_dpi in
  let port := ps_port_name value in
  let '(is_local, is_network, is_virtual) :=
    classify_windows_printer (ps_name value) (ps_printer_type value) (ps_device_type value)
      (ps_driver_name value) port in
  mkPrinterInfo (ps_name value) (unwrap_or (ps_default value) false) dpi port
    is_local is_network is_virtual.

Definition command_error (command message : string) : PrintError := CommandFailed command message.

Definition parse_printers_json `{JsonCodec PrinterJson} (value : string)
  : PrintResult (list PrinterInfo) :=
  if is_empty (trim value) then Ok []
  else
    printers ← map_err
      (λ error, command_error "powershell" ("failed to parse printer json: " +:+ error))
      (from_json value);
    Ok (match printers with
        | One printer => [printer_from_powershell printer]
        | Many printers => map printer_from_powershell printers
        end).

(** ** Memory

    A buffer lies at an address; its bytes are those of its 64-bit words. *)

Definition usize_modulus : N := 2 ^ 64.
(** Addition in a release build. *)
Definition usize_add (a b : N) : N := (a + b) mod usize_modulus.

Definition byte_len (bytes : list N) : N := N.of_nat (length bytes).
Definition word_bytes (w : N) : list N :=
  map (λ i, N.shiftr w (8 * N.of_nat i) mod 256) (seq 0 8).
Definition bytes_of_words (words : list N) : list N := flat_map word_bytes words.

(** An error the code returns, or behaviour Rust leaves undefined (or a panic of
    a slice operation). *)
Inductive WinFault := WinError (error : PrintError) | Undefined.

Section memory.
Context {St : Type}.

(** Reading through a raw pointer into a buffer at address [base]. *)
Definition read_memory (base : N) (bytes : list N) (address size : N)
  : M St WinFault (list N) :=
  if (base <=? address) && (address + size <=? base + byte_len bytes)
  then mret (take (N.to_nat size) (drop (N.to_nat (address - base)) bytes))
  else raise Undefined.
(** Writing at the start of a buffer. *)
Definition write_memory (new bytes : list N) : M St WinFault (list N) :=
  if byte_len new <=? byte_len bytes then mret (new ++ drop (length new) bytes)
  else raise Undefined.
End memory.

(** ** The environment *)

(** The Win32 structures: sizes and fields, on the bytes of a structure. *)
Class Win32Layout := {
  size_of_FORM_INFO_1W : N;
  form_pName : list N → N;
  form_cx : list N → Z;
  form_cy : list N → Z;
  size_of_PRINTER_INFO_8W : N;
  size_of_PRINTER_INFO_9W : N;
  info_8_pDevMode : list N → N;
  info_9_pDevMode : list N → N;
  size_of_DEVMODEW : N;
  dmSize : list N → N;
  dmDriverExtra : list N → N;
  dmFields : list N → N;
  dmPaperSize : list N → Z;
  with_dmFields : N → list N → list N;
  with_dmPaperSize : Z → list N → list N;
  (** The 32 units of the form name. *)
  with_dmFormName : list N → list N → list N;
  DM_PAPERSIZE : N; DM_PAPERLENGTH : N; DM_PAPERWIDTH : N; DM_FORMNAME : N;
  PHYSICALWIDTH : N; PHYSICALHEIGHT : N; LOGPIXELSX : N; LOGPIXELSY : N;
  ERROR_INSUFFICIENT_BUFFER : N
}.

(** The calls, as they are recorded. *)
Inductive WinCall :=
  | OpenPrinterW (name : list N) (printer : option N)
  | ClosePrinter (printer : N)
  | EnumFormsW (printer capacity : N)
  | GetPrinterW (printer level capacity : N)
  | DocumentPropertiesW (printer : N) (name : list N)
  | CreateICW (name : list N) (dc : option N)
  | GetDeviceCaps (dc index : N)
  | DeleteDC (dc : N)
  | StartDocPrinterW (printer : N) (document data_type : list N) (ok : bool)
  | StartPagePrinter (printer : N) (ok : bool)
  | WritePrinter (printer : N) (data : string) (count : N)
  | EndPagePrinter (printer : N)
  | EndDocPrinter (printer : N)
  | HiddenCommand (command : SysCommand).

(** The answers, by the number of calls made before.  A query of the spooler is
    given its buffer and returns whether it succeeded, the bytes it needs, a
    count, and the buffer as it left it. *)
Class Win32 := {
  win_last_error : nat → N;
  win_error_text : N → string;
  win_open_printer : nat → list N → option N;
  win_start_doc : nat → bool;
  win_start_page : nat → bool;
  win_write : nat → string → bool * N;
  (** The address of the buffer handed to a query. *)
  win_address : nat → N;
  win_enum_forms : nat → list N → bool * N * N * list N;
  win_get_printer : nat → N → list N → bool * N * list N;
  (** The DEVMODE the driver writes for an input, if it accepts it. *)
  win_document_properties : nat → option (list N) → option (list N);
  win_create_ic : nat → list N → list N → option N;
  win_device_caps : nat → N → N → Z;
  win_run : nat → SysCommand → result IoError Output;
  win_now : nat → string;
  (** The directory of the running executable. *)
  win_exe_directory : option string
}.

(** The number of calls, the calls, and the address of the last query's buffer. *)
Record WinWorld := mkWinWorld { ww_tick : nat; ww_calls : list WinCall; ww_buffer : N }.

Section windows.
Context `{L : Win32Layout} `{W : Win32} `{J : JsonCodec PrinterJson}.
Abbreviation WinM := (M WinWorld WinFault).

(** A call: its answer, and its record. *)
Definition call {E A} (answer : nat → A) (record : A → WinCall) : M WinWorld E A := λ w,
  let a := answer (ww_tick w) in
  (Ok a, mkWinWorld (S (ww_tick w)) (ww_calls w ++ [record a]) (ww_buffer w)).
(** [GetLastError] and [last_os_error]: the error of the calls made so far. *)
Definition last_error {E} : M WinWorld E N := gets (λ w, win_last_error (ww_tick w)).
Definition last_os_error {E} : M WinWorld E string :=
  gets (λ w, win_error_text (win_last_error (ww_tick w))).
Definition fail {A} (command message : string) : WinM A :=
  raise (WinError (command_error command message)).
Definition fail_last {A} (command : string) : WinM A :=
  message ← last_os_error; fail command message.

Definition open_printer (name : list N) : WinM (option N) :=
  call (λ n, win_open_printer n name) (OpenPrinterW name).
Definition close_printer (printer : N) : WinM unit :=
  call (λ _, tt) (λ _, ClosePrinter printer).

(** ** Reading the default configuration *)

(** [buffer_read_result] *)
Definition buffer_read_result (ok : bool) (needed count : N) : WinM BufferRead :=
  if ok then mret (Complete count)
  else
    code ← last_error;
    if code =? ERROR_INSUFFICIENT_BUFFER then mret (Resize needed)
    else message ← last_os_error; mret (BFailed message).

(** A query that is handed a buffer. *)
Definition buffer_call {A} (buffer : list N) (answer : nat → A) (record : WinCall) : WinM A :=
  _ ← modify (λ w, mkWinWorld (ww_tick w) (ww_calls w) (win_address (ww_tick w)));
  call answer (λ _, record).

Definition get_printer_query (printer level : N) (buffer : list N)
  : WinM (BufferRead * list N) :=
  '(ok, needed, buffer') ← buffer_call buffer (λ n, win_get_printer n level buffer)
    (GetPrinterW printer level (usize_capacity buffer));
  answer ← buffer_read_result ok needed 1;
  mret (answer, buffer').

(** The words of a complete DEVMODE: [dmSize] and [dmDriverExtra] are 16-bit. *)
Definition DEVMODE_CAPACITY : N := (2 * u16_max + 7) / 8 * 8.
Definition empty_mode : list N := replicate (N.to_nat DEVMODE_CAPACITY) 0.

Definition document_properties (printer : N) (name : list N) (input : option (list N))
  : WinM (option (list N)) :=
  call (λ n, win_document_properties n input) (λ _, DocumentPropertiesW printer name).

(** The pointer of the structure at the start of the buffer. *)
Definition devmode_pointer (level base : N) (bytes : list N) : WinM N :=
  if level =? 9
  then info ← read_memory base bytes base size_of_PRINTER_INFO_9W; mret (info_9_pDevMode info)
  else info ← read_memory base bytes base size_of_PRINTER_INFO_8W; mret (info_8_pDevMode info).

Fixpoint read_default_level (printer : N) (name : list N) (levels : list N) : WinM (list N) :=
  match levels with
  | [] => fail "GetPrinterW" "printer has no default DEVMODE"
  | level :: levels' =>
      '(buffer, _) ← read_buffer WinError (get_printer_query printer level) "GetPrinterW";
      base ← gets ww_buffer;
      let bytes := bytes_of_words buffer in
      if usize_capacity buffer <? size_of_PRINTER_INFO_9W
      then fail "GetPrinterW" "invalid printer configuration"
      else
        source ← devmode_pointer level base bytes;
        if source =? 0 then read_default_level printer name levels'
        else
          let end_ := base + usize_capacity buffer in
          if (source <? base) || (end_ <? usize_add source size_of_DEVMODEW)
          then fail "GetPrinterW" "invalid DEVMODE buffer"
          else
            header ← read_memory base bytes source size_of_DEVMODEW;
            let public_size := dmSize header in
            let length := public_size + dmDriverExtra header in
            if (public_size <? size_of_DEVMODEW) || (end_ <? usize_add source length)
            then fail "GetPrinterW" "invalid DEVMODE size"
            else
              content ← read_memory base bytes source length;
              mode ← write_memory content empty_mode;
              output ← document_properties printer name None;
              match output with
              | None => fail_last "DocumentPropertiesW"
              | Some output => write_memory output mode
              end
  end.
Definition read_default_devmode (printer : N) (name : list N) : WinM (list N) :=
  read_default_level printer name [9; 8].

(** ** Reading the papers *)

Definition validate_devmode (printer : N) (name mode : list N) : WinM (option (list N)) :=
  output ← document_properties printer name (Some mode);
  match output with
  | None => mret None
  | Some output => mode ← write_memory output mode; mret (Some mode)
  end.

(** The structure a mode begins with, read or changed. *)
Definition devmode_get {A} (field : list N → A) (mode : list N) : WinM A :=
  header ← read_memory 0 mode 0 size_of_DEVMODEW; mret (field header).
Definition devmode_set (update : list N → list N) (mode : list N) : WinM (list N) :=
  header ← read_memory 0 mode 0 size_of_DEVMODEW; write_memory (update header) mode.

(** [i32] to [f64], and the millimetres of a number of pixels. *)
Definition physical_mm (pixels dpi : Z) : f64 :=
  f64_div (f64_mul (f64_of_Z pixels) (f64_lit 254 1)) (f64_of_Z dpi).
Definition get_device_caps (dc index : N) : WinM Z :=
  call (λ n, win_device_caps n dc index) (λ _, GetDeviceCaps dc index).

Definition physical_paper_size (name mode : list N) : WinM (option (f64 * f64)) :=
  dc ← call (λ n, win_create_ic n name mode) (CreateICW name);
  match dc with
  | None => mret None
  | Some dc =>
      width ← get_device_caps dc PHYSICALWIDTH;
      height ← get_device_caps dc PHYSICALHEIGHT;
      dpi_x ← get_device_caps dc LOGPIXELSX;
      dpi_y ← get_device_caps dc LOGPIXELSY;
      _ ← call (λ _, tt) (λ _, DeleteDC dc);
      if ((width <=? 0) || (height <=? 0) || (dpi_x <=? 0) || (dpi_y <=? 0))%Z
      then mret None
      else mret (Some (physical_mm width dpi_x, physical_mm height dpi_y))
  end.

(** The candidate of a form, validated: the paper number the driver gives it. *)
Definition form_mode (units default_mode : list N) : WinM (list N) :=
  if 32 <? byte_len units then raise Undefined
  else devmode_set (λ header,
    let header := with_dmFormName (units ++ replicate (32 - length units) 0) header in
    with_dmFields (N.lor
      (N.ldiff (dmFields header) (N.lor DM_PAPERSIZE (N.lor DM_PAPERWIDTH DM_PAPERLENGTH)))
      DM_FORMNAME) header) default_mode.
Definition paper_mode (kind : Z) (default_mode : list N) : WinM (list N) :=
  devmode_set (λ header,
    let header := with_dmPaperSize kind header in
    with_dmFields (N.lor (dmFields header) DM_PAPERSIZE) header) default_mode.

Definition known_kind (papers : list PaperInfo) (kind : Z) : bool :=
  existsb (λ paper, bool_decide (pa_id paper = pretty (Z.to_N kind))) papers.

(** One form of the list, when its name could be read. *)
Definition validated_paper (printer : N) (name default_mode : list N) (papers : list PaperInfo)
    (form units : list N) : WinM (option PaperInfo) :=
  candidate ← form_mode units default_mode;
  validated ← validate_devmode printer name candidate;
  match validated with
  | None => mret None
  | Some candidate =>
      kind ← devmode_get dmPaperSize candidate;
      if (kind <=? 0)%Z || known_kind papers kind then mret None
      else
        effective ← paper_mode kind default_mode;
        validated ← validate_devmode printer name effective;
        match validated with
        | None => mret None
        | Some effective =>
            size ← physical_paper_size name effective;
            let form_width := f64_div (f64_of_Z (form_cx form)) (f64_of_Z 1000) in
            let form_height := f64_div (f64_of_Z (form_cy form)) (f64_of_Z 1000) in
            mret (
              '(width_mm, height_mm) ← size;
              '(width_mm, height_mm) ←
                windows_physical_paper_dimensions form_width form_height width_mm height_mm;
              Some (mkPaperInfo (pretty (Z.to_N kind)) (from_utf16_lossy units)
                width_mm height_mm))
        end
  end.

(** The form with this index; [base] and [forms] are the buffer. *)
Definition read_form (printer : N) (name default_mode : list N) (base : N) (forms : list N)
    (papers : list PaperInfo) (index : N) : WinM (option PaperInfo) :=
  form ← read_memory base forms (base + index * size_of_FORM_INFO_1W) size_of_FORM_INFO_1W;
  if (form_cx form <=? 0)%Z || (form_cy form <=? 0)%Z || (form_pName form =? 0) then mret None
  else
    let start := form_pName form in
    let end_ := base + byte_len forms in
    if (start <? base) || (end_ <=? start) || negb (start mod 2 =? 0)
    then fail "EnumFormsW" "invalid form name"
    else
      raw_name ← read_memory base forms start (2 * N.min ((end_ - start) / 2) 32);
      let raw_name := u16s raw_name in
      match position_zero raw_name with
      | None => mret None
      | Some length =>
          validated_paper printer name default_mode papers form (take length raw_name)
      end.

Fixpoint read_forms (printer : N) (name default_mode : list N) (base : N) (forms : list N)
    (papers : list PaperInfo) (indexes : list nat) : WinM (list PaperInfo) :=
  match indexes with
  | [] => mret papers
  | index :: indexes' =>
      paper ← read_form printer name default_mode base forms papers (N.of_nat index);
      read_forms printer name default_mode base forms
        (papers ++ match paper with Some paper => [paper] | None => [] end) indexes'
  end.

Definition enum_forms_query (printer : N) (buffer : list N) : WinM (BufferRead * list N) :=
  '(ok, needed, count, buffer') ← buffer_call buffer (λ n, win_enum_forms n buffer)
    (EnumFormsW printer (usize_capacity buffer));
  answer ← buffer_read_result ok needed count;
  mret (answer, buffer').

Definition read_validated_papers (printer : N) (name : list N) : WinM (list PaperInfo) :=
  default_mode ← read_default_devmode printer name;
  '(forms, count) ← read_buffer WinError (enum_forms_query printer) "EnumFormsW";
  base ← gets ww_buffer;
  if usize_capacity forms / size_of_FORM_INFO_1W <? count
  then fail "EnumFormsW" "invalid form count"
  else read_forms printer name default_mode base (bytes_of_words forms) [] (seq 0 (N.to_nat count)).

Definition read_driver_papers (printer_name : string) : WinM (list PaperInfo) :=
  let name := wide_null printer_name in
  printer ← open_printer name;
  match printer with
  | None => fail_last "OpenPrinterW"
  | Some printer =>
      result ← attempt (read_validated_papers printer name);
      _ ← close_printer printer;
      lift result
  end.

(** ** Raw jobs *)

Definition end_page (printer : N) : WinM unit := call (λ _, tt) (λ _, EndPagePrinter printer).
Definition end_doc (printer : N) : WinM unit := call (λ _, tt) (λ _, EndDocPrinter printer).

Definition submit_raw_to_windows_printer (printer_name data : string) : WinM unit :=
  printer ← open_printer (wide_null printer_name);
  match printer with
  | None => fail_last "OpenPrinterW"
  | Some printer =>
      started ← call win_start_doc
        (StartDocPrinterW printer (wide_null "PrintBridge Raw Job") (wide_null "RAW"));
      if negb started then
        _ ← close_printer printer; fail_last "StartDocPrinterW"
      else
        started ← call win_start_page (StartPagePrinter printer);
        if negb started then
          _ ← end_doc printer; _ ← close_printer printer; fail_last "StartPagePrinter"
        else
          '(ok, written) ← call (λ n, win_write n data)
            (λ _, WritePrinter printer data (str_len data mod 2 ^ 32));
          _ ← end_page printer;
          _ ← end_doc printer;
          _ ← close_printer printer;
          if negb ok || negb (written =? str_len data)
          then fail_last "WritePrinter" else mret tt
  end.

(** ** The backend *)

(** [hidden_command(program).args(args).output()] *)
Definition hidden_command (program : string) (args : list string)
  : WinM (result IoError Output) :=
  let command := mkSysCommand program args in
  call (λ n, win_run n command) (λ _, HiddenCommand command).

Definition POWERSHELL_LIST : string :=
  "Get-Printer | ForEach-Object { $config = Get-PrintConfiguration -PrinterName $_.Name -ErrorAction SilentlyContinue; [PSCustomObject]@{ Name=$_.Name; Default=$_.Default; PortName=$_.PortName; Type=$_.Type.ToString(); DeviceType=$_.DeviceType.ToString(); DriverName=$_.DriverName; PrintQuality=if ($config) { $config.PrintQuality } else { $null } } } | ConvertTo-Json".

Definition windows_list_printers : WinM (list PrinterInfo) :=
  output ← hidden_command "powershell" ["-NoProfile"; "-Command"; POWERSHELL_LIST];
  match output with
  | Err error => fail "powershell" (io_message error)
  | Ok output =>
      if out_success output
      then lift (map_err WinError (parse_printers_json (out_stdout output)))
      else fail "powershell" (trim (out_stderr output))
  end.

Definition ensure_printer_exists (printer_name : string) : WinM unit :=
  printers ← windows_list_printers;
  if existsb (λ printer, bool_decide (pi_name printer = printer_name)) printers
  then mret tt else raise (WinError (PrinterNotFound printer_name)).

Definition windows_list_papers (printer_name : string) : WinM (list PaperInfo) :=
  _ ← ensure_printer_exists printer_name;
  read_driver_papers printer_name.

Definition bundled_sumatra_path : string :=
  match win_exe_directory with
  | Some parent => parent +:+ "\" +:+ "SumatraPDF.exe"
  | None => "SumatraPDF.exe"
  end.

Definition windows_submission (backend : string) : WinM PrintSubmission :=
  now ← gets (λ w, win_now (ww_tick w));
  mret (mkPrintSubmission now backend None false).

Definition windows_print_pdf (sumatra_path path : string) (options : PrintOptions)
  : WinM PrintSubmission :=
  papers ← windows_list_papers (po_printer_name options);
  settings ← lift (map_err WinError
    (sumatra_print_settings (po_copies options) (po_paper options) papers));
  output ← hidden_command sumatra_path
    ["-silent"; "-print-to"; po_printer_name options; "-print-settings"; settings; path];
  match output with
  | Err error => fail "SumatraPDF.exe" (io_message error)
  | Ok output =>
      if out_success output then windows_submission "windows-sumatra"
      else fail "SumatraPDF.exe" (trim (out_stderr output))
  end.

Definition windows_print_raw (data : string) (options : RawPrintOptions) : WinM PrintSubmission :=
  _ ← ensure_printer_exists (ro_printer_name options);
  _ ← submit_raw_to_windows_printer (ro_printer_name options) data;
  windows_submission "windows-raw-spooler".

Definition windows_track_submission (_ : PrintSubmission) (_ : PrintOptions)
  : PrintTrackingOutcome :=
  TrackUnknown "Windows SumatraPDF submission did not expose a system print job id".
End windows.

(** ** The protocol of the spooler

    What may be called when: a printer handle is used between its opening and its
    closing only, a document and a page are ended in order, and a device context
    is deleted. *)

Inductive Spool :=
  | Closed | Open (printer : N) | InDocument (printer : N) | InPage (printer : N)
  | InContext (printer dc : N).

Definition spool_step (s : Spool) (c : WinCall) : option Spool :=
  let on p p' s' := if p =? p' then Some s' else None in
  match s, c with
  | Closed, OpenPrinterW _ None => Some Closed
  | Closed, OpenPrinterW _ (Some p) => Some (Open p)
  | Closed, HiddenCommand _ => Some Closed
  | Open p, ClosePrinter p' => on p p' Closed
  | Open p, EnumFormsW p' _ | Open p, GetPrinterW p' _ _ | Open p, DocumentPropertiesW p' _ =>
      on p p' (Open p)
  | Open p, CreateICW _ None => Some (Open p)
  | Open p, CreateICW _ (Some dc) => Some (InContext p dc)
  | InContext p dc, GetDeviceCaps dc' _ => on dc dc' (InContext p dc)
  | InContext p dc, DeleteDC dc' => on dc dc' (Open p)
  | Open p, StartDocPrinterW p' _ _ ok => on p p' (if ok then InDocument p else Open p)
  | InDocument p, StartPagePrinter p' ok => on p p' (if ok then InPage p else InDocument p)
  | InPage p, WritePrinter p' _ _ => on p p' (InPage p)
  | InPage p, EndPagePrinter p' => on p p' (InDocument p)
  | InDocument p, EndDocPrinter p' => on p p' (Open p)
  | _, _ => None
  end.
Fixpoint spool_run (s : Spool) (cs : list WinCall) : option Spool :=
  match cs with [] => Some s | c :: cs' => spool_step s c ≫= λ s', spool_run s' cs' end.

Lemma spool_run_app s cs cs' :
  spool_run s (cs ++ cs') = spool_run s cs ≫= λ s', spool_run s' cs'.
Proof.
  revert s. induction cs as [|c cs IH]; intros s; [done|]. simpl.
  destruct (spool_step s c); [apply IH|done].
Qed.

(** The calls of a handler lead the protocol from [s] to a state in [φ], which
    may depend on what it returns. *)
Definition spools {A} (s : Spool) (m : M WinWorld WinFault A) (φ : result WinFault A → Spool)
  : Prop := ∀ w, ∃ cs, ww_calls (m w).2 = ww_calls w ++ cs ∧
    spool_run s cs = Some (φ (m w).1).

Section protocol.
Context `{L : Win32Layout} `{W : Win32} `{J : JsonCodec PrinterJson}.
Abbreviation WinM := (M WinWorld WinFault).

(** A handler that leaves the protocol where it is. *)
Abbreviation stays s m := (spools s m (λ _, s)).

Lemma spools_pure {A} s (m : WinM A) : (∀ w, ww_calls (m w).2 = ww_calls w) → stays s m.
Proof. intros H w. exists []. by rewrite H, app_nil_r. Qed.
Lemma spools_bind {A B} s (m : WinM A) (k : A → WinM B) φ ψ :
  spools s m φ →
  (∀ a, spools (φ (Ok a)) (k a) ψ) → (∀ e, φ (Err e) = ψ (Err e)) →
  spools s (m ≫= k) ψ.
Proof.
  intros Hm Hk He w. rewrite M_bind_eq. destruct (Hm w) as (cs&H1&H2).
  destruct (m w) as [[a|e] w1]; simpl in *.
  - destruct (Hk a w1) as (cs'&H3&H4). exists (cs ++ cs').
    by rewrite H3, H1, app_assoc, spool_run_app, H2.
  - exists cs. by rewrite H2, He.
Qed.
Lemma stays_bind {A B} s (m : WinM A) (k : A → WinM B) :
  stays s m → (∀ a, stays s (k a)) → stays s (m ≫= k).
Proof. intros Hm Hk. by eapply spools_bind. Qed.
(** [attempt] does not fail. *)
Lemma spools_attempt {A B} s (m : WinM A) (k : result WinFault A → WinM B) ψ :
  stays s m → (∀ r, spools s (k r) ψ) → spools s (attempt m ≫= k) ψ.
Proof.
  intros Hm Hk w. rewrite attempt_bind. destruct (Hm w) as (cs&H1&H2).
  destruct (m w) as [r w1]. destruct (Hk r w1) as (cs'&H3&H4). exists (cs ++ cs').
  simpl in *. by rewrite H3, H1, app_assoc, spool_run_app, H2.
Qed.
(** A call never fails: it moves the protocol and hands its answer over. *)
Lemma spools_call {A B} s s' (answer : nat → A) record (k : A → WinM B) ψ :
  (∀ a, spool_step s (record a) = Some (s' a)) → (∀ a, spools (s' a) (k a) ψ) →
  spools s (call answer record ≫= k) ψ.
Proof.
  intros H Hk w. rewrite M_bind_eq. unfold call at 1 2. cbn beta iota zeta.
  destruct (Hk (answer (ww_tick w)) (mkWinWorld (S (ww_tick w))
    (ww_calls w ++ [record (answer (ww_tick w))]) (ww_buffer w))) as (cs&H1&H2).
  exists (record (answer (ww_tick w)) :: cs). split.
  - rewrite H1. simpl. by rewrite <-app_assoc.
  - cbn [spool_run]. by rewrite H.
Qed.
Lemma stays_call {A} s (answer : nat → A) record :
  (∀ a, spool_step s (record a) = Some s) → stays s (call answer record : WinM A).
Proof. intros H w. eexists [_]. split; [done|]. simpl. by rewrite H. Qed.

Lemma read_memory_stays s base bytes a n : stays s (read_memory base bytes a n : WinM _).
Proof. apply spools_pure. intros w. unfold read_memory. by case_match. Qed.
Lemma write_memory_stays s new bytes : stays s (write_memory new bytes : WinM _).
Proof. apply spools_pure. intros w. unfold write_memory. by case_match. Qed.
Lemma fail_stays {A} s command message : stays s (fail command message : WinM A).
Proof. by apply spools_pure. Qed.
Lemma fail_last_stays {A} s command : stays s (fail_last command : WinM A).
Proof. by apply spools_pure. Qed.
Create HintDb spool.
Hint Resolve read_memory_stays write_memory_stays fail_stays fail_last_stays : spool.

Ltac stays_step :=
  cbv zeta;
  match goal with
  | |- stays _ (_ ≫= _) => apply stays_bind; [|intros ?]
  | |- stays _ (if ?b then _ else _) => destruct b
  | |- stays _ (match ?x with _ => _ end) => destruct x
  | |- stays _ (call _ _) => apply stays_call; intros ?; cbn; rewrite ?N.eqb_refl; done
  | |- stays _ (mret _) => by apply spools_pure
  | |- stays _ (gets _) => by apply spools_pure
  | |- stays _ (modify _) => by apply spools_pure
  | |- stays _ (lift _) => by apply spools_pure
  | |- stays _ (raise _) => by apply spools_pure
  end.
Ltac solve_stays := repeat stays_step; eauto with spool.

Lemma buffer_read_result_stays s ok needed count : stays s (buffer_read_result ok needed count).
Proof. unfold buffer_read_result, last_error, last_os_error. solve_stays. Qed.
Lemma read_buffer_stays s query command :
  (∀ b, stays s (query b)) → stays s (read_buffer WinError query command : WinM _).
Proof.
  intros Hq. unfold read_buffer. generalize 4%nat, (@nil N). intros n.
  induction n as [|n IH]; intros b; cbn [read_buffer_loop]; solve_stays.
Qed.
Hint Resolve buffer_read_result_stays read_buffer_stays : spool.

Lemma get_printer_query_stays p level b : stays (Open p) (get_printer_query p level b).
Proof. unfold get_printer_query, buffer_call. solve_stays. Qed.
Lemma enum_forms_query_stays p b : stays (Open p) (enum_forms_query p b).
Proof. unfold enum_forms_query, buffer_call. solve_stays. Qed.
Lemma document_properties_stays p name input :
  stays (Open p) (document_properties p name input).
Proof. unfold document_properties. solve_stays. Qed.
Hint Resolve get_printer_query_stays enum_forms_query_stays document_properties_stays : spool.
Lemma read_default_stays p name levels : stays (Open p) (read_default_level p name levels).
Proof.
  induction levels as [|level levels IH]; cbn [read_default_level];
    unfold devmode_pointer; solve_stays.
Qed.
Lemma validate_devmode_stays p name mode : stays (Open p) (validate_devmode p name mode).
Proof. unfold validate_devmode. solve_stays. Qed.
Hint Resolve read_default_stays validate_devmode_stays : spool.

(** A device context is deleted before its size is looked at. *)
Lemma physical_paper_size_stays p name mode : stays (Open p) (physical_paper_size name mode).
Proof.
  unfold physical_paper_size.
  apply (spools_call _ (λ dc, match dc with Some dc => InContext p dc | None => Open p end)).
  { by intros [dc|]. }
  intros [dc|]; [|by apply spools_pure]. unfold get_device_caps. cbn beta iota.
  do 4 (apply (spools_call _ (λ _, InContext p dc)); [intros ?; cbn; by rewrite N.eqb_refl|];
    intros ?).
  apply (spools_call _ (λ _, Open p)); [intros ?; cbn; by rewrite N.eqb_refl|]. intros [].
  solve_stays.
Qed.
Hint Resolve physical_paper_size_stays : spool.

Lemma read_forms_stays p name mode base forms papers indexes :
  stays (Open p) (read_forms p name mode base forms papers indexes).
Proof.
  revert papers. induction indexes as [|index indexes IH]; intros papers; cbn [read_forms];
    unfold read_form, validated_paper, form_mode, paper_mode, devmode_set, devmode_get;
    solve_stays.
Qed.
Hint Resolve read_forms_stays : spool.
Lemma read_validated_papers_stays p name : stays (Open p) (read_validated_papers p name).
Proof. unfold read_validated_papers, read_default_devmode. solve_stays. Qed.

(** An opened printer is closed again. *)
Lemma read_driver_papers_stays name : stays Closed (read_driver_papers name).
Proof.
  unfold read_driver_papers, open_printer. cbv zeta.
  apply (spools_call _ (λ r, match r with Some p => Open p | None => Closed end)).
  { by intros [p|]. }
  intros [p|]; [|apply fail_last_stays].
  apply spools_attempt; [apply read_validated_papers_stays|]. intros r. unfold close_printer.
  apply (spools_call _ (λ _, Closed)); [intros ?; cbn; by rewrite N.eqb_refl|].
  intros _. by apply spools_pure.
Qed.

Lemma hidden_command_stays program args : stays Closed (hidden_command program args).
Proof. unfold hidden_command. solve_stays. Qed.
Hint Resolve read_driver_papers_stays hidden_command_stays : spool.
Lemma list_printers_stays : stays Closed windows_list_printers.
Proof. unfold windows_list_printers. solve_stays. Qed.
Hint Resolve list_printers_stays : spool.
Lemma ensure_printer_stays name : stays Closed (ensure_printer_exists name).
Proof. unfold ensure_printer_exists. solve_stays. Qed.
Hint Resolve ensure_printer_stays : spool.
Lemma list_papers_stays name : stays Closed (windows_list_papers name).
Proof. unfold windows_list_papers. solve_stays. Qed.
Hint Resolve list_papers_stays : spool.

Ltac spool_next s :=
  apply (spools_call _ s); [intros ?; cbn; by rewrite N.eqb_refl|]; intros ?; cbv beta iota.
Lemma submit_raw_stays name data : stays Closed (submit_raw_to_windows_printer name data).
Proof.
  unfold submit_raw_to_windows_printer, open_printer, end_page, end_doc, close_printer.
  apply (spools_call _ (λ r, match r with Some p => Open p | None => Closed end)).
  { by intros [p|]. }
  intros [p|]; [|apply fail_last_stays].
  spool_next (λ ok : bool, if ok then InDocument p else Open p).
  destruct a; cbn [negb]; [|spool_next (λ _ : unit, Closed); apply fail_last_stays].
  spool_next (λ ok : bool, if ok then InPage p else InDocument p).
  destruct a; cbn [negb].
  2:{ spool_next (λ _ : unit, Open p). spool_next (λ _ : unit, Closed). apply fail_last_stays. }
  spool_next (λ _ : bool * N, InPage p). destruct a as [ok written].
  spool_next (λ _ : unit, InDocument p). spool_next (λ _ : unit, Open p).
  spool_next (λ _ : unit, Closed). solve_stays.
Qed.
Hint Resolve submit_raw_stays : spool.

(** C29: Every operation of the Windows backend keeps the protocol of the spooler,
    whatever the calls answer: handles are used while they are open, documents and
    pages end in order, and when it returns, with a result or an error, every
    printer and device context it opened is closed. *)
Theorem windows_spooler_protocol (sumatra_path path data name : string)
    (options : PrintOptions) (raw : RawPrintOptions) :
  stays Closed windows_list_printers ∧
  stays Closed (windows_list_papers name) ∧
  stays Closed (windows_print_pdf sumatra_path path options) ∧
  stays Closed (windows_print_raw data raw).
Proof.
  split_and!; [apply list_printers_stays|apply list_papers_stays| |].
  - unfold windows_print_pdf, windows_submission. solve_stays.
  - unfold windows_print_raw, windows_submission. solve_stays.
Qed.
End protocol.

(** ** Memory safety *)

(** What the spooler, the driver and the structures promise: the pointers of a
    configuration are addresses of user space, and a DEVMODE has at most the size
    its two 16-bit fields can express. *)
Definition user_address (a : N) : Prop := a < 2 ^ 47.
Class Win32Laws `{L : Win32Layout} `{W : Win32} : Prop := {
  form_info_size : 0 < size_of_FORM_INFO_1W;
  printer_info_sizes : size_of_PRINTER_INFO_8W ≤ size_of_PRINTER_INFO_9W;
  devmode_fits : size_of_DEVMODEW ≤ DEVMODE_CAPACITY;
  dmSize_u16 h : dmSize h ≤ u16_max;
  dmDriverExtra_u16 h : dmDriverExtra h ≤ u16_max;
  dmPaperSize_i16 h : (dmPaperSize h <= 32767)%Z;
  with_dmFields_length f h : length (with_dmFields f h) = length h;
  with_dmPaperSize_length k h : length (with_dmPaperSize k h) = length h;
  with_dmFormName_length u h : length (with_dmFormName u h) = length h;
  get_printer_pointer n level b needed b' :
    win_get_printer n level b = (true, needed, b') →
    user_address (info_9_pDevMode (take (N.to_nat size_of_PRINTER_INFO_9W) (bytes_of_words b'))) ∧
    user_address (info_8_pDevMode (take (N.to_nat size_of_PRINTER_INFO_8W) (bytes_of_words b')));
  document_properties_length n input output :
    win_document_properties n input = Some output → byte_len output ≤ 2 * u16_max
}.

(** [safe m φ]: [m] meets no undefined behaviour, and what it returns is in [φ]. *)
Definition safe {A} (m : M WinWorld WinFault A) (φ : A → Prop) : Prop :=
  ∀ w, match (m w).1 with Ok a => φ a | Err e => e ≠ Undefined end.

Section safety.
Context `{L : Win32Layout} `{W : Win32} `{J : JsonCodec PrinterJson}.
Context {Laws : Win32Laws}.
Abbreviation WinM := (M WinWorld WinFault).

Lemma safe_ret {A} (a : A) (φ : A → Prop) : φ a → safe (mret a) φ.
Proof. by intros H w. Qed.
Lemma safe_bind {A B} (m : WinM A) (k : A → WinM B) φ ψ :
  safe m φ → (∀ a, φ a → safe (k a) ψ) → safe (m ≫= k) ψ.
Proof.
  intros Hm Hk w. rewrite M_bind_eq. specialize (Hm w).
  destruct (m w) as [[a|e] w1]; [by apply Hk|done].
Qed.
Lemma safe_mono {A} (m : WinM A) (φ ψ : A → Prop) : safe m φ → (∀ a, φ a → ψ a) → safe m ψ.
Proof. intros Hm H w. specialize (Hm w). destruct (m w) as [[a|e] w1]; [by apply H|done]. Qed.
Lemma safe_fail {A} command message φ : safe (fail command message : WinM A) φ.
Proof. by intros w. Qed.
Lemma safe_fail_last {A} command φ : safe (fail_last command : WinM A) φ.
Proof. by intros w. Qed.
Lemma safe_gets {A} (f : WinWorld → A) : safe (gets f) (λ _, True).
Proof. by intros w. Qed.
Lemma safe_call {A} (answer : nat → A) record : safe (call answer record) (λ a, ∃ n, a = answer n).
Proof. intros w. by eexists. Qed.
Lemma safe_modify f : safe (modify f) (λ _, True).
Proof. by intros w. Qed.
Lemma safe_attempt {A} (m : WinM A) φ :
  safe m φ → safe (attempt m) (λ r, match r with Ok a => φ a | Err e => e ≠ Undefined end).
Proof. intros Hm w. unfold attempt. specialize (Hm w). by destruct (m w). Qed.

Lemma safe_read base bytes a n :
  base ≤ a → a + n ≤ base + byte_len bytes →
  safe (read_memory base bytes a n) (λ r, byte_len r = n ∧
    r = take (N.to_nat n) (drop (N.to_nat (a - base)) bytes)).
Proof.
  intros H1 H2 w. unfold read_memory.
  rewrite (proj2 (N.leb_le _ _)), (proj2 (N.leb_le (a + n) _)) by done. simpl. split; [|done].
  unfold byte_len in *. rewrite length_take, length_drop. lia.
Qed.
Lemma safe_write new bytes :
  byte_len new ≤ byte_len bytes →
  safe (write_memory new bytes) (λ r, byte_len r = byte_len bytes).
Proof.
  intros H w. unfold write_memory. rewrite (proj2 (N.leb_le _ _)) by done. simpl.
  unfold byte_len in *. rewrite length_app, length_drop. lia.
Qed.

(** The buffer of a query that completed. *)
Definition completes (φ : list N → Prop) (r : BufferRead * list N) : Prop :=
  match r with (Complete _, b) => φ b | _ => True end.
Lemma safe_read_buffer (query : list N → WinM (BufferRead * list N)) command φ :
  (∀ b, safe (query b) (completes φ)) →
  safe (read_buffer WinError query command) (λ '(b, _), φ b).
Proof.
  intros Hq. unfold read_buffer. generalize 4%nat, (@nil N). intros n.
  induction n as [|n IH]; intros b; cbn [read_buffer_loop]; [by intros w|].
  eapply safe_bind; [apply Hq|]. intros [[count|bytes|m] b'] Hb.
  - by apply safe_ret.
  - case_match; [apply IH|by intros w].
  - by intros w.
Qed.

Lemma byte_len_words words : byte_len (bytes_of_words words) = usize_capacity words.
Proof.
  unfold byte_len, bytes_of_words, usize_capacity. induction words as [|w l IH]; [done|].
  cbn [flat_map]. rewrite length_app. unfold word_bytes at 1.
  rewrite length_map, length_seq. cbn [length]. lia.
Qed.
Lemma length_u16s bytes : length (u16s bytes) = (length bytes / 2)%nat.
Proof.
  induction bytes as [bytes IH] using (induction_ltof1 _ (@length N)).
  destruct bytes as [|a [|b bytes]]; [done..|]. cbn [u16s length].
  rewrite IH by (unfold ltof; simpl; lia).
  change (S (S (length bytes))) with (2 + length bytes)%nat.
  replace (2 + length bytes)%nat with (length bytes + 1 * 2)%nat by lia.
  rewrite Nat.div_add by lia. lia.
Qed.
Lemma usize_add_user a n : user_address a → n ≤ 2 * u16_max + DEVMODE_CAPACITY → usize_add a n = a + n.
Proof.
  intros Ha Hn. unfold usize_add, user_address in *. apply N.mod_small.
  unfold usize_modulus. change (2 * u16_max + DEVMODE_CAPACITY) with 262142 in Hn. lia.
Qed.

(** A mode the program holds. *)
Definition mode_ok (mode : list N) : Prop := byte_len mode = DEVMODE_CAPACITY.

Lemma safe_buffer_answer ok needed count :
  safe (buffer_read_result ok needed count)
    (λ answer, ∀ c, answer = Complete c → ok = true).
Proof.
  unfold buffer_read_result. destruct ok; [by apply safe_ret|].
  eapply safe_bind; [apply safe_gets|]. intros code _. case_match; [by apply safe_ret|].
  eapply safe_bind; [apply safe_gets|]. intros message _. by apply safe_ret.
Qed.

(** The pointer in a buffer a query returned. *)
Definition pointer_ok (buffer : list N) : Prop :=
  user_address (info_9_pDevMode (take (N.to_nat size_of_PRINTER_INFO_9W) (bytes_of_words buffer))) ∧
  user_address (info_8_pDevMode (take (N.to_nat size_of_PRINTER_INFO_8W) (bytes_of_words buffer))).
Lemma safe_get_printer printer level b :
  safe (get_printer_query printer level b) (completes pointer_ok).
Proof using Laws.
  unfold get_printer_query, buffer_call.
  eapply safe_bind.
  { eapply safe_bind; [apply safe_modify|]. intros _ _. apply safe_call. }
  intros [[ok needed] b'] [n Hn]. eapply safe_bind; [apply safe_buffer_answer|].
  intros [c|bytes|m] Ha; apply safe_ret; [|done..]. simpl. rewrite (Ha c eq_refl) in Hn.
  symmetry in Hn. by apply get_printer_pointer in Hn.
Qed.

Lemma safe_document_properties printer name input :
  safe (document_properties printer name input)
    (λ o, ∀ output, o = Some output → byte_len output ≤ 2 * u16_max).
Proof using Laws.
  eapply safe_mono; [apply safe_call|]. intros o [n ->] output.
  apply document_properties_length.
Qed.

Lemma empty_mode_ok : mode_ok empty_mode.
Proof. unfold mode_ok, empty_mode, byte_len. rewrite length_replicate. lia. Qed.
Lemma devmode_capacity : 2 * u16_max ≤ DEVMODE_CAPACITY.
Proof. done. Qed.

Lemma safe_write_mode new mode :
  mode_ok mode → byte_len new ≤ 2 * u16_max → safe (write_memory new mode) mode_ok.
Proof.
  intros Hm Hn. pose proof devmode_capacity. eapply safe_mono; [apply safe_write|].
  - unfold mode_ok in Hm. lia.
  - intros r Hr. unfold mode_ok in *. congruence.
Qed.

Lemma safe_devmode_pointer level base b :
  pointer_ok b → size_of_PRINTER_INFO_9W ≤ usize_capacity b →
  safe (devmode_pointer level base (bytes_of_words b)) user_address.
Proof using Laws.
  intros [H9 H8] Hs. pose proof printer_info_sizes as Hle. rewrite <-byte_len_words in Hs.
  unfold devmode_pointer. case_match;
    (eapply safe_bind; [apply safe_read; lia|]; intros info [_ ->]; apply safe_ret);
    by rewrite N.sub_diag, drop_0.
Qed.

Lemma safe_read_default_level printer name levels :
  safe (read_default_level printer name levels) mode_ok.
Proof using Laws.
  induction levels as [|level levels IH]; cbn [read_default_level]; [apply safe_fail|].
  eapply safe_bind; [apply safe_read_buffer, safe_get_printer|]. intros [b count] Hb.
  eapply safe_bind; [apply safe_gets|]. intros base _. cbv zeta.
  case_match eqn:Hs; [apply safe_fail|]. apply N.ltb_ge in Hs.
  eapply safe_bind; [by apply safe_devmode_pointer|]. intros source Hu.
  case_match; [done|]. case_match eqn:Hc; [apply safe_fail|].
  apply orb_false_iff in Hc as [Hlo%N.ltb_ge Hhi%N.ltb_ge].
  pose proof devmode_fits. pose proof devmode_capacity.
  rewrite usize_add_user in Hhi by (done || lia). rewrite <-byte_len_words in Hhi.
  eapply safe_bind; [by apply safe_read|]. intros header _.
  pose proof (dmSize_u16 header). pose proof (dmDriverExtra_u16 header).
  case_match eqn:Hc2; [apply safe_fail|]. apply orb_false_iff in Hc2 as [_ Hend%N.ltb_ge].
  rewrite usize_add_user in Hend by (done || lia). rewrite <-byte_len_words in Hend.
  eapply safe_bind; [by apply safe_read|]. intros content [Hl _].
  eapply safe_bind; [apply safe_write_mode; [apply empty_mode_ok|lia]|]. intros mode Hm.
  eapply safe_bind; [apply safe_document_properties|]. intros [output|] Ho.
  - apply safe_write_mode; [done|by apply Ho].
  - apply safe_fail_last.
Qed.

Lemma safe_validate printer name mode :
  mode_ok mode → safe (validate_devmode printer name mode) (λ o, ∀ m, o = Some m → mode_ok m).
Proof using Laws.
  intros Hm. unfold validate_devmode. eapply safe_bind; [apply safe_document_properties|].
  intros [output|] Ho; [|by apply safe_ret].
  eapply safe_bind; [by apply safe_write_mode; [|apply Ho]|]. intros m Hm'.
  apply safe_ret. by intros ? [= <-].
Qed.
Lemma safe_devmode_header mode :
  mode_ok mode → safe (read_memory 0 mode 0 size_of_DEVMODEW) (λ r, byte_len r = size_of_DEVMODEW).
Proof using Laws.
  intros Hm. pose proof devmode_fits. unfold mode_ok in Hm.
  eapply safe_mono; [apply safe_read; lia|]. by intros r [].
Qed.
Lemma safe_devmode_get {A} (field : list N → A) mode :
  mode_ok mode → safe (devmode_get field mode) (λ a, ∃ h, a = field h).
Proof using Laws.
  intros Hm. eapply safe_bind; [by apply safe_devmode_header|]. intros h _.
  apply safe_ret. by eexists.
Qed.
Lemma safe_devmode_set update mode :
  mode_ok mode → (∀ h, length (update h) = length h) → safe (devmode_set update mode) mode_ok.
Proof using Laws.
  intros Hm Hu. eapply safe_bind; [by apply safe_devmode_header|]. intros h Hh.
  pose proof devmode_fits. unfold mode_ok, byte_len in *.
  eapply safe_mono; [apply safe_write; unfold byte_len; rewrite Hu; lia|].
  intros r Hr. unfold byte_len in Hr. congruence.
Qed.
Lemma safe_form_mode units mode :
  (length units ≤ 32)%nat → mode_ok mode → safe (form_mode units mode) mode_ok.
Proof using Laws.
  intros Hu Hm. unfold form_mode. rewrite (proj2 (N.ltb_ge _ _)) by (unfold byte_len; lia).
  apply safe_devmode_set; [done|]. intros h.
  by rewrite with_dmFields_length, with_dmFormName_length.
Qed.
Lemma safe_paper_mode kind mode : mode_ok mode → safe (paper_mode kind mode) mode_ok.
Proof using Laws.
  intros Hm. apply safe_devmode_set; [done|]. intros h.
  by rewrite with_dmFields_length, with_dmPaperSize_length.
Qed.
Lemma safe_physical name mode : safe (physical_paper_size name mode) (λ _, True).
Proof.
  unfold physical_paper_size, get_device_caps. eapply safe_bind; [apply safe_call|].
  intros [dc|] _; [|by apply safe_ret].
  do 5 (eapply safe_bind; [apply safe_call|]; intros ? _). case_match; by apply safe_ret.
Qed.

(** A paper as the backend lists it: the number of the driver, a positive [i16]. *)
Definition numbered (p : PaperInfo) : Prop := ∃ k, 0 < k ≤ 32767 ∧ pa_id p = pretty k.
Definition papers_wf (papers : list PaperInfo) : Prop :=
  NoDup (map pa_id papers) ∧ Forall numbered papers.
Definition new_paper (papers : list PaperInfo) (o : option PaperInfo) : Prop :=
  match o with Some p => numbered p ∧ pa_id p ∉ map pa_id papers | None => True end.

Lemma safe_validated_paper printer name mode papers form units :
  (length units ≤ 32)%nat → mode_ok mode →
  safe (validated_paper printer name mode papers form units) (new_paper papers).
Proof using Laws.
  intros Hu Hm. unfold validated_paper.
  eapply safe_bind; [by apply safe_form_mode|]. intros candidate Hc.
  eapply safe_bind; [by apply safe_validate|]. intros [candidate'|] Hc'; [|by apply safe_ret].
  eapply safe_bind; [by apply safe_devmode_get, Hc'|]. intros kind [h ->].
  case_match eqn:Hk; [by apply safe_ret|].
  apply orb_false_iff in Hk as [Hpos%Z.leb_gt Hnew]. pose proof (dmPaperSize_i16 h).
  eapply safe_bind; [by apply safe_paper_mode|]. intros effective He.
  eapply safe_bind; [by apply safe_validate|]. intros [effective'|] _; [|by apply safe_ret].
  eapply safe_bind; [apply safe_physical|]. intros size _. apply safe_ret.
  destruct size as [[w h']|]; [|done]. simpl.
  destruct (windows_physical_paper_dimensions _ _ _ _) as [[w' h'']|]; [|done]. simpl.
  split; [eexists; split; [|done]; lia|].
  intros (p&Hp&Hin)%list_elem_of_fmap. apply not_true_iff_false in Hnew. apply Hnew.
  apply existsb_true. exists p. split; [done|]. by apply bool_decide_eq_true.
Qed.

Lemma safe_read_form printer name mode base forms papers index :
  mode_ok mode → (index + 1) * size_of_FORM_INFO_1W ≤ byte_len forms →
  safe (read_form printer name mode base forms papers index) (new_paper papers).
Proof using Laws.
  intros Hm Hi. unfold read_form.
  eapply safe_bind; [apply safe_read; lia|]. intros form _.
  case_match; [by apply safe_ret|]. cbv zeta. case_match eqn:Hc; [apply safe_fail|].
  rewrite !orb_false_iff in Hc. destruct Hc as [[Hlo%N.ltb_ge Hhi%N.leb_gt] _].
  pose proof (N.Div0.mul_div_le (base + byte_len forms - form_pName form) 2) as Hdiv.
  pose proof (N.le_min_l ((base + byte_len forms - form_pName form) / 2) 32) as Hmin.
  pose proof (N.le_min_r ((base + byte_len forms - form_pName form) / 2) 32) as Hmax.
  eapply safe_bind; [apply safe_read; [done|]; clear Hi; lia|]. intros raw [Hraw _].
  destruct (position_zero (u16s raw)) as [n|] eqn:Hn; [|by apply safe_ret].
  apply position_zero_lt in Hn. apply safe_validated_paper; [|done].
  rewrite length_u16s in Hn. rewrite length_take.
  assert (length raw ≤ 64)%nat as Hl64 by (unfold byte_len in Hraw; lia).
  pose proof (Nat.Div0.div_le_mono _ _ 2 Hl64) as Hd. change (64 / 2)%nat with 32%nat in Hd. lia.
Qed.

Lemma safe_read_forms printer name mode base forms papers indexes :
  mode_ok mode → papers_wf papers →
  Forall (λ i, (N.of_nat i + 1) * size_of_FORM_INFO_1W ≤ byte_len forms) indexes →
  safe (read_forms printer name mode base forms papers indexes) papers_wf.
Proof using Laws.
  intros Hm Hp Hi. revert papers Hp.
  induction Hi as [|i l Hi Hl IH]; intros papers Hp; cbn [read_forms]; [by apply safe_ret|].
  eapply safe_bind; [by apply safe_read_form|]. intros [p|] Hnew; apply IH.
  - destruct Hp as [H1 H2], Hnew as [H3 H4]. split.
    + rewrite map_app. apply NoDup_app. split_and!; [done| |repeat constructor; set_solver].
      intros id Hid ->%list_elem_of_singleton. done.
    + apply Forall_app. split; [done|by apply Forall_singleton].
  - by rewrite app_nil_r.
Qed.

Lemma safe_read_validated_papers printer name :
  safe (read_validated_papers printer name) papers_wf.
Proof using Laws.
  unfold read_validated_papers, read_default_devmode.
  eapply safe_bind; [apply safe_read_default_level|]. intros mode Hm.
  eapply safe_bind; [apply (safe_read_buffer _ _ (λ _, True))|].
  { intros b. unfold enum_forms_query, buffer_call. eapply safe_bind.
    { eapply safe_bind; [apply safe_modify|]. intros _ _. apply safe_call. }
    intros [[[ok needed] count] b'] _. eapply safe_bind; [apply safe_buffer_answer|].
    intros [c|bytes|m] _; by apply safe_ret. }
  intros [forms count] _. eapply safe_bind; [apply safe_gets|]. intros base _.
  case_match eqn:Hc; [apply safe_fail|]. apply N.ltb_ge in Hc.
  apply safe_read_forms; [done|by repeat constructor|].
  apply Forall_forall. intros i [_ Hi]%elem_of_seq. rewrite byte_len_words.
  pose proof form_info_size as Hpos.
  pose proof (N.Div0.mul_div_le (usize_capacity forms) size_of_FORM_INFO_1W).
  transitivity (size_of_FORM_INFO_1W * (usize_capacity forms / size_of_FORM_INFO_1W)); [|done].
  rewrite N.mul_comm. apply N.mul_le_mono_l. lia.
Qed.

Lemma safe_list_printers : safe windows_list_printers (λ _, True).
Proof.
  unfold windows_list_printers, hidden_command. eapply safe_bind; [apply safe_call|].
  intros [output|error] _; [|apply safe_fail]. case_match; [|apply safe_fail].
  intros w. unfold lift. simpl. by destruct (parse_printers_json (out_stdout output)).
Qed.
Lemma safe_ensure_printer name : safe (ensure_printer_exists name) (λ _, True).
Proof.
  unfold ensure_printer_exists. eapply safe_bind; [apply safe_list_printers|].
  intros printers _. case_match; [by apply safe_ret|by intros w].
Qed.

Lemma safe_list_papers (name : string) :
  safe (windows_list_papers name) papers_wf.
Proof using Laws.
  unfold windows_list_papers, read_driver_papers, open_printer, close_printer.
  eapply safe_bind; [apply safe_ensure_printer|]. intros _ _. cbv zeta.
  eapply safe_bind; [apply safe_call|]. intros [printer|] _; [|apply safe_fail_last].
  eapply safe_bind; [apply safe_attempt, safe_read_validated_papers|]. intros r Hr.
  eapply safe_bind; [apply safe_call|]. intros _ _ w. unfold lift. simpl.
  by destruct r as [papers|e].
Qed.

(** C28: Listing the papers of a printer never leaves the bounds of a buffer, whatever
    the driver writes into it within [Win32Laws]: the pointer to its configuration is
    an address of user space (below 2^47; beyond, [devmode_check_wraps] is what
    happens), a configuration it returns is no longer than its two 16-bit sizes can
    say, and the structures have the sizes Windows gives them.  Then every structure,
    name and configuration read through a pointer lies inside the buffer it is read
    from, every configuration written fits, and no slice operation panics.  The papers
    returned have distinct numbers, each a positive 16-bit integer. *)
Theorem windows_papers_memory_safe (name : string) :
  safe (windows_list_papers name) papers_wf.
Proof using Laws. apply safe_list_papers. Qed.
End safety.

(** ** Submitting *)

Section submitting.
Context `{L : Win32Layout} `{W : Win32} `{J : JsonCodec PrinterJson}.
Abbreviation WinM := (M WinWorld WinFault).

(** What SumatraPDF answered, as the outcome of a submission. *)
Definition sumatra_outcome (now : string) (output : result IoError Output)
  : result WinFault PrintSubmission :=
  match output with
  | Err error => Err (WinError (CommandFailed "SumatraPDF.exe" (io_message error)))
  | Ok output =>
      if out_success output
      then Ok (mkPrintSubmission now "windows-sumatra" None false)
      else Err (WinError (CommandFailed "SumatraPDF.exe" (trim (out_stderr output))))
  end.

(** The same size and orientation as requested, to a tenth of a millimetre. *)
Definition fits (requested p : PaperInfo) : bool :=
  f64_near (f64_lit 1 1) (pa_width_mm p) (pa_width_mm requested)
  && f64_near (f64_lit 1 1) (pa_height_mm p) (pa_height_mm requested).

(** The command that prints a document on this paper. *)
Definition sumatra_command (sumatra_path path : string) (options : PrintOptions) (p : PaperInfo)
  : SysCommand :=
  let requested := po_paper options in
  mkSysCommand sumatra_path
    ["-silent"; "-print-to"; po_printer_name options; "-print-settings";
     pretty (N.max (po_copies options) 1) +:+ "x,fit," +:+
       (if f64_ltb (pa_height_mm requested) (pa_width_mm requested)
        then "landscape" else "portrait") +:+ ",paperkind=" +:+ pa_id p;
     path].

Lemma sumatra_settings_numbered copies requested papers :
  Forall numbered papers →
  sumatra_print_settings copies requested papers =
  match iter_find (fits requested) papers with
  | None => Err (PaperNotFound
      (paper_name (pa_width_mm requested) (pa_height_mm requested) +:+
       "; configure this paper size and orientation in the Windows printer driver first"))
  | Some p => Ok (pretty (N.max copies 1) +:+ "x,fit," +:+
      (if f64_ltb (pa_height_mm requested) (pa_width_mm requested)
       then "landscape" else "portrait") +:+ ",paperkind=" +:+ pa_id p)
  end.
Proof.
  intros Hn. unfold sumatra_print_settings. fold (fits requested).
  change (λ p, fits requested p) with (fits requested).
  destruct (iter_find (fits requested) papers) as [p|] eqn:Hf; [|done].
  apply iter_find_some in Hf as (l1&l2&->&_&_).
  apply Forall_app in Hn as [_ Hn]. apply Forall_cons in Hn as [(k&Hk&Hid) _].
  simpl. rewrite Hid, parse_uint_pretty by (unfold u16_max; lia). simpl.
  by rewrite (proj2 (N.ltb_lt _ _)) by lia.
Qed.

(** C30: Windows prints a document with one SumatraPDF command or not at all.  When the
    papers of the printer could be listed, the job is printed exactly when one of
    them has the requested size and orientation, on the first such paper, named
    by its number, which SumatraPDF accepts for it; otherwise nothing is run.
    The command names the printer, the document and at least one copy. *)
Theorem windows_print_pdf_once {Laws : Win32Laws} (sumatra_path path : string)
    (options : PrintOptions) w :
  let '(r, w') := windows_print_pdf sumatra_path path options w in
  let '(listed, w1) := windows_list_papers (po_printer_name options) w in
  match listed with
  | Err e => r = Err e ∧ e ≠ Undefined ∧ w' = w1
  | Ok papers =>
      match iter_find (fits (po_paper options)) papers with
      | None => w' = w1 ∧ ∃ m, r = Err (WinError (PaperNotFound m))
      | Some p =>
          let command := sumatra_command sumatra_path path options p in
          ww_calls w' = ww_calls w1 ++ [HiddenCommand command] ∧
          r = sumatra_outcome (win_now (ww_tick w')) (win_run (ww_tick w1) command)
      end
  end.
Proof.
  unfold windows_print_pdf. rewrite M_bind_eq.
  pose proof (safe_list_papers (po_printer_name options) w) as Hs.
  destruct (windows_list_papers _ w) as [[papers|e] w1]; simpl in Hs; [|by split_and!].
  rewrite lift_bind, sumatra_settings_numbered by apply Hs.
  destruct (iter_find _ papers) as [p|]; simpl map_err; cbv iota; [|split; [done|by eexists]].
  rewrite M_bind_eq. unfold hidden_command, call. cbn beta iota zeta.
  unfold sumatra_outcome. fold (sumatra_command sumatra_path path options p).
  destruct (win_run _ _) as [output|error]; [|done]. by destruct (out_success output).
Qed.

(** The calls of a raw job that went through. *)
Definition raw_transcript (printer : N) (name data : string) : list WinCall :=
  [OpenPrinterW (wide_null name) (Some printer);
   StartDocPrinterW printer (wide_null "PrintBridge Raw Job") (wide_null "RAW") true;
   StartPagePrinter printer true;
   WritePrinter printer data (str_len data mod 2 ^ 32);
   EndPagePrinter printer; EndDocPrinter printer; ClosePrinter printer].

Definition is_write (c : WinCall) : Prop :=
  match c with WritePrinter _ _ _ => True | _ => False end.
#[local] Instance is_write_dec c : Decision (is_write c).
Proof. destruct c; simpl; apply _. Defined.

(** How a raw job ends: everything accepted, or stopped at one call, whose error
    is the last one known when everything was closed again. *)
Theorem raw_job_outcome (name data : string) w :
  let '(r, w') := submit_raw_to_windows_printer name data w in
  let n := ww_tick w in
  ∃ cs, ww_calls w' = ww_calls w ++ cs ∧
    ((∃ printer, cs = raw_transcript printer name data ∧
        let '(ok, written) := win_write (3 + n) data in
        r = if ok && (written =? str_len data) then Ok tt
            else Err (WinError (CommandFailed "WritePrinter"
              (win_error_text (win_last_error (ww_tick w')))))) ∨
     (filter is_write cs = [] ∧ ∃ command, command ≠ "WritePrinter" ∧
        r = Err (WinError (CommandFailed command
              (win_error_text (win_last_error (ww_tick w'))))))).
Proof.
  unfold submit_raw_to_windows_printer, open_printer, close_printer, end_page, end_doc, call.
  rewrite M_bind_eq. cbn beta iota zeta.
  destruct (win_open_printer (ww_tick w) (wide_null name)) as [p|].
  2:{ eexists. split; [done|]. right. split; [done|]. by exists "OpenPrinterW". }
  rewrite M_bind_eq. cbn [ww_tick ww_calls ww_buffer].
  destruct (win_start_doc _); cbn [negb]; rewrite M_bind_eq; cbn [ww_tick ww_calls ww_buffer].
  2:{ rewrite <-!app_assoc. eexists. split; [done|]. right. split; [done|].
      by exists "StartDocPrinterW". }
  destruct (win_start_page _); cbn [negb]; rewrite M_bind_eq; cbn [ww_tick ww_calls ww_buffer].
  2:{ rewrite M_bind_eq. cbn [ww_tick ww_calls ww_buffer]. simpl ww_calls.
      rewrite <-!app_assoc. eexists. split; [done|]. right. split; [done|].
      by exists "StartPagePrinter". }
  destruct (win_write _ data) as [ok written] eqn:Hw.
  rewrite !M_bind_eq. cbn [ww_tick ww_calls ww_buffer]. simpl in Hw |- *.
  destruct (negb ok || negb (written =? str_len data)) eqn:Hc;
    simpl; rewrite <-!app_assoc; eexists; (split; [done|]); left; exists p; (split; [done|]);
    by destruct ok, (written =? str_len data).
Qed.
End submitting.

(** ** A concrete spooler

    The 64-bit layout of the structures, and a printer with one form, A4.  The
    address its default configuration is claimed to lie at is a parameter. *)

Definition le2 (offset : nat) (bytes : list N) : N :=
  (nth offset bytes 0 + 256 * nth (S offset) bytes 0) mod 65536.
Definition le4 (offset : nat) (bytes : list N) : N :=
  le2 offset bytes + 65536 * le2 (2 + offset) bytes.
Definition le8 (offset : nat) (bytes : list N) : N :=
  le4 offset bytes + 4294967296 * le4 (4 + offset) bytes.
Definition signed (width value : N) : Z :=
  if value <? 2 ^ (width - 1) then Z.of_N value else (Z.of_N value - 2 ^ Z.of_N width)%Z.
Definition le_bytes (n : nat) (value : N) : list N :=
  map (λ i, N.shiftr value (8 * N.of_nat i) mod 256) (seq 0 n).

#[local] Instance toy_layout : Win32Layout := {|
  size_of_FORM_INFO_1W := 40;
  form_pName := le8 8; form_cx b := signed 32 (le4 16 b); form_cy b := signed 32 (le4 20 b);
  size_of_PRINTER_INFO_8W := 8; size_of_PRINTER_INFO_9W := 8;
  info_8_pDevMode := le8 0; info_9_pDevMode := le8 0;
  size_of_DEVMODEW := 220;
  dmSize := le2 68; dmDriverExtra := le2 70; dmFields := le4 72;
  dmPaperSize b := signed 16 (le2 78 b);
  with_dmFields f b := list_inserts 72 (le_bytes 4 f) b;
  with_dmPaperSize k b := list_inserts 78 (le_bytes 2 (Z.to_N (k mod 65536))) b;
  with_dmFormName units b := list_inserts 102 (flat_map (le_bytes 2) units) b;
  DM_PAPERSIZE := 2; DM_PAPERLENGTH := 4; DM_PAPERWIDTH := 8; DM_FORMNAME := 65536;
  PHYSICALWIDTH := 110; PHYSICALHEIGHT := 111; LOGPIXELSX := 88; LOGPIXELSY := 90;
  ERROR_INSUFFICIENT_BUFFER := 122
|}.

(** A query that needs this many bytes. *)
Definition toy_query (needed count : N) (content : list N → list N) (buffer : list N)
  : bool * N * N * list N :=
  if usize_capacity buffer <? needed then (false, needed, 0, buffer)
  else (true, needed, count, content buffer).
Definition toy_address : N := 4096.
(** Its driver gives the form the paper number 9. *)
Definition toy_mode (input : option (list N)) : list N :=
  with_dmPaperSize 9 (take 220 (default [] input)).

Definition toy_spooler (devmode : N) : Win32 := {|
  win_last_error _ := 122; win_error_text _ := "driver error";
  win_open_printer _ _ := Some 5; win_start_doc _ := true; win_start_page _ := true;
  win_write _ data := (true, str_len data);
  win_address _ := toy_address;
  (** Flags, name, size, two words of area, and the name behind the structure. *)
  win_enum_forms _ b := toy_query 48 1 (λ _,
    [0; toy_address + 40; 210000 + 297000 * 2 ^ 32; 0; 0; 65 + 52 * 65536]) b;
  (** The pointer, and a configuration behind it with [dmSize] 220. *)
  win_get_printer _ _ b :=
    let '(ok, needed, _, b') := toy_query 256 1
      (λ b, <[9%nat := 220 * 2 ^ 32]> (<[0%nat := devmode mod 2 ^ 64]> b)) b in
    (ok, needed, b');
  win_document_properties _ input := Some (toy_mode input);
  win_create_ic _ _ _ := Some 7;
  win_device_caps _ _ index := if index =? 110 then 4960%Z else if index =? 111 then 7016%Z else 600%Z;
  win_run _ command := Ok (mkOutput true "[]" "");
  win_now _ := "now"; win_exe_directory := Some "C:\PrintBridge"
|}.
#[local] Instance toy_printers : JsonCodec PrinterJson := {|
  to_json _ := "";
  from_json _ := Ok (Many [mkPowerShellPrinter "P" None (Some "USB001") (Some "Local") None None
    (Some (QualityString "600 x 300 dpi"))])
|}.
Definition win_start : WinWorld := mkWinWorld 0 [] 0.
Definition win_a4 : Win32 := toy_spooler (toy_address + 8).
Definition a4 : PaperInfo := mkPaperInfo "9" "A4" (mm 210) (mm 297).

Example papers_are_read :
  (windows_list_papers (W := win_a4) "P" win_start).1 = Ok [a4].
Proof. by vm_compute. Qed.

Lemma le2_u16 offset bytes : le2 offset bytes ≤ u16_max.
Proof.
  unfold le2, u16_max.
  pose proof (N.mod_lt (nth offset bytes 0 + 256 * nth (S offset) bytes 0) 65536 ltac:(done)).
  lia.
Qed.
Lemma toy_mode_length input : byte_len (toy_mode input) ≤ 220.
Proof.
  unfold toy_mode, byte_len. cbn [with_dmPaperSize toy_layout]. rewrite length_inserts, length_take. lia.
Qed.
Lemma toy_spooler_laws : Win32Laws (W := win_a4).
Proof.
  split; try done.
  - intros h. apply le2_u16.
  - intros h. apply le2_u16.
  - intros h. simpl. pose proof (le2_u16 78 h) as H. unfold signed, u16_max in *.
    change (2 ^ (16 - 1)) with 32768. case_match eqn:Hc.
    + apply N.ltb_lt in Hc. lia.
    + change (2 ^ Z.of_N 16)%Z with 65536%Z. lia.
  - intros. apply length_inserts.
  - intros. apply length_inserts.
  - intros. apply length_inserts.
  - intros n level b needed b'. simpl. unfold toy_query.
    destruct (usize_capacity b <? 256) eqn:Hc; [done|]. intros [= <- <-].
    destruct b as [|w b]; [done|]. split; vm_compute; reflexivity.
  - intros n input output [= <-]. etrans; [apply toy_mode_length|done].
Qed.

Lemma windows_papers_memory_safe_witness :
  (windows_list_papers (W := win_a4) "P" win_start).1 = Ok [a4] ∧
  safe (windows_list_papers (W := win_a4) "P") papers_wf.
Proof.
  split; [by vm_compute|].
  exact (windows_papers_memory_safe (W := win_a4)
    (Laws := toy_spooler_laws) "P").
Defined.

Definition win_options : PrintOptions := mkPrintOptions "P" a4 2.
Lemma windows_print_pdf_once_witness :
  let '(r, w') :=
    windows_print_pdf (W := win_a4) "SumatraPDF.exe" "a.pdf" win_options win_start in
  let '(listed, w1) :=
    windows_list_papers (W := win_a4) (po_printer_name win_options) win_start in
  match listed with
  | Err e => r = Err e ∧ e ≠ Undefined ∧ w' = w1
  | Ok papers =>
      match iter_find (fits (po_paper win_options)) papers with
      | None => w' = w1 ∧ ∃ m, r = Err (WinError (PaperNotFound m))
      | Some p =>
          let command := sumatra_command "SumatraPDF.exe" "a.pdf" win_options p in
          ww_calls w' = ww_calls w1 ++ [HiddenCommand command] ∧
          r = sumatra_outcome (win_now (Win32 := win_a4) (ww_tick w'))
                (win_run (Win32 := win_a4) (ww_tick w1) command)
      end
  end.
Proof.
  pose proof (windows_print_pdf_once (W := win_a4) (Laws := toy_spooler_laws)
    "SumatraPDF.exe" "a.pdf" win_options win_start) as H. exact H.
Defined.
Example document_is_printed :
  last (ww_calls (windows_print_pdf (W := win_a4) "SumatraPDF.exe" "a.pdf" win_options
    win_start).2) =
  Some (HiddenCommand (mkSysCommand "SumatraPDF.exe"
    ["-silent"; "-print-to"; "P"; "-print-settings"; "2x,fit,portrait,paperkind=9"; "a.pdf"])).
Proof. by vm_compute. Qed.

(** The check of the pointer to the default configuration adds before it compares:
    for a pointer so high that the sum wraps around, as it does in a release
    build, the check passes and memory outside of the buffer is read. *)
Theorem devmode_check_wraps :
  (windows_list_papers (W := toy_spooler (2 ^ 64 - 100)) "P" win_start).1 = Err Undefined.
Proof. by vm_compute. Qed.

(** The printer of the example as the backend lists it. *)
Example printers_are_listed :
  (windows_list_printers (W := toy_spooler 0) win_start).1 =
  Ok [mkPrinterInfo "P" false (Some 600) (Some "USB001") (Some true) (Some false) (Some false)].
Proof. by vm_compute. Qed.
