(* ===== verification/Protocol.v ===== *)
(** * The browser protocol ([crates/core/src/protocol.rs])

    The formats, the job a browser submits with its field validation, the
    messages of the WebSocket protocol, and the URL and Origin checks. *)

From S2P Require Import Prelude RustStr F64 Externs PrintTypes.
From Stdlib Require Import Ascii.
Open Scope string_scope.
Open Scope N_scope.
Open Scope list_scope.

Definition DEFAULT_HTML_WAIT_MS : N := 1000.
Definition MAX_HTML_WAIT_MS : N := 30000.

(** ** Formats *)

Inductive SupportedFormat :=
  | Pdf | Image | Png | Jpg | Jpeg | Docx | Xlsx | Pptx | Raw | Html | RawHtml.
#[export] Instance SupportedFormat_eq_dec : EqDecision SupportedFormat.
Proof. solve_decision. Defined.

(** [ParseSupportedFormatError] with its [Display]. *)
Inductive ParseSupportedFormatError := mkParseSupportedFormatError.
Definition ParseSupportedFormatError_display (_ : ParseSupportedFormatError) : string :=
  "unsupported file format".

(** [SupportedFormat::from_str] *)
Definition SupportedFormat_from_str (value : string)
  : result ParseSupportedFormatError SupportedFormat :=
  if bool_decide (value = "pdf") then Ok Pdf
  else if bool_decide (value = "image") then Ok Image
  else if bool_decide (value = "png") then Ok Png
  else if bool_decide (value = "jpg") then Ok Jpg
  else if bool_decide (value = "jpeg") then Ok Jpeg
  else if bool_decide (value = "docx") then Ok Docx
  else if bool_decide (value = "xlsx") then Ok Xlsx
  else if bool_decide (value = "pptx") then Ok Pptx
  else if bool_decide (value = "raw") then Ok Raw
  else if bool_decide (value = "html") then Ok Html
  else if bool_decide (value = "raw-html") then Ok RawHtml
  else Err mkParseSupportedFormatError.

(** The wire name the serde attributes of the type give ([lowercase], and the
    rename of [RawHtml]). *)
Definition SupportedFormat_wire (f : SupportedFormat) : string :=
  match f with
  | Pdf => "pdf" | Image => "image" | Png => "png" | Jpg => "jpg" | Jpeg => "jpeg"
  | Docx => "docx" | Xlsx => "xlsx" | Pptx => "pptx" | Raw => "raw" | Html => "html"
  | RawHtml => "raw-html"
  end.

(** ** Errors *)

Inductive ProtocolError :=
  | InvalidOrigin | UnsupportedOriginScheme | InvalidFileUrl
  | UnsupportedFileUrlScheme | InvalidPaperDimensions.
#[export] Instance ProtocolError_eq_dec : EqDecision ProtocolError.
Proof. solve_decision. Defined.

Definition ProtocolError_display (e : ProtocolError) : string :=
  match e with
  | InvalidOrigin => "invalid origin"
  | UnsupportedOriginScheme => "unsupported origin scheme"
  | InvalidFileUrl => "invalid file url"
  | UnsupportedFileUrlScheme => "unsupported file url scheme"
  | InvalidPaperDimensions => "paper dimensions must be positive"
  end.

Inductive JobValidationError :=
  | MissingRawData | RawFileUrlNotAllowed | RawPaperNotAllowed | RawCopiesNotAllowed
  | MissingFileUrl | FileRawDataNotAllowed | InvalidRawData | FileTooLarge
  | MissingHtmlFileUrl | InvalidHtmlFileUrl | HtmlInlineNotAllowed | MissingRawHtml
  | RawHtmlFileUrlNotAllowed | HtmlDataBase64NotAllowed | NonHtmlHtmlNotAllowed
  | NonHtmlWaitNotAllowed | HtmlWaitOutOfRange.
#[export] Instance JobValidationError_eq_dec : EqDecision JobValidationError.
Proof. solve_decision. Defined.

Definition JobValidationError_display (e : JobValidationError) : string :=
  match e with
  | MissingRawData => "raw job requires data_base64"
  | RawFileUrlNotAllowed => "raw job does not accept file_url"
  | RawPaperNotAllowed => "raw job does not accept paper"
  | RawCopiesNotAllowed => "raw job does not accept copies"
  | MissingFileUrl => "file job requires file_url"
  | FileRawDataNotAllowed => "file job does not accept data_base64"
  | InvalidRawData => "invalid raw data_base64"
  | FileTooLarge => "file too large"
  | MissingHtmlFileUrl => "html job requires file_url"
  | InvalidHtmlFileUrl => "html job file_url must be an absolute http or https url"
  | HtmlInlineNotAllowed => "html job does not accept inline html"
  | MissingRawHtml => "raw-html job requires html"
  | RawHtmlFileUrlNotAllowed => "raw-html job does not accept file_url"
  | HtmlDataBase64NotAllowed => "html jobs do not accept data_base64"
  | NonHtmlHtmlNotAllowed => "non-html job does not accept html"
  | NonHtmlWaitNotAllowed => "non-html job does not accept wait_ms"
  | HtmlWaitOutOfRange => "html wait_ms must be between 0 and 30000"
  end.

(** ** Jobs *)

Record EffectivePaper := mkEffectivePaper { ep_width_mm : f64; ep_height_mm : f64 }.
#[export] Instance EffectivePaper_eq_dec : EqDecision EffectivePaper.
Proof. solve_decision. Defined.

(** [EffectivePaper::validate] *)
Definition EffectivePaper_validate (p : EffectivePaper) : result ProtocolError unit :=
  if f64_ltb f64_zero (ep_width_mm p) && f64_ltb f64_zero (ep_height_mm p)
  then Ok tt else Err InvalidPaperDimensions.

Record PrintJobInput := mkPrintJobInput {
  ji_job_id : string;
  ji_format : SupportedFormat;
  ji_printer_name : option string;
  ji_file_url : option string;
  ji_data_base64 : option string;
  ji_html : option string;
  ji_wait_ms : option N;
  ji_copies : option N;
  ji_paper : option EffectivePaper
}.
#[export] Instance PrintJobInput_eq_dec : EqDecision PrintJobInput.
Proof. solve_decision. Defined.

(** ** URLs and Origins *)

Definition is_allowed_origin (origin : option string) (allowed_origins : list string) : bool :=
  match origin with
  | Some o => existsb (λ allowed, bool_decide (allowed = o)) allowed_origins
  | None => false
  end.

Definition is_pdf_data_url (value : string) : bool :=
  match strip_prefix "data:" value with
  | None => false
  | Some payload =>
      match split_once "," payload with
      | None => false
      | Some (metadata, data) =>
          if is_empty data then false
          else
            match split_char ";" metadata with
            | [] => false
            | media_type :: parts =>
                eq_ignore_ascii_case media_type "application/pdf" &&
                existsb (λ part, eq_ignore_ascii_case part "base64") parts
            end
      end
  end.

Section urls.
Context `{U : UrlOps}.

Definition validate_origin (value : string) : result ProtocolError unit :=
  url ← ok_or InvalidOrigin (Url_parse value);
  if bool_decide (url_scheme url = "http") || bool_decide (url_scheme url = "https")
  then if bool_decide (url_origin_ascii url = value) then Ok tt else Err InvalidOrigin
  else Err UnsupportedOriginScheme.

Definition validate_file_url (value : string) : result ProtocolError Url :=
  url ← ok_or InvalidFileUrl (Url_parse value);
  let scheme := url_scheme url in
  if bool_decide (scheme = "http") || bool_decide (scheme = "https") then Ok url
  else if bool_decide (scheme = "data") && is_pdf_data_url value then Ok url
  else Err UnsupportedFileUrlScheme.

Definition validate_html_file_url (value : string) : result ProtocolError Url :=
  url ← ok_or InvalidFileUrl (Url_parse value);
  let scheme := url_scheme url in
  if negb (bool_decide (scheme = "http") || bool_decide (scheme = "https"))
  then Err UnsupportedFileUrlScheme
  else if is_none (url_host_str url) then Err InvalidFileUrl
  else Ok url.
End urls.

(** ** Validation of a job's fields *)

Section validation.
Context `{U : UrlOps, B : Base64Ops}.

Definition non_empty (value : string) : bool := negb (is_empty value).

Definition validate_non_html_fields (j : PrintJobInput) : result JobValidationError unit :=
  if is_some (ji_html j) then Err NonHtmlHtmlNotAllowed
  else if is_some (ji_wait_ms j) then Err NonHtmlWaitNotAllowed
  else Ok tt.

Definition validate_raw (j : PrintJobInput) (max_file_size_mb : N)
  : result JobValidationError unit :=
  if is_some (ji_file_url j) then Err RawFileUrlNotAllowed
  else if is_some (ji_paper j) then Err RawPaperNotAllowed
  else if is_some (ji_copies j) then Err RawCopiesNotAllowed
  else
    _ ← validate_non_html_fields j;
    data_base64 ← ok_or MissingRawData (opt_filter non_empty (ji_data_base64 j));
    bytes ← ok_or InvalidRawData (b64_decode data_base64);
    let max_bytes := saturating_mul_u64 max_file_size_mb mib in
    if max_bytes <? str_len bytes then Err FileTooLarge else Ok tt.

Definition validate_file_job (j : PrintJobInput) : result JobValidationError unit :=
  if is_none (opt_filter non_empty (ji_file_url j)) then Err MissingFileUrl
  else if is_some (ji_data_base64 j) then Err FileRawDataNotAllowed
  else validate_non_html_fields j.

Definition validate_html_wait (j : PrintJobInput) : result JobValidationError unit :=
  match ji_wait_ms j with
  | Some wait_ms => if MAX_HTML_WAIT_MS <? wait_ms then Err HtmlWaitOutOfRange else Ok tt
  | None => Ok tt
  end.

Definition validate_html_file_job (j : PrintJobInput) : result JobValidationError unit :=
  file_url ← ok_or MissingHtmlFileUrl (opt_filter non_empty (ji_file_url j));
  _ ← map_err (λ _, InvalidHtmlFileUrl) (validate_html_file_url file_url);
  if is_some (ji_html j) then Err HtmlInlineNotAllowed
  else if is_some (ji_data_base64 j) then Err HtmlDataBase64NotAllowed
  else validate_html_wait j.

Definition validate_raw_html (j : PrintJobInput) (max_file_size_mb : N)
  : result JobValidationError unit :=
  if is_some (ji_file_url j) then Err RawHtmlFileUrlNotAllowed
  else if is_some (ji_data_base64 j) then Err HtmlDataBase64NotAllowed
  else
    html ← ok_or MissingRawHtml (opt_filter (λ v, non_empty (trim v)) (ji_html j));
    let max_bytes := saturating_mul_u64 max_file_size_mb mib in
    if max_bytes <? str_len html then Err FileTooLarge else validate_html_wait j.

Definition validate_for_acceptance (j : PrintJobInput) (max_file_size_mb : N)
  : result JobValidationError unit :=
  match ji_format j with
  | Raw => validate_raw j max_file_size_mb
  | Pdf | Image | Png | Jpg | Jpeg | Docx | Xlsx | Pptx => validate_file_job j
  | Html => validate_html_file_job j
  | RawHtml => validate_raw_html j max_file_size_mb
  end.
End validation.

(** ** Messages *)

Inductive JobStatus :=
  | Queued | Downloading | Printing | Submitted | Completed | Failed | Unknown | Cancelled.
#[export] Instance JobStatus_eq_dec : EqDecision JobStatus.
Proof. solve_decision. Defined.

Inductive ErrorCode :=
  | OriginNotAllowed | InvalidMessage | PrinterNotConfigured | EPrinterNotFound
  | PaperNotConfigured | EPaperNotFound | DownloadFailed | EFileTooLarge
  | UnsupportedFormat | FormatMismatch | OfficeConvertFailed | PrintFailed
  | JobDuplicated | BatchDuplicated | BatchTooLarge | CopiesOutOfRange
  | ServicePortInUse | InternalError.
#[export] Instance ErrorCode_eq_dec : EqDecision ErrorCode.
Proof. solve_decision. Defined.

Inductive ClientMessage :=
  | Ping (time : Z)
  | GetPrintersList (request_id : string)
  | GetPrinterInfo (request_id printer_name : string)
  | GetPrintQueue (request_id : string)
  | Print (request_id : string) (job : PrintJobInput)
  | PrintBatch (request_id batch_id : string) (jobs : list PrintJobInput).

Record PrinterDetails := mkPrinterDetails {
  pd_name : string;
  pd_is_default : bool;
  pd_dpi : option N;
  pd_port : option string;
  pd_is_local : option bool;
  pd_is_network : option bool;
  pd_is_virtual : option bool;
  pd_papers : list PaperInfo;
  pd_trays : list PrinterTrayInfo;
  pd_media_types : list PrinterMediaTypeInfo
}.

Record PrintQueueJobInfo := mkPrintQueueJobInfo {
  pq_request_id : string;
  pq_batch_id : option string;
  pq_job_id : string;
  pq_status : JobStatus;
  pq_message : option string
}.
#[export] Instance PrintQueueJobInfo_eq_dec : EqDecision PrintQueueJobInfo.
Proof. solve_decision. Defined.

Inductive ServerMessage :=
  | Pong (time : Z) (agent_status : string)
  | PrintersList (request_id : string) (printers : list PrinterInfo)
  | SPrinterInfo (request_id : string) (printer : PrinterDetails)
  | PrintQueue (request_id : string) (jobs : list PrintQueueJobInfo)
  | SJobStatus (request_id : option string) (job_id : string) (status : JobStatus)
               (message : option string)
  | SError (request_id : option string) (error_code : ErrorCode) (message : string).

(** ** Properties *)

(** The textual format names parse back: [from_str] accepts exactly the
    serde wire names, each as the format that has it. *)
Theorem format_from_str_spec (s : string) (f : SupportedFormat) :
  SupportedFormat_from_str s = Ok f ↔ s = SupportedFormat_wire f.
Proof.
  unfold SupportedFormat_from_str. split.
  - intros H. repeat (case_bool_decide; [by simplify_eq|]). done.
  - intros ->. by destruct f.
Qed.

Lemma is_pdf_data_url_true v :
  is_pdf_data_url v = true ↔
  ∃ meta data ps media, v = "data:" +:+ (meta +:+ ("," +:+ data)) ∧ (","%char ∉ to_bytes meta) ∧
    data ≠ "" ∧ split_char ";" meta = media :: ps ∧
    eq_ignore_ascii_case media "application/pdf" = true ∧
    existsb (λ p, eq_ignore_ascii_case p "base64") ps = true.
Proof.
  unfold is_pdf_data_url. split.
  - destruct (strip_prefix "data:" v) as [payload|] eqn:Hv; [|done].
    apply strip_prefix_spec in Hv as ->.
    destruct (split_once "," payload) as [[meta data]|] eqn:Hp; [|done].
    apply split_once_char in Hp as [-> Hm]. destruct (is_empty data) eqn:Hd; [done|].
    destruct (split_char ";" meta) as [|media ps] eqn:Hs; [done|].
    intros [??]%andb_true_iff. exists meta, data, ps, media.
    split_and!; try done. by intros ->.
  - intros (meta&data&ps&media&->&Hm&Hd&Hs&H1&H2).
    rewrite (proj2 (strip_prefix_spec _ _ _) eq_refl).
    rewrite (proj2 (split_once_char _ _ meta data)) by done.
    destruct data; [done|]. simpl. rewrite Hs. by rewrite H1, H2.
Qed.

(** [is_pdf_data_url] accepts exactly the texts
    [data:<media type>;<parameters>,<data>] whose media type is
    [application/pdf] and one of whose parameters is [base64], both in any case,
    and whose data is not empty; the comma is the first one of the text. *)
Theorem is_pdf_data_url_spec (v : string) :
  is_pdf_data_url v = true ↔
  ∃ media ps data,
    v = "data:" +:+ (join ";" (media :: ps) +:+ ("," +:+ data)) ∧ data ≠ "" ∧
    Forall (λ w, (","%char ∉ to_bytes w) ∧ (";"%char ∉ to_bytes w)) (media :: ps) ∧
    to_ascii_lowercase media = "application/pdf" ∧
    ∃ p, p ∈ ps ∧ to_ascii_lowercase p = "base64".
Proof.
  assert (∀ l, ","%char ∉ to_bytes (join ";" l) ↔ Forall (λ w, ","%char ∉ to_bytes w) l)
    as Hjoin.
  { induction l as [|w [|w' l] IH]; cbn [join].
    - split; [by constructor|intros _; apply not_elem_of_nil].
    - by rewrite Forall_singleton.
    - rewrite !to_bytes_app, !not_elem_of_app, IH, (Forall_cons _ w).
      split; [by intros (?&_&?)|intros [??]; split_and!; try done].
      by apply (bool_decide_unpack (","%char ∉ to_bytes ";")); vm_compute. }
  rewrite is_pdf_data_url_true. setoid_rewrite existsb_true.
  unfold eq_ignore_ascii_case. setoid_rewrite bool_decide_eq_true.
  change (to_ascii_lowercase "application/pdf") with "application/pdf".
  change (to_ascii_lowercase "base64") with "base64". split.
  - intros (meta&data&ps&media&->&Hm&?&(_&->&Hf)%split_char_spec&?&?).
    exists media, ps, data. split_and!; try done.
    apply Hjoin in Hm. apply Forall_and. by split.
  - intros (media&ps&data&->&?&[Hc Hs]%Forall_and&?&?).
    exists (join ";" (media :: ps)), data, ps, media.
    split_and!; try done; [by apply Hjoin|]. by apply split_char_spec.
Qed.

Lemma http_scheme_true s :
  bool_decide (s = "http") || bool_decide (s = "https") = true ↔ s = "http" ∨ s = "https".
Proof. by rewrite orb_true_iff, !bool_decide_eq_true. Qed.

Section validation_properties.
Context `{U : UrlOps, B : Base64Ops}.

Lemma validate_html_file_url_ok s u :
  validate_html_file_url s = Ok u ↔
  Url_parse s = Some u ∧ (url_scheme u = "http" ∨ url_scheme u = "https") ∧
  is_Some (url_host_str u).
Proof.
  unfold validate_html_file_url. rewrite result_bind_ok. setoid_rewrite ok_or_ok. split.
  - intros (v&Hv&H). destruct (negb _) eqn:Hs in H; [done|].
    destruct (is_none _) eqn:Hh in H; [done|]. simplify_eq.
    apply negb_false_iff, http_scheme_true in Hs.
    split_and!; [done..|]. by destruct (url_host_str u).
  - intros (Hp&Hs&[h Hh]). exists u. split; [done|].
    apply http_scheme_true in Hs. by rewrite Hs, Hh.
Qed.

(** What a job of each format may carry, written without an order of checks. *)
Definition bounded (max_file_size_mb n : N) : Prop :=
  n ≤ saturating_mul_u64 max_file_size_mb mib.
Definition wait_in_range (w : option N) : Prop := ∀ n, w = Some n → n ≤ MAX_HTML_WAIT_MS.
Definition acceptable (max_file_size_mb : N) (j : PrintJobInput) : Prop :=
  match ji_format j with
  | Raw =>
      ji_file_url j = None ∧ ji_paper j = None ∧ ji_copies j = None ∧
      ji_html j = None ∧ ji_wait_ms j = None ∧
      ∃ data bytes, ji_data_base64 j = Some data ∧ data ≠ "" ∧
        b64_decode data = Some bytes ∧ bounded max_file_size_mb (str_len bytes)
  | Html =>
      ji_html j = None ∧ ji_data_base64 j = None ∧ wait_in_range (ji_wait_ms j) ∧
      ∃ s u, ji_file_url j = Some s ∧ s ≠ "" ∧ Url_parse s = Some u ∧
        (url_scheme u = "http" ∨ url_scheme u = "https") ∧ is_Some (url_host_str u)
  | RawHtml =>
      ji_file_url j = None ∧ ji_data_base64 j = None ∧ wait_in_range (ji_wait_ms j) ∧
      ∃ html, ji_html j = Some html ∧ trim html ≠ "" ∧
        bounded max_file_size_mb (str_len html)
  | _ =>
      ji_data_base64 j = None ∧ ji_html j = None ∧ ji_wait_ms j = None ∧
      ∃ s, ji_file_url j = Some s ∧ s ≠ ""
  end.

Lemma non_empty_true s : non_empty s = true ↔ s ≠ "".
Proof. unfold non_empty. by destruct s. Qed.

Lemma validate_non_html_fields_ok j :
  validate_non_html_fields j = Ok tt ↔ ji_html j = None ∧ ji_wait_ms j = None.
Proof.
  unfold validate_non_html_fields.
  by destruct (ji_html j), (ji_wait_ms j); simpl; naive_solver.
Qed.

Lemma validate_html_wait_ok j :
  validate_html_wait j = Ok tt ↔ wait_in_range (ji_wait_ms j).
Proof.
  unfold validate_html_wait, wait_in_range. destruct (ji_wait_ms j) as [n|]; [|naive_solver].
  destruct (MAX_HTML_WAIT_MS <? n) eqn:Hn.
  - apply N.ltb_lt in Hn. split; [done|]. intros H. specialize (H n eq_refl). lia.
  - apply N.ltb_ge in Hn. naive_solver.
Qed.

Lemma size_check_ok {E} (e : E) max n (k : result E unit) :
  (if max <? n then Err e else k) = Ok tt ↔ n ≤ max ∧ k = Ok tt.
Proof.
  destruct (max <? n) eqn:Hn; [apply N.ltb_lt in Hn|apply N.ltb_ge in Hn].
  - split; [done|]. lia.
  - naive_solver.
Qed.

Lemma absent_check_ok {E A} (e : E) (o : option A) (k : result E unit) :
  (if is_some o then Err e else k) = Ok tt ↔ o = None ∧ k = Ok tt.
Proof. destruct o; simpl; naive_solver. Qed.

Lemma validate_raw_ok j max :
  ji_format j = Raw → validate_raw j max = Ok tt ↔ acceptable max j.
Proof.
  intros Hf. unfold acceptable, validate_raw. rewrite Hf, !absent_check_ok.
  rewrite result_bind_ok. setoid_rewrite result_bind_ok. setoid_rewrite result_bind_ok.
  setoid_rewrite size_check_ok. setoid_rewrite ok_or_ok. setoid_rewrite opt_filter_some.
  setoid_rewrite non_empty_true. split.
  - intros (?&?&?&[]&[??]%validate_non_html_fields_ok&data&[??]&bytes&?&?&_).
    split_and!; try done. by exists data, bytes.
  - intros (?&?&?&?&?&data&bytes&?&?&?&?). split_and!; try done.
    exists tt. split; [by apply validate_non_html_fields_ok|].
    exists data. split; [done|]. by exists bytes.
Qed.

Lemma validate_html_file_job_ok j max :
  ji_format j = Html → validate_html_file_job j = Ok tt ↔ acceptable max j.
Proof.
  intros Hf. unfold acceptable, validate_html_file_job. rewrite Hf, result_bind_ok.
  setoid_rewrite result_bind_ok. setoid_rewrite absent_check_ok.
  setoid_rewrite absent_check_ok. setoid_rewrite map_err_ok.
  setoid_rewrite validate_html_wait_ok. setoid_rewrite ok_or_ok.
  setoid_rewrite opt_filter_some. setoid_rewrite non_empty_true.
  setoid_rewrite validate_html_file_url_ok. split.
  - intros (s&[??]&u&(?&?&?)&?&?&?). split_and!; try done. by exists s, u.
  - intros (?&?&?&s&u&?&?&?&?&?). exists s. split; [done|]. by exists u.
Qed.

Lemma validate_raw_html_ok j max :
  ji_format j = RawHtml → validate_raw_html j max = Ok tt ↔ acceptable max j.
Proof.
  intros Hf. unfold acceptable, validate_raw_html. rewrite Hf, !absent_check_ok.
  rewrite result_bind_ok. setoid_rewrite size_check_ok. setoid_rewrite ok_or_ok.
  setoid_rewrite opt_filter_some. setoid_rewrite non_empty_true.
  setoid_rewrite validate_html_wait_ok. split.
  - intros (?&?&html&[??]&?&?). split_and!; try done. by exists html.
  - intros (?&?&?&html&?&?&?). split_and!; try done. by exists html.
Qed.

Lemma validate_file_job_ok j :
  validate_file_job j = Ok tt ↔
  ji_data_base64 j = None ∧ ji_html j = None ∧ ji_wait_ms j = None ∧
  ∃ s, ji_file_url j = Some s ∧ s ≠ "".
Proof.
  unfold validate_file_job.
  destruct (opt_filter non_empty (ji_file_url j)) as [s|] eqn:Hs; simpl.
  - apply opt_filter_some in Hs as [Hs Hne%non_empty_true].
    rewrite absent_check_ok, validate_non_html_fields_ok. naive_solver.
  - split; [done|]. intros (_&_&_&s&Hj&Hne%non_empty_true).
    rewrite opt_filter_none in Hs. by rewrite (Hs s Hj) in Hne.
Qed.

(** Field validation is exact: a job is accepted precisely when it
    carries the fields its format needs, none that the format forbids, a
    payload within the size limit and a wait within the HTML limit. *)
Theorem validate_for_acceptance_spec (j : PrintJobInput) (max_file_size_mb : N) :
  validate_for_acceptance j max_file_size_mb = Ok tt ↔ acceptable max_file_size_mb j.
Proof.
  unfold validate_for_acceptance. destruct (ji_format j) eqn:Hf;
    solve [by apply validate_raw_ok|by apply validate_html_file_job_ok|
           by apply validate_raw_html_ok|
           rewrite validate_file_job_ok; unfold acceptable; by rewrite Hf].
Qed.
End validation_properties.
