(* ===== verification/IpWhitelist.v ===== *)
(** * The IP allow list ([crates/core/src/ip_whitelist.rs])

    Normalisation, validation and matching of the entries that decide which
    clients may reach the service. *)

From S2P Require Import Prelude RustStr NetAddr Externs Toy.
Open Scope string_scope.
Open Scope N_scope.
Open Scope list_scope.

Definition REQUIRED_LOOPBACK_IP : string := "127.0.0.1".

(** One iteration of the loop of [normalize_allowed_ips]. *)
Definition normalize_step (normalized : list string) (entry : string) : list string :=
  let entry := trim entry in
  if is_empty entry || bool_decide (entry = REQUIRED_LOOPBACK_IP) then normalized
  else if negb (existsb (λ item, bool_decide (item = entry)) normalized)
       then normalized ++ [entry] else normalized.

Definition normalize_allowed_ips (entries : list string) : list string :=
  fold_left normalize_step entries [REQUIRED_LOOPBACK_IP].

Section whitelist.
Context `{I : IpNetOps}.

Definition validate_allowed_ip_entry (entry : string) : result string unit :=
  let entry := trim entry in
  if is_empty entry then Err "IP 白名单不能为空"
  else if bool_decide (entry = "0.0.0.0") || bool_decide (entry = "::")
          || bool_decide (entry = "0.0.0.0/0") || bool_decide (entry = "::/0")
  then Err "不能使用任意地址作为 IP 白名单项"
  else if contains "/" entry then
    net ← ok_or ("IP 或网段无效: " +:+ entry) (IpNet_parse entry);
    if net_prefix_len net =? 0 then Err "不能使用任意地址作为 IP 白名单项" else Ok tt
  else
    (λ _, tt) <$> ok_or ("IP 或网段无效: " +:+ entry) (parse_ip entry).

Definition entry_matches_client_ip (entry : string) (client_ip : IpAddr) : bool :=
  match parse_ip entry with
  | Some ip => bool_decide (ip = client_ip)
  | None =>
      match IpNet_parse entry with
      | Some network => net_contains network client_ip
      | None => false
      end
  end.

Definition is_client_ip_allowed (client_ip : IpAddr) (entries : list string) : bool :=
  if is_loopback client_ip then true
  else existsb (λ entry, entry_matches_client_ip entry client_ip) entries.
End whitelist.

(** ** Normalisation *)

Lemma normalize_step_elem acc entry x :
  x ∈ normalize_step acc entry ↔
  x ∈ acc ∨ (x = trim entry ∧ x ≠ "" ∧ x ≠ REQUIRED_LOOPBACK_IP).
Proof.
  unfold normalize_step.
  destruct (is_empty (trim entry)) eqn:He; simpl.
  { apply is_empty_true in He. rewrite He. intuition congruence. }
  assert (trim entry ≠ "") by (by intros Hz; rewrite Hz in He).
  case_bool_decide as Hl; [rewrite Hl; intuition congruence|].
  destruct (existsb _ acc) eqn:Ha; simpl.
  - apply existsb_true in Ha as (y&?&Hy%bool_decide_eq_true). subst y.
    split; [by left|]. by intros [|[-> _]].
  - rewrite elem_of_app, list_elem_of_singleton. intuition congruence.
Qed.

Lemma normalize_step_nodup acc entry : NoDup acc → NoDup (normalize_step acc entry).
Proof.
  unfold normalize_step. intros Hn. destruct (_ || _); [done|].
  destruct (existsb _ acc) eqn:Ha; simpl; [done|].
  apply NoDup_app. split_and!; [done| |apply NoDup_singleton].
  intros x Hx ->%list_elem_of_singleton.
  pose proof (proj1 (existsb_false _ _) Ha _ Hx) as Hf. by rewrite bool_decide_eq_false in Hf.
Qed.

Lemma normalize_step_prefix acc entry : ∃ k, normalize_step acc entry = acc ++ k.
Proof.
  unfold normalize_step. destruct (_ || _); [exists []; by rewrite app_nil_r|].
  destruct (negb _); [by eexists|exists []; by rewrite app_nil_r].
Qed.

Lemma normalize_fold_elem entries acc x :
  x ∈ fold_left normalize_step entries acc ↔
  x ∈ acc ∨ ((∃ e, e ∈ entries ∧ x = trim e) ∧ x ≠ "" ∧ x ≠ REQUIRED_LOOPBACK_IP).
Proof.
  revert acc. induction entries as [|e entries IH]; intros acc; simpl.
  { split; [by left|]. intros [|[(?&[]%not_elem_of_nil&_) _]]; done. }
  rewrite IH, normalize_step_elem. split.
  - intros [[?|(->&?&?)]|((f&?&->)&?&?)]; [by left|..].
    + right. split_and!; try done. exists e. split; [by left|done].
    + right. split_and!; try done. exists f. split; [by right|done].
  - intros [?|((f&[->|?]%elem_of_cons&->)&?&?)]; [by left; left|by left; right|].
    right. split_and!; try done. by exists f.
Qed.

Lemma normalize_fold_nodup entries acc :
  NoDup acc → NoDup (fold_left normalize_step entries acc).
Proof.
  revert acc. induction entries as [|e entries IH]; intros acc Hn; simpl; [done|].
  by apply IH, normalize_step_nodup.
Qed.

Lemma normalize_fold_prefix entries acc :
  ∃ k, fold_left normalize_step entries acc = acc ++ k.
Proof.
  revert acc. induction entries as [|e entries IH]; intros acc; simpl.
  { exists []. by rewrite app_nil_r. }
  destruct (normalize_step_prefix acc e) as [k1 Hk1].
  destruct (IH (normalize_step acc e)) as [k2 Hk2].
  exists (k1 ++ k2). by rewrite Hk2, Hk1, app_assoc.
Qed.

Lemma normalize_elem entries x :
  x ∈ normalize_allowed_ips entries ↔
  x = REQUIRED_LOOPBACK_IP ∨ ((∃ e, e ∈ entries ∧ x = trim e) ∧ x ≠ "").
Proof.
  unfold normalize_allowed_ips. rewrite normalize_fold_elem, list_elem_of_singleton.
  destruct (decide (x = REQUIRED_LOOPBACK_IP)); intuition.
Qed.

(** Entries that are already distinct, trimmed and not the loopback one are
    appended as they are. *)
Lemma normalize_fold_id entries acc :
  NoDup (acc ++ entries) →
  Forall (λ e, trim e = e ∧ e ≠ "" ∧ e ≠ REQUIRED_LOOPBACK_IP) entries →
  fold_left normalize_step entries acc = acc ++ entries.
Proof.
  revert acc. induction entries as [|e entries IH]; intros acc Hn Hf; simpl.
  { by rewrite app_nil_r. }
  apply Forall_cons in Hf as [(Ht&He&Hl) Hf].
  assert (normalize_step acc e = acc ++ [e]) as ->.
  { unfold normalize_step. rewrite Ht, (bool_decide_eq_false_2 _ Hl).
    destruct (is_empty e) eqn:Hz; [by apply is_empty_true in Hz|]. simpl.
    rewrite (proj2 (existsb_false _ _)); [done|]. intros a Ha.
    apply bool_decide_eq_false. intros ->.
    apply NoDup_app in Hn as (_&Hn&_). apply (Hn e Ha). by left. }
  rewrite IH, <-app_assoc; [done| |done]. by rewrite <-app_assoc.
Qed.

Lemma normalize_nodup entries : NoDup (normalize_allowed_ips entries).
Proof. apply normalize_fold_nodup, NoDup_singleton. Qed.

Lemma normalize_head entries : ∃ k, normalize_allowed_ips entries = REQUIRED_LOOPBACK_IP :: k.
Proof. apply (normalize_fold_prefix entries [REQUIRED_LOOPBACK_IP]). Qed.

Lemma normalize_idemp entries :
  normalize_allowed_ips (normalize_allowed_ips entries) = normalize_allowed_ips entries.
Proof.
  destruct (normalize_head entries) as [k Hk].
  pose proof (normalize_nodup entries) as Hn.
  assert (Forall (λ e, trim e = e ∧ e ≠ "" ∧ e ≠ REQUIRED_LOOPBACK_IP) k) as Hf.
  { apply Forall_forall. intros x Hx.
    assert (x ≠ REQUIRED_LOOPBACK_IP) as Hl.
    { intros ->. rewrite Hk in Hn. apply NoDup_cons in Hn as [Hn _]. done. }
    assert (x ∈ normalize_allowed_ips entries) as Hin by (rewrite Hk; by right).
    apply normalize_elem in Hin as [|[(e&_&->) ?]]; [done|]. by rewrite trim_idemp. }
  rewrite Hk in *. unfold normalize_allowed_ips. cbn [fold_left].
  assert (normalize_step [REQUIRED_LOOPBACK_IP] REQUIRED_LOOPBACK_IP = [REQUIRED_LOOPBACK_IP])
    as -> by (by vm_compute).
  by apply normalize_fold_id.
Qed.

(** A normalised allow list starts with the loopback address, has no
    repetition, holds exactly the trimmed non-empty entries besides it, and is
    left alone by a second normalisation. *)
Theorem normalize_allowed_ips_spec (entries : list string) :
  head (normalize_allowed_ips entries) = Some REQUIRED_LOOPBACK_IP ∧
  NoDup (normalize_allowed_ips entries) ∧
  (∀ x, x ∈ normalize_allowed_ips entries ↔
     x = REQUIRED_LOOPBACK_IP ∨ ((∃ e, e ∈ entries ∧ x = trim e) ∧ x ≠ "")) ∧
  normalize_allowed_ips (normalize_allowed_ips entries) = normalize_allowed_ips entries.
Proof.
  split_and!; [|apply normalize_nodup|apply normalize_elem|apply normalize_idemp].
  by destruct (normalize_head entries) as [k ->].
Qed.

(** ** Matching *)

Section matching.
Context `{IL : IpNetLaws}.

Lemma prefix_match_full ip c : prefix_match ip (ip_width ip) c = bool_decide (ip = c).
Proof.
  destruct ip as [n|n], c as [m|m]; simpl; [|done|done|];
    rewrite !N.shiftr_0_r; destruct (N.eqb_spec n m) as [->|]; symmetry;
    rewrite ?bool_decide_eq_true, ?bool_decide_eq_false; congruence.
Qed.

(** The lowest address of a family, and the first one of its upper half. *)
Lemma prefix_match_not_all net p :
  0 < p → p ≤ ip_width net →
  ∃ a, ip_width a = ip_width net ∧ ip_wf a = true ∧ prefix_match net p a = false.
Proof.
  intros Hp Hw.
  assert (∀ w, 0 < p → p ≤ w → N.shiftr (2 ^ (w - 1)) (w - p) ≠ 0) as Hh.
  { intros w ??. rewrite N.shiftr_div_pow2.
    replace (w - 1) with ((w - p) + (p - 1)) by lia. rewrite N.pow_add_r.
    rewrite N.mul_comm, N.div_mul by (by apply N.pow_nonzero). by apply N.pow_nonzero. }
  destruct net as [n|n]; simpl in *.
  - destruct (N.shiftr n (32 - p) =? 0) eqn:Hn.
    + exists (V4 (2 ^ (32 - 1))). split_and!; [done|done|]. simpl.
      apply N.eqb_eq in Hn as ->. apply N.eqb_neq. specialize (Hh 32). intuition.
    + exists (V4 0). simpl. by rewrite N.shiftr_0_l.
  - destruct (N.shiftr n (128 - p) =? 0) eqn:Hn.
    + exists (V6 (2 ^ (128 - 1))). split_and!; [done|done|]. simpl.
      apply N.eqb_eq in Hn as ->. apply N.eqb_neq. specialize (Hh 128). intuition.
    + exists (V6 0). simpl. by rewrite N.shiftr_0_l.
Qed.

Lemma valid_entry_prefix entry :
  validate_allowed_ip_entry entry = Ok tt →
  ∃ net p, 0 < p ∧ p ≤ ip_width net ∧
    ∀ c, entry_matches_client_ip (trim entry) c = prefix_match net p c.
Proof using IL.
  unfold validate_allowed_ip_entry, entry_matches_client_ip. intros Hv.
  destruct (parse_ip (trim entry)) as [ip|] eqn:Hip.
  { exists ip, (ip_width ip). split_and!; [by destruct ip|done|].
    intros c. by rewrite prefix_match_full. }
  destruct (is_empty _); [done|]. destruct (_ || _); [done|].
  destruct (contains "/" (trim entry)); [|done].
  destruct (IpNet_parse (trim entry)) as [net|] eqn:Hn; simpl in Hv; [|done].
  destruct (net_prefix_len net =? 0) eqn:Hz; [done|]. apply N.eqb_neq in Hz.
  exists (net_addr net), (net_prefix_len net).
  split_and!; [lia|by eapply net_prefix_le|]. intros c. apply net_contains_prefix.
Qed.

(** An entry that validates is effective and never admits everyone: after
    trimming it matches exactly the addresses that share a non-empty prefix
    with one network, and some address of that family is outside. *)
Theorem valid_entry_range (entry : string) :
  validate_allowed_ip_entry entry = Ok tt →
  ∃ net p, 0 < p ∧ p ≤ ip_width net ∧
    (∀ c, entry_matches_client_ip (trim entry) c = prefix_match net p c) ∧
    ∃ a, ip_width a = ip_width net ∧ ip_wf a = true ∧
      entry_matches_client_ip (trim entry) a = false.
Proof using IL.
  intros (net&p&Hp&Hw&Hc)%valid_entry_prefix. exists net, p. split_and!; [done..|].
  destruct (prefix_match_not_all net p Hp Hw) as (a&?&?&?).
  exists a. by rewrite Hc.
Qed.

(** Normalising the list does not change who is admitted: a client is
    allowed exactly when it is a loopback address or one of the entries, once
    trimmed, matches it. *)
Theorem normalized_list_admits (entries : list string) (c : IpAddr) :
  is_client_ip_allowed c (normalize_allowed_ips entries) = true ↔
  is_loopback c = true ∨ ∃ e, e ∈ entries ∧ entry_matches_client_ip (trim e) c = true.
Proof using IL.
  unfold is_client_ip_allowed. destruct (is_loopback c) eqn:Hl; [intuition|].
  rewrite existsb_true. split.
  - intros (x&[->|[(e&He&->) _]]%normalize_elem&Hx); [|right; by exists e].
    unfold entry_matches_client_ip in Hx.
    change (parse_ip REQUIRED_LOOPBACK_IP) with (Some (V4 2130706433)) in Hx.
    apply bool_decide_eq_true in Hx as <-. done.
  - intros [|(e&He&Hm)]; [done|]. exists (trim e). split; [|done].
    apply normalize_elem. right. split; [by exists e|]. intros Hz.
    unfold entry_matches_client_ip in Hm. rewrite Hz in Hm.
    change (parse_ip "") with (@None IpAddr) in Hm.
    destruct (IpNet_parse "") as [n|] eqn:Hn; [|done].
    by apply IpNet_parse_slash in Hn.
Qed.
End matching.

Lemma valid_entry_range_witness :
  validate_allowed_ip_entry " 10.0.0.0/8 " = Ok tt ∧
  ∃ net p, 0 < p ∧ p ≤ ip_width net ∧
    (∀ c, entry_matches_client_ip (trim " 10.0.0.0/8 ") c = prefix_match net p c) ∧
    ∃ a, ip_width a = ip_width net ∧ ip_wf a = true ∧
      entry_matches_client_ip (trim " 10.0.0.0/8 ") a = false.
Proof.
  split; [by vm_compute|]. apply (valid_entry_range " 10.0.0.0/8 "). by vm_compute.
Defined.

Lemma normalized_list_admits_witness :
  is_client_ip_allowed (v4 10 1 2 3) (normalize_allowed_ips ["10.0.0.0/8 "; ""]) = true ↔
  is_loopback (v4 10 1 2 3) = true ∨
  ∃ e, e ∈ ["10.0.0.0/8 "; ""] ∧ entry_matches_client_ip (trim e) (v4 10 1 2 3) = true.
Proof. exact (normalized_list_admits ["10.0.0.0/8 "; ""] (v4 10 1 2 3)). Defined.
