(* ===== verification/Config.v ===== *)
(** * The agent configuration ([crates/core/src/config.rs])

    The configuration record, where it is stored, its normal form, and loading
    and saving it.  The file system is a map from paths to contents with the
    failures the environment may inject; serde_json's codec of the record is a
    parameter. *)

From S2P Require Import Prelude RustStr F64 NetAddr Externs Toy FileSys Protocol IpWhitelist.
Open Scope string_scope.
Open Scope N_scope.
Open Scope list_scope.

Definition APP_CONFIG_DIR_NAME : string := "com.vergil.printbridge".
Definition CONFIG_FILE_NAME : string := "config.json".
Definition TASK_HISTORY_FILE_NAME : string := "task_history.sqlite3".
Definition REMOTE_STORE_FILE_NAME : string := "remote.sqlite3".
Definition CONFIG_PATH_OVERRIDE_ENV : string := "PRINT_BRIDGE_CONFIG_PATH".
Definition DATA_DIR_OVERRIDE_ENV : string := "PRINT_BRIDGE_DATA_DIR".
Definition MIN_SERVICE_PORT : N := 10000.
Definition MAX_SERVICE_PORT : N := u16_max.
Definition DEFAULT_PORT : N := 17890.
Definition MIN_REMOTE_POLL_INTERVAL_SECONDS : N := 3.
Definition MIN_REMOTE_MAX_REPORT_RETRIES : N := 1.

(** ** The records *)

Inductive UiLanguage := ZhCn | En.
#[export] Instance UiLanguage_eq_dec : EqDecision UiLanguage.
Proof. solve_decision. Defined.

Record ServiceConfig := mkServiceConfig { sv_host : string; sv_port : N }.
#[export] Instance ServiceConfig_eq_dec : EqDecision ServiceConfig.
Proof. solve_decision. Defined.

Record SecurityConfig := mkSecurityConfig {
  se_allowed_origins : list string; se_allowed_ips : list string
}.
#[export] Instance SecurityConfig_eq_dec : EqDecision SecurityConfig.
Proof. solve_decision. Defined.

Record PrintingConfig := mkPrintingConfig {
  pc_default_printer : option string;
  pc_default_paper : option EffectivePaper;
  pc_default_copies : N
}.
#[export] Instance PrintingConfig_eq_dec : EqDecision PrintingConfig.
Proof. solve_decision. Defined.

Record LimitsConfig := mkLimitsConfig {
  lc_max_file_size_mb : N;
  lc_max_batch_jobs : N;
  lc_max_copies : N;
  lc_download_timeout_seconds : N
}.
#[export] Instance LimitsConfig_eq_dec : EqDecision LimitsConfig.
Proof. solve_decision. Defined.

Record AppConfig := mkAppConfig { ap_autostart : bool; ap_language : UiLanguage }.
#[export] Instance AppConfig_eq_dec : EqDecision AppConfig.
Proof. solve_decision. Defined.

Record RemoteConfig := mkRemoteConfig {
  rc_enabled : bool;
  rc_endpoint_url : option string;
  rc_bearer_token : option string;
  rc_device_id : option string;
  rc_device_name : option string;
  rc_poll_interval_seconds : N;
  rc_max_report_retries : N;
  rc_history_retention_days : N
}.
#[export] Instance RemoteConfig_eq_dec : EqDecision RemoteConfig.
Proof. solve_decision. Defined.

Record AgentConfig := mkAgentConfig {
  cfg_service : ServiceConfig;
  cfg_security : SecurityConfig;
  cfg_printing : PrintingConfig;
  cfg_limits : LimitsConfig;
  cfg_app : AppConfig;
  cfg_remote : RemoteConfig
}.
#[export] Instance AgentConfig_eq_dec : EqDecision AgentConfig.
Proof. solve_decision. Defined.

Definition default_allowed_ips : list string := [REQUIRED_LOOPBACK_IP].
Definition default_ui_language : UiLanguage := ZhCn.

Definition RemoteConfig_default : RemoteConfig :=
  mkRemoteConfig false None None None None 10 10 3.

Definition AgentConfig_default : AgentConfig := {|
  cfg_service := mkServiceConfig "127.0.0.1" DEFAULT_PORT;
  cfg_security := mkSecurityConfig [] default_allowed_ips;
  cfg_printing := mkPrintingConfig None None 1;
  cfg_limits := mkLimitsConfig 20 20 100 30;
  cfg_app := mkAppConfig false ZhCn;
  cfg_remote := RemoteConfig_default
|}.

(** [AgentConfig::normalized] *)
Definition normalized (c : AgentConfig) : AgentConfig := {|
  cfg_service := mkServiceConfig "127.0.0.1" (sv_port (cfg_service c));
  cfg_security := mkSecurityConfig (se_allowed_origins (cfg_security c))
                    (normalize_allowed_ips (se_allowed_ips (cfg_security c)));
  cfg_printing := cfg_printing c;
  cfg_limits := cfg_limits c;
  cfg_app := cfg_app c;
  cfg_remote := cfg_remote c
|}.

(** ** Where the files are *)

Inductive Platform := Windows | MacOs | OtherUnix.
#[export] Instance Platform_eq_dec : EqDecision Platform.
Proof. solve_decision. Defined.

(** [Path::join]: an absolute second part replaces the first. *)
Definition path_sep (pf : Platform) : string :=
  match pf with Windows => "\" | _ => "/" end.
Definition path_join (pf : Platform) (a b : string) : string :=
  if starts_with (path_sep pf) b then b
  else if is_empty a || ends_with (path_sep pf) a then a +:+ b
  else a +:+ path_sep pf +:+ b.

(** [env::var_os] *)
Definition Env := string → option string.

Section paths.
Context (pf : Platform) (env : Env).

Definition home_dir : result IoError string :=
  ok_or (mkIoError NotFound "HOME is not set") (env "HOME").

(** The three [cfg(target_os)] variants of [platform_config_dir]. *)
Definition platform_config_dir : result IoError string :=
  match pf with
  | Windows => ok_or (mkIoError NotFound "APPDATA is not set") (env "APPDATA")
  | MacOs =>
      home ← home_dir;
      Ok (path_join pf (path_join pf home "Library") "Application Support")
  | OtherUnix =>
      match env "XDG_CONFIG_HOME" with
      | Some dir => Ok dir
      | None => home ← home_dir; Ok (path_join pf home ".config")
      end
  end.

Definition cli_data_dir : result IoError string :=
  match env DATA_DIR_OVERRIDE_ENV with
  | Some dir => Ok dir
  | None => dir ← platform_config_dir; Ok (path_join pf dir APP_CONFIG_DIR_NAME)
  end.
Definition cli_config_path : result IoError string :=
  match env CONFIG_PATH_OVERRIDE_ENV with
  | Some path => Ok path
  | None => dir ← cli_data_dir; Ok (path_join pf dir CONFIG_FILE_NAME)
  end.
Definition cli_task_history_path : result IoError string :=
  dir ← cli_data_dir; Ok (path_join pf dir TASK_HISTORY_FILE_NAME).
Definition cli_remote_store_path : result IoError string :=
  dir ← cli_data_dir; Ok (path_join pf dir REMOTE_STORE_FILE_NAME).
End paths.

(** ** Loading and saving *)

Section load_save.
Context `{J : JsonCodec AgentConfig}.

(** [AgentConfig::load] *)
Definition load (path : string) : IO AgentConfig :=
  ex ← fs_exists path;
  if negb ex then mret AgentConfig_default
  else
    content ← fs_read path;
    lift (map_err (mkIoError InvalidData) (normalized <$> from_json content)).

(** [AgentConfig::save]; [path.parent()] is the text before the last slash. *)
Definition path_parent (path : string) : option string := fst <$> rsplit_once "/" path.
Definition save (c : AgentConfig) (path : string) : IO unit :=
  _ ← match path_parent path with
      | Some parent => fs_create_dir_all parent
      | None => mret tt
      end;
  fs_write path (to_json (normalized c)).
End load_save.

(** ** Properties *)

Lemma normalized_idemp c : normalized (normalized c) = normalized c.
Proof.
  unfold normalized. simpl. by rewrite normalize_idemp.
Qed.

Lemma default_normalized : normalized AgentConfig_default = AgentConfig_default.
Proof. by vm_compute. Qed.

(** Values serde_json can represent: the paper's sides are finite numbers. *)
Definition serializable (c : AgentConfig) : Prop :=
  ∀ p, pc_default_paper (cfg_printing c) = Some p →
    is_finite (ep_width_mm p) = true ∧ is_finite (ep_height_mm p) = true.

Section config_properties.
Context `{J : JsonCodec AgentConfig, !JsonLaws AgentConfig serializable}.

(** What a load returns, with every failure accounted for. *)
Lemma load_cases path fs :
  let '(r, fs') := load path fs in
  fs_files fs' = fs_files fs ∧
  match r with
  | Ok c =>
      (c = AgentConfig_default ∧ (fs_files fs !! path = None ∨ fault_now fs ≠ None)) ∨
      ∃ content c0, fs_files fs !! path = Some content ∧ from_json content = Ok c0 ∧
        c = normalized c0
  | Err e =>
      ∃ content, fs_files fs !! path = Some content ∧
        ((∃ x, fs_fault fs (S (fs_tick fs)) = Some (e, x)) ∨
         ∃ m, from_json content = Err m ∧ e = mkIoError InvalidData m)
  end.
Proof using J.
  unfold load, fs_exists, fs_read, mbind, M_bind, mret, M_ret, lift, fmap, result_fmap.
  destruct (fault_now fs) as [e|] eqn:Hf; simpl; [by split; [|left; auto]|].
  destruct (fs_files fs !! path) as [content|] eqn:Hp; simpl; [|by split; [|left; auto]].
  rewrite Hp. destruct (fault_now (fs_step fs)) as [[e x]|] eqn:Hf'; simpl.
  { split; [done|]. exists content. split; [done|]. left. by exists x. }
  destruct (from_json content) as [c|m] eqn:Hc; simpl; (split; [done|]); [right|]; eauto 10.
Qed.

(** Whatever the file holds and whatever fails, a configuration that loads
    is in normal form: the default one when the file is missing (or cannot be
    examined), else the normal form of what the file says.  A file that is there
    and does not parse is an [InvalidData] error, never a default. *)
Theorem load_spec (path : string) (fs : Fs) :
  match (load path fs).1 with
  | Ok c => normalized c = c ∧
      ((c = AgentConfig_default ∧ (fs_files fs !! path = None ∨ fault_now fs ≠ None)) ∨
       ∃ content c0, fs_files fs !! path = Some content ∧ from_json content = Ok c0 ∧
         c = normalized c0)
  | Err e =>
      ∃ content, fs_files fs !! path = Some content ∧
        ((∃ x, fs_fault fs (S (fs_tick fs)) = Some (e, x)) ∨
         ∃ m, from_json content = Err m ∧ e = mkIoError InvalidData m)
  end.
Proof using J.
  pose proof (load_cases path fs) as Hl. destruct (load path fs) as [[c|e] fs']; simpl.
  - destruct Hl as [_ Hl]. split; [|done].
    destruct Hl as [[-> _]|(?&?&_&_&->)]; [apply default_normalized|apply normalized_idemp].
  - by destruct Hl.
Qed.

(** Saving and loading round trip: when nothing fails, saving succeeds
    whatever the file held, loading gives the normal form of what was saved, and
    the normal form keeps the loopback address on the allow list. *)
Theorem save_load (c : AgentConfig) (path : string) (fs : Fs) :
  serializable c → no_faults fs →
  ∃ fs', save c path fs = (Ok tt, fs') ∧ (load path fs').1 = Ok (normalized c) ∧
    REQUIRED_LOOPBACK_IP ∈ se_allowed_ips (cfg_security (normalized c)) ∧
    (∀ p, p ≠ path → fs_files fs' !! p = fs_files fs !! p).
Proof.
  intros Hc Hn. pose proof (no_faults_step _ Hn) as Hn1.
  pose proof (no_faults_step _ Hn1) as Hn2. pose proof (no_faults_step _ Hn2) as Hn3.
  assert (∃ fs1, save c path fs =
            (Ok tt, fs_step (fs_with_files <[path := to_json (normalized c)]> fs1)) ∧
          no_faults fs1 ∧ fs_files fs1 = fs_files fs) as (fs1&->&Hf1&Hfs1).
  { unfold save, fs_create_dir_all, fs_write, mbind, M_bind, mret, M_ret.
    destruct (path_parent path); rewrite ?(no_faults_now _ Hn), ?(no_faults_now _ Hn1); eauto. }
  eexists. split; [done|]. split_and!.
  - pose proof (no_faults_step _ Hf1) as H1. pose proof (no_faults_step _ H1) as H2.
    unfold load, fs_exists, fs_read, mbind, M_bind, mret, M_ret, lift, fmap, result_fmap. simpl.
    assert (fault_now (fs_step (fs_with_files <[path := to_json (normalized c)]> fs1)) = None)
      as -> by by apply (no_faults_now (fs_step fs1)).
    rewrite lookup_insert. simpl. rewrite decide_True by done. simpl.
    assert (fault_now (fs_step (fs_step (fs_with_files <[path := to_json (normalized c)]> fs1)))
      = None) as -> by by apply (no_faults_now (fs_step (fs_step fs1))).
    simpl. rewrite lookup_insert, decide_True by done. simpl.
    rewrite from_to_json by done. simpl. by rewrite normalized_idemp.
  - apply normalize_elem. by left.
  - intros p Hp. simpl. by rewrite lookup_insert_ne, Hfs1 by done.
Qed.
End config_properties.

(** ** Witnesses *)

#[export] Program Instance EffectivePaper_countable : Countable EffectivePaper :=
  inj_countable' (λ p, (ep_width_mm p, ep_height_mm p)) (λ '(w, h), mkEffectivePaper w h) _.
Next Obligation. by intros []. Qed.

Definition AgentConfig_to_tuple (c : AgentConfig) :=
  (cfg_service c, cfg_security c, cfg_printing c, cfg_limits c, cfg_app c, cfg_remote c).
#[export] Instance ServiceConfig_countable : Countable ServiceConfig.
Proof.
  refine (inj_countable' (λ c, (sv_host c, sv_port c)) (λ '(a, b), mkServiceConfig a b) _).
  by intros [].
Defined.
#[export] Instance SecurityConfig_countable : Countable SecurityConfig.
Proof.
  refine (inj_countable' (λ c, (se_allowed_origins c, se_allowed_ips c))
    (λ '(a, b), mkSecurityConfig a b) _). by intros [].
Defined.
#[export] Instance PrintingConfig_countable : Countable PrintingConfig.
Proof.
  refine (inj_countable'
    (λ c, (pc_default_printer c, pc_default_paper c, pc_default_copies c))
    (λ '(a, b, c), mkPrintingConfig a b c) _). by intros [].
Defined.
#[export] Instance LimitsConfig_countable : Countable LimitsConfig.
Proof.
  refine (inj_countable'
    (λ c, (lc_max_file_size_mb c, lc_max_batch_jobs c, lc_max_copies c,
           lc_download_timeout_seconds c))
    (λ '(a, b, c, d), mkLimitsConfig a b c d) _). by intros [].
Defined.
#[export] Instance AppConfig_countable : Countable AppConfig.
Proof.
  refine (inj_countable' (λ c, (ap_autostart c, bool_decide (ap_language c = ZhCn)))
    (λ '(a, b), mkAppConfig a (if b : bool then ZhCn else En)) _). by intros [? []].
Defined.
#[export] Instance RemoteConfig_countable : Countable RemoteConfig.
Proof.
  refine (inj_countable'
    (λ c, (rc_enabled c, rc_endpoint_url c, rc_bearer_token c, rc_device_id c,
           rc_device_name c, rc_poll_interval_seconds c, rc_max_report_retries c,
           rc_history_retention_days c))
    (λ '(a, b, c, d, e, f, g, h), mkRemoteConfig a b c d e f g h) _). by intros [].
Defined.
#[export] Instance AgentConfig_countable : Countable AgentConfig.
Proof.
  refine (inj_countable' AgentConfig_to_tuple
    (λ '(a, b, c, d, e, f), mkAgentConfig a b c d e f) _). by intros [].
Defined.

Definition toy_fs : Fs := mkFs ∅ ∅ 0 (λ _, None).

Lemma save_load_witness :
  let J := toy_codec AgentConfig in
  ∃ fs', save AgentConfig_default "dir/config.json" toy_fs = (Ok tt, fs') ∧
    (load "dir/config.json" fs').1 = Ok (normalized AgentConfig_default) ∧
    REQUIRED_LOOPBACK_IP ∈ se_allowed_ips (cfg_security (normalized AgentConfig_default)) ∧
    (∀ p, p ≠ "dir/config.json" → fs_files fs' !! p = fs_files toy_fs !! p).
Proof.
  intros J. apply (@save_load J (toy_codec_laws AgentConfig serializable)).
  - intros p [=].
  - intros n _. reflexivity.
Defined.
