(* ===== verification/JobQueue.v ===== *)
(** * The in-memory job queue ([crates/core/src/queue.rs])

    The FIFO of accepted jobs with the sets of ids that protect it from
    duplicates, every entry point of [QueueState], and its refinement of an
    abstract append-only log of jobs with a read position. *)

From S2P Require Import Prelude RustStr F64 Externs Toy Protocol.
Open Scope string_scope.
Open Scope N_scope.
Open Scope list_scope.

Record QueuedJob := mkQueuedJob {
  qj_request_id : string;
  qj_batch_id : option string;
  qj_job : PrintJobInput;
  qj_html_local_origin : option string;
  qj_remote : bool
}.
#[export] Instance QueuedJob_eq_dec : EqDecision QueuedJob.
Proof. solve_decision. Defined.

Abbreviation qj_id q := (ji_job_id (qj_job q)).

Inductive QueueError := DuplicateJobId | DuplicateBatchId | QInvalidMessage.
#[export] Instance QueueError_eq_dec : EqDecision QueueError.
Proof. solve_decision. Defined.

Definition QueueError_display (e : QueueError) : string :=
  match e with
  | DuplicateJobId => "duplicate job id"
  | DuplicateBatchId => "duplicate batch id"
  | QInvalidMessage => "invalid message"
  end.

Record QueueState := mkQueueState {
  pending : list QueuedJob;
  seen_job_ids : gset string;
  seen_batch_ids : gset string
}.
(** [QueueState::default] *)
Definition QueueState_default : QueueState := mkQueueState [] ∅ ∅.

Section queue.
Context `{U : UrlOps}.

Definition validate_html_source (job : PrintJobInput) : result QueueError unit :=
  if negb (bool_decide (ji_format job = Html)) then Ok tt
  else
    file_url ← ok_or QInvalidMessage (opt_filter non_empty (ji_file_url job));
    map_err (λ _, QInvalidMessage) ((λ _, tt) <$> validate_html_file_url file_url).

Definition html_local_origin_for_job (job : PrintJobInput)
    (html_local_origin : option string) : option string :=
  file_url ← ji_file_url job;
  url ← result_ok (validate_html_file_url file_url);
  let origin := url_origin_ascii url in
  opt_filter (λ allowed_origin, bool_decide (allowed_origin = origin)) html_local_origin.

Definition accept_queued_job (st : QueueState) (queued_job : QueuedJob)
  : result QueueError unit * QueueState :=
  match validate_html_source (qj_job queued_job) with
  | Err e => (Err e, st)
  | Ok _ =>
      if bool_decide (qj_id queued_job ∈ seen_job_ids st) then (Err DuplicateJobId, st)
      else (Ok tt, mkQueueState (pending st ++ [queued_job])
                     ({[qj_id queued_job]} ∪ seen_job_ids st) (seen_batch_ids st))
  end.

Definition accept_job (st : QueueState) (request_id : string) (job : PrintJobInput) :=
  accept_queued_job st (mkQueuedJob request_id None job None false).

Definition accept_remote_job (st : QueueState) (request_id : string) (job : PrintJobInput) :=
  accept_queued_job st (mkQueuedJob request_id None job None true).

Definition accept_job_with_html_local_origin (st : QueueState) (request_id : string)
    (job : PrintJobInput) (html_local_origin : option string) :=
  let job_html_local_origin := html_local_origin_for_job job html_local_origin in
  accept_queued_job st (mkQueuedJob request_id None job job_html_local_origin false).

(** The loop that looks for a duplicate among the queue and the batch itself. *)
Fixpoint check_batch_ids (seen batch_job_ids : gset string) (jobs : list PrintJobInput)
  : result QueueError unit :=
  match jobs with
  | [] => Ok tt
  | job :: jobs' =>
      if bool_decide (ji_job_id job ∈ seen) || bool_decide (ji_job_id job ∈ batch_job_ids)
      then Err DuplicateJobId
      else check_batch_ids seen ({[ji_job_id job]} ∪ batch_job_ids) jobs'
  end.

Definition batch_queued_job (request_id batch_id : string) (remote : bool)
    (html_local_origin : option string) (job : PrintJobInput) : QueuedJob :=
  mkQueuedJob request_id (Some batch_id) job
    (html_local_origin_for_job job html_local_origin) remote.

(** The loop that moves the jobs into the queue. *)
Fixpoint push_batch (mk : PrintJobInput → QueuedJob) (st : QueueState)
    (jobs : list PrintJobInput) : QueueState :=
  match jobs with
  | [] => st
  | job :: jobs' =>
      push_batch mk
        (mkQueueState (pending st ++ [mk job]) ({[ji_job_id job]} ∪ seen_job_ids st)
           (seen_batch_ids st)) jobs'
  end.

Definition accept_batch_with_html_origin (st : QueueState) (request_id batch_id : string)
    (jobs : list PrintJobInput) (remote : bool) (html_local_origin : option string)
  : result QueueError unit * QueueState :=
  match try_for_each validate_html_source jobs with
  | Err e => (Err e, st)
  | Ok _ =>
      if bool_decide (batch_id ∈ seen_batch_ids st) then (Err DuplicateBatchId, st)
      else
        match check_batch_ids (seen_job_ids st) ∅ jobs with
        | Err e => (Err e, st)
        | Ok _ =>
            (Ok tt,
             push_batch (batch_queued_job request_id batch_id remote html_local_origin)
               (mkQueueState (pending st) (seen_job_ids st)
                  ({[batch_id]} ∪ seen_batch_ids st)) jobs)
        end
  end.

Definition accept_batch_with_remote (st : QueueState) (request_id batch_id : string)
    (jobs : list PrintJobInput) (remote : bool) :=
  accept_batch_with_html_origin st request_id batch_id jobs remote None.

Definition accept_batch (st : QueueState) (request_id batch_id : string)
    (jobs : list PrintJobInput) :=
  accept_batch_with_remote st request_id batch_id jobs false.

Definition accept_remote_batch (st : QueueState) (request_id batch_id : string)
    (jobs : list PrintJobInput) :=
  accept_batch_with_remote st request_id batch_id jobs true.

Definition accept_batch_with_html_local_origin (st : QueueState)
    (request_id batch_id : string) (jobs : list PrintJobInput)
    (html_local_origin : option string) :=
  accept_batch_with_html_origin st request_id batch_id jobs false html_local_origin.

Definition pop_next (st : QueueState) : option QueuedJob * QueueState :=
  match pending st with
  | [] => (None, st)
  | q :: rest => (Some q, mkQueueState rest (seen_job_ids st) (seen_batch_ids st))
  end.

Definition pending_jobs (st : QueueState) : list QueuedJob := pending st.

(** ** Operations as steps *)

(** The arguments of one call; the three single-job entry points and the three
    batch entry points are the two general forms at fixed flags. *)
Inductive QueueOp :=
  | OpJob (request_id : string) (job : PrintJobInput) (origin : option string) (remote : bool)
  | OpBatch (request_id batch_id : string) (jobs : list PrintJobInput)
            (origin : option string) (remote : bool)
  | OpPop.

(** The jobs an operation would put into the queue, as it would queue them. *)
Definition op_jobs (op : QueueOp) : list QueuedJob :=
  match op with
  | OpJob r j o rem => [mkQueuedJob r None j (html_local_origin_for_job j o) rem]
  | OpBatch r b js o rem => map (batch_queued_job r b rem o) js
  | OpPop => []
  end.

Inductive QueueEvent :=
  | EvAccepted (jobs : list QueuedJob)
  | EvRejected (e : QueueError)
  | EvPopped (q : option QueuedJob).

Definition queue_step (st : QueueState) (op : QueueOp) : QueueEvent * QueueState :=
  let accepted r := match r with
    | (Ok _, st') => (EvAccepted (op_jobs op), st')
    | (Err e, st') => (EvRejected e, st')
    end in
  match op with
  | OpJob r j o rem =>
      accepted (accept_queued_job st
        (mkQueuedJob r None j (html_local_origin_for_job j o) rem))
  | OpBatch r b js o rem => accepted (accept_batch_with_html_origin st r b js rem o)
  | OpPop => let '(q, st') := pop_next st in (EvPopped q, st')
  end.

Fixpoint queue_run (st : QueueState) (ops : list QueueOp) : list QueueEvent * QueueState :=
  match ops with
  | [] => ([], st)
  | op :: ops' =>
      let '(ev, st') := queue_step st op in
      let '(evs, st'') := queue_run st' ops' in (ev :: evs, st'')
  end.
End queue.

(** The jobs accepted and handed out by a run. *)
Definition accepted_of (ev : QueueEvent) : list QueuedJob :=
  match ev with EvAccepted js => js | _ => [] end.
Definition popped_of (ev : QueueEvent) : list QueuedJob :=
  match ev with EvPopped (Some q) => [q] | _ => [] end.
Definition accepted_jobs (evs : list QueueEvent) : list QueuedJob := evs ≫= accepted_of.
Definition popped_jobs (evs : list QueueEvent) : list QueuedJob := evs ≫= popped_of.

(** ** Lemmas *)

Section queue_lemmas.
Context `{U : UrlOps}.
Implicit Types (st : QueueState) (js : list PrintJobInput) (q : QueuedJob).

Lemma check_batch_ids_ok seen acc js :
  check_batch_ids seen acc js = Ok tt ↔
  NoDup (map ji_job_id js) ∧ ∀ j, j ∈ js → ji_job_id j ∉ seen ∧ ji_job_id j ∉ acc.
Proof.
  revert acc. induction js as [|j js IH]; intros acc; simpl.
  { split; [|done]. intros _. split; [constructor|]. intros ? []%not_elem_of_nil. }
  rewrite NoDup_cons, list_elem_of_fmap.
  destruct (bool_decide (ji_job_id j ∈ seen)) eqn:Hs; simpl.
  { apply bool_decide_eq_true in Hs. split; [done|]. intros [_ H].
    destruct (H j); [by left|done]. }
  destruct (bool_decide (ji_job_id j ∈ acc)) eqn:Ha; simpl.
  { apply bool_decide_eq_true in Ha. split; [done|]. intros [_ H].
    destruct (H j); [by left|done]. }
  apply bool_decide_eq_false in Hs, Ha. rewrite IH. split.
  - intros [Hn H]. split_and!; [|done|].
    + intros (j'&Hj&Hin). apply H in Hin as [_ Hin]. rewrite <-Hj in Hin. set_solver.
    + intros j' [->|Hin]%elem_of_cons; [done|]. apply H in Hin. set_solver.
  - intros [[Hj Hn] H]. split; [done|]. intros j' Hin.
    destruct (H j') as [??]; [by right|]. split; [done|].
    rewrite elem_of_union, elem_of_singleton. intros [Heq|]; [|done]. apply Hj. by exists j'.
Qed.

Lemma check_batch_ids_err seen acc js e :
  check_batch_ids seen acc js = Err e → e = DuplicateJobId.
Proof.
  revert acc. induction js as [|j js IH]; intros acc; simpl; [done|].
  destruct (_ || _); [by intros [= <-]|apply IH].
Qed.

Lemma push_batch_spec mk st js :
  push_batch mk st js =
  mkQueueState (pending st ++ map mk js)
    (list_to_set (map ji_job_id js) ∪ seen_job_ids st) (seen_batch_ids st).
Proof.
  revert st. induction js as [|j js IH]; intros st; simpl.
  { destruct st; simpl. rewrite app_nil_r. f_equal. set_solver. }
  rewrite IH. simpl. rewrite <-app_assoc. simpl. f_equal. set_solver.
Qed.

Lemma validate_html_source_err j e : validate_html_source j = Err e → e = QInvalidMessage.
Proof.
  unfold validate_html_source. destruct (negb _); [done|].
  destruct (opt_filter _ _) as [s|]; simpl; [|by intros [= <-]].
  destruct (validate_html_file_url s); simpl; [done|by intros [= <-]].
Qed.

Lemma try_validate_err js e :
  try_for_each validate_html_source js = Err e → e = QInvalidMessage.
Proof. intros (?&?&?&_&_&He)%try_for_each_err. by eapply validate_html_source_err. Qed.

Lemma html_local_origin_none j : html_local_origin_for_job j None = None.
Proof.
  unfold html_local_origin_for_job. destruct (ji_file_url j) as [s|]; [|done]. simpl.
  by destruct (validate_html_file_url s).
Qed.

(** The origin a job carries is the origin of its own page. *)
Lemma html_local_origin_some j o x :
  html_local_origin_for_job j o = Some x →
  o = Some x ∧ ∃ s u, ji_file_url j = Some s ∧ validate_html_file_url s = Ok u ∧
    url_origin_ascii u = x.
Proof.
  unfold html_local_origin_for_job. destruct (ji_file_url j) as [s|]; [|done]. simpl.
  destruct (validate_html_file_url s) as [u|] eqn:Hu; [|done]. simpl.
  intros [-> ->%bool_decide_eq_true]%opt_filter_some. split; [done|]. by exists s, u.
Qed.

(** The entry points are the two general operations at fixed flags. *)
Lemma entry_points st r b j js o :
  accept_job st r j = accept_queued_job st (mkQueuedJob r None j None false) ∧
  accept_batch st r b js = accept_batch_with_html_origin st r b js false None ∧
  accept_remote_batch st r b js = accept_batch_with_html_origin st r b js true None ∧
  accept_batch_with_html_local_origin st r b js o =
    accept_batch_with_html_origin st r b js false o.
Proof. done. Qed.

(** What one accepted operation does to the state, and when it is accepted. *)
Definition op_valid (st : QueueState) (op : QueueOp) : Prop :=
  match op with
  | OpJob _ j _ _ => validate_html_source j = Ok tt ∧ ji_job_id j ∉ seen_job_ids st
  | OpBatch _ b js _ _ =>
      Forall (λ j, validate_html_source j = Ok tt) js ∧ b ∉ seen_batch_ids st ∧
      NoDup (map ji_job_id js) ∧ ∀ j, j ∈ js → ji_job_id j ∉ seen_job_ids st
  | OpPop => False
  end.
Definition op_batch_ids (op : QueueOp) : gset string :=
  match op with OpBatch _ b _ _ _ => {[b]} | _ => ∅ end.
Definition enqueue (st : QueueState) (op : QueueOp) : QueueState :=
  mkQueueState (pending st ++ op_jobs op)
    (list_to_set (map (λ q, qj_id q) (op_jobs op)) ∪ seen_job_ids st)
    (op_batch_ids op ∪ seen_batch_ids st).

Lemma op_jobs_ids op :
  map (λ q, qj_id q) (op_jobs op) =
  match op with
  | OpJob _ j _ _ => [ji_job_id j] | OpBatch _ _ js _ _ => map ji_job_id js | OpPop => []
  end.
Proof. destruct op; simpl; [done| |done]. by rewrite map_map. Qed.

Lemma accept_queued_job_ok st r j o rem :
  (∃ st', accept_queued_job st
    (mkQueuedJob r None j (html_local_origin_for_job j o) rem) = (Ok tt, st')) ↔
  op_valid st (OpJob r j o rem).
Proof.
  unfold accept_queued_job, op_valid. simpl. split.
  - intros [st' H]. destruct (validate_html_source j) as [[]|]; [|done].
    case_bool_decide; [done|by split].
  - intros [-> H]. rewrite bool_decide_eq_false_2 by done. by eexists.
Qed.

Lemma queue_step_spec st op :
  match (queue_step st op).1 with
  | EvAccepted js =>
      js = op_jobs op ∧ op_valid st op ∧ (queue_step st op).2 = enqueue st op
  | EvRejected _ => (queue_step st op).2 = st ∧ ¬ op_valid st op
  | EvPopped o => op = OpPop ∧ pending st = option_list o ++ pending (queue_step st op).2 ∧
      seen_job_ids (queue_step st op).2 = seen_job_ids st ∧
      seen_batch_ids (queue_step st op).2 = seen_batch_ids st
  end.
Proof.
  destruct op as [r j o rem|r b js o rem|]; simpl.
  - unfold accept_queued_job, enqueue, op_valid. simpl.
    destruct (validate_html_source j) as [[]|e] eqn:Hv; simpl.
    + case_bool_decide; simpl; [by split; [|intros []]|]. split_and!; try done.
      f_equal; set_solver.
    + by split; [|intros []].
  - unfold accept_batch_with_html_origin.
    destruct (try_for_each validate_html_source js) as [[]|e] eqn:Hv; simpl.
    2:{ split; [done|]. intros [Hf _]. apply try_for_each_ok in Hf. congruence. }
    apply try_for_each_ok in Hv. case_bool_decide as Hb; simpl; [by split; [|intros (?&?&_)]|].
    destruct (check_batch_ids _ _ _) as [[]|e] eqn:Hc; simpl.
    + apply check_batch_ids_ok in Hc as [Hn Hs]. rewrite push_batch_spec. unfold enqueue.
      split_and!; try done.
      * intros j' Hj. by apply Hs.
      * by rewrite op_jobs_ids.
    + split; [done|]. intros (_&_&Hn&Hs).
      assert (check_batch_ids (seen_job_ids st) ∅ js = Ok tt) as Hok; [|congruence].
      apply check_batch_ids_ok. split; [done|]. intros j' Hj. split; [by apply Hs|set_solver].
  - unfold pop_next. destruct st as [[|q p] s b]; simpl; by split_and!.
Qed.
End queue_lemmas.

(** ** Properties *)

Section queue_properties.
Context `{U : UrlOps}.
Implicit Types (st : QueueState) (js : list PrintJobInput) (q : QueuedJob).

(** A batch is accepted as a whole or not at all.  It is accepted exactly
    when every HTML source is valid, the batch id is new, and the job ids are
    new and distinct; then all its jobs are appended in order and every id is
    recorded.  Otherwise the state is untouched and the error names the first
    of these conditions that fails. *)
Theorem accept_batch_atomic st (r b : string) js (rem : bool) (o : option string) :
  let '(res, st') := accept_batch_with_html_origin st r b js rem o in
  let sources := Forall (λ j, validate_html_source j = Ok tt) js in
  let ids := NoDup (map ji_job_id js) ∧ ∀ j, j ∈ js → ji_job_id j ∉ seen_job_ids st in
  match res with
  | Ok _ =>
      sources ∧ b ∉ seen_batch_ids st ∧ ids ∧
      pending st' = pending st ++ map (batch_queued_job r b rem o) js ∧
      seen_job_ids st' = list_to_set (map ji_job_id js) ∪ seen_job_ids st ∧
      seen_batch_ids st' = {[b]} ∪ seen_batch_ids st
  | Err QInvalidMessage => st' = st ∧ ¬ sources
  | Err DuplicateBatchId => st' = st ∧ sources ∧ b ∈ seen_batch_ids st
  | Err DuplicateJobId => st' = st ∧ sources ∧ b ∉ seen_batch_ids st ∧ ¬ ids
  end.
Proof.
  unfold accept_batch_with_html_origin.
  destruct (try_for_each _ js) as [[]|e] eqn:Hv.
  2:{ assert (e = QInvalidMessage) as -> by (by eapply try_validate_err).
      split; [done|]. intros Hf%try_for_each_ok. congruence. }
  apply try_for_each_ok in Hv. case_bool_decide as Hb; [done|].
  destruct (check_batch_ids _ _ _) as [[]|e] eqn:Hc.
  - apply check_batch_ids_ok in Hc as [Hn Hs]. rewrite push_batch_spec. simpl.
    split_and!; try done. intros j Hj. by apply Hs.
  - assert (e = DuplicateJobId) as -> by (by eapply check_batch_ids_err).
    split_and!; try done. intros [Hn Hs].
    assert (check_batch_ids (seen_job_ids st) ∅ js = Ok tt) as Hok; [|congruence].
    apply check_batch_ids_ok. split; [done|]. intros j Hj. split; [by apply Hs|set_solver].
Qed.

(** The invariant of the queue. *)
Record queue_inv (st : QueueState) : Prop := {
  qi_nodup : NoDup (map (λ q, qj_id q) (pending st));
  qi_seen q : q ∈ pending st → qj_id q ∈ seen_job_ids st;
  qi_batch q b : q ∈ pending st → qj_batch_id q = Some b → b ∈ seen_batch_ids st;
  qi_source q : q ∈ pending st → validate_html_source (qj_job q) = Ok tt;
  qi_origin q x : q ∈ pending st → qj_html_local_origin q = Some x →
    ∃ s u, ji_file_url (qj_job q) = Some s ∧ validate_html_file_url s = Ok u ∧
      url_origin_ascii u = x
}.

Lemma op_jobs_props st op q :
  op_valid st op → q ∈ op_jobs op →
  validate_html_source (qj_job q) = Ok tt ∧ qj_id q ∉ seen_job_ids st ∧
  (∀ b, qj_batch_id q = Some b → b ∈ op_batch_ids op) ∧
  ∃ o, qj_html_local_origin q = html_local_origin_for_job (qj_job q) o.
Proof.
  destruct op as [r j o rem|r b js o rem|]; simpl; [| |done].
  - intros [??] ->%list_elem_of_singleton. simpl. split_and!; try done. by exists o.
  - intros (Hv&?&?&Hs) (j&->&Hj)%list_elem_of_fmap. rewrite Forall_forall in Hv.
    unfold batch_queued_job. simpl. split_and!; [by apply Hv|by apply Hs|set_solver|by exists o].
Qed.

Lemma op_jobs_nodup st op :
  op_valid st op → NoDup (map (λ q, qj_id q) (op_jobs op)).
Proof.
  rewrite op_jobs_ids. destruct op; simpl; [|by intros (_&_&?&_)|done].
  intros _. apply NoDup_singleton.
Qed.

Lemma enqueue_inv st op : op_valid st op → queue_inv st → queue_inv (enqueue st op).
Proof.
  intros Hv [H1 H2 H3 H4 H5]. split; simpl.
  - rewrite map_app. apply NoDup_app. split_and!; [done| |by eapply op_jobs_nodup].
    intros i (q&->&Hq)%list_elem_of_fmap (q'&Heq&Hq')%list_elem_of_fmap.
    destruct (op_jobs_props st op q') as (_&Hn&_); [done..|].
    apply Hn. rewrite <-Heq. by apply H2.
  - intros q [Hq|Hq]%elem_of_app; apply elem_of_union; [right; by apply H2|left].
    apply elem_of_list_to_set, list_elem_of_fmap. by exists q.
  - intros q b [Hq|Hq]%elem_of_app Hb; apply elem_of_union; [right; by eapply H3|left].
    destruct (op_jobs_props st op q) as (_&_&Hin&_); [done..|by apply Hin].
  - intros q [Hq|Hq]%elem_of_app; [by apply H4|]. by eapply op_jobs_props.
  - intros q x [Hq|Hq]%elem_of_app Hx; [by apply H5|].
    destruct (op_jobs_props st op q) as (_&_&_&o&Ho); [done..|].
    rewrite Ho in Hx. by apply html_local_origin_some in Hx as [_ ?].
Qed.

Lemma queue_step_inv st op : queue_inv st → queue_inv (queue_step st op).2.
Proof.
  intros Hi. pose proof (queue_step_spec st op) as Hs.
  destruct (queue_step st op) as [[js|e|o] st']; simpl in *.
  - destruct Hs as (->&Hv&->). by apply enqueue_inv.
  - by destruct Hs as [-> _].
  - destruct Hs as (_&Hp&H1&H2). destruct Hi as [I1 I2 I3 I4 I5].
    assert (∀ q, q ∈ pending st' → q ∈ pending st) as Hsub
      by (intros q; rewrite Hp; set_solver).
    split; rewrite ?H1, ?H2; eauto.
    rewrite Hp, map_app in I1. by apply NoDup_app in I1 as (_&_&?).
Qed.

Lemma queue_run_inv st ops : queue_inv st → queue_inv (queue_run st ops).2.
Proof.
  revert st. induction ops as [|op ops IH]; intros st Hi; simpl; [done|].
  pose proof (queue_step_inv st op Hi) as Hi'.
  destruct (queue_step st op) as [ev st']. simpl in Hi'. specialize (IH st' Hi').
  by destruct (queue_run st' ops).
Qed.

Lemma queue_default_inv : queue_inv QueueState_default.
Proof.
  split; simpl; [constructor|..];
    intros q; intros; exfalso; by apply (not_elem_of_nil q).
Qed.

(** In every state the queue can reach, the ids of the waiting jobs are
    distinct and recorded with their batches, every waiting HTML job has a
    loadable source, and a local Origin is attached only to a job whose page
    has exactly that Origin. *)
Theorem queue_reachable_inv (ops : list QueueOp) :
  queue_inv (queue_run QueueState_default ops).2.
Proof. apply queue_run_inv, queue_default_inv. Qed.

(** ** Refinement of an append-only log

    The specification keeps every job ever accepted and how many were handed
    out; accepting appends fresh jobs, and popping returns the next one. *)

Record QueueLog := mkQueueLog { ql_jobs : list QueuedJob; ql_read : nat; ql_batches : gset string }.
Definition log_empty : QueueLog := mkQueueLog [] 0 ∅.

Definition log_ids (l : QueueLog) : list string := map (λ q, qj_id q) (ql_jobs l).

Inductive log_step : QueueLog → QueueOp → QueueEvent → QueueLog → Prop :=
  | log_accept l op :
      op ≠ OpPop →
      Forall (λ q, validate_html_source (qj_job q) = Ok tt) (op_jobs op) →
      NoDup (log_ids l ++ map (λ q, qj_id q) (op_jobs op)) →
      op_batch_ids op ## ql_batches l →
      log_step l op (EvAccepted (op_jobs op))
        (mkQueueLog (ql_jobs l ++ op_jobs op) (ql_read l) (op_batch_ids op ∪ ql_batches l))
  | log_reject l op e :
      op ≠ OpPop →
      ¬ (Forall (λ q, validate_html_source (qj_job q) = Ok tt) (op_jobs op) ∧
         NoDup (log_ids l ++ map (λ q, qj_id q) (op_jobs op)) ∧
         op_batch_ids op ## ql_batches l) →
      log_step l op (EvRejected e) l
  | log_pop l q :
      ql_jobs l !! ql_read l = Some q →
      log_step l OpPop (EvPopped (Some q)) (mkQueueLog (ql_jobs l) (S (ql_read l)) (ql_batches l))
  | log_pop_empty l :
      length (ql_jobs l) = ql_read l →
      log_step l OpPop (EvPopped None) l.

(** The queue state that stands for a log. *)
Record represents (st : QueueState) (l : QueueLog) : Prop := {
  rep_read : (ql_read l ≤ length (ql_jobs l))%nat;
  rep_pending : pending st = drop (ql_read l) (ql_jobs l);
  rep_seen : seen_job_ids st = list_to_set (log_ids l);
  rep_batches : seen_batch_ids st = ql_batches l;
  rep_nodup : NoDup (log_ids l)
}.

Lemma op_valid_log st l op :
  represents st l → op ≠ OpPop →
  op_valid st op ↔
  Forall (λ q, validate_html_source (qj_job q) = Ok tt) (op_jobs op) ∧
  NoDup (log_ids l ++ map (λ q, qj_id q) (op_jobs op)) ∧ op_batch_ids op ## ql_batches l.
Proof.
  intros [_ _ Hs Hb Hn] Hop. rewrite NoDup_app, op_jobs_ids.
  destruct op as [r j o rem|r b js o rem|]; simpl; [| |done].
  - rewrite Forall_singleton, Hs, elem_of_list_to_set. simpl. split.
    + intros [? Hj]. split_and!; [done|done| |apply NoDup_singleton|set_solver].
      intros i Hi ->%list_elem_of_singleton. done.
    + intros (?&(_&Hi&_)&_). split; [done|]. intros Hj. apply (Hi _ Hj). by left.
  - rewrite Hs, Hb, Forall_map, disjoint_singleton_l.
    setoid_rewrite elem_of_list_to_set. split.
    + intros (?&?&?&Hj). split_and!; [done|done| |done|done].
      intros i Hi (j&->&Hin)%list_elem_of_fmap. by apply (Hj j).
    + intros (?&(_&Hi&?)&?). split_and!; [done..|].
      intros j Hin Hl. apply (Hi _ Hl). apply list_elem_of_fmap. by exists j.
Qed.

Lemma queue_step_simulates st l op :
  represents st l →
  ∃ l', log_step l op (queue_step st op).1 l' ∧ represents (queue_step st op).2 l'.
Proof.
  intros Hr. pose proof (queue_step_spec st op) as Hs.
  pose proof Hr as [Hread Hp Hseen Hb Hn].
  destruct (queue_step st op) as [[js|e|o] st'] eqn:Heq; simpl in *.
  - destruct Hs as (->&Hv&->).
    assert (op ≠ OpPop) as Hop by (by intros ->).
    pose proof (proj1 (op_valid_log _ _ _ Hr Hop) Hv) as (?&?&?).
    eexists. split; [by apply log_accept|]. split; simpl.
    + rewrite length_app. lia.
    + by rewrite Hp, drop_app_le.
    + unfold log_ids in *. simpl. rewrite Hseen, map_app, list_to_set_app_L. set_solver.
    + by rewrite Hb.
    + unfold log_ids in *. simpl. by rewrite map_app.
  - destruct Hs as [-> Hv].
    assert (op ≠ OpPop) as Hop.
    { intros ->. simpl in Heq. destruct (pop_next st). done. }
    exists l. split; [|done]. apply log_reject; [done|].
    by rewrite <-(op_valid_log _ _ _ Hr Hop).
  - destruct Hs as (->&Hpop&H1&H2). destruct o as [q|]; simpl in Hpop.
    + assert (ql_jobs l !! ql_read l = Some q) as Hq.
      { rewrite Hp in Hpop. rewrite <-(Nat.add_0_r (ql_read l)), <-lookup_drop.
        by rewrite Hpop. }
      eexists. split; [by apply log_pop|].
      split; simpl; [| |by rewrite H1|by rewrite H2|done].
      * apply lookup_lt_Some in Hq. lia.
      * rewrite Hp, (drop_S _ q) in Hpop by done. by simplify_eq.
    + exists l. assert (length (ql_jobs l) = ql_read l) as Hlen.
      { assert (st' = st) as ->.
        { simpl in Heq. unfold pop_next in Heq. by destruct (pending st); simplify_eq. }
        assert (pending st = []) as He.
        { simpl in Heq. unfold pop_next in Heq. by destruct (pending st); simplify_eq. }
        rewrite He in Hp. apply (f_equal length) in Hp.
        rewrite length_drop in Hp. simpl in Hp. lia. }
      split; [by apply log_pop_empty|]. split; congruence.
Qed.

Lemma represents_default : represents QueueState_default log_empty.
Proof. split; simpl; [lia|done|done|done|constructor]. Qed.

(** C31: The queue implements the append-only log: each operation of the code
    is a step of the specification with the same event, from related states to
    related states, and the initial states are related. *)
Theorem queue_refines_log :
  represents QueueState_default log_empty ∧
  ∀ st l op, represents st l →
    ∃ l', log_step l op (queue_step st op).1 l' ∧ represents (queue_step st op).2 l'.
Proof. split; [apply represents_default|intros; by apply queue_step_simulates]. Qed.

Lemma queue_run_fifo st ops :
  let '(evs, st') := queue_run st ops in
  pending st ++ accepted_jobs evs = popped_jobs evs ++ pending st'.
Proof.
  revert st. induction ops as [|op ops IH]; intros st; simpl; [by rewrite app_nil_r|].
  pose proof (queue_step_spec st op) as Hs.
  destruct (queue_step st op) as [ev st1]. simpl in Hs. specialize (IH st1).
  destruct (queue_run st1 ops) as [evs st2]. simpl.
  destruct ev as [js|e|o]; simpl.
  - destruct Hs as (->&_&->). simpl in IH. by rewrite app_assoc.
  - by destruct Hs as [-> _].
  - destruct Hs as (_&->&_&_). rewrite <-app_assoc, IH. destruct o; simpl; [done|].
    done.
Qed.

Lemma queue_run_ids st ops l :
  represents st l →
  ∃ l', represents (queue_run st ops).2 l' ∧
    ql_jobs l' = ql_jobs l ++ accepted_jobs (queue_run st ops).1.
Proof.
  revert st l. induction ops as [|op ops IH]; intros st l Hr; simpl.
  { exists l. by rewrite app_nil_r. }
  destruct (queue_step_simulates st l op Hr) as (l1&Hl&Hr1).
  destruct (queue_step st op) as [ev st1]. simpl in *.
  destruct (IH _ _ Hr1) as (l2&Hr2&Hj). destruct (queue_run st1 ops) as [evs st2].
  simpl in *. exists l2. split; [done|]. rewrite Hj.
  inv Hl; simpl; by rewrite <-?app_assoc.
Qed.

(** C1: From an empty queue, under any sequence of operations, the jobs handed
    out followed by those still waiting are exactly the accepted jobs in the
    order of their acceptance, and no job id is ever accepted twice, so each
    accepted job is handed out at most once. *)
Theorem queue_fifo_exactly_once (ops : list QueueOp) :
  let '(evs, st) := queue_run QueueState_default ops in
  popped_jobs evs ++ pending st = accepted_jobs evs ∧
  NoDup (map (λ q, qj_id q) (accepted_jobs evs)) ∧
  seen_job_ids st = list_to_set (map (λ q, qj_id q) (accepted_jobs evs)).
Proof.
  pose proof (queue_run_fifo QueueState_default ops) as Hf.
  destruct (queue_run_ids QueueState_default ops log_empty represents_default)
    as (l&Hr&Hj).
  destruct (queue_run _ ops) as [evs st]. simpl in *. split; [done|].
  destruct Hr as [_ _ Hs _ Hn]. unfold log_ids in *. rewrite Hj in *. done.
Qed.

(** How often the worker asks for a job. *)
Definition is_pop (op : QueueOp) : bool := match op with OpPop => true | _ => false end.
Fixpoint pops (ops : list QueueOp) : nat :=
  match ops with [] => 0 | op :: ops' => (if is_pop op then 1 else 0) + pops ops' end.

(** A step that is no [pop_next] only adds jobs behind the waiting ones. *)
Lemma queue_step_keeps st op k q :
  is_pop op = false → pending st !! k = Some q →
  pending (queue_step st op).2 !! k = Some q ∧ popped_of (queue_step st op).1 = [].
Proof.
  intros Hop Hk. pose proof (queue_step_spec st op) as Hs.
  destruct (queue_step st op) as [[js|e|o] st1]; simpl in *.
  - destruct Hs as (_&_&->). split; [|done]. simpl. by apply lookup_app_l_Some.
  - by destruct Hs as [-> _].
  - by destruct Hs as [-> _].
Qed.

(** Every waiting job is served.  Whatever is accepted or rejected in the
    meantime, a job with [k] jobs in front of it is handed to the worker exactly as
    the [k]-th job from now, as soon as the worker has asked for more than [k]
    jobs. *)
Theorem waiting_job_served st (ops : list QueueOp) (k : nat) (q : QueuedJob)
    (Hwaiting : pending st !! k = Some q) (Hpops : (k < pops ops)%nat) :
  popped_jobs (queue_run st ops).1 !! k = Some q.
Proof.
  revert st k Hwaiting Hpops. induction ops as [|op ops IH]; intros st k Hk Hp; [simpl in Hp; lia|].
  simpl. simpl in Hp. destruct (is_pop op) eqn:Hop.
  - destruct op; try done. simpl. unfold pop_next.
    destruct (pending st) as [|q0 rest] eqn:Hpend; [done|].
    destruct k as [|k]; simpl in Hk.
    + injection Hk as ->. by destruct (queue_run _ ops).
    + specialize (IH (mkQueueState rest (seen_job_ids st) (seen_batch_ids st)) k Hk ltac:(lia)).
      by destruct (queue_run _ ops).
  - destruct (queue_step_keeps st op k q Hop Hk) as [Hk' Hev].
    destruct (queue_step st op) as [ev st1]. simpl in Hk', Hev.
    specialize (IH st1 k Hk' ltac:(lia)). destruct (queue_run st1 ops) as [evs st2].
    simpl. by rewrite Hev.
Qed.
End queue_properties.

Definition toy_waiting (id : string) : QueuedJob :=
  mkQueuedJob "r" None
    (mkPrintJobInput id Raw None None (Some "aGVsbG8=") None None None None) None false.
Lemma waiting_job_served_witness :
  let st := mkQueueState [toy_waiting "a"; toy_waiting "b"] ∅ ∅ in
  let late := OpJob "r" (qj_job (toy_waiting "c")) None false in
  popped_jobs (queue_run (U := toy_url) st [OpPop; late; OpPop]).1 !! 1%nat = Some (toy_waiting "b").
Proof.
  intros st late.
  apply (@waiting_job_served toy_url st [OpPop; late; OpPop] 1%nat); [reflexivity|simpl; lia].
Defined.

Lemma queue_refines_log_witness :
  represents QueueState_default log_empty ∧
  ∃ l', log_step log_empty OpPop (EvPopped None) l' ∧ represents QueueState_default l'.
Proof.
  split; [apply (@queue_refines_log toy_url)|].
  apply ((proj2 (@queue_refines_log toy_url)) QueueState_default log_empty OpPop).
  apply (@queue_refines_log toy_url).
Defined.
