(* ===== verification/Download.v ===== *)
(** * Downloads ([crates/runtime/src/download.rs])

    Fetching the document of a job into a temporary file, within the configured
    size, and removing what a failure leaves behind.  The HTTP client is a
    parameter: a response is its status, its announced length and the chunks of
    its body, any of which may fail. *)

From S2P Require Import Prelude RustStr Externs Toy FileSys Protocol Config.
From Stdlib Require Import Ascii.
Open Scope string_scope.
Open Scope N_scope.
Open Scope list_scope.

(** A [reqwest::Error] is its message. *)
Record HttpResponse := mkHttpResponse {
  http_status : N;
  http_content_length : option N;
  http_chunks : list (result string string)
}.
Class HttpOps `{U : UrlOps} := {
  (** [Client::builder().timeout(..).build()] *)
  http_client : N → result string unit;
  (** [client.get(url).send()] with that timeout *)
  http_get : N → Url → result string HttpResponse;
  (** The error [error_for_status] makes of a status. *)
  http_status_error : N → string
}.

Inductive DownloadError :=
  | DInvalidFileUrl | DFileTooLarge | DIo (e : IoError) | DRequest (e : string).
#[export] Instance DownloadError_eq_dec : EqDecision DownloadError.
Proof. solve_decision. Defined.

Definition DownloadError_display (e : DownloadError) : string :=
  match e with
  | DInvalidFileUrl => "invalid file url"
  | DFileTooLarge => "file too large"
  | DIo e => io_message e
  | DRequest e => e
  end.

Definition error_status (status : N) : bool := (400 <=? status) && (status <? 600).

Section download.
Context `{U : UrlOps, !HttpOps, B : Base64Ops}.

(** [cleanup_download]: the file is removed, whatever the removal says. *)
Definition cleanup_download {A} (path : string) (e : DownloadError) : M Fs DownloadError A :=
  _ ← fs_remove_quietly path; raise e.

(** The step [op.map_err(|e| cleanup_download(&path, Io(e)))?]. *)
Definition or_cleanup (path : string) (op : IO unit) : M Fs DownloadError unit :=
  r ← attempt op;
  match r with Ok _ => mret tt | Err e => cleanup_download path (DIo e) end.

(** The loop over the body. *)
Fixpoint write_chunks (path : string) (max_bytes downloaded : N)
    (chunks : list (result string string)) : M Fs DownloadError unit :=
  match chunks with
  | [] => mret tt
  | Err e :: _ => cleanup_download path (DRequest e)
  | Ok chunk :: chunks' =>
      let downloaded := saturating_add_u64 downloaded (str_len chunk) in
      if max_bytes <? downloaded then cleanup_download path DFileTooLarge
      else
        _ ← or_cleanup path (fs_append path chunk);
        write_chunks path max_bytes downloaded chunks'
  end.

Definition write_pdf_data_url_to_path (file_url : string) (limits : LimitsConfig) (path : string)
  : M Fs DownloadError string :=
  _ ← lift (map_err (λ _, DInvalidFileUrl) (validate_file_url file_url));
  let max_bytes := saturating_mul_u64 (lc_max_file_size_mb limits) mib in
  '(_, encoded) ← lift (ok_or DInvalidFileUrl (split_once "," file_url));
  bytes ← lift (ok_or DInvalidFileUrl (b64_decode encoded));
  if max_bytes <? str_len bytes then raise DFileTooLarge
  else
    _ ← or_cleanup path (fs_write path bytes);
    mret path.

Definition download_to_path (file_url : string) (limits : LimitsConfig) (path : string)
  : M Fs DownloadError string :=
  if is_pdf_data_url file_url then write_pdf_data_url_to_path file_url limits path
  else
    url ← lift (map_err (λ _, DInvalidFileUrl) (validate_file_url file_url));
    let max_bytes := saturating_mul_u64 (lc_max_file_size_mb limits) mib in
    let timeout := lc_download_timeout_seconds limits in
    _ ← lift (map_err DRequest (http_client timeout));
    response ← lift (map_err DRequest (http_get timeout url));
    _ ← lift (if error_status (http_status response)
              then Err (DRequest (http_status_error (http_status response))) else Ok tt);
    if match http_content_length response with
       | Some length => max_bytes <? length
       | None => false
       end
    then raise DFileTooLarge
    else
      _ ← mapping_err DIo (fs_create path);
      _ ← write_chunks path max_bytes 0 (http_chunks response);
      _ ← or_cleanup path fs_flush;
      mret path.

(** [temp_download_path] and [download_to_temp]; the temporary directory, the
    clock's milliseconds and the fresh UUID are arguments. *)
Definition temp_download_path (temp_dir : string) (timestamp : N) (uuid : string) : string :=
  temp_dir +:+ "/print-bridge-download-" +:+ pretty timestamp +:+ "-" +:+ uuid +:+ ".tmp".
Definition download_to_temp (temp_dir : string) (timestamp : N) (uuid : string)
    (file_url : string) (limits : LimitsConfig) : M Fs DownloadError string :=
  download_to_path file_url limits (temp_download_path temp_dir timestamp uuid).

(** ** Properties *)

(** The bytes a body delivers, up to its first failure. *)
Fixpoint body_bytes (chunks : list (result string string)) : option string :=
  match chunks with
  | [] => Some ""
  | Err _ :: _ => None
  | Ok c :: chunks' => (λ r, c +:+ r) <$> body_bytes chunks'
  end.

Lemma cleanup_download_spec {A} path e fs :
  ∃ fs', cleanup_download (A := A) path e fs = (Err e, fs') ∧ only_path path fs fs' ∧
    cleaned path fs'.
Proof.
  destruct (fs_remove_quietly_cleaned (E := DownloadError) path fs) as (fs'&Hr&?&?).
  exists fs'. split_and!; [|done..].
  unfold cleanup_download, mbind, M_bind. by rewrite Hr.
Qed.

Lemma or_cleanup_spec path op fs :
  only_path path fs (op fs).2 →
  let '(r, fs') := or_cleanup path op fs in
  only_path path fs fs' ∧
  match r with
  | Ok _ => op fs = (Ok tt, fs')
  | Err _ => cleaned path fs'
  end.
Proof.
  intros Ho. unfold or_cleanup, attempt, mbind, M_bind, mret, M_ret.
  destruct (op fs) as [[[]|e] fs1]; simpl in *; [done|].
  destruct (cleanup_download_spec (A := unit) path (DIo e) fs1) as (fs'&->&?&?).
  split; [by eapply only_path_trans|done].
Qed.

Lemma fs_append_ok path c old fs fs' :
  fs_files fs !! path = Some old → fs_append path c fs = (Ok tt, fs') →
  fs_files fs' !! path = Some (old +:+ c).
Proof.
  unfold fs_append, fs_write. intros ->. simpl.
  destruct (fault_now fs) as [[e [r|]]|]; intros [= <-]. simpl.
  by rewrite lookup_insert, decide_True.
Qed.

Lemma write_chunks_spec path max_bytes chunks : ∀ downloaded old fs,
  fs_files fs !! path = Some old → N.min (str_len old) u64_max = downloaded →
  downloaded ≤ max_bytes →
  let '(r, fs') := write_chunks path max_bytes downloaded chunks fs in
  only_path path fs fs' ∧
  match r with
  | Ok _ => ∃ body, body_bytes chunks = Some body ∧
      fs_files fs' !! path = Some (old +:+ body) ∧
      N.min (str_len (old +:+ body)) u64_max ≤ max_bytes
  | Err _ => cleaned path fs'
  end.
Proof.
  induction chunks as [|[c|e] chunks IH]; intros d old fs Hold Hd Hmax; simpl.
  - split; [apply only_path_refl|]. exists "". rewrite str_app_nil_r.
    split_and!; [done|done|lia].
  - destruct (max_bytes <? _) eqn:Hlt.
    { destruct (cleanup_download_spec (A := unit) path DFileTooLarge fs) as (fs'&->&?&?). done. }
    apply N.ltb_ge in Hlt. unfold mbind, M_bind.
    pose proof (or_cleanup_spec path (fs_append path c) fs) as Hc.
    destruct (or_cleanup path (fs_append path c) fs) as [r fs1].
    destruct Hc as [Ho Hr]; [apply fs_write_only|]. destruct r as [[]|e]; [|done].
    pose proof (fs_append_ok _ _ _ _ _ Hold Hr) as Hnew.
    assert (N.min (str_len (old +:+ c)) u64_max = saturating_add_u64 d (str_len c)) as Hlen.
    { unfold saturating_add_u64 in *. rewrite str_len_app. lia. }
    specialize (IH _ _ fs1 Hnew Hlen). destruct (write_chunks _ _ _ _ _) as [r fs'].
    destruct IH as [Ho' Hr']; [lia|]. split; [by eapply only_path_trans|].
    destruct r as [[]|]; [|done]. destruct Hr' as (body&->&?&?).
    exists (c +:+ body). by rewrite str_app_assoc.
  - destruct (cleanup_download_spec (A := unit) path (DRequest e) fs) as (fs'&->&?&?). done.
Qed.

Lemma or_cleanup_write path bytes fs :
  let '(r, fs') := or_cleanup path (fs_write path bytes) fs in
  only_path path fs fs' ∧
  match r with Ok _ => fs_files fs' !! path = Some bytes | Err _ => cleaned path fs' end.
Proof.
  pose proof (or_cleanup_spec path (fs_write path bytes) fs (fs_write_only _ _ _)) as Hs.
  destruct (or_cleanup _ _ fs) as [[[]|e] fs']; [|done]. destruct Hs as [Ho Hw].
  split; [done|]. unfold fs_write in Hw.
  destruct (fault_now fs) as [[e [r|]]|]; [done..|]. injection Hw as <-.
  simpl. by rewrite lookup_insert, decide_True.
Qed.

(** The document a URL stands for: the decoded payload of a PDF data URL, or the
    body of a successful response. *)
Definition document_of (file_url : string) (limits : LimitsConfig) (content : string) : Prop :=
  if is_pdf_data_url file_url then
    ∃ head payload, split_once "," file_url = Some (head, payload) ∧
      b64_decode payload = Some content
  else
    ∃ url response, validate_file_url file_url = Ok url ∧
      http_get (lc_download_timeout_seconds limits) url = Ok response ∧
      error_status (http_status response) = false ∧
      body_bytes (http_chunks response) = Some content.

Lemma write_pdf_data_url_spec file_url limits path fs :
  let '(r, fs') := write_pdf_data_url_to_path file_url limits path fs in
  only_path path fs fs' ∧
  match r with
  | Ok p => p = path ∧ ∃ content head payload, fs_files fs' !! path = Some content ∧
      split_once "," file_url = Some (head, payload) ∧ b64_decode payload = Some content ∧
      str_len content ≤ saturating_mul_u64 (lc_max_file_size_mb limits) mib
  | Err _ => fs' = fs ∨ cleaned path fs'
  end.
Proof.
  unfold write_pdf_data_url_to_path, lift, raise, mbind, M_bind, mret, M_ret.
  destruct (validate_file_url file_url) as [u|e]; simpl; [|auto using only_path_refl].
  destruct (split_once "," file_url) as [[h enc]|] eqn:Hs; simpl; [|auto using only_path_refl].
  destruct (b64_decode enc) as [bytes|] eqn:Hb; simpl; [|auto using only_path_refl].
  destruct (_ <? str_len bytes) eqn:Hlt; simpl; [auto using only_path_refl|].
  apply N.ltb_ge in Hlt. pose proof (or_cleanup_write path bytes fs) as Hw.
  destruct (or_cleanup path (fs_write path bytes) fs) as [[[]|e] fs']; destruct Hw as [Ho Hw].
  - split; [done|]. split; [done|]. by exists bytes, h, enc.
  - split; [done|]. by right.
Qed.

(** A download touches no file but its own.  When it succeeds the file holds
    exactly the document, and the document's size (as a [u64], which saturates)
    is within the limit; when it fails, nothing was written or the partial file has been removed (unless the
    removal itself failed). *)
Theorem download_to_path_spec (file_url : string) (limits : LimitsConfig) (path : string)
    (fs : Fs) :
  let '(r, fs') := download_to_path file_url limits path fs in
  only_path path fs fs' ∧
  match r with
  | Ok p => p = path ∧ ∃ content, fs_files fs' !! path = Some content ∧
      document_of file_url limits content ∧
      N.min (str_len content) u64_max ≤ saturating_mul_u64 (lc_max_file_size_mb limits) mib
  | Err _ => fs_files fs' = fs_files fs ∨ cleaned path fs'
  end.
Proof.
  unfold download_to_path, document_of. destruct (is_pdf_data_url file_url).
  { pose proof (write_pdf_data_url_spec file_url limits path fs) as Hs.
    destruct (write_pdf_data_url_to_path _ _ _ _) as [[p|e] fs']; destruct Hs as [Ho Hs].
    - split; [done|]. destruct Hs as (->&c&h&pl&?&?&?&?). split; [done|]. exists c.
      split_and!; [done|by eauto|lia].
    - split; [done|]. destruct Hs as [-> |?]; [by left|by right]. }
  unfold lift, raise, mapping_err, mbind, M_bind, mret, M_ret.
  destruct (validate_file_url file_url) as [url|e]; simpl; [|auto using only_path_refl].
  destruct (http_client _) as [[]|e]; simpl; [|auto using only_path_refl].
  destruct (http_get _ url) as [resp|e] eqn:Hg; simpl; [|auto using only_path_refl].
  destruct (error_status (http_status resp)) eqn:He; [auto using only_path_refl|].
  destruct (match http_content_length resp with Some _ => _ | None => _ end);
    [auto using only_path_refl|].
  pose proof (fs_create_only path fs) as Hc.
  assert ((fs_create path fs).1 = Ok tt → fs_files (fs_create path fs).2 !! path = Some "") as Hnew.
  { unfold fs_create. destruct (fault_now fs) as [[??]|]; simpl; [done|].
    intros _. by rewrite lookup_insert, decide_True. }
  assert (∀ e, (fs_create path fs).1 = Err e → fs_files (fs_create path fs).2 = fs_files fs) as Hold.
  { intros e. unfold fs_create. by destruct (fault_now fs) as [[??]|]. }
  destruct (fs_create path fs) as [[[]|e] fs1]; simpl in *; [|split; [done|left; by eapply Hold]].
  pose proof (write_chunks_spec path (saturating_mul_u64 (lc_max_file_size_mb limits) mib)
    (http_chunks resp) 0 "" fs1 (Hnew eq_refl) eq_refl
    (N.le_0_l _)) as Hw.
  destruct (write_chunks _ _ _ _ fs1) as [[[]|e] fs2]; destruct Hw as [Ho Hw];
    [|split; [by eapply only_path_trans|by right]].
  destruct Hw as (body&Hb&Hf&Hl).
  pose proof (or_cleanup_spec path fs_flush fs2) as Hfl.
  assert (only_path path fs2 (fs_flush fs2).2 ∧ fs_files (fs_flush fs2).2 = fs_files fs2)
    as [Hof Hff] by (unfold fs_flush; by destruct (fault_now fs2) as [[??]|]).
  destruct (or_cleanup path fs_flush fs2) as [[[]|e] fs3]; destruct (Hfl Hof) as [Ho3 Hr];
    (split; [by repeat (eapply only_path_trans; [eassumption|])|]); [|by right].
  split; [done|]. exists body. rewrite Hr in Hff. simpl in Hff. rewrite Hff. split_and!; [done| |done].
  by exists url, resp.
Qed.
End download.
