(* ===== verification/Document.v ===== *)
(** * Documents ([crates/runtime/src/document.rs])

    Recognising a file by its signature, fitting an image into a page, and
    turning an image into a one-page PDF.  Decoding the image and writing the
    PDF are the [image] and [printpdf] crates. *)

From S2P Require Import Prelude RustStr F64 FileSys Protocol.
From Stdlib Require Import ZArith Ascii.
Open Scope string_scope.
Open Scope N_scope.
Open Scope list_scope.

Inductive DocumentFormat := DPdf | DPng | DJpeg.
#[export] Instance DocumentFormat_eq_dec : EqDecision DocumentFormat.
Proof. solve_decision. Defined.

Inductive DocumentError :=
  | DocUnsupportedFormat | InvalidImageDimensions | DocIo (e : IoError) | DocImage (e : string).
Definition DocumentError_display (e : DocumentError) : string :=
  match e with
  | DocUnsupportedFormat => "unsupported document format"
  | InvalidImageDimensions => "invalid image dimensions"
  | DocIo e => io_message e
  | DocImage e => e
  end.

Definition HEADER_SIZE : nat := 8.

(** The signatures, byte by byte. *)
Definition bytes_of (l : list N) : string := of_bytes (map ascii_of_N l).
Definition pdf_signature : string := "%PDF-".
Definition png_signature : string := bytes_of [137; 80; 78; 71; 13; 10; 26; 10].
Definition jpeg_signature : string := bytes_of [255; 216; 255].

Definition detect_format_from_bytes (bytes : string) : option DocumentFormat :=
  if starts_with pdf_signature bytes then Some DPdf
  else if starts_with png_signature bytes then Some DPng
  else if starts_with jpeg_signature bytes then Some DJpeg
  else None.

(** [detect_format]: one read of at most eight bytes of the opened file. *)
Definition str_take (n : nat) (s : string) : string := of_bytes (take n (to_bytes s)).
Definition detect_format (path : string) : M Fs DocumentError (option DocumentFormat) :=
  content ← mapping_err DocIo (fs_read path);
  mret (detect_format_from_bytes (str_take HEADER_SIZE content)).

(** ** Layout *)

Record FitRect := mkFitRect { fr_x : f64; fr_y : f64; fr_width : f64; fr_height : f64 }.

Definition is_positive_finite (value : f64) : bool := is_finite value && f64_ltb f64_zero value.

Definition fit_contain (image_width image_height page_width page_height : f64)
  : result DocumentError FitRect :=
  if negb (is_positive_finite image_width) || negb (is_positive_finite image_height)
     || negb (is_positive_finite page_width) || negb (is_positive_finite page_height)
  then Err InvalidImageDimensions
  else
    let scale := f64_min (f64_div page_width image_width) (f64_div page_height image_height) in
    let width := f64_mul image_width scale in
    let height := f64_mul image_height scale in
    Ok (mkFitRect (f64_div (f64_sub page_width width) (f64_of_Z 2))
          (f64_div (f64_sub page_height height) (f64_of_Z 2)) width height).

(** ** Pages *)

(** The values the program hands to [printpdf]: lengths are [f32] points or
    millimetres, a colour is a grey level, a font its name. *)
Record Point := mkPoint { pt_x : f64; pt_y : f64 }.
Record LinePoint := mkLinePoint { lp_p : Point; lp_bezier : bool }.
Record Line := mkLine { li_points : list LinePoint; li_is_closed : bool }.
Record XObjectTransform := mkXObjectTransform {
  xt_translate_x : option f64; xt_translate_y : option f64; xt_rotate : option f64;
  xt_scale_x : option f64; xt_scale_y : option f64; xt_dpi : option f64
}.
Inductive Color := Rgb (r g b : f64).
Inductive Op :=
  | UseXobject (id : nat) (transform : XObjectTransform)
  | SaveGraphicsState
  | RestoreGraphicsState
  | SetOutlineColor (col : Color)
  | SetOutlineThickness (pt : f64)
  | SetFillColor (col : Color)
  | DrawLine (line : Line)
  | StartTextSection
  | EndTextSection
  | SetFont (font : string) (size : f64)
  | SetTextCursor (pos : Point)
  | ShowText (items : list string).
Record RawImage := mkRawImage { ri_pixels : list N; ri_width : N; ri_height : N }.
Record PdfPage := mkPdfPage { pg_width : f64; pg_height : f64; pg_ops : list Op }.
Record PdfDocument := mkPdfDocument {
  pdf_title : string; pdf_images : list RawImage; pdf_pages : list PdfPage
}.

(** The [image] and [printpdf] crates: decoding an image, its pixels row by row in
    RGBA, millimetres as points, and the bytes of a document. *)
Class ImageOps := {
  DynamicImage : Type;
  image_decode : DocumentFormat → string → result string DynamicImage;
  image_dimensions : DynamicImage → N * N;
  image_to_rgba8 : DynamicImage → list (N * N * N * N);
  mm_into_pt : f64 → f64;
  pdf_save : PdfDocument → string
}.

Section image_to_pdf.
Context `{ImageOps}.

Definition DEFAULT_DPI : f64 := f64_of_Z 203.

Definition mm_to_pt (value : f64) : f64 := mm_into_pt (f32_of_f64 value).

(** [blend_channel], in [f32]. *)
Definition blend_channel (channel : N) (alpha : f64) : N :=
  Z.to_N (f32_round_u8 (f32_add (f32_mul (f32_of_Z (Z.of_N channel)) alpha)
    (f32_mul (f32_of_Z 255) (f32_sub (f32_of_Z 1) alpha)))).
Definition flatten_pixel (pixel : N * N * N * N) : list N :=
  let '(r, g, b, a) := pixel in
  let alpha := f32_div (f32_of_Z (Z.of_N a)) (f32_of_Z 255) in
  [blend_channel r alpha; blend_channel g alpha; blend_channel b alpha].
Definition flatten_to_white (image : DynamicImage) : N * N * list N :=
  let '(width, height) := image_dimensions image in
  (width, height, flat_map flatten_pixel (image_to_rgba8 image)).
Definition raw_image_from_dynamic_image (image : DynamicImage) : RawImage :=
  let '(width, height, pixels) := flatten_to_white image in
  mkRawImage pixels width height.

(** The document [image_to_pdf] builds. *)
Definition image_document (image : DynamicImage) (image_width image_height : N)
    (paper : EffectivePaper) (fit : FitRect) : PdfDocument :=
  let natural_width_mm :=
    f64_div (f64_mul (f64_of_Z (Z.of_N image_width)) (f64_lit 254 1)) DEFAULT_DPI in
  let natural_height_mm :=
    f64_div (f64_mul (f64_of_Z (Z.of_N image_height)) (f64_lit 254 1)) DEFAULT_DPI in
  mkPdfDocument "print-bridge-document" [raw_image_from_dynamic_image image]
    [mkPdfPage (f32_of_f64 (ep_width_mm paper)) (f32_of_f64 (ep_height_mm paper))
       [UseXobject 0 (mkXObjectTransform (Some (mm_to_pt (fr_x fit))) (Some (mm_to_pt (fr_y fit)))
          None (Some (f32_of_f64 (f64_div (fr_width fit) natural_width_mm)))
          (Some (f32_of_f64 (f64_div (fr_height fit) natural_height_mm))) (Some DEFAULT_DPI))]].

Definition image_to_pdf (image_path : string) (paper : EffectivePaper) (output_path : string)
  : M Fs DocumentError unit :=
  format ← detect_format image_path;
  image_format ← lift match format with
                      | Some DPng => Ok DPng
                      | Some DJpeg => Ok DJpeg
                      | _ => Err DocUnsupportedFormat
                      end;
  _ ← lift (map_err (λ _, InvalidImageDimensions) (EffectivePaper_validate paper));
  content ← mapping_err DocIo (fs_read image_path);
  image ← lift (map_err DocImage (image_decode image_format content));
  let '(image_width, image_height) := image_dimensions image in
  if (image_width =? 0) || (image_height =? 0) then raise InvalidImageDimensions
  else
    fit ← lift (fit_contain (f64_of_Z (Z.of_N image_width)) (f64_of_Z (Z.of_N image_height))
                  (ep_width_mm paper) (ep_height_mm paper));
    let bytes := pdf_save (image_document image image_width image_height paper fit) in
    mapping_err DocIo (fs_write output_path bytes).
End image_to_pdf.

(** ** The calibration page *)

Section calibration.
Context `{ImageOps}.

Definition point_mm (x y : f64) : Point := mkPoint (mm_to_pt x) (mm_to_pt y).
Definition line_point (x y : f64) : LinePoint := mkLinePoint (point_mm x y) false.
Definition open_line (points : list (f64 * f64)) : Line :=
  mkLine (map (λ p, line_point p.1 p.2) points) false.
Definition closed_line (points : list (f64 * f64)) : Line :=
  mkLine (map (λ p, line_point p.1 p.2) points) true.
Definition grayscale (value : f64) : Color := Rgb value value value.
Definition format_mm_label (value : f64) : string :=
  if f64_ltb (f64_abs (f64_fract value)) f64_epsilon then f64_format 0 value
  else f64_format 1 value.

Definition calibration_page_ops (paper : EffectivePaper) : list Op :=
  let min_side := f64_min (ep_width_mm paper) (ep_height_mm paper) in
  let margin := f64_min (f64_clamp (f64_mul min_side (f64_lit 8 2)) (f64_lit 2 1) (f64_of_Z 4))
                  (f64_div min_side (f64_of_Z 3)) in
  let width := ep_width_mm paper in
  let height := ep_height_mm paper in
  let mid_x := f64_div width (f64_of_Z 2) in
  let mid_y := f64_div height (f64_of_Z 2) in
  let text_size := f64_clamp (f64_mul min_side (f64_lit 13 2)) (f64_of_Z 1) (f64_of_Z 8) in
  let right := f64_sub width margin in
  let top := f64_sub height margin in
  [SaveGraphicsState;
   SetOutlineColor (grayscale f64_zero);
   SetOutlineThickness (f32_lit 7 1);
   DrawLine (closed_line [(margin, margin); (right, margin); (right, top); (margin, top)]);
   SetOutlineThickness (f32_lit 35 2);
   SetOutlineColor (grayscale (f32_lit 35 2));
   DrawLine (open_line [(mid_x, margin); (mid_x, top)]);
   DrawLine (open_line [(margin, mid_y); (right, mid_y)]);
   StartTextSection;
   SetFillColor (grayscale f64_zero);
   SetFont "Helvetica" (f32_of_f64 text_size);
   SetTextCursor (point_mm margin
     (f64_max (f64_sub top (f64_mul text_size (f64_lit 35 2))) margin));
   ShowText ["PrintBridge Test"];
   SetTextCursor (point_mm margin
     (f64_min (f64_add margin (f64_mul text_size (f64_lit 2 1))) top));
   ShowText [format_mm_label width +:+ " x " +:+ format_mm_label height +:+ " mm"];
   EndTextSection;
   RestoreGraphicsState].

Definition calibration_document (paper : EffectivePaper) : PdfDocument :=
  mkPdfDocument "print-bridge-calibration-page" []
    [mkPdfPage (f32_of_f64 (ep_width_mm paper)) (f32_of_f64 (ep_height_mm paper))
       (calibration_page_ops paper)].

Definition calibration_page_to_pdf (paper : EffectivePaper) (output_path : string)
  : M Fs DocumentError unit :=
  _ ← lift (map_err (λ _, InvalidImageDimensions) (EffectivePaper_validate paper));
  if negb (is_positive_finite (ep_width_mm paper)) || negb (is_positive_finite (ep_height_mm paper))
  then raise InvalidImageDimensions
  else mapping_err DocIo (fs_write output_path (pdf_save (calibration_document paper))).
End calibration.

(** ** Lemmas *)

Lemma detect_format_files path fs :
  fs_files (detect_format path fs).2 = fs_files fs ∧ fs_dirs (detect_format path fs).2 = fs_dirs fs.
Proof.
  unfold detect_format, mapping_err, fs_read, mbind, M_bind, mret, M_ret.
  destruct (fault_now fs) as [[e x]|]; simpl; [done|].
  by destruct (fs_files fs !! path).
Qed.

Lemma str_take_prefix n p s : (String.length p ≤ n)%nat →
  starts_with p (str_take n s) = starts_with p s.
Proof.
  intros Hn. apply eq_true_iff_eq. rewrite !starts_with_spec. unfold str_take. split.
  - intros [r Hr]. exists (r +:+ of_bytes (drop n (to_bytes s))).
    rewrite str_app_assoc, <-Hr. apply to_bytes_inj.
    by rewrite to_bytes_app, !to_of_bytes, take_drop.
  - intros [r ->]. exists (of_bytes (take (n - String.length p) (to_bytes r))).
    apply to_bytes_inj. rewrite !to_bytes_app, !to_of_bytes.
    rewrite take_app_ge by (rewrite to_bytes_length; lia). by rewrite to_bytes_length.
Qed.

(** The eight bytes read are enough for every signature. *)
Lemma detect_format_header s :
  detect_format_from_bytes (str_take HEADER_SIZE s) = detect_format_from_bytes s.
Proof.
  unfold detect_format_from_bytes, HEADER_SIZE.
  by rewrite !str_take_prefix by (vm_compute; lia).
Qed.

Lemma detect_format_ok path fs f fs' :
  detect_format path fs = (Ok f, fs') →
  ∃ content, fs_files fs !! path = Some content ∧ f = detect_format_from_bytes content.
Proof.
  unfold detect_format, mapping_err, fs_read, mbind, M_bind, mret, M_ret.
  destruct (fault_now fs) as [[e x]|]; simpl; [done|].
  destruct (fs_files fs !! path) as [content|]; simpl; [|done]. intros [= <- <-].
  exists content. by rewrite detect_format_header.
Qed.

(** ** Properties *)

(** A layout is computed exactly for positive finite sizes: a NaN, an
    infinite, zero or negative side of the image or the page is always the
    dimension error. *)
Theorem fit_contain_defined (iw ih pw ph : f64) :
  (∃ r, fit_contain iw ih pw ph = Ok r) ↔
  Forall (λ v, ∃ m e, v = SpecFloat.S754_finite false m e) [iw; ih; pw; ph].
Proof.
  assert (∀ v, is_positive_finite v = true ↔ ∃ m e, v = SpecFloat.S754_finite false m e) as Hp.
  { intros v. unfold is_positive_finite. rewrite andb_true_iff, f64_pos_spec. split.
    - intros [Hf [->|?]]; [done|done].
    - intros (m&e&->). split; [done|]. right. by eexists _, _. }
  rewrite !Forall_cons, <-!Hp. unfold fit_contain.
  destruct (is_positive_finite iw), (is_positive_finite ih), (is_positive_finite pw),
    (is_positive_finite ph); simpl; split;
    try (by intros [? [=]]); try (by intros (?&?&?&?&_)); try (by eexists);
    intros; split_and!; done || constructor.
Qed.

Section image_properties.
Context `{ImageOps}.

(** Converting an image changes at most the output file; it succeeds only
    for a file with a PNG or JPEG signature and a positive page size, and then
    the output is the page with that image. *)
Theorem image_to_pdf_spec (image_path output_path : string) (paper : EffectivePaper) (fs : Fs) :
  let '(r, fs') := image_to_pdf image_path paper output_path fs in
  (∀ p, p ≠ output_path → fs_files fs' !! p = fs_files fs !! p) ∧
  (r = Ok tt →
    EffectivePaper_validate paper = Ok tt ∧
    ∃ content fmt image fit, fs_files fs !! image_path = Some content ∧
      detect_format_from_bytes content = Some fmt ∧ (fmt = DPng ∨ fmt = DJpeg) ∧
      image_decode fmt content = Ok image ∧
      fit_contain (f64_of_Z (Z.of_N (image_dimensions image).1))
        (f64_of_Z (Z.of_N (image_dimensions image).2)) (ep_width_mm paper) (ep_height_mm paper)
        = Ok fit ∧
      fs_files fs' !! output_path =
        Some (pdf_save (image_document image (image_dimensions image).1 (image_dimensions image).2
                          paper fit))).
Proof.
  unfold image_to_pdf, lift, raise. unfold mbind at 1, M_bind at 1.
  pose proof (detect_format_files image_path fs) as [Hf _].
  destruct (detect_format image_path fs) as [[fmt|e] fs1] eqn:Hd; simpl in Hf;
    [|by simpl; rewrite Hf].
  apply detect_format_ok in Hd as (content&Hc&->).
  unfold mbind, M_bind.
  destruct (match detect_format_from_bytes content with
            | Some DPng => Ok DPng | Some DJpeg => Ok DJpeg | _ => Err DocUnsupportedFormat end)
    as [fmt|e] eqn:Hfmt; [|by simpl; rewrite Hf].
  destruct (map_err _ (EffectivePaper_validate paper)) as [[]|e] eqn:Hv; [|by simpl; rewrite Hf].
  apply map_err_ok in Hv. unfold mapping_err at 1, fs_read.
  destruct (fault_now fs1) as [[e x]|]; simpl; [by rewrite Hf|].
  rewrite Hf, Hc. simpl.
  destruct (image_decode fmt content) as [image|e] eqn:Hi; simpl; [|by simpl; rewrite Hf].
  destruct (image_dimensions image) as [w h] eqn:Hdim.
  destruct ((w =? 0) || (h =? 0)); [simpl; by rewrite Hf|].
  destruct (fit_contain _ _ _ _) as [fit|e] eqn:Hfit; [|by simpl; rewrite Hf].
  unfold mapping_err.
  match goal with |- context [fs_write output_path ?b ?f] =>
    pose proof (fs_write_only output_path b f) as [Ho _];
    assert (∀ fs', fs_write output_path b f = (Ok tt, fs') →
      fs_files fs' !! output_path = Some b) as Hw end.
  { intros fs'. unfold fs_write. destruct (fault_now _) as [[e [r|]]|]; intros [= <-].
    simpl. by rewrite lookup_insert, decide_True. }
  destruct (fs_write _ _ _) as [[[]|e] fs'] eqn:Hwr; simpl in *; split;
    try (intros p Hp; by rewrite Ho, Hf); [|done].
  intros _. split; [done|].
  exists content, fmt, image, fit. rewrite Hdim. simpl. split_and!; try done;
    [| |by apply Hw];
    destruct (detect_format_from_bytes content) as [[]|]; simplify_eq; auto.
Qed.
End image_properties.
