(* ===== verification/Office.v ===== *)
(** * Office documents ([crates/runtime/src/office.rs])

    Recognising an OOXML container and converting it to PDF in an isolated
    working directory, with the clean-up of every outcome.  Reading a zip
    archive is the [zip] crate; the converter itself is an argument, as in
    [office_to_pdf_with_converter]. *)

From S2P Require Import Prelude RustStr FileSys Protocol Document.
From Stdlib Require Import Ascii.
Open Scope string_scope.
Open Scope N_scope.
Open Scope list_scope.

Definition OFFICE_CONVERSION_TIMEOUT : N := 120.
Definition MAX_CONVERTER_MESSAGE_CHARS : nat := N.to_nat 2048.

Inductive OfficeFormat := ODocx | OXlsx | OPptx.
#[export] Instance OfficeFormat_eq_dec : EqDecision OfficeFormat.
Proof. solve_decision. Defined.

(** [OfficeFormat::extension] *)
Definition office_extension (f : OfficeFormat) : string :=
  match f with ODocx => "docx" | OXlsx => "xlsx" | OPptx => "pptx" end.

Inductive OfficeConvertError :=
  | OUnsupportedFormat
  | OIo (e : IoError)
  | ConverterUnavailable (converter reason : string)
  | ConvertersUnavailable (attempts : string)
  | FallbackFailed (source : OfficeConvertError) (unavailable : string)
  | OTimedOut (converter : string) (seconds : N)
  | OCommandFailed (converter message : string)
  | InvalidPdf (converter : string).

Fixpoint OfficeConvertError_display (e : OfficeConvertError) : string :=
  match e with
  | OUnsupportedFormat => "unsupported office format"
  | OIo e => io_message e
  | ConverterUnavailable c r => "office converter unavailable: " +:+ c +:+ " (" +:+ r +:+ ")"
  | ConvertersUnavailable a => "office converters unavailable: " +:+ a
  | FallbackFailed s u =>
      OfficeConvertError_display s +:+ "; unavailable before selection: " +:+ u
  | OTimedOut c n =>
      "office conversion timed out after " +:+ pretty n +:+ " seconds: " +:+ c
  | OCommandFailed c m => "office conversion failed via " +:+ c +:+ ": " +:+ m
  | InvalidPdf c => "office converter produced an invalid PDF: " +:+ c
  end.

Definition office_format_from_supported (f : SupportedFormat) : option OfficeFormat :=
  match f with
  | Docx => Some ODocx
  | Xlsx => Some OXlsx
  | Pptx => Some OPptx
  | _ => None
  end.

(** The [zip] crate: opening an archive, and whether an entry can be read. *)
Inductive ZipError := ZipInvalid | ZipUnsupported | ZipIo (e : IoError) | ZipOther.
Class ZipOps := {
  ZipArchive : Type;
  zip_open : string → result ZipError ZipArchive;
  zip_has : ZipArchive → string → bool
}.

Section detection.
Context `{ZipOps}.

Definition detect_office_format (path : string)
  : M Fs OfficeConvertError (option OfficeFormat) :=
  content ← mapping_err OIo (fs_read path);
  match zip_open content with
  | Err (ZipIo e) => raise (OIo e)
  | Err _ => mret None
  | Ok archive =>
      mret (if zip_has archive "word/document.xml" then Some ODocx
            else if zip_has archive "xl/workbook.xml" then Some OXlsx
            else if zip_has archive "ppt/presentation.xml" then Some OPptx
            else None)
  end.
End detection.

(** [staged_input_path] *)
Definition staged_input_path (work_dir output_path : string) (format : OfficeFormat)
  : result OfficeConvertError string :=
  stem ← ok_or (OIo (mkIoError InvalidInput "PDF output has no file name"))
           (path_file_stem output_path);
  Ok (work_dir +:+ "/" +:+ stem +:+ "." +:+ office_extension format).

(** [remove_file_if_exists] and [remove_dir_if_exists] *)
Definition ignore_not_found (op : IO unit) : IO unit :=
  r ← attempt op;
  match r with
  | Ok _ => mret tt
  | Err e => if bool_decide (io_kind e = NotFound) then mret tt else raise e
  end.
Definition remove_file_if_exists (path : string) : IO unit :=
  ignore_not_found (fs_remove_file path).
Definition remove_dir_if_exists (path : string) : IO unit :=
  ignore_not_found (fs_remove_dir_all path).

(** [validate_pdf]: the metadata, the opening and the reading may each fail. *)
Definition validate_pdf (path converter : string) : M Fs OfficeConvertError unit :=
  let invalid {A} (op : IO A) : M Fs OfficeConvertError A :=
    mapping_err (λ _, InvalidPdf converter) op in
  metadata ← invalid (fs_read path);
  if str_len metadata <=? 5 then raise (InvalidPdf converter)
  else
    file ← invalid (fs_read path);
    _ ← invalid fs_flush;
    if bool_decide (str_take 5 file = pdf_signature) then mret tt
    else raise (InvalidPdf converter).

(** A converter: the staged input, the format and the output path. *)
Definition Converter : Type := string → OfficeFormat → string → M Fs OfficeConvertError string.

Definition work_dir_of (input_path : string) : string := with_extension input_path "office-work".

(** [office_to_pdf_with_converter], up to the staged copy of the input... *)
Definition stage_office_input (input_path : string) (format : OfficeFormat) (output_path : string)
  : M Fs OfficeConvertError (result OfficeConvertError string) :=
  let work_dir := work_dir_of input_path in
  _ ← mapping_err OIo (remove_dir_if_exists work_dir);
  _ ← mapping_err OIo (remove_file_if_exists output_path);
  _ ← mapping_err OIo (fs_create_dir work_dir);
  attempt (
    staged_path ← lift (staged_input_path work_dir output_path format);
    _ ← mapping_err OIo (fs_copy input_path staged_path);
    mret staged_path).

(** ... and from there on. *)
Definition convert_staged (input_path : string) (format : OfficeFormat) (output_path : string)
    (converter : Converter) (staged_path : string) : M Fs OfficeConvertError string :=
  let work_dir := work_dir_of input_path in
  conversion_result ← attempt (
    converter_name ← converter staged_path format output_path;
    _ ← validate_pdf output_path converter_name;
    mret converter_name);
  cleanup_result ← attempt (fs_remove_dir_all work_dir);
  match conversion_result, cleanup_result with
  | Ok converter_name, Ok _ => mret converter_name
  | Ok _, Err error =>
      _ ← fs_remove_quietly output_path;
      raise (OIo error)
  | Err error, _ =>
      _ ← fs_remove_quietly output_path;
      raise error
  end.
Definition office_to_pdf_with_converter (input_path : string) (format : OfficeFormat)
    (output_path : string) (converter : Converter) : M Fs OfficeConvertError string :=
  let work_dir := work_dir_of input_path in
  staging_result ← stage_office_input input_path format output_path;
  match staging_result with
  | Err error =>
      _ ← attempt (fs_remove_dir_all work_dir);
      raise error
  | Ok staged_path => convert_staged input_path format output_path converter staged_path
  end.

(** [truncate_message]: the first 2048 characters. *)
Fixpoint take_chars (n : nat) (l : bytes) : bytes :=
  match l with
  | [] => []
  | c :: l' =>
      if is_continuation c then c :: take_chars n l'
      else match n with O => [] | S n' => c :: take_chars n' l' end
  end.
Definition truncate_message (value : string) : string :=
  of_bytes (take_chars MAX_CONVERTER_MESSAGE_CHARS (to_bytes value)).

(** [command_failed]; the output of the process is its status text and the two
    streams, already decoded ([from_utf8_lossy]). *)
Definition command_failed (converter status stdout stderr : string) : OfficeConvertError :=
  let stderr := trim stderr in
  let stdout := trim stdout in
  let message := if negb (is_empty stderr) then stderr
                 else if negb (is_empty stdout) then stdout
                 else "process exited with " +:+ status in
  OCommandFailed converter (truncate_message message).

(** ** Properties *)

Definition valid_pdf (content : string) : Prop :=
  starts_with pdf_signature content = true ∧ 5 < str_len content.

Lemma fs_read_spec path fs :
  fs_files (fs_read path fs).2 = fs_files fs ∧ fs_dirs (fs_read path fs).2 = fs_dirs fs ∧
  fs_fault (fs_read path fs).2 = fs_fault fs ∧
  ∀ c, (fs_read path fs).1 = Ok c → fs_files fs !! path = Some c.
Proof.
  unfold fs_read. split_and!; [by destruct (fault_now fs) as [[]|]..|].
  intros c. destruct (fault_now fs) as [[]|]; simpl; [done|]. apply ok_or_ok.
Qed.

Lemma validate_pdf_files path c fs :
  fs_files (validate_pdf path c fs).2 = fs_files fs ∧
  fs_dirs (validate_pdf path c fs).2 = fs_dirs fs ∧
  ((validate_pdf path c fs).1 = Ok tt →
   ∃ content, fs_files fs !! path = Some content ∧ valid_pdf content).
Proof.
  unfold validate_pdf, mapping_err, raise, mbind, M_bind, mret, M_ret.
  destruct (fs_read_spec path fs) as (Hf&Hd&_&Hc).
  destruct (fs_read path fs) as [[m|e] fs1]; cbn in *; [|done].
  specialize (Hc m eq_refl).
  destruct (str_len m <=? 5) eqn:Hl; [done|]. apply N.leb_gt in Hl.
  destruct (fs_read_spec path fs1) as (Hf1&Hd1&_&Hc1).
  destruct (fs_read path fs1) as [[m'|e] fs2]; cbn in *; [|by rewrite Hf1, Hd1].
  specialize (Hc1 m' eq_refl). rewrite Hf, Hc in Hc1. injection Hc1 as <-.
  unfold fs_flush. destruct (fault_now fs2) as [[]|]; cbn; [by rewrite Hf1, Hd1|].
  case_bool_decide as Hs; cbn; rewrite Hf1, Hd1; [|done].
  split_and!; try done. intros _. exists m. split; [done|]. split; [|done].
  rewrite <-(str_take_prefix 5) by done. rewrite Hs. by vm_compute.
Qed.

Lemma fs_remove_dir_all_spec d fs :
  let '(r, fs') := fs_remove_dir_all d fs in
  (∀ p, fs_files fs' !! p = fs_files fs !! p ∨ fs_files fs' !! p = None) ∧
  (r = Ok tt → d ∉ fs_dirs fs' ∧
     (∀ p, fs_files fs' !! p = if below d p then None else fs_files fs !! p)) ∧
  ((∃ e, r = Err e) → fs_files fs' = fs_files fs).
Proof.
  unfold fs_remove_dir_all. destruct (fault_now fs) as [[e x]|]; simpl.
  { split_and!; [by left|done|done]. }
  case_bool_decide as Hd; simpl; [|split_and!; [by left|done|done]].
  assert (∀ p, filter (λ '(p, _), below d p = false) (fs_files fs) !! p =
               if below d p then None else fs_files fs !! p) as Hp.
  { intros p. destruct (below d p) eqn:Hb.
    - apply map_lookup_filter_None. right. intros x _. simpl. by rewrite Hb.
    - destruct (fs_files fs !! p) as [c|] eqn:Hc.
      + by apply map_lookup_filter_Some.
      + apply map_lookup_filter_None. by left. }
  split_and!; [intros p; rewrite Hp; destruct (below d p); auto| |by intros [? [=]]].
  intros _. split; [set_solver|done].
Qed.

(** A conversion that reports success has left a real PDF (the signature and
    more than five bytes) at the output path, no working directory and no file
    below it. *)
Theorem office_to_pdf_success (input_path output_path name : string) (format : OfficeFormat)
    (converter : Converter) (fs fs' : Fs) :
  below (work_dir_of input_path) output_path = false →
  office_to_pdf_with_converter input_path format output_path converter fs = (Ok name, fs') →
  (∃ content, fs_files fs' !! output_path = Some content ∧ valid_pdf content) ∧
  work_dir_of input_path ∉ fs_dirs fs' ∧
  ∀ p, below (work_dir_of input_path) p = true → fs_files fs' !! p = None.
Proof.
  intros Hb H. unfold office_to_pdf_with_converter in H.
  apply M_bind_ok in H as (st&fs4&_&H).
  destruct st as [staged|e].
  2:{ apply M_bind_ok in H as (?&?&_&[=]). }
  apply M_bind_ok in H as (conv&fs5&Hconv&H). apply M_bind_ok in H as (cl&fs6&Hcl&H).
  destruct conv as [n|e].
  2:{ apply M_bind_ok in H as (?&?&_&[=]). }
  destruct cl as [[]|e].
  2:{ apply M_bind_ok in H as (?&?&_&[=]). }
  injection H as <- <-.
  assert (∃ content, fs_files fs5 !! output_path = Some content ∧ valid_pdf content)
    as (content&Hc&Hv).
  { unfold attempt in Hconv.
    destruct ((n ← converter staged format output_path; _ ← validate_pdf output_path n; mret n)
      fs4) as [r fs5'] eqn:Hr. injection Hconv as -> ->.
    apply M_bind_ok in Hr as (n'&fs7&_&Hr). apply M_bind_ok in Hr as ([]&fs8&Hval&[= -> ->]).
    destruct (validate_pdf_files output_path n fs7) as (Hf&_&Hok).
    rewrite Hval in Hf, Hok. simpl in *. rewrite Hf. by apply Hok. }
  pose proof (fs_remove_dir_all_spec (work_dir_of input_path) fs5) as Hd.
  unfold attempt in Hcl. destruct (fs_remove_dir_all _ fs5) as [r fs6'].
  injection Hcl as -> ->. destruct Hd as (_&Hd&_). destruct (Hd eq_refl) as [Hdir Hfiles].
  split_and!; [|done|].
  - exists content. by rewrite Hfiles, Hb.
  - intros p Hp. by rewrite Hfiles, Hp.
Qed.

(** A conversion that fails either fails before the converter is started (the
    outcome is then the same for every converter), or leaves no output behind,
    unless the final removal itself fails. *)
Theorem office_to_pdf_failure (input_path output_path : string) (format : OfficeFormat)
    (converter : Converter) (fs : Fs) :
  match office_to_pdf_with_converter input_path format output_path converter fs with
  | (Ok _, _) => True
  | (Err e, fs') =>
      cleaned output_path fs' ∨
      ∀ converter',
        office_to_pdf_with_converter input_path format output_path converter' fs = (Err e, fs')
  end.
Proof.
  destruct (stage_office_input input_path format output_path fs) as [st fs1] eqn:Hst.
  assert (∀ c, office_to_pdf_with_converter input_path format output_path c fs =
    match st with
    | Err e => (Err e, fs1)
    | Ok (Err e) => (Err e, (attempt (E := OfficeConvertError)
                              (fs_remove_dir_all (work_dir_of input_path)) fs1).2)
    | Ok (Ok staged) => convert_staged input_path format output_path c staged fs1
    end) as Heq.
  { intros c. unfold office_to_pdf_with_converter. rewrite M_bind_eq, Hst.
    destruct st as [[staged|e]|e]; [done| |done]. rewrite M_bind_eq. unfold attempt.
    by destruct (fs_remove_dir_all _ fs1). }
  rewrite Heq. destruct st as [[staged|e]|e]; [|right; intros; apply Heq..].
  unfold convert_staged. rewrite M_bind_eq. unfold attempt at 1.
  destruct ((n ← converter staged format output_path; _) fs1) as [conv fs2].
  rewrite M_bind_eq. unfold attempt at 1.
  destruct (fs_remove_dir_all (work_dir_of input_path) fs2) as [cl fs3].
  destruct (fs_remove_quietly_cleaned (E := OfficeConvertError) output_path fs3)
    as (fs'&Hq&_&Hcl).
  destruct conv as [n|e], cl as [[]|e']; cbn beta iota; [done|..];
    rewrite M_bind_eq, Hq; by left.
Qed.

(** A converter that writes a small PDF, and a file system with one document. *)
Definition toy_converter : Converter := λ _ _ out,
  _ ← mapping_err OIo (fs_write out "%PDF-1.7 toy"); mret "toy".
Definition toy_office_fs : Fs := mkFs {["t/in.tmp" := "PK"]} ∅ 0 (λ _, None).

Lemma office_to_pdf_success_witness :
  let run := office_to_pdf_with_converter "t/in.tmp" ODocx "t/in.pdf" toy_converter
               toy_office_fs in
  run.1 = Ok "toy" ∧
  (∃ content, fs_files run.2 !! "t/in.pdf" = Some content ∧ valid_pdf content) ∧
  work_dir_of "t/in.tmp" ∉ fs_dirs run.2 ∧
  ∀ p, below (work_dir_of "t/in.tmp") p = true → fs_files run.2 !! p = None.
Proof.
  split; [vm_compute; reflexivity|].
  apply (office_to_pdf_success "t/in.tmp" "t/in.pdf" "toy" ODocx toy_converter toy_office_fs).
  - vm_compute; reflexivity.
  - apply injective_projections; [vm_compute; reflexivity|reflexivity].
Defined.
