(* ===== verification/Converters.v ===== *)
(** * The Office converters ([crates/runtime/src/office.rs] from
    [execute_converter_command], [office/libreoffice.rs], [office/windows.rs])

    Running a converter process within its limit of time, LibreOffice with an
    isolated profile, and on Windows the chain of Microsoft Office, WPS and
    LibreOffice.  The two PowerShell scripts the code hands to [powershell.exe] are
    parameters here: a process answers.  [OfficeScripts] models them. *)

From S2P Require Import Prelude RustStr F64 FileSys Protocol IpWhitelist Config Document Office.
From Stdlib Require Import Ascii.
Open Scope string_scope.
Open Scope N_scope.
Open Scope list_scope.

(** ** Processes *)

(** A command: program, arguments, variables added to its environment, and
    whether it runs without a console window ([CREATE_NO_WINDOW]). *)
Record ProcessCommand := mkProcessCommand {
  pc_program : string; pc_args : list string; pc_envs : list (string * string); pc_hidden : bool
}.
Record ExitStatus := mkExitStatus { es_success : bool; es_code : option N; es_text : string }.
(** [Output], its streams read with [from_utf8_lossy]. *)
Record ProcessOutput := mkProcessOutput {
  pr_status : ExitStatus; pr_stdout : string; pr_stderr : string
}.
(** A started process: the seconds until it ends, how it ends, and its streams. *)
Record ChildRun := mkChildRun {
  ch_duration : N; ch_status : result IoError ExitStatus;
  ch_stdout : result IoError string; ch_stderr : result IoError string
}.

Class ConverterEnv := {
  (** Starting a process and letting it run: it may change files. *)
  cv_spawn : ProcessCommand → Fs → result IoError ChildRun * Fs;
  (** Running a command for its output. *)
  cv_output : ProcessCommand → option ProcessOutput;
  cv_platform : Platform;
  cv_var : Env;
  cv_executable : string → bool;
  (** [Url::from_directory_path] as text. *)
  cv_directory_url : string → option string;
  POWERSHELL_SCRIPT : string;
  TIMEOUT_CLEANUP_SCRIPT : string
}.

(** The files and the processes started, each with the files it found. *)
Record ConverterWorld := mkConverterWorld {
  cw_files : Fs; cw_started : list (ProcessCommand * gmap string string)
}.

Section converters.
Context `{V : ConverterEnv}.
Abbreviation ConvM := (M ConverterWorld OfficeConvertError).

Definition start_process {E} (command : ProcessCommand)
  : M ConverterWorld E (result IoError ChildRun) := λ w,
  let '(r, fs) := cv_spawn command (cw_files w) in
  (Ok r, mkConverterWorld fs (cw_started w ++ [(command, fs_files (cw_files w))])).
Definition on_conv_fs {A} (m : M Fs OfficeConvertError A) : ConvM A :=
  zoom cw_files (λ fs w, mkConverterWorld fs (cw_started w)) m.

(** [execute_converter_command_with_optional_cleanup]; the outcome of the clean-up
    command is only logged, and the process is gone afterwards. *)
Definition execute_converter_command_opt (command : ProcessCommand) (converter : string)
    (timeout : N) (cleanup_command : option ProcessCommand) : ConvM ProcessOutput :=
  child ← start_process command;
  child ← lift (match child with
                | Ok child => Ok child
                | Err error =>
                    Err (if bool_decide (io_kind error = NotFound)
                         then ConverterUnavailable converter "executable not found"
                         else OIo error)
                end);
  if ch_duration child <=? timeout then
    status ← lift (map_err OIo (ch_status child));
    stdout ← lift (map_err OIo (ch_stdout child));
    stderr ← lift (map_err OIo (ch_stderr child));
    mret (mkProcessOutput status stdout stderr)
  else
    _ ← match cleanup_command with
        | Some cleanup_command => _ ← start_process cleanup_command; mret tt
        | None => mret tt
        end;
    raise (OTimedOut converter (N.max timeout 1)).
Definition execute_converter_command (command : ProcessCommand) (converter : string)
    (timeout : N) : ConvM ProcessOutput :=
  execute_converter_command_opt command converter timeout None.
Definition execute_converter_command_with_timeout_cleanup (command : ProcessCommand)
    (converter : string) (timeout : N) (cleanup_command : ProcessCommand) : ConvM ProcessOutput :=
  execute_converter_command_opt command converter timeout (Some cleanup_command).

Definition output_failed (converter : string) (output : ProcessOutput) : OfficeConvertError :=
  command_failed converter (es_text (pr_status output)) (pr_stdout output) (pr_stderr output).

(** ** LibreOffice *)

Definition quote : string := String "034"%char "".
Definition MACRO_SECURITY_CONFIG : string :=
  unlines
    ["<?xml version=" +:+ quote +:+ "1.0" +:+ quote +:+ " encoding=" +:+ quote +:+ "UTF-8" +:+
       quote +:+ "?>";
     "<oor:items xmlns:oor=" +:+ quote +:+ "http://openoffice.org/2001/registry" +:+ quote +:+ ">";
     "  <item oor:path=" +:+ quote +:+ "/org.openoffice.Office.Common/Security/Scripting" +:+
       quote +:+ ">";
     "    <prop oor:name=" +:+ quote +:+ "MacroSecurityLevel" +:+ quote +:+ " oor:op=" +:+ quote +:+
       "fuse" +:+ quote +:+ "><value>3</value></prop>";
     "  </item>";
     "</oor:items>"].
Definition LIBREOFFICE : string := "LibreOffice".
Definition MACOS_SOFFICE : string := "/Applications/LibreOffice.app/Contents/MacOS/soffice".

(** The part of a text around [p] on both sides is removed. *)
Definition trim_matches (p s : string) : string := trim_end_matches p (trim_start_matches p s).
Definition parse_windows_app_path (output : string) : option string :=
  iter_find_map (λ line,
    iter_find_map (λ kind,
      opt_filter non_empty
        ((λ '(_, value), trim_matches quote (trim value)) <$> split_once kind line))
      ["REG_SZ"; "REG_EXPAND_SZ"]) (lines output).
Definition query_windows_app_path (root view : string) : option string :=
  let key := root +:+ "\SOFTWARE\Microsoft\Windows\CurrentVersion\App Paths\soffice.exe" in
  output ← cv_output (mkProcessCommand "reg.exe" ["query"; key; "/ve"; view] [] true);
  if es_success (pr_status output) then parse_windows_app_path (pr_stdout output) else None.
Definition windows_libreoffice_candidates : list string :=
  omap (λ variable, (λ directory, path_join Windows (path_join Windows
      (path_join Windows directory "LibreOffice") "program") "soffice.exe") <$> cv_var variable)
    ["ProgramFiles"; "ProgramFiles(x86)"] ++
  flat_map (λ root, omap (query_windows_app_path root) ["/reg:64"; "/reg:32"]) ["HKCU"; "HKLM"].

Definition path_executable_names : list string :=
  match cv_platform with
  | Windows => ["soffice.exe"; "libreoffice.exe"]
  | _ => ["soffice"; "libreoffice"]
  end.
Definition path_directories (path_value : string) : list string :=
  split_char (match cv_platform with Windows => ";" | _ => ":" end)%char path_value.
Definition find_libreoffice_in (standard : list string) (path_value : option string)
  : option string :=
  match iter_find cv_executable standard with
  | Some path => Some path
  | None =>
      path_value ← path_value;
      iter_find cv_executable
        (flat_map (λ directory, map (path_join cv_platform directory) path_executable_names)
           (path_directories path_value))
  end.
Definition find_libreoffice : option string :=
  let standard := match cv_platform with
                  | MacOs => [MACOS_SOFFICE]
                  | Windows => windows_libreoffice_candidates
                  | OtherUnix => []
                  end in
  find_libreoffice_in standard (cv_var "PATH").

Definition macro_config_path (profile_dir : string) : string :=
  profile_dir +:+ "/user" +:+ "/registrymodifications.xcu".
Definition write_macro_security_profile (profile_dir : string) : M Fs OfficeConvertError unit :=
  _ ← mapping_err OIo (fs_create_dir_all (profile_dir +:+ "/user"));
  mapping_err OIo (fs_write (macro_config_path profile_dir) MACRO_SECURITY_CONFIG).

(** [build_command] of [libreoffice.rs] *)
Definition libreoffice_command (executable profile_url input_path output_dir : string)
  : ProcessCommand :=
  mkProcessCommand executable
    (["--headless"; "--nologo"; "--nodefault"; "--nolockcheck"; "--norestore";
      "-env:UserInstallation=" +:+ profile_url; "--convert-to"; "pdf"; "--outdir";
      output_dir; input_path])
    [] (bool_decide (cv_platform = Windows)).

Definition profile_dir_of (work_dir : string) : string := work_dir +:+ "/libreoffice-profile".
Definition libreoffice_convert (input_path output_path : string) : ConvM string :=
  executable ← lift (ok_or (ConverterUnavailable LIBREOFFICE "executable not found")
                       find_libreoffice);
  work_dir ← lift (ok_or (OIo (mkIoError InvalidInput "staged input has no parent"))
                     (path_parent input_path));
  let profile_dir := profile_dir_of work_dir in
  _ ← on_conv_fs (write_macro_security_profile profile_dir);
  profile_url ← lift (ok_or (OIo (mkIoError InvalidInput "invalid LibreOffice profile path"))
                        (cv_directory_url profile_dir));
  output_dir ← lift (ok_or (OIo (mkIoError InvalidInput "PDF output has no parent"))
                       (path_parent output_path));
  let command := libreoffice_command executable profile_url input_path output_dir in
  output ← execute_converter_command command LIBREOFFICE OFFICE_CONVERSION_TIMEOUT;
  if es_success (pr_status output) then mret LIBREOFFICE
  else raise (output_failed LIBREOFFICE output).

(** ** Windows *)

Inductive Provider := Microsoft | Wps.
Definition UNAVAILABLE_MARKER : string := "PRINTBRIDGE_CONVERTER_UNAVAILABLE:".

Definition converter_name (provider : Provider) (format : OfficeFormat) : string :=
  match provider, format with
  | Microsoft, ODocx => "Microsoft Word"
  | Microsoft, OXlsx => "Microsoft Excel"
  | Microsoft, OPptx => "Microsoft PowerPoint"
  | Wps, ODocx => "WPS Writer"
  | Wps, OXlsx => "WPS Spreadsheets"
  | Wps, OPptx => "WPS Presentation"
  end.
Definition prog_id (provider : Provider) (format : OfficeFormat) : string :=
  match provider, format with
  | Microsoft, ODocx => "Word.Application"
  | Microsoft, OXlsx => "Excel.Application"
  | Microsoft, OPptx => "PowerPoint.Application"
  | Wps, ODocx => "KWPS.Application"
  | Wps, OXlsx => "KET.Application"
  | Wps, OPptx => "KWPP.Application"
  end.
Definition provider_name (provider : Provider) : string :=
  match provider with Microsoft => "microsoft" | Wps => "wps" end.
Definition format_name (format : OfficeFormat) : string :=
  match format with ODocx => "docx" | OXlsx => "xlsx" | OPptx => "pptx" end.
Definition instance_record_path (input_path : string) (provider : Provider) : string :=
  with_extension input_path (provider_name provider +:+ "-instance.json").

(** [hidden_command] with the arguments both scripts are run with. *)
Definition powershell_command (script : string) (envs : list (string * string)) : ProcessCommand :=
  mkProcessCommand "powershell.exe" ["-NoProfile"; "-NonInteractive"; "-Command"; script] envs true.
(** [build_command] of [windows.rs] *)
Definition windows_command (input_path : string) (format : OfficeFormat)
    (output_path record_path : string) (provider : Provider) : ProcessCommand :=
  powershell_command POWERSHELL_SCRIPT
    [("PRINTBRIDGE_OFFICE_FORMAT", format_name format);
     ("PRINTBRIDGE_OFFICE_PROVIDER", provider_name provider);
     ("PRINTBRIDGE_OFFICE_INPUT", input_path);
     ("PRINTBRIDGE_OFFICE_OUTPUT", output_path);
     ("PRINTBRIDGE_OFFICE_INSTANCE_RECORD", record_path)].
Definition build_cleanup_command (record_path : string) : ProcessCommand :=
  powershell_command TIMEOUT_CLEANUP_SCRIPT [("PRINTBRIDGE_OFFICE_INSTANCE_RECORD", record_path)].

Definition is_com_registered (prog_id : string) : bool :=
  match cv_output (mkProcessCommand "reg.exe" ["query"; "HKCR\" +:+ prog_id +:+ "\CLSID"; "/ve"]
                     [] true) with
  | Some output => es_success (pr_status output)
  | None => false
  end.

Definition failure_from_exit (code : option N) (converter stderr : string)
  : option OfficeConvertError :=
  if negb (bool_decide (code = Some 2)) then None
  else
    let reason := unwrap_or
      (opt_filter non_empty
         (trim <$> iter_find_map (λ line, strip_prefix UNAVAILABLE_MARKER (trim line))
                     (lines stderr)))
      "COM converter unavailable" in
    Some (ConverterUnavailable converter reason).
Definition failure_from_output (output : ProcessOutput) (converter : string) : OfficeConvertError :=
  unwrap_or (failure_from_exit (es_code (pr_status output)) converter (pr_stderr output))
    (output_failed converter output).

Definition convert_with_provider (input_path : string) (format : OfficeFormat)
    (output_path : string) (provider : Provider) : ConvM string :=
  let converter := converter_name provider format in
  let record_path := instance_record_path input_path provider in
  let command := windows_command input_path format output_path record_path provider in
  let cleanup := build_cleanup_command record_path in
  output ← execute_converter_command_with_timeout_cleanup command converter
             OFFICE_CONVERSION_TIMEOUT cleanup;
  if negb (es_success (pr_status output)) then raise (failure_from_output output converter)
  else
    _ ← on_conv_fs (validate_pdf output_path converter);
    mret converter.

Definition with_unavailable_context (error : OfficeConvertError) (unavailable : list string)
  : OfficeConvertError :=
  if bool_decide (unavailable = []) then error
  else FallbackFailed error (join "; " unavailable).
Definition is_unavailable (error : OfficeConvertError) : bool :=
  match error with ConverterUnavailable _ _ => true | _ => false end.

(** The end of the chain in [convert]. *)
Definition libreoffice_fallback (input_path output_path : string) (unavailable : list string)
  : ConvM string :=
  result ← attempt (libreoffice_convert input_path output_path);
  match result with
  | Ok converter =>
      _ ← mapping_err (λ error, with_unavailable_context error unavailable)
            (on_conv_fs (validate_pdf output_path converter));
      mret converter
  | Err error =>
      if is_unavailable error
      then raise (ConvertersUnavailable
                    (join "; " (unavailable ++ [OfficeConvertError_display error])))
      else raise (with_unavailable_context error unavailable)
  end.
(** The loop of [convert] over the providers left, with the ones unavailable. *)
Fixpoint convert_loop (input_path : string) (format : OfficeFormat) (output_path : string)
    (providers : list Provider) (unavailable : list string) : ConvM string :=
  match providers with
  | [] => libreoffice_fallback input_path output_path unavailable
  | provider :: providers' =>
      result ← attempt (convert_with_provider input_path format output_path provider);
      match result with
      | Ok converter => mret converter
      | Err error =>
          if is_unavailable error
          then convert_loop input_path format output_path providers'
                 (unavailable ++ [OfficeConvertError_display error])
          else raise (with_unavailable_context error unavailable)
      end
  end.
(** [convert] of [windows.rs] *)
Definition windows_convert (input_path : string) (format : OfficeFormat) (output_path : string)
  : ConvM string :=
  convert_loop input_path format output_path [Microsoft; Wps] [].

(** ** The converter of the platform *)

Definition convert_with_current_backend (input_path : string) (format : OfficeFormat)
    (output_path : string) : ConvM string :=
  match cv_platform with
  | Windows => windows_convert input_path format output_path
  | _ => libreoffice_convert input_path output_path
  end.
(** [office_to_pdf]: the converter of the platform in an isolated directory. *)
Definition current_converter : Converter := λ input_path format output_path fs,
  let '(r, w) := convert_with_current_backend input_path format output_path
                   (mkConverterWorld fs []) in
  (r, cw_files w).
Definition office_to_pdf (input_path : string) (format : OfficeFormat) (output_path : string)
  : M Fs OfficeConvertError string :=
  office_to_pdf_with_converter input_path format output_path current_converter.

(** [OfficeCandidateStatus], [office_candidate_statuses] and
    [windows::candidate_statuses] *)
Record OfficeCandidateStatus := mkOfficeCandidateStatus { oc_name : string; oc_available : bool }.
Definition windows_candidate_statuses (format : OfficeFormat) : list OfficeCandidateStatus :=
  map (λ provider, mkOfficeCandidateStatus (converter_name provider format)
                     (is_com_registered (prog_id provider format))) [Microsoft; Wps] ++
  [mkOfficeCandidateStatus LIBREOFFICE (is_some find_libreoffice)].
Definition office_candidate_statuses (format : OfficeFormat) : list OfficeCandidateStatus :=
  match cv_platform with
  | Windows => windows_candidate_statuses format
  | _ => [mkOfficeCandidateStatus LIBREOFFICE (is_some find_libreoffice)]
  end.
End converters.

(** ** Properties *)

Section properties.
Context `{V : ConverterEnv}.
Implicit Types (w : ConverterWorld).

(** A process a conversion may start, with the files it finds: PowerShell with one
    of the two scripts, the paths passed in its environment, or LibreOffice on
    the staged input with a profile in the working directory that disables
    every macro. *)
Definition allowed_process (input : string) (format : OfficeFormat) (output : string)
    (p : ProcessCommand * gmap string string) : Prop :=
  (cv_platform = Windows ∧ ∃ provider,
     p.1 = windows_command input format output (instance_record_path input provider) provider ∨
     p.1 = build_cleanup_command (instance_record_path input provider)) ∨
  (∃ executable url work_dir output_dir,
     find_libreoffice = Some executable ∧ path_parent input = Some work_dir ∧
     path_parent output = Some output_dir ∧
     cv_directory_url (profile_dir_of work_dir) = Some url ∧
     p.1 = libreoffice_command executable url input output_dir ∧
     p.2 !! macro_config_path (profile_dir_of work_dir) = Some MACRO_SECURITY_CONFIG).

(** At most [n] processes were started, all allowed. *)
Definition starts (input : string) (format : OfficeFormat) (output : string) (n : nat)
    w w' : Prop :=
  ∃ new, cw_started w' = cw_started w ++ new ∧ (length new ≤ n)%nat ∧
    Forall (allowed_process input format output) new.

Lemma starts_none input format output w w' :
  cw_started w' = cw_started w → starts input format output 0 w w'.
Proof. intros H. exists []. by rewrite app_nil_r. Qed.
Lemma starts_trans input format output n m w1 w2 w3 :
  starts input format output n w1 w2 → starts input format output m w2 w3 →
  starts input format output (n + m) w1 w3.
Proof.
  intros (l1&H1&L1&F1) (l2&H2&L2&F2). exists (l1 ++ l2).
  rewrite H2, H1, app_assoc, length_app. split_and!; [done|lia|by apply Forall_app].
Qed.
Lemma starts_le input format output n m w w' :
  (n ≤ m)%nat → starts input format output n w w' → starts input format output m w w'.
Proof. intros Hle (l&H&L&F). exists l. split_and!; [done|lia|done]. Qed.

(** The command, and the clean-up when the time is over. *)
Lemma execute_starts input format output command converter timeout cleanup w :
  allowed_process input format output (command, fs_files (cw_files w)) →
  (∀ c files, cleanup = Some c → allowed_process input format output (c, files)) →
  starts input format output (if is_some cleanup then 2 else 1) w
    (execute_converter_command_opt command converter timeout cleanup w).2.
Proof.
  intros Hc Hk. unfold execute_converter_command_opt. rewrite M_bind_eq. unfold start_process at 1.
  destruct (cv_spawn command (cw_files w)) as [child fs]. cbn beta iota. rewrite lift_bind.
  set (w1 := mkConverterWorld fs _).
  assert (starts input format output 1 w w1) as H1 by (eexists; split_and!; [done..|by apply Forall_singleton]).
  assert (starts input format output (if is_some cleanup then 2 else 1) w w1) as H2
    by (eapply starts_le; [|exact H1]; by destruct cleanup; simpl; lia).
  destruct child as [child|e]; [|done]. destruct (_ <=? _).
  { rewrite !lift_bind. destruct (ch_status child); [|done].
    simpl. rewrite !lift_bind. destruct (ch_stdout child); [|done].
    simpl. rewrite !lift_bind. by destruct (ch_stderr child). }
  destruct cleanup as [c|]; [|done]. rewrite !M_bind_eq. unfold start_process.
  destruct (cv_spawn c (cw_files w1)) as [child' fs']. simpl.
  apply (starts_trans _ _ _ 1 1 _ w1); [done|]. eexists. split_and!; [done..|].
  apply Forall_singleton. by apply Hk.
Qed.

Lemma libreoffice_starts input format output w :
  starts input format output 1 w (libreoffice_convert input output w).2.
Proof.
  assert (∀ w', cw_started w' = cw_started w → starts input format output 1 w w') as H0.
  { intros w' H. eapply starts_le; [|by apply starts_none]. lia. }
  unfold libreoffice_convert. rewrite lift_bind.
  destruct find_libreoffice as [exe|] eqn:Hexe; [|by apply H0]. simpl. rewrite lift_bind.
  destruct (path_parent input) as [dir|] eqn:Hdir; [|by apply H0]. simpl. rewrite M_bind_eq.
  unfold on_conv_fs, zoom.
  assert (∀ fs', write_macro_security_profile (profile_dir_of dir) (cw_files w) = (Ok tt, fs') →
    fs_files fs' !! macro_config_path (profile_dir_of dir) = Some MACRO_SECURITY_CONFIG) as Hmac.
  { intros fs' H. apply M_bind_ok in H as (?&fs1&_&H). unfold mapping_err in H.
    destruct (fs_write _ _ fs1) as [[[]|e] fs2] eqn:Hw; [|done]. injection H as <-.
    by apply fs_write_ok in Hw. }
  destruct (write_macro_security_profile _ _) as [[[]|e] fs1]; [|by apply H0].
  specialize (Hmac _ eq_refl). rewrite lift_bind.
  destruct (cv_directory_url _) as [url|] eqn:Hurl; [|by apply H0]. simpl. rewrite lift_bind.
  destruct (path_parent output) as [out|] eqn:Hout; [|by apply H0]. simpl.
  set (w1 := mkConverterWorld fs1 (cw_started w)).
  assert (starts input format output 1 w1
    (execute_converter_command_opt (libreoffice_command exe url input out) LIBREOFFICE
       OFFICE_CONVERSION_TIMEOUT None w1).2) as H1.
  { apply (execute_starts _ _ _ _ _ _ None); [|done]. right. by exists exe, url, dir, out. }
  assert (∀ w', starts input format output 1 w1 w' → starts input format output 1 w w') as H2.
  { intros w' (l&?&?&?). by exists l. }
  rewrite M_bind_eq. unfold execute_converter_command.
  destruct (execute_converter_command_opt _ _ _ _ w1) as [[o|e] w2]; [|by apply H2].
  destruct (es_success _); by apply H2.
Qed.

Lemma provider_starts input format output provider w :
  cv_platform = Windows →
  starts input format output 2 w (convert_with_provider input format output provider w).2.
Proof.
  intros Hp. unfold convert_with_provider. rewrite M_bind_eq.
  set (command := windows_command _ _ _ _ _). set (cleanup := build_cleanup_command _).
  assert (starts input format output 2 w
    (execute_converter_command_opt command (converter_name provider format)
       OFFICE_CONVERSION_TIMEOUT (Some cleanup) w).2) as H1.
  { apply (execute_starts _ _ _ _ _ _ (Some cleanup)).
    - left. split; [done|]. exists provider. by left.
    - intros c files [= <-]. left. split; [done|]. exists provider. by right. }
  unfold execute_converter_command_with_timeout_cleanup.
  destruct (execute_converter_command_opt _ _ _ _ w) as [[o|e] w1]; [|done].
  destruct (negb _); [done|]. rewrite M_bind_eq. unfold on_conv_fs, zoom.
  destruct (validate_pdf _ _ _) as [[[]|e] fs]; done.
Qed.

(** What a conversion that succeeds leaves, when it checks its output. *)
Definition checked (output : string) (r : result OfficeConvertError string) w' : Prop :=
  match r with
  | Ok _ => ∃ content, fs_files (cw_files w') !! output = Some content ∧ valid_pdf content
  | Err e => is_unavailable e = false
  end.
Lemma validated {E} (f : OfficeConvertError → E) output converter w :
  let '(r, w') := mapping_err f (on_conv_fs (validate_pdf output converter)) w in
  cw_started w' = cw_started w ∧
  match r with
  | Ok _ => ∃ content, fs_files (cw_files w') !! output = Some content ∧ valid_pdf content
  | Err e => ∃ e', e = f e' ∧ is_unavailable e' = false
  end.
Proof.
  unfold mapping_err, on_conv_fs, zoom.
  destruct (validate_pdf_files output converter (cw_files w)) as (Hf&_&Hok).
  assert (∀ e, (validate_pdf output converter (cw_files w)).1 = Err e → is_unavailable e = false) as He.
  { intros e. unfold validate_pdf, mapping_err, raise, mbind, M_bind, mret, M_ret.
    destruct (fs_read output (cw_files w)) as [[m|?] fs1]; cbn; [|by intros [= <-]].
    destruct (str_len m <=? 5); cbn; [by intros [= <-]|].
    destruct (fs_read output fs1) as [[m'|?] fs2]; cbn; [|by intros [= <-]].
    destruct (fs_flush fs2) as [[[]|?] fs3]; cbn; [|by intros [= <-]].
    case_bool_decide; cbn; [done|by intros [= <-]]. }
  destruct (validate_pdf _ _ _) as [[[]|e] fs']; simpl in *; (split; [done|]).
  - rewrite Hf. by apply Hok.
  - exists e. split; [done|]. by apply He.
Qed.
Lemma context_unavailable e unavailable :
  is_unavailable e = false → is_unavailable (with_unavailable_context e unavailable) = false.
Proof. intros H. unfold with_unavailable_context. by case_bool_decide. Qed.

Lemma fallback_spec input format output unavailable w :
  let '(r, w') := libreoffice_fallback input output unavailable w in
  starts input format output 1 w w' ∧ checked output r w'.
Proof.
  unfold libreoffice_fallback. rewrite attempt_bind.
  pose proof (libreoffice_starts input format output w) as H.
  destruct (libreoffice_convert _ _ w) as [[c|e] w1]; simpl in H.
  - rewrite M_bind_eq.
    pose proof (validated (λ error, with_unavailable_context error unavailable) output c w1) as Hv.
    destruct (mapping_err _ _ w1) as [[[]|e] w2]; destruct Hv as [Hs Hv];
      (split; [destruct H as (l&?&?&?); exists l; by rewrite Hs|]); [done|].
    destruct Hv as (e'&->&He). by apply context_unavailable.
  - destruct (is_unavailable e) eqn:He; (split; [done|]); [done|]. by apply context_unavailable.
Qed.

(** On Windows a conversion tries Microsoft Office, WPS and LibreOffice in this
    order and goes on only while one is unavailable: at most five processes are
    started, each of them PowerShell with a fixed script that is handed the
    paths as variables, or LibreOffice with macros disabled in a profile of its
    own; success means that a checked PDF lies at the output path, and a failure
    is never the report that one single converter is unavailable.  A failure of
    Microsoft Office itself is reported as it is and nothing else is tried. *)
Theorem windows_convert_chain (input : string) (format : OfficeFormat) (output : string) w
    (Hp : cv_platform = Windows) :
  let '(r, w') := windows_convert input format output w in
  starts input format output 5 w w' ∧ checked output r w' ∧
  ∀ e, (convert_with_provider input format output Microsoft w).1 = Err e →
    is_unavailable e = false → r = Err e.
Proof.
  assert (∀ providers unavailable w1,
    let '(r, w') := convert_loop input format output providers unavailable w1 in
    starts input format output (2 * length providers + 1) w1 w' ∧ checked output r w') as Hloop.
  { induction providers as [|p providers IH]; intros unavailable w1; simpl.
    { apply fallback_spec. }
    rewrite attempt_bind. pose proof (provider_starts input format output p w1 Hp) as H1.
    destruct (convert_with_provider input format output p w1) as [[c|e] w2] eqn:Hc; simpl in H1.
    - split; [eapply starts_le; [|exact H1]; lia|].
      unfold convert_with_provider in Hc. apply M_bind_ok in Hc as (o&w3&_&Hc).
      destruct (negb _); [done|]. apply M_bind_ok in Hc as ([]&w4&Hv&[= <- <-]).
      pose proof (validated id output (converter_name p format) w3) as Hval.
      unfold mapping_err in Hval. rewrite Hv in Hval. by destruct Hval.
    - destruct (is_unavailable e) eqn:He.
      + specialize (IH (unavailable ++ [OfficeConvertError_display e]) w2).
        destruct (convert_loop _ _ _ _ _ w2) as [r w3]. destruct IH as [H2 ?].
        split; [|done]. eapply starts_le; [|eapply starts_trans; [exact H1|exact H2]]. lia.
      + split; [eapply starts_le; [|exact H1]; lia|]. by apply context_unavailable. }
  specialize (Hloop [Microsoft; Wps] [] w). unfold windows_convert.
  destruct (convert_loop _ _ _ _ _ w) as [r w'] eqn:Hr. destruct Hloop as [H1 H2].
  split_and!; [done..|]. intros e. simpl in Hr. rewrite attempt_bind in Hr.
  destruct (convert_with_provider input format output Microsoft w) as [[c|e'] w1]; [done|].
  intros [= ->] He. rewrite He in Hr. by injection Hr as <- _.
Qed.
End properties.

(** ** Witness *)

(** A Windows machine without Microsoft Office and with WPS, which writes a PDF. *)
Definition toy_converters : ConverterEnv := {|
  cv_spawn command fs :=
    if bool_decide (("PRINTBRIDGE_OFFICE_PROVIDER", "wps") ∈ pc_envs command)
    then (Ok (mkChildRun 3 (Ok (mkExitStatus true (Some 0) "exit code: 0")) (Ok "") (Ok "")),
          (fs_write "t/in.pdf" "%PDF-1.7 wps" fs).2)
    else (Ok (mkChildRun 1 (Ok (mkExitStatus false (Some 2) "exit code: 2")) (Ok "")
            (Ok "PRINTBRIDGE_CONVERTER_UNAVAILABLE:COM activation failed")), fs);
  cv_output _ := None;
  cv_platform := Windows;
  cv_var _ := None;
  cv_executable _ := false;
  cv_directory_url _ := None;
  POWERSHELL_SCRIPT := "convert";
  TIMEOUT_CLEANUP_SCRIPT := "cleanup"
|}.

Lemma windows_convert_chain_witness :
  let '(r, w') := windows_convert (V := toy_converters) "t/in.office-work/in.docx" ODocx "t/in.pdf"
                    (mkConverterWorld toy_office_fs []) in
  r = Ok "WPS Writer" ∧ length (cw_started w') = 2%nat ∧
  (let '(r, w') := windows_convert (V := toy_converters) "t/in.office-work/in.docx" ODocx "t/in.pdf"
                     (mkConverterWorld toy_office_fs []) in
   starts (V := toy_converters) "t/in.office-work/in.docx" ODocx "t/in.pdf" 5
     (mkConverterWorld toy_office_fs []) w' ∧ checked "t/in.pdf" r w' ∧
   ∀ e, (convert_with_provider (V := toy_converters) "t/in.office-work/in.docx" ODocx "t/in.pdf"
           Microsoft (mkConverterWorld toy_office_fs [])).1 = Err e →
     is_unavailable e = false → r = Err e).
Proof.
  split; [vm_compute; reflexivity|split; [vm_compute; reflexivity|]].
  apply (windows_convert_chain (V := toy_converters) "t/in.office-work/in.docx" ODocx "t/in.pdf").
  reflexivity.
Defined.
