(* ===== verification/OfficeScripts.v ===== *)
(** * The PowerShell scripts of the Windows converter ([crates/runtime/src/office/windows.rs])

    [POWERSHELL_SCRIPT], which converts a document through the COM automation of
    Microsoft Office or WPS, and [TIMEOUT_CLEANUP_SCRIPT], which stops the instance a
    conversion that timed out has left.  What the scripts must guarantee is that the
    documents the user has open are never touched: [script_touches_only_its_own] and
    [cleanup_stops_only_its_own].

    A script runs while other programs start and end processes; any of its calls may
    throw, and it may be killed before any of them.  The COM objects and the processes
    are the operating system's. *)

From S2P Require Import Prelude RustStr Externs Toy FileSys Protocol IpWhitelist Config Document Office.
From S2P Require Import Converters.
Open Scope string_scope.
Open Scope N_scope.
Open Scope list_scope.

(** ** Windows, as the scripts see it *)

(** A process: the ticks it started at and its name. *)
Record WinProcess := mkWinProcess { wp_start : N; wp_name : string }.
#[export] Instance WinProcess_eq_dec : EqDecision WinProcess.
Proof. solve_decision. Defined.
Abbreviation Processes := (gmap N WinProcess).
(** An automation object: the process that serves it. *)
Record ComApp := mkComApp { ca_pid : N; ca_process : WinProcess }.

(** The arguments of COM calls. *)
Inductive PsValue := PsString (s : string) | PsInt (n : N) | PsBool (b : bool).

(** What the scripts do to other programs; for the record, the processes there were when
    they listed them. *)
Inductive OfficeAction :=
  | Listed (processes : Processes)
  | Activated (prog_id : string) (app : ComApp)
  | ComSet (app : ComApp) (property : string) (value : PsValue)
  | ComCall (app : ComApp) (method : string) (args : list PsValue)
  | Released (app : ComApp)
  | Stopped (pid : N) (process : WinProcess).

(** The instance record. *)
Record InstanceRecord := mkInstanceRecord {
  ir_nonce : string; ir_pid : N; ir_start_time_utc : N; ir_process_name : string; ir_script_pid : N
}.

(** The processes, the files, what was done, the errors printed, the variables [$app],
    [$document] and [$ownsApp], and how many calls were made. *)
Record OfficeWorld := mkOfficeWorld {
  ow_processes : Processes;
  ow_files : gmap string string;
  ow_actions : list OfficeAction;
  ow_stderr : list string;
  ow_app : option ComApp;
  ow_document : bool;
  ow_owns : bool;
  ow_calls : nat
}.
Definition with_processes (ps : Processes) (w : OfficeWorld) : OfficeWorld :=
  mkOfficeWorld ps (ow_files w) (ow_actions w) (ow_stderr w) (ow_app w) (ow_document w) (ow_owns w) (ow_calls w).
Definition with_files (f : gmap string string → gmap string string) (w : OfficeWorld) : OfficeWorld :=
  mkOfficeWorld (ow_processes w) (f (ow_files w)) (ow_actions w) (ow_stderr w) (ow_app w) (ow_document w)
    (ow_owns w) (ow_calls w).
Definition did (a : OfficeAction) (w : OfficeWorld) : OfficeWorld :=
  mkOfficeWorld (ow_processes w) (ow_files w) (ow_actions w ++ [a]) (ow_stderr w) (ow_app w)
    (ow_document w) (ow_owns w) (ow_calls w).
Definition with_stderr (line : string) (w : OfficeWorld) : OfficeWorld :=
  mkOfficeWorld (ow_processes w) (ow_files w) (ow_actions w) (ow_stderr w ++ [line]) (ow_app w)
    (ow_document w) (ow_owns w) (ow_calls w).
Definition with_app (app : ComApp) (w : OfficeWorld) : OfficeWorld :=
  mkOfficeWorld (ow_processes w) (ow_files w) (ow_actions w) (ow_stderr w) (Some app) (ow_document w)
    (ow_owns w) (ow_calls w).
Definition with_document (w : OfficeWorld) : OfficeWorld :=
  mkOfficeWorld (ow_processes w) (ow_files w) (ow_actions w) (ow_stderr w) (ow_app w) true (ow_owns w)
    (ow_calls w).
Definition with_owns (w : OfficeWorld) : OfficeWorld :=
  mkOfficeWorld (ow_processes w) (ow_files w) (ow_actions w) (ow_stderr w) (ow_app w) (ow_document w) true
    (ow_calls w).

(** The environment of the scripts: what other programs do to the processes before the
    [n]-th call, whether the script is killed before it or the call throws; the process
    that serves a new automation object, and whether its window tells; whose start time
    may be read; and the values of the record. *)
Class OfficeEnv := {
  oe_others : nat → Processes → Processes;
  oe_killed : nat → bool;
  oe_throws : nat → option string;
  oe_activate : nat → string → Processes → ComApp;
  oe_has_window : nat → bool;
  oe_readable : N → N → bool;
  oe_nonce : nat → string;
  oe_script_pid : N
}.

(** How a script ends before its end: an exception, [exit], or killed. *)
Inductive ScriptEnd := Threw (message : string) | ExitWith (code : N) | Killed.
Abbreviation Script := (M OfficeWorld ScriptEnd).

(** [try { m } catch { h }]: [exit] and being killed are not caught. *)
Definition try_catch {A} (m : Script A) (h : string → Script A) : Script A := λ w,
  match m w with (Err (Threw message), w') => h message w' | r => r end.
(** [try { m } finally { f }]: [f] runs unless the script is killed. *)
Definition finally {A} (m : Script A) (f : Script unit) : Script A := λ w,
  match m w with
  | (Err Killed, w') => (Err Killed, w')
  | (r, w') => match f w' with (Ok _, w'') => (r, w'') | (Err e, w'') => (Err e, w'') end
  end.
(** [if ([string]::IsNullOrWhiteSpace($s))] *)
Definition is_blank (s : string) : bool := is_empty (trim s).

(** A [switch] over strings, which ignores case. *)
Definition ps_switch {A} (key : string) (cases : list (string * A)) : option A :=
  snd <$> iter_find (λ c, eq_ignore_ascii_case (fst c) key) cases.
Definition ps_converter (key : string) : option string :=
  ps_switch key
    [("microsoft/docx", "Microsoft Word"); ("microsoft/xlsx", "Microsoft Excel");
     ("microsoft/pptx", "Microsoft PowerPoint"); ("wps/docx", "WPS Writer");
     ("wps/xlsx", "WPS Spreadsheets"); ("wps/pptx", "WPS Presentation")].
Definition ps_prog_id (key : string) : option string :=
  ps_switch key
    [("microsoft/docx", "Word.Application"); ("microsoft/xlsx", "Excel.Application");
     ("microsoft/pptx", "PowerPoint.Application"); ("wps/docx", "KWPS.Application");
     ("wps/xlsx", "KET.Application"); ("wps/pptx", "KWPP.Application")].

(** The properties set before a document is opened, and the calls that open and export
    it; [format] is one of the three names. *)
Definition security_settings (format : string) : list (string * PsValue) :=
  ("AutomationSecurity", PsInt 3) ::
  default [] (ps_switch format
    [("docx", [("Visible", PsBool false); ("DisplayAlerts", PsInt 0);
               ("Options.UpdateLinksAtOpen", PsBool false)]);
     ("xlsx", [("Visible", PsBool false); ("DisplayAlerts", PsBool false);
               ("AskToUpdateLinks", PsBool false)]);
     ("pptx", [("DisplayAlerts", PsInt 1)])]).
Definition open_call (format input : string) : option (string * list PsValue) :=
  ps_switch format
    [("docx", ("Documents.Open", [PsString input; PsBool false; PsBool true; PsBool false]));
     ("xlsx", ("Workbooks.Open", [PsString input; PsInt 0; PsBool true]));
     ("pptx", ("Presentations.Open", [PsString input; PsBool true; PsBool false; PsBool false]))].
Definition export_call (format output : string) : option (string * list PsValue) :=
  ps_switch format
    [("docx", ("ExportAsFixedFormat", [PsString output; PsInt 17; PsBool false]));
     ("xlsx", ("ExportAsFixedFormat", [PsInt 0; PsString output; PsInt 0; PsBool true; PsBool false]));
     ("pptx", ("SaveAs", [PsString output; PsInt 32]))].
Definition close_call (format : string) : string * list PsValue :=
  ("Close", if eq_ignore_ascii_case format "pptx" then [] else [PsBool false]).

Section scripts.
Context `{OE : OfficeEnv, RJ : !JsonCodec InstanceRecord}.

(** The next call: others have been at work; its index. *)
Definition ps_call : Script nat := λ w,
  let n := ow_calls w in
  let w' := mkOfficeWorld (oe_others n (ow_processes w)) (ow_files w) (ow_actions w) (ow_stderr w)
              (ow_app w) (ow_document w) (ow_owns w) (S n) in
  if oe_killed n then (Err Killed, w)
  else match oe_throws n with Some message => (Err (Threw message), w') | None => (Ok n, w') end.
Definition throw {A} (message : string) : Script A := raise (Threw message).
Definition exit_with {A} (code : N) : Script A := raise (ExitWith code).
(** [[Console]::Error.WriteLine] *)
Definition error_line (line : string) : Script unit := modify (with_stderr line).

(** A property or a method of an automation object, which throws when its process is
    gone. *)
Definition com_action (app : ComApp) (a : OfficeAction) : Script unit :=
  _ ← ps_call;
  ps ← gets ow_processes;
  if bool_decide (ps !! ca_pid app = Some (ca_process app)) then modify (did a)
  else throw "The RPC server is unavailable.".
Definition com_set (app : ComApp) (setting : string * PsValue) : Script unit :=
  com_action app (ComSet app setting.1 setting.2).
Definition com_call (app : ComApp) (call : string * list PsValue) : Script unit :=
  com_action app (ComCall app call.1 call.2).
Fixpoint set_all (app : ComApp) (settings : list (string * PsValue)) : Script unit :=
  match settings with
  | [] => mret tt
  | setting :: settings => _ ← com_set app setting; set_all app settings
  end.

(** ** [POWERSHELL_SCRIPT] *)

(** [$existingInstances]: the processes whose start time may be read. *)
Definition list_instances : Script Processes :=
  _ ← ps_call;
  ps ← gets ow_processes;
  _ ← modify (did (Listed ps));
  mret (filter (λ '(pid, p), oe_readable pid (wp_start p) = true) ps).
(** [New-Object -ComObject $progId] *)
Definition activate (prog_id : string) : Script ComApp :=
  n ← ps_call;
  app ← gets (λ w, oe_activate n prog_id (ow_processes w));
  _ ← modify (λ w, with_processes (<[ca_pid app := ca_process app]> (ow_processes w))
                     (with_app app (did (Activated prog_id app) w)));
  mret app.
(** [GetWindowThreadProcessId] of the window: 0 when there is none. *)
Definition window_process_id (app : ComApp) : Script N :=
  n ← ps_call;
  ps ← gets ow_processes;
  mret (if oe_has_window n && bool_decide (ps !! ca_pid app = Some (ca_process app)) then ca_pid app else 0).
(** [Get-Process -Id] *)
Definition get_process (pid : N) : Script WinProcess :=
  _ ← ps_call;
  ps ← gets ow_processes;
  match ps !! pid with Some p => mret p | None => throw "Cannot find a process with the process identifier." end.

(** Proving that the application is a process of its own, and recording it. *)
Definition take_ownership (record_path : string) (existing : Processes) (app : ComApp) : Script unit :=
  pid ← window_process_id app;
  if pid =? 0 then throw "could not determine process id from application window"
  else
    p ← get_process pid;
    if negb (oe_readable pid (wp_start p)) then throw "Exception getting StartTime: Access is denied"
    else if bool_decide (wp_start <$> existing !! pid = Some (wp_start p))
    then throw "application reused an existing user instance"
    else
      n ← ps_call;
      let record := mkInstanceRecord (oe_nonce n) pid (wp_start p) (wp_name p) oe_script_pid in
      let temporary_record := record_path +:+ ".tmp" in
      _ ← modify (with_files (insert temporary_record (to_json record)));
      _ ← ps_call;
      _ ← modify (with_files (λ files, insert record_path (to_json record) (delete temporary_record files)));
      modify with_owns.

Definition unavailable (reason : string) : Script unit :=
  _ ← error_line (UNAVAILABLE_MARKER +:+ reason);
  exit_with 2.
(** The first part of the outer [try]: the application, made safe. *)
Definition acquire (prog_id format record_path : string) : Script ComApp :=
  _ ← (if is_blank record_path then throw "office instance record path is required" else mret tt);
  existing ← list_instances;
  app ← try_catch (activate prog_id)
          (λ _, _ ← unavailable "COM activation failed"; exit_with 2);
  _ ← try_catch (take_ownership record_path existing app)
        (λ _, unavailable "cannot prove ownership of a new process");
  _ ← try_catch (set_all app (security_settings format))
        (λ _, unavailable "required automation security controls unavailable");
  mret app.
(** The second part: the conversion. *)
Definition export (format input output : string) (app : ComApp) : Script unit :=
  match open_call format input, export_call format output with
  | Some opening, Some exporting =>
      _ ← com_call app opening;
      _ ← modify with_document;
      com_call app exporting
  | _, _ => mret tt
  end.
(** One line of the [finally], in its own [try ... catch {}]. *)
Definition quietly (m : Script unit) : Script unit := try_catch m (λ _, mret tt).
Definition close_all (format : string) : Script unit :=
  app ← gets ow_app;
  match app with
  | None => mret tt
  | Some app =>
      owns ← gets ow_owns;
      document ← gets ow_document;
      _ ← quietly (when (owns && document) (com_call app (close_call format)));
      _ ← quietly (when owns (com_call app ("Quit", [])));
      _ ← quietly (when document (_ ← ps_call; modify (did (Released app))));
      quietly (_ ← ps_call; modify (did (Released app)))
  end.

Definition conversion_script (format provider input output record_path : string) : Script unit :=
  let key := provider +:+ "/" +:+ format in
  _ ← lift (ok_or (Threw ("unsupported office provider or format: " +:+ key)) (ps_converter key));
  prog_id ← lift (ok_or (Threw "") (ps_prog_id key));
  (* Add-Type *)
  _ ← ps_call;
  finally
    (try_catch (app ← acquire prog_id format record_path; export format input output app)
       (λ message, _ ← error_line message; exit_with 1))
    (close_all format).

(** ** [TIMEOUT_CLEANUP_SCRIPT] *)

Definition i32_max : N := 2147483647.
Definition cleanup_script (record_path : string) : Script unit :=
  quietly
    (if is_blank record_path then exit_with 0
     else
       _ ← ps_call;
       content ← gets (λ w, ow_files w !! record_path);
       match content with
       | None => exit_with 0
       | Some _ =>
           _ ← ps_call;
           content ← gets (λ w, ow_files w !! record_path);
           content ← lift (ok_or (Threw "Cannot find path") content);
           record ← lift (map_err Threw (from_json content));
           if (i32_max <? ir_pid record) || (i64_max <? ir_start_time_utc record)
           then throw "Value was either too large or too small"
           else if (ir_pid record =? 0) || (ir_start_time_utc record =? 0) || is_blank (ir_process_name record)
           then exit_with 0
           else
             p ← get_process (ir_pid record);
             if eq_ignore_ascii_case (wp_name p) (ir_process_name record) then
               if negb (oe_readable (ir_pid record) (wp_start p))
               then throw "Exception getting StartTime: Access is denied"
               else if wp_start p =? ir_start_time_utc record then
                 (* Stop-Process *)
                 _ ← ps_call;
                 ps ← gets ow_processes;
                 match ps !! ir_pid record with
                 | Some q => modify (λ w, did (Stopped (ir_pid record) q)
                                            (with_processes (delete (ir_pid record) (ow_processes w)) w))
                 | None => throw "Cannot find a process with the process identifier."
                 end
               else mret tt
             else mret tt
       end).
End scripts.

(** ** What holds between the calls of a script *)

Section logic.
Context `{OE : OfficeEnv, RJ : !JsonCodec InstanceRecord}.

(** From [P], a script returns in [Q] or ends early in [E]. *)
Definition triple {A} (P : OfficeWorld → Prop) (m : Script A) (Q : A → OfficeWorld → Prop)
    (E : ScriptEnd → OfficeWorld → Prop) : Prop :=
  ∀ w, P w → match m w with (Ok a, w') => Q a w' | (Err e, w') => E e w' end.

Lemma triple_conseq {A} (P P' : OfficeWorld → Prop) (m : Script A) (Q Q' : A → OfficeWorld → Prop)
    (E E' : ScriptEnd → OfficeWorld → Prop) :
  triple P m Q E → (∀ w, P' w → P w) → (∀ a w, Q a w → Q' a w) → (∀ e w, E e w → E' e w) →
  triple P' m Q' E'.
Proof. intros H HP HQ HE w Hw. specialize (H w (HP w Hw)). destruct (m w) as [[a|e] w']; auto. Qed.
Lemma triple_ret {A} (a : A) (P : OfficeWorld → Prop) Q E : (∀ w, P w → Q a w) → triple P (mret a) Q E.
Proof. intros H w Hw. by apply H. Qed.
Lemma triple_raise {A} e (P : OfficeWorld → Prop) (Q : A → OfficeWorld → Prop) E :
  (∀ w, P w → E e w) → triple P (raise e) Q E.
Proof. intros H w Hw. by apply H. Qed.
Lemma triple_bind {A B} P (m : Script A) Q (k : A → Script B) R E :
  triple P m Q E → (∀ a, triple (Q a) (k a) R E) → triple P (m ≫= k) R E.
Proof.
  intros Hm Hk w Hw. rewrite M_bind_eq. specialize (Hm w Hw).
  destruct (m w) as [[a|e] w']; [by apply Hk|done].
Qed.
Lemma triple_modify (f : OfficeWorld → OfficeWorld) P Q E :
  (∀ w, P w → Q tt (f w)) → triple P (modify f) Q E.
Proof. intros H w Hw. by apply H. Qed.
Lemma triple_gets {A} (f : OfficeWorld → A) P Q E : (∀ w, P w → Q (f w) w) → triple P (gets f) Q E.
Proof. intros H w Hw. by apply H. Qed.
Lemma triple_lift {A B} (r : result ScriptEnd A) P (k : A → Script B) Q (E : ScriptEnd → OfficeWorld → Prop) :
  (∀ a, r = Ok a → triple P (k a) Q E) → (∀ e w, P w → E e w) → triple P (lift r ≫= k) Q E.
Proof. intros Hk He w Hw. rewrite lift_bind. destruct r as [a|e]; [by apply Hk|by apply He]. Qed.
Lemma triple_catch {A} P (m : Script A) h Q (E E' : ScriptEnd → OfficeWorld → Prop) :
  triple P m Q E → (∀ message, triple (E (Threw message)) (h message) Q E') →
  (∀ e w, E e w → (∀ message, e ≠ Threw message) → E' e w) → triple P (try_catch m h) Q E'.
Proof.
  intros Hm Hh HE w Hw. unfold try_catch. specialize (Hm w Hw).
  destruct (m w) as [[a|[message|code|]] w']; [done|by apply Hh|by apply HE|by apply HE].
Qed.
Lemma triple_ex {A B} (P : B → OfficeWorld → Prop) (m : Script A) Q E :
  (∀ b, triple (P b) m Q E) → triple (λ w, ∃ b, P b w) m Q E.
Proof. intros H w [b Hb]. by apply (H b). Qed.
Lemma triple_pure {A} (φ : Prop) (P : OfficeWorld → Prop) (m : Script A) Q E :
  (φ → triple P m Q E) → triple (λ w, φ ∧ P w) m Q E.
Proof. intros H w [Hφ Hw]. by apply (H Hφ). Qed.

(** Conditions the other programs cannot break: they say nothing of the processes. *)
Definition stable (P : OfficeWorld → Prop) : Prop :=
  ∀ w ps n, P w → P (mkOfficeWorld ps (ow_files w) (ow_actions w) (ow_stderr w) (ow_app w)
    (ow_document w) (ow_owns w) n).
(** A call that does not come back: it threw, or the script was killed. *)
Definition broken (P : OfficeWorld → Prop) (e : ScriptEnd) (w : OfficeWorld) : Prop :=
  P w ∧ ∀ code, e ≠ ExitWith code.
Lemma triple_call P : stable P → triple P ps_call (λ _, P) (broken P).
Proof.
  intros HP w Hw. unfold ps_call. destruct (oe_killed _); [by split|].
  destruct (oe_throws _); [split; [by apply HP|done]|by apply HP].
Qed.

(** What is done quietly is done or not. *)
Lemma triple_quietly P P' (m : Script unit) (E : ScriptEnd → OfficeWorld → Prop) :
  triple P m (λ _, P') (broken P') → (∀ w, P' w → E Killed w) → triple P (quietly m) (λ _, P') E.
Proof.
  intros Hm HE w Hw. unfold quietly, try_catch. specialize (Hm w Hw).
  destruct (m w) as [[[]|[message|code|]] w']; [done|by destruct Hm|destruct Hm as [_ H]; by destruct (H code)|].
  apply HE. by destruct Hm.
Qed.
Lemma get_process_triple P pid q :
  (∀ n (ps : Processes) pid p q, ps !! pid = Some p → oe_others n ps !! pid = Some q → q = p) →
  stable P →
  triple (λ w, P w ∧ ow_processes w !! pid = Some q) (get_process pid) (λ p w, p = q ∧ P w) (broken P).
Proof.
  intros Hr HP w [Hw Hq]. unfold get_process. rewrite M_bind_eq. unfold ps_call.
  destruct (oe_killed _); [by split|].
  destruct (oe_throws _); [split; [by apply HP|done]|]. rewrite gets_bind. cbn [ow_processes].
  destruct (oe_others (ow_calls w) (ow_processes w) !! pid) as [p|] eqn:Hp.
  - split; [by eapply Hr|by apply HP].
  - split; [by apply HP|done].
Qed.
End logic.
Ltac t_bind tac := eapply triple_bind; [tac|intros ?; cbv beta].

(** ** The story of a conversion *)

Section story.
Context `{OE : OfficeEnv, RJ : !JsonCodec InstanceRecord}.
Context (format input output record_path prog_id : string).

(** No process number is given again between two calls of a script. *)
Definition no_reuse : Prop :=
  ∀ n (ps : Processes) pid p q, ps !! pid = Some p → oe_others n ps !! pid = Some q → q = p.

(** The process of the application was not there when the script looked. *)
Definition ours (ps : Processes) (app : ComApp) : Prop :=
  ∀ q, ps !! ca_pid app = Some q → wp_start q ≠ wp_start (ca_process app).
(** All a conversion does, in order, but for the closing. *)
Definition full_trace (ps : Processes) (app : ComApp) : list OfficeAction :=
  [Listed ps; Activated prog_id app] ++
  map (λ setting, ComSet app setting.1 setting.2) (security_settings format) ++
  match open_call format input, export_call format output with
  | Some opening, Some exporting => [ComCall app opening.1 opening.2; ComCall app exporting.1 exporting.2]
  | _, _ => []
  end.
(** What the closing does, at most. *)
Definition closing_trace (app : ComApp) : list OfficeAction :=
  [ComCall app (close_call format).1 (close_call format).2; ComCall app "Quit" [];
   Released app; Released app].
Definition touches (a : OfficeAction) : bool :=
  match a with ComSet _ _ _ | ComCall _ _ _ | Stopped _ _ => true | _ => false end.

(** The record, if there is one, names the process behind the automation object this
    conversion made, and the process is ours. *)
Definition record_ours (ps : Processes) (app : ComApp) (w : OfficeWorld) : Prop :=
  ow_files w !! record_path = None ∨
  Listed ps ∈ ow_actions w ∧ Activated prog_id app ∈ ow_actions w ∧ ours ps app ∧
  ∃ r, ow_files w !! record_path = Some (to_json r) ∧ ir_pid r = ca_pid app ∧
    ir_start_time_utc r = wp_start (ca_process app) ∧ ir_process_name r = wp_name (ca_process app).

(** Between two calls: [k] actions of the trace are done. *)
Record at_point (ps : Processes) (app : ComApp) (k : nat) (owns : bool) (w : OfficeWorld) : Prop := {
  ap_actions : ow_actions w = take k (full_trace ps app);
  ap_app : ow_app w = if bool_decide (k < 2)%nat then None else Some app;
  ap_owns : ow_owns w = owns;
  ap_ours : owns = true → ours ps app ∧ (2 ≤ k)%nat;
  ap_record : record_ours ps app w;
  ap_document : ow_document w = true → (2 + length (security_settings format) < k)%nat;
  ap_stderr : ow_stderr w = []
}.
Lemma record_did ps app a w : record_ours ps app w → record_ours ps app (did a w).
Proof.
  intros [H|(H1&H2&?&?)]; [by left|right].
  split_and!; [apply elem_of_app; by left..|done|done].
Qed.
Lemma at_point_stable ps app k owns : stable (at_point ps app k owns).
Proof. intros w ps' n []. by split. Qed.

Lemma com_action_triple app a (P : OfficeWorld → Prop) :
  stable P → triple P (com_action app a) (λ _ w, ∃ w0, P w0 ∧ w = did a w0) (broken P).
Proof.
  intros HP. unfold com_action. t_bind ltac:(by apply triple_call).
  t_bind ltac:(by apply (triple_gets _ _ (λ _, P))).
  case_bool_decide; [apply triple_modify; by eauto|by apply triple_raise].
Qed.

Lemma full_trace_settings ps app i setting :
  security_settings format !! i = Some setting →
  full_trace ps app !! (2 + i)%nat = Some (ComSet app setting.1 setting.2).
Proof.
  intros Hi. unfold full_trace. change (2 + i)%nat with (length [Listed ps; Activated prog_id app] + i)%nat.
  rewrite lookup_app_r, Nat.add_comm, Nat.add_sub by lia. rewrite lookup_app_l.
  - by rewrite list_lookup_fmap, Hi.
  - rewrite length_map. by eapply lookup_lt_Some.
Qed.

(** The next action of the trace, on the application that is owned. *)
Lemma at_point_next ps app k a w :
  full_trace ps app !! k = Some a → (2 ≤ k)%nat →
  at_point ps app k true w → at_point ps app (S k) true (did a w).
Proof.
  intros Ha Hk [H1 H2 H3 H4 H5 H6 H7]. split; cbn [did ow_actions ow_app ow_document]; try done.
  - by rewrite (take_S_r _ _ _ Ha), H1.
  - rewrite H2. by rewrite !bool_decide_eq_false_2 by lia.
  - intros _. destruct (H4 eq_refl). split; [done|lia].
  - by apply record_did.
  - intros Hd. specialize (H6 Hd). lia.
Qed.
Lemma com_action_next ps app k a :
  full_trace ps app !! k = Some a → (2 ≤ k)%nat →
  triple (at_point ps app k true) (com_action app a) (λ _, at_point ps app (S k) true)
    (broken (at_point ps app k true)).
Proof.
  intros Ha Hk. eapply triple_conseq; [apply com_action_triple, at_point_stable|done| |done].
  intros _ w (w0&H&->). by apply at_point_next.
Qed.
Abbreviation settled := (2 + length (security_settings format))%nat.
Definition while_setting (ps : Processes) (app : ComApp) (e : ScriptEnd) (w : OfficeWorld) : Prop :=
  ∃ k, (k ≤ settled)%nat ∧ broken (at_point ps app k true) e w.
Lemma set_all_triple ps app pre rest :
  security_settings format = pre ++ rest →
  triple (at_point ps app (2 + length pre) true) (set_all app rest)
    (λ _, at_point ps app settled true) (while_setting ps app).
Proof.
  revert pre. induction rest as [|setting rest IH]; intros pre Hs.
  - apply triple_ret. by rewrite Hs, app_nil_r.
  - cbn [set_all]. eapply triple_bind.
    + eapply triple_conseq; [apply (com_action_next ps app (2 + length pre))|done|done|].
      * apply full_trace_settings. by rewrite Hs, list_lookup_middle.
      * lia.
      * intros e w H. exists (2 + length pre)%nat. split; [rewrite Hs, length_app; lia|done].
    + intros ?. cbv beta. specialize (IH (pre ++ [setting])). rewrite length_app in IH.
      replace (S (2 + length pre)) with (2 + (length pre + length [setting]))%nat by (simpl; lia).
      apply IH. by rewrite <-app_assoc.
Qed.

(** ** Acquiring *)

Hypothesis Hreuse : no_reuse.

(** Nothing done yet, and only the listing done. *)
Definition quiet_world (actions : list OfficeAction) (w : OfficeWorld) : Prop :=
  ow_actions w = actions ∧ ow_app w = None ∧ ow_owns w = false ∧ ow_document w = false ∧
  ow_stderr w = [] ∧ ow_files w !! record_path = None.
Lemma quiet_stable actions : stable (quiet_world actions).
Proof. by intros w ps n. Qed.
Lemma quiet_at_point ps app k w :
  (k < 2)%nat → quiet_world (take k (full_trace ps app)) w → at_point ps app k false w.
Proof.
  intros Hk (?&?&?&Hd&?&?). split; try done; [by rewrite bool_decide_eq_true_2|by left|by rewrite Hd].
Qed.

Lemma list_instances_triple :
  triple (quiet_world []) list_instances
    (λ existing w, ∃ ps, existing = filter (λ '(pid, p), oe_readable pid (wp_start p) = true) ps ∧
       quiet_world [Listed ps] w) (broken (quiet_world [])).
Proof.
  unfold list_instances. t_bind ltac:(by apply triple_call, quiet_stable).
  t_bind ltac:(by apply (triple_gets _ _ (λ _, quiet_world []))).
  eapply triple_bind; [apply (triple_modify _ _ (λ _, quiet_world [Listed a0]))|].
  - intros w (Ha&?). split; [|done]. cbn. by rewrite Ha.
  - intros ?. apply triple_ret. intros w Hw. by exists a0.
Qed.
Lemma activate_triple ps :
  triple (quiet_world [Listed ps]) (activate prog_id) (λ app, at_point ps app 2 false)
    (broken (quiet_world [Listed ps])).
Proof.
  unfold activate. t_bind ltac:(by apply triple_call, quiet_stable).
  t_bind ltac:(by apply (triple_gets _ _ (λ _, quiet_world [Listed ps]))).
  eapply triple_bind; [apply (triple_modify _ _ (λ _, at_point ps a0 2 false))|by intros ?; apply triple_ret].
  intros w (Ha&_&Ho&Hd&Hs&Hf). split; cbn [with_processes with_app did ow_actions ow_app ow_owns ow_document
    ow_stderr]; try done; [by rewrite Ha|by left|by rewrite Hd].
Qed.

Lemma window_triple ps app :
  triple (at_point ps app 2 false) (window_process_id app)
    (λ pid w, (pid ≠ 0 → pid = ca_pid app ∧ ow_processes w !! pid = Some (ca_process app)) ∧
       at_point ps app 2 false w) (broken (at_point ps app 2 false)).
Proof.
  unfold window_process_id. t_bind ltac:(by apply triple_call, at_point_stable).
  eapply triple_bind; [apply (triple_gets _ _ (λ qs w, qs = ow_processes w ∧ at_point ps app 2 false w));
    by split|].
  intros qs. apply triple_ret. intros w [-> Hw]. split; [|done].
  destruct (oe_has_window a && _) eqn:Hc; [|done]. apply andb_true_iff in Hc as [_ Hc%bool_decide_eq_true].
  by intros _.
Qed.
Lemma tmp_other : record_path +:+ ".tmp" ≠ record_path.
Proof. clear. induction record_path as [|c s IH]; [done|]. intros H. injection H. exact IH. Qed.

(** An application that is not among the readable processes, and readable, is ours. *)
Lemma unlisted_ours ps app :
  oe_readable (ca_pid app) (wp_start (ca_process app)) = true →
  wp_start <$> filter (λ '(pid, p), oe_readable pid (wp_start p) = true) ps !! ca_pid app ≠
    Some (wp_start (ca_process app)) →
  ours ps app.
Proof.
  intros Hr Hn q Hq He. apply Hn. rewrite (proj2 (map_lookup_filter_Some _ ps (ca_pid app) q)).
  - cbn. by rewrite He.
  - split; [done|]. by rewrite He.
Qed.
Lemma take_ownership_triple ps app :
  triple (at_point ps app 2 false)
    (take_ownership record_path (filter (λ '(pid, p), oe_readable pid (wp_start p) = true) ps) app)
    (λ _, at_point ps app 2 true) (broken (at_point ps app 2 false)).
Proof.
  unfold take_ownership. eapply triple_bind; [apply window_triple|intros pid].
  destruct (N.eqb_spec pid 0) as [->|Hpid].
  { apply triple_raise. intros w [_ Hw]. by split. }
  eapply (triple_conseq (λ w, pid = ca_pid app ∧ at_point ps app 2 false w ∧
    ow_processes w !! pid = Some (ca_process app)));
    [|intros w [H Hw]; by destruct (H Hpid)|exact (λ _ _ H, H)|exact (λ _ _ H, H)].
  apply triple_pure. intros ->.
  eapply triple_bind; [by apply get_process_triple, at_point_stable|intros p].
  apply triple_pure. intros ->.
  destruct (oe_readable _ _) eqn:Hread; cbn [negb]; [|by apply triple_raise].
  case_bool_decide as Hex; [by apply triple_raise|]. pose proof (unlisted_ours ps app Hread Hex) as Hours.
  t_bind ltac:(by apply triple_call, at_point_stable).
  eapply triple_bind; [apply (triple_modify _ _ (λ _, at_point ps app 2 false))|intros ?; cbv beta].
  { intros w [H1 H2 H3 H4 H5 H6 H7]. split; try done. unfold record_ours. cbn [with_files ow_files].
    by rewrite lookup_insert_ne by apply tmp_other. }
  t_bind ltac:(by apply triple_call, at_point_stable).
  eapply triple_bind; [apply (triple_modify _ _ (λ _, at_point ps app 2 false))|intros ?; cbv beta].
  { intros w [H1 H2 H3 H4 H5 H6 H7]. split; try done. right.
    split; [cbn [with_files ow_actions]; rewrite H1; apply list_elem_of_here|].
    split; [cbn [with_files ow_actions]; rewrite H1; apply list_elem_of_further, list_elem_of_here|].
    split; [done|].
    eexists. cbn [with_files ow_files]. by rewrite lookup_insert_eq. }
  apply triple_modify. intros w [H1 H2 H3 H4 H5 H6 H7]. by split.
Qed.

(** ** Acquiring and exporting *)

Definition reasons : list string :=
  ["COM activation failed"; "cannot prove ownership of a new process";
   "required automation security controls unavailable"].
(** The script is at some point of its story, at most [bound] actions far. *)
Definition somewhere (bound : nat) (w : OfficeWorld) : Prop :=
  ∃ ps app k owns, (k ≤ bound)%nat ∧ (2 < k → owns = true)%nat ∧ at_point ps app k owns w.
Definition gave_up (code : N) (w : OfficeWorld) : Prop :=
  code = 2 ∧ ∃ reason w0, reason ∈ reasons ∧ somewhere settled w0 ∧
    w = with_stderr (UNAVAILABLE_MARKER +:+ reason) w0.
Definition acquire_end (e : ScriptEnd) (w : OfficeWorld) : Prop :=
  match e with
  | Threw _ => somewhere 1 w
  | Killed => somewhere settled w
  | ExitWith code => gave_up code w
  end.

Lemma somewhere_le n m w : (n ≤ m)%nat → somewhere n w → somewhere m w.
Proof. intros H (ps&app&k&owns&?&?&?). exists ps, app, k, owns. split_and!; [lia|done|done]. Qed.
Lemma at_somewhere ps app k owns bound w :
  at_point ps app k owns w → (k ≤ bound)%nat → (2 < k → owns = true)%nat → somewhere bound w.
Proof. intros H ? ?. by exists ps, app, k, owns. Qed.
Lemma quiet_somewhere ps w :
  quiet_world [] w ∨ quiet_world [Listed ps] w → somewhere 1 w.
Proof.
  set (app := mkComApp 0 (mkWinProcess 0 "")).
  intros [H|H]; [eapply (at_somewhere ps app 0)|eapply (at_somewhere ps app 1)];
    try (apply quiet_at_point; [lia|exact H]); lia.
Qed.
Lemma unavailable_triple {A} reason (P : OfficeWorld → Prop) (k : unit → Script A) Q :
  reason ∈ reasons → (∀ w, P w → somewhere settled w) →
  triple P (unavailable reason ≫= k) Q acquire_end.
Proof.
  intros Hr HP w Hw. simpl. split; [done|]. exists reason, w. split_and!; [done|by apply HP|done].
Qed.
Lemma unavailable_triple' reason (P : OfficeWorld → Prop) Q :
  reason ∈ reasons → (∀ w, P w → somewhere settled w) → triple P (unavailable reason) Q acquire_end.
Proof.
  intros Hr HP w Hw. simpl. split; [done|]. exists reason, w. split_and!; [done|by apply HP|done].
Qed.
Lemma acquire_triple :
  triple (quiet_world []) (acquire prog_id format record_path)
    (λ app w, ∃ ps, at_point ps app settled true w) acquire_end.
Proof.
  assert (∀ e w, broken (quiet_world []) e w → acquire_end e w) as Hq.
  { intros e w [Hw He]. assert (somewhere 1 w) by (apply (quiet_somewhere ∅); by left).
    destruct e; [done|by destruct (He code)|apply (somewhere_le 1); [lia|done]]. }
  unfold acquire. eapply triple_bind.
  { instantiate (1 := λ _, quiet_world []). destruct (is_blank record_path); [|by apply triple_ret].
    apply triple_raise. intros w Hw. by apply Hq. }
  intros ?. cbv beta. eapply triple_bind.
  { eapply triple_conseq; [apply list_instances_triple|done|exact (λ _ _ H, H)|exact Hq]. }
  intros existing. apply triple_ex. intros ps. apply triple_pure. intros ->.
  eapply triple_bind.
  { eapply triple_catch; [apply activate_triple| |].
    - intros message. eapply triple_conseq;
        [apply (unavailable_triple "COM activation failed" (quiet_world [Listed ps]))| | |done].
      + by left.
      + intros w Hw. apply (somewhere_le 1); [lia|]. apply (quiet_somewhere ps). by right.
      + intros w [Hw _]. exact Hw.
      + exact (λ _ _ H, H).
    - intros e w [Hw He] Ht. destruct e; [by destruct (Ht message)|by destruct (He code)|].
      apply (somewhere_le 1); [lia|]. apply (quiet_somewhere ps). by right. }
  intros app. cbv beta. eapply triple_bind.
  { eapply triple_catch; [apply take_ownership_triple| |].
    - intros message. eapply triple_conseq; [apply (unavailable_triple'
        "cannot prove ownership of a new process" (at_point ps app 2 false))| | |done].
      + right. by left.
      + intros w Hw. eapply at_somewhere; [exact Hw|lia|lia].
      + intros w [Hw _]. exact Hw.
      + exact (λ _ _ H, H).
    - intros e w [Hw He] Ht. destruct e; [by destruct (Ht message)|by destruct (He code)|].
      eapply at_somewhere; [exact Hw|lia|lia]. }
  intros ?. cbv beta. eapply triple_bind.
  { eapply triple_catch; [apply (set_all_triple ps app [] (security_settings format) eq_refl)| |].
    - intros message. eapply triple_conseq; [apply (unavailable_triple'
        "required automation security controls unavailable" (somewhere settled))| | |done].
      + do 2 right. by left.
      + done.
      + intros w (k&Hk&Hw&_). eapply at_somewhere; [exact Hw|lia|done].
      + exact (λ _ _ H, H).
    - intros e w (k&Hk&Hw&He) Ht. destruct e; [by destruct (Ht message)|by destruct (He code)|].
      eapply at_somewhere; [exact Hw|lia|done]. }
  intros ?. cbv beta. apply triple_ret. intros w Hw. by exists ps.
Qed.

Definition total : nat :=
  (settled + match open_call format input, export_call format output with Some _, Some _ => 2 | _, _ => 0 end)%nat.
Lemma length_full_trace ps app : length (full_trace ps app) = total.
Proof.
  unfold full_trace, total. rewrite !length_app, length_map.
  destruct (open_call format input), (export_call format output); simpl; lia.
Qed.
Lemma full_trace_end ps app opening exporting :
  open_call format input = Some opening → export_call format output = Some exporting →
  full_trace ps app !! settled = Some (ComCall app opening.1 opening.2) ∧
  full_trace ps app !! S settled = Some (ComCall app exporting.1 exporting.2).
Proof.
  intros Ho He. unfold full_trace. rewrite Ho, He, app_assoc.
  assert (length ([Listed ps; Activated prog_id app] ++
    map (λ setting, ComSet app setting.1 setting.2) (security_settings format)) = settled) as Hl
    by (rewrite length_app, length_map; simpl; lia).
  split; (rewrite lookup_app_r by lia); rewrite Hl;
    [by rewrite Nat.sub_diag|by replace (S settled - settled)%nat with 1%nat by lia].
Qed.
Lemma export_triple app :
  triple (λ w, ∃ ps, at_point ps app settled true w) (export format input output app)
    (λ _ w, ∃ ps, at_point ps app total true w)
    (λ e w, somewhere total w ∧ ∀ code, e ≠ ExitWith code).
Proof.
  apply triple_ex. intros ps. unfold export.
  destruct (open_call format input) as [opening|] eqn:Ho;
    [destruct (export_call format output) as [exporting|] eqn:He|];
    [|apply triple_ret; intros w Hw; exists ps; unfold total; rewrite Ho, ?He, Nat.add_0_r; exact Hw..].
  destruct (full_trace_end ps app opening exporting Ho He) as [H1 H2].
  assert (total = S (S settled)) as Ht by (unfold total; rewrite Ho, He; lia).
  eapply triple_bind.
  { eapply triple_conseq; [apply (com_action_next ps app settled); [exact H1|lia]|done|exact (λ _ _ H, H)|].
    intros e w [Hw Hc]. split; [|done]. eapply at_somewhere; [exact Hw|lia|done]. }
  intros ?. cbv beta.
  eapply triple_bind; [apply (triple_modify _ _ (λ _, at_point ps app (S settled) true))|intros ?; cbv beta].
  { intros w [A1 A2 A3 A4 A5 A6 A7]. split; try done. intros _. lia. }
  eapply triple_conseq; [apply (com_action_next ps app (S settled)); [exact H2|lia]|done| |].
  - intros ? w Hw. exists ps. by rewrite Ht.
  - intros e w [Hw Hc]. split; [|done]. eapply at_somewhere; [exact Hw|lia|done].
Qed.

(** The whole of the outer [try ... catch]. *)
Definition body_end (e : ScriptEnd) (w : OfficeWorld) : Prop :=
  match e with
  | Threw _ => False
  | Killed => somewhere total w
  | ExitWith code => gave_up code w ∨
      code = 1 ∧ ∃ message w0, somewhere total w0 ∧ w = with_stderr message w0
  end.
Lemma body_triple :
  triple (quiet_world [])
    (try_catch (app ← acquire prog_id format record_path; export format input output app)
       (λ message, _ ← error_line message; exit_with 1))
    (λ _ w, ∃ ps app, at_point ps app total true w) body_end.
Proof.
  set (E := λ e w, match e with
    | Threw _ | Killed => somewhere total w | ExitWith code => gave_up code w end).
  assert (settled ≤ total)%nat as Hle by (unfold total; lia).
  eapply (triple_catch _ _ _ _ E).
  - eapply triple_bind.
    + eapply triple_conseq; [apply acquire_triple|done|exact (λ _ _ H, H)|].
      intros [message|code|] w H; simpl in *; [eapply somewhere_le, H; lia|done|by eapply somewhere_le].
    + intros app. cbv beta. eapply triple_conseq; [apply export_triple|done| |].
      * intros ? w [ps Hw]. by exists ps, app.
      * intros [message|code|] w [H Hc]; simpl; [done|by destruct (Hc code)|done].
  - intros message w Hw. simpl. right. split; [done|]. by exists message, w.
  - intros [message|code|] w H Ht; simpl in *; [by destruct (Ht message)|by left|done].
Qed.

(** ** Closing *)

Record closing (ps : Processes) (app : ComApp) (k : nat) (owns : bool) (errs : list string) (j : nat)
    (w : OfficeWorld) : Prop := {
  cl_actions : ∃ fin, ow_actions w = take k (full_trace ps app) ++ fin ∧
    fin `sublist_of` take j (closing_trace app) ∧ (existsb touches fin = true → owns = true);
  cl_record : record_ours ps app w;
  cl_stderr : ow_stderr w = errs
}.
Lemma closing_stable ps app k owns errs j : stable (closing ps app k owns errs j).
Proof. intros w ps' n []. by split. Qed.
Lemma closing_skip ps app k owns errs j w :
  closing ps app k owns errs j w → closing ps app k owns errs (S j) w.
Proof.
  intros [(fin&H1&H2&H3) ? ?]. split; [|done..]. exists fin. split_and!; [done| |done].
  etrans; [exact H2|]. destruct (closing_trace app !! j) as [a|] eqn:Ha.
  - rewrite (take_S_r _ _ _ Ha). by apply sublist_inserts_r.
  - apply lookup_ge_None in Ha. by rewrite !take_ge by lia.
Qed.
Lemma closing_did ps app k owns errs j a w :
  closing_trace app !! j = Some a → (touches a = true → owns = true) →
  closing ps app k owns errs j w → closing ps app k owns errs (S j) (did a w).
Proof.
  intros Ha Ht [(fin&H1&H2&H3) Hr ?]. split; [|by apply record_did|done].
  exists (fin ++ [a]). split_and!.
  - cbn [did ow_actions]. by rewrite H1, app_assoc.
  - rewrite (take_S_r _ _ _ Ha). by apply sublist_app.
  - rewrite existsb_app. intros [H|H]%orb_true_iff; [by apply H3|]. apply Ht.
    simpl in H. by rewrite orb_false_r in H.
Qed.
Definition closing_end (ps : Processes) (app : ComApp) (k : nat) (owns : bool) (errs : list string)
    (e : ScriptEnd) (w : OfficeWorld) : Prop := e = Killed ∧ ∃ j, closing ps app k owns errs j w.
Lemma quiet_step ps app k owns errs j a (b : bool) (m : Script unit) :
  closing_trace app !! j = Some a → (touches a = true → b = true → owns = true) →
  (∀ P, stable P → triple P m (λ _ w, ∃ w0, P w0 ∧ w = did a w0) (broken P)) →
  triple (closing ps app k owns errs j) (quietly (when b m)) (λ _, closing ps app k owns errs (S j))
    (closing_end ps app k owns errs).
Proof.
  intros Ha Ht Hm. apply triple_quietly; [|intros w Hw; split; [done|by exists (S j)]].
  destruct b; cbn [when]; [|by apply triple_ret; intros w; apply closing_skip].
  eapply triple_conseq; [apply Hm, (closing_stable ps app k owns errs j)|done| |].
  - intros ? w (w0&Hw&->). eapply closing_did; [exact Ha|auto|done].
  - intros e w [Hw He]. split; [by apply closing_skip|done].
Qed.
Lemma release_triple app P :
  stable P → triple P (_ ← ps_call; modify (did (Released app)))
    (λ _ w, ∃ w0, P w0 ∧ w = did (Released app) w0) (broken P).
Proof. intros HP. t_bind ltac:(by apply triple_call). apply triple_modify. by eauto. Qed.
Definition before_closing (ps : Processes) (app : ComApp) (k : nat) (owns : bool) (errs : list string)
    (w : OfficeWorld) : Prop :=
  closing ps app k owns errs 0 w ∧ ow_owns w = owns ∧
  (ow_app w = None ∨ ow_app w = Some app).
Lemma close_all_triple ps app k owns errs :
  triple (before_closing ps app k owns errs) (close_all format)
    (λ _ w, ∃ j, closing ps app k owns errs j w) (closing_end ps app k owns errs).
Proof.
  intros w (Hc&Ho&Ha). unfold close_all. rewrite gets_bind.
  destruct Ha as [-> | ->]; [by exists 0%nat|]. rewrite !gets_bind, Ho.
  assert (∀ b : bool, triple (closing ps app k owns errs 0)
    (_ ← quietly (when (owns && b) (com_call app (close_call format)));
     _ ← quietly (when owns (com_call app ("Quit", [])));
     _ ← quietly (when b (_ ← ps_call; modify (did (Released app))));
     quietly (_ ← ps_call; modify (did (Released app))))
    (λ _ w, ∃ j, closing ps app k owns errs j w) (closing_end ps app k owns errs)) as H; [|by apply H].
  intros b. eapply triple_bind.
  { apply (quiet_step _ _ _ _ _ 0 (ComCall app (close_call format).1 (close_call format).2));
      [done| |intros; by apply com_action_triple].
    intros _ Hb. by apply andb_true_iff in Hb as [Hb _]. }
  intros ?. cbv beta. eapply triple_bind.
  { apply (quiet_step _ _ _ _ _ 1 (ComCall app "Quit" [])); [done|done|intros; by apply com_action_triple]. }
  intros ?. cbv beta. eapply triple_bind.
  { apply (quiet_step _ _ _ _ _ 2 (Released app)); [done|done|intros; by apply release_triple]. }
  intros ?. cbv beta.
  assert (triple (closing ps app k owns errs 3)
    (quietly (when true (_ ← ps_call; modify (did (Released app)))))
    (λ _, closing ps app k owns errs 4) (closing_end ps app k owns errs)) as H
    by (apply (quiet_step _ _ _ _ _ 3 (Released app)); [done|done|intros; by apply release_triple]).
  cbn [when] in H. eapply triple_conseq; [exact H|done|intros ? w1 Hw; by exists 4%nat|done].
Qed.
Lemma at_before_closing ps app k owns w : at_point ps app k owns w → before_closing ps app k owns [] w.
Proof.
  intros [H1 H2 H3 H4 H5 H6 H7]. split; [split; try done|split; [done|]].
  - exists []. rewrite app_nil_r. split_and!; [done|apply sublist_nil_l|done].
  - rewrite H2. case_bool_decide; [by left|by right].
Qed.
Lemma stderr_before_closing ps app k owns line w :
  at_point ps app k owns w → before_closing ps app k owns [line] (with_stderr line w).
Proof.
  intros H. destruct (at_before_closing _ _ _ _ _ H) as ([(fin&?&?&?) ? Hs]&?&?).
  split; [|done]. split; [by exists fin|done|]. cbn. by rewrite Hs.
Qed.

(** ** The whole script *)

Definition told (r : result ScriptEnd unit) (k : nat) (errs : list string) : Prop :=
  match r with
  | Ok _ => k = total ∧ errs = []
  | Err (ExitWith code) =>
      code = 2 ∧ (k ≤ settled)%nat ∧ (∃ reason, reason ∈ reasons ∧ errs = [UNAVAILABLE_MARKER +:+ reason]) ∨
      code = 1 ∧ ∃ message, errs = [message]
  | Err (Threw _) => k = 0%nat ∧ errs = []
  | Err Killed => True
  end.
Definition story_of (r : result ScriptEnd unit) (w : OfficeWorld) : Prop :=
  ∃ ps app k owns j, (2 < k → owns = true)%nat ∧ (owns = true → ours ps app ∧ (2 ≤ k)%nat) ∧
    closing ps app k owns (ow_stderr w) j w ∧ told r k (ow_stderr w).

Lemma story_at ps app k owns errs j r w :
  (2 < k → owns = true)%nat → (owns = true → ours ps app ∧ (2 ≤ k)%nat) → closing ps app k owns errs j w →
  told r k errs → story_of r w.
Proof.
  intros H1 H2 [H3 H4 H5] H6. exists ps, app, k, owns, j. rewrite H5. by split_and!.
Qed.
Lemma killed_story bound w : somewhere bound w → story_of (Err Killed) w.
Proof.
  intros (ps&app&k&owns&_&Ho&H). destruct (at_before_closing _ _ _ _ _ H) as [Hc _].
  eapply story_at; [exact Ho|by destruct H|exact Hc|done].
Qed.
(** From any point the closing leads to the end of the story. *)
Lemma close_story ps app k owns errs r w :
  (2 < k → owns = true)%nat → (owns = true → ours ps app ∧ (2 ≤ k)%nat) → before_closing ps app k owns errs w →
  told r k errs →
  match close_all format w with (Ok _, w') => story_of r w' | (Err e, w') => story_of (Err e) w' end.
Proof.
  intros H1 H2 H3 H4. pose proof (close_all_triple ps app k owns errs w H3) as H.
  destruct (close_all format w) as [[[]|e] w'].
  - destruct H as [j H]. by eapply story_at.
  - destruct H as [-> [j H]]. by eapply story_at.
Qed.
Lemma body_story w :
  quiet_world [] w →
  let '(r, w') := finally
    (try_catch (app ← acquire prog_id format record_path; export format input output app)
       (λ message, _ ← error_line message; exit_with 1)) (close_all format) w in story_of r w'.
Proof.
  intros Hw. pose proof (body_triple w Hw) as Hb. unfold finally.
  assert (∀ r line w0 w1 bound, somewhere bound w0 → w1 = with_stderr line w0 →
    (∀ k, (k ≤ bound)%nat → told r k [line]) →
    match close_all format w1 with (Ok _, w') => story_of r w' | (Err e, w') => story_of (Err e) w' end)
    as Herr.
  { intros r line w0 w1 bound (ps&app&k&owns&Hk&Ho&H) -> Ht.
    eapply close_story; [exact Ho|by destruct H|by apply stderr_before_closing|by apply Ht]. }
  destruct (try_catch _ _ w) as [[[]|[message|code|]] w1]; [|done| |by eapply killed_story].
  - destruct Hb as (ps&app&H). pose proof (close_story ps app total true [] (Ok tt) w1
      (λ _, eq_refl) (ap_ours _ _ _ _ _ H) (at_before_closing _ _ _ _ _ H) (conj eq_refl eq_refl)) as Hc.
    by destruct (close_all format w1) as [[[]|e] w2].
  - assert (match close_all format w1 with (Ok _, w') => story_of (Err (ExitWith code)) w'
      | (Err e, w') => story_of (Err e) w' end) as Hc; [|by destruct (close_all format w1) as [[[]|e] w2]].
    destruct Hb as [(->&reason&w0&Hr&Hs&->)|(->&message&w0&Hs&->)].
    + eapply (Herr _ _ w0 _ settled); [exact Hs|done|]. intros k Hk. left. split_and!; [done|done|by exists reason].
    + eapply (Herr _ _ w0 _ total); [exact Hs|done|]. intros k Hk. right. split; [done|by exists message].
Qed.
Lemma script_story provider converter w :
  ps_converter (provider +:+ "/" +:+ format) = Some converter →
  ps_prog_id (provider +:+ "/" +:+ format) = Some prog_id →
  quiet_world [] w →
  let '(r, w') := conversion_script format provider input output record_path w in story_of r w'.
Proof.
  intros Hc Hp Hw. unfold conversion_script. cbv zeta. rewrite Hc, Hp, !lift_bind. cbn [ok_or].
  rewrite M_bind_eq. pose proof (triple_call (quiet_world []) (quiet_stable []) w Hw) as H.
  assert (∀ w1 r, quiet_world [] w1 → told r 0 [] → story_of r w1) as Hq.
  { intros w1 r H1 Ht. set (app := mkComApp 0 (mkWinProcess 0 "")).
    assert (at_point ∅ app 0 false w1) as Hat by (apply quiet_at_point; [lia|done]).
    destruct (at_before_closing _ _ _ _ _ Hat) as [Hcl _].
    apply (story_at ∅ app 0 false [] 0); [intros; lia|done|exact Hcl|exact Ht]. }
  destruct (ps_call w) as [[n|e] w1]; [by apply body_story|]. destruct H as [H He].
  apply Hq; [done|]. destruct e; [done|by destruct (He code)|done].
Qed.
End story.

(** ** The clean-up *)

Section cleanup.
Context `{OE : OfficeEnv, RJ : !JsonCodec InstanceRecord}.
Hypothesis Hreuse : no_reuse.

(** The process found is there. *)
Lemma get_process_found P pid :
  stable P → triple P (get_process pid) (λ p w, P w ∧ ow_processes w !! pid = Some p) (broken P).
Proof.
  intros HP. unfold get_process. t_bind ltac:(by apply triple_call).
  eapply triple_bind; [apply (triple_gets _ _ (λ qs w, qs = ow_processes w ∧ P w)); by split|].
  intros qs. destruct (qs !! pid) as [p|] eqn:Hp.
  - apply triple_ret. intros w [-> Hw]. by split.
  - apply triple_raise. intros w [_ Hw]. by split.
Qed.

(** What the clean-up may have done, from the content of the record. *)
Definition cleaned (content : option string) (w : OfficeWorld) : Prop :=
  ow_actions w = [] ∨
  ∃ s record q, content = Some s ∧ from_json s = Ok record ∧
    ow_actions w = [Stopped (ir_pid record) q] ∧ wp_start q = ir_start_time_utc record.
Lemma cleanup_triple record_path content :
  triple (λ w, ow_files w !! record_path = content ∧ ow_actions w = []) (cleanup_script record_path)
    (λ _, cleaned content) (λ _, cleaned content).
Proof.
  set (P := λ w, ow_files w !! record_path = content ∧ ow_actions w = []).
  assert (stable P) as HP by by intros w ps n.
  assert (∀ w, P w → cleaned content w) as Hnone by (intros w [_ H]; by left).
  assert (∀ e w, broken P e w → cleaned content w) as Hbroken by (intros e w [H _]; auto).
  unfold cleanup_script, quietly.
  eapply (triple_catch _ _ _ _ (λ _, cleaned content)); [|by intros; apply triple_ret|done].
  destruct (is_blank record_path); [by apply triple_raise|].
  t_bind ltac:(eapply triple_conseq; [by apply triple_call|done|exact (λ _ _ H, H)|exact Hbroken]).
  eapply triple_bind; [apply (triple_gets _ _ (λ c w, c = content ∧ P w)); intros w [H1 H2]; by split|].
  intros c. cbv beta. apply triple_pure. intros ->.
  destruct content as [s|]; [|by apply triple_raise].
  t_bind ltac:(eapply triple_conseq; [by apply triple_call|done|exact (λ _ _ H, H)|exact Hbroken]).
  eapply triple_bind; [apply (triple_gets _ _ (λ c w, c = Some s ∧ P w)); intros w [H1 H2]; by split|].
  intros c. cbv beta. apply triple_pure. intros ->. apply triple_lift; [intros ? [= <-]|by auto].
  apply triple_lift; [intros record Hrecord|by auto].
  assert (from_json s = Ok record) as Hread by (destruct (from_json s); by simplify_eq/=).
  destruct (_ || _); [by apply triple_raise|].
  destruct (_ || _); [by apply triple_raise|].
  eapply triple_bind; [eapply triple_conseq; [by apply get_process_found|done|exact (λ _ _ H, H)|exact Hbroken]|].
  intros p. cbv beta.
  destruct (eq_ignore_ascii_case _ _); [|by apply triple_ret; intros w [H _]; auto].
  destruct (negb _); [by apply triple_raise; intros w [H _]; auto|].
  destruct (N.eqb_spec (wp_start p) (ir_start_time_utc record)) as [Hp|]; [|by apply triple_ret; intros w [H _]; auto].
  intros w [Hw Hseen]. rewrite M_bind_eq. unfold ps_call.
  destruct (oe_killed _); [by apply Hnone|].
  destruct (oe_throws _); [apply Hnone; by apply HP|].
  rewrite gets_bind. cbn [ow_processes].
  destruct (oe_others _ _ !! _) as [q|] eqn:Hq; [|apply Hnone; by apply HP].
  right. exists s, record, q. split_and!; [done|done| |].
  - cbn. destruct Hw as [_ Hw]. by rewrite Hw.
  - by rewrite (Hreuse _ _ _ _ _ Hseen Hq).
Qed.
End cleanup.

(** ** The theorems *)

Section theorems.
Context `{OE : OfficeEnv, RJ : !JsonCodec InstanceRecord}.

(** The tables of the script are those of the Rust code. *)
Lemma tables_agree provider format :
  ps_converter (provider_name provider +:+ "/" +:+ format_name format) = Some (converter_name provider format) ∧
  ps_prog_id (provider_name provider +:+ "/" +:+ format_name format) = Some (prog_id provider format).
Proof. by destruct provider, format. Qed.
(** What the Rust code makes of the errors of the script. *)
Lemma reasons_understood reason converter :
  reason ∈ reasons →
  failure_from_exit (Some 2) converter (unlines [UNAVAILABLE_MARKER +:+ reason]) =
    Some (ConverterUnavailable converter reason).
Proof.
  intros H. repeat (apply elem_of_cons in H as [->|H]; [by vm_compute|]). by apply elem_of_nil in H.
Qed.

(** C18: A conversion by Microsoft Office or WPS touches only an application of its own.
    Whatever other programs do meanwhile, whichever call throws and whenever the script
    is killed, as long as no process number is given again between two calls, what it
    does is a part from the beginning of one fixed list of actions, then a part of the
    closing.  From the third action on, and for any closing, the process behind the
    automation object was not there when the script looked at the processes: no property
    of an application the user had open is set, no document opened or closed in it, and
    it is not quit.  The document is opened only after every security setting was made.
    A script that succeeds has exported the document; with exit code 2 it opened none,
    and the error it printed is understood by the Rust code as the converter being
    unavailable for this reason; any other failure is not. *)
Theorem script_touches_only_its_own (provider : Provider) (format : OfficeFormat)
    (input output record_path : string) (w : OfficeWorld) :
  no_reuse → quiet_world record_path [] w →
  let name := format_name format in
  let converter := converter_name provider format in
  let '(r, w') := conversion_script name (provider_name provider) input output record_path w in
  ∃ ps app k fin,
    let full := full_trace name input output (prog_id provider format) ps app in
    ow_actions w' = take k full ++ fin ∧ fin `sublist_of` closing_trace name app ∧
    ((2 < k)%nat ∨ existsb touches fin = true →
       Listed ps ∈ ow_actions w' ∧
       ∀ q, ps !! ca_pid app = Some q → wp_start q ≠ wp_start (ca_process app)) ∧
    match r with
    | Ok _ => k = length full
    | Err (ExitWith code) =>
        (code = 2 ∧ (k ≤ 2 + length (security_settings name))%nat ∧ ∃ reason,
           failure_from_exit (Some code) converter (unlines (ow_stderr w')) =
             Some (ConverterUnavailable converter reason)) ∨
        (code = 1 ∧ failure_from_exit (Some code) converter (unlines (ow_stderr w')) = None)
    | Err (Threw _) => k = 0%nat ∧ existsb touches fin = false
    | Err Killed => True
    end.
Proof.
  intros Hreuse Hw name converter. destruct (tables_agree provider format) as [Hc Hp].
  pose proof (script_story name input output record_path _ Hreuse (provider_name provider) _ w Hc Hp Hw) as H.
  destruct (conversion_script _ _ _ _ _ w) as [r w'].
  destruct H as (ps&app&k&owns&j&Ho&Hours&[(fin&Ha&Hf&Ht) _ _]&Htold).
  exists ps, app, k, fin. cbv zeta. split; [done|].
  assert (fin `sublist_of` closing_trace name app) as Hfin by (etrans; [exact Hf|apply sublist_take]).
  split; [done|]. split.
  - intros H. assert (owns = true) as Hown by (destruct H; auto). destruct (Hours Hown) as [H1 H2].
    split; [|done]. rewrite Ha. destruct k as [|k]; [lia|]. apply list_elem_of_here.
  - destruct r as [[]|[message|code|]]; [|destruct Htold as [-> _]| |done].
    + destruct Htold as [-> _]. by rewrite length_full_trace.
    + split; [done|]. destruct (existsb touches fin); [|done].
      destruct (Hours (Ht eq_refl)) as [_ Hk]. lia.
    + destruct Htold as [(->&Hk&reason&Hr&->)|(->&message&->)]; [left|by right].
      split_and!; [done|done|]. exists reason. by apply reasons_understood.
Qed.

(** Only one automation object is made. *)
Lemma only_activated name input output prog_id ps app k fin id other :
  fin `sublist_of` closing_trace name app →
  Activated id other ∈ take k (full_trace name input output prog_id ps app) ++ fin → other = app.
Proof.
  intros Hfin [H|H]%elem_of_app.
  - assert (Activated id other ∈ full_trace name input output prog_id ps app) as Hfull
      by (eapply elem_of_sublist; [exact H|apply sublist_take]).
    unfold full_trace in Hfull. rewrite !elem_of_app, elem_of_cons, list_elem_of_singleton in Hfull.
    destruct Hfull as [[[=]|[= _ ->]]|[Hset|Hcall]]; [done| |].
    + by apply list_elem_of_fmap in Hset as (?&[=]&_).
    + destruct (open_call name input), (export_call name output); set_solver.
  - apply (elem_of_sublist _ _ _ H) in Hfin. unfold closing_trace in Hfin. set_solver.
Qed.

(** C19: The clean-up after a timeout stops only what the conversion started.  Run at any
    moment of a conversion, or after it, it stops at most one process, and one with the
    number and the start time of the process behind the automation object this
    conversion made, the only one it made, for the application of its provider and
    format; and that process was not there when the conversion looked at the
    processes.  This supposes that a process number is not given again between two
    calls, and that the record still holds what the conversion left in it. *)
Theorem cleanup_stops_only_its_own (provider : Provider) (format : OfficeFormat)
    (input output record_path : string) (w w2 : OfficeWorld) :
  no_reuse → JsonLaws InstanceRecord (λ _, True) → quiet_world record_path [] w →
  let w1 := (conversion_script (format_name format) (provider_name provider) input output record_path w).2 in
  ow_files w2 !! record_path = ow_files w1 !! record_path → ow_actions w2 = [] →
  let w3 := (cleanup_script record_path w2).2 in
  ow_actions w3 = [] ∨
  ∃ ps app q, ow_actions w3 = [Stopped (ca_pid app) q] ∧ wp_start q = wp_start (ca_process app) ∧
    Listed ps ∈ ow_actions w1 ∧ Activated (prog_id provider format) app ∈ ow_actions w1 ∧
    (∀ id other, Activated id other ∈ ow_actions w1 → other = app) ∧
    ∀ p, ps !! ca_pid app = Some p → wp_start p ≠ wp_start (ca_process app).
Proof.
  intros Hreuse Hjson Hw w1 Hfile Hnone w3.
  destruct (tables_agree provider format) as [Hc Hp].
  pose proof (script_story (format_name format) input output record_path _ Hreuse (provider_name provider)
    _ w Hc Hp Hw) as H. unfold w1 in *. clear w1.
  destruct (conversion_script _ _ _ _ _ w) as [r w1]. cbn [snd] in *.
  destruct H as (ps&app&k&owns&j&_&_&[(fin&Htrace&Hfin&_) Hrec _]&_).
  assert (∀ id other, Activated id other ∈ ow_actions w1 → other = app) as Honly.
  { intros id other. rewrite Htrace. apply only_activated. etrans; [exact Hfin|apply sublist_take]. }
  pose proof (cleanup_triple Hreuse record_path (ow_files w1 !! record_path) w2 (conj Hfile Hnone)) as H.
  unfold w3. clear w3. destruct (cleanup_script record_path w2) as [[?|e] w3]; cbn [snd];
    (destruct H as [?|(content&record&q&Hs&Hread&Ha&Hstart)]; [by left|right];
     destruct Hrec as [Hn|(Hl&Hact&Ho&rec&Hs'&Hpid&Ht&_)]; [by rewrite Hn in Hs|];
     rewrite Hs' in Hs; injection Hs as <-; rewrite from_to_json in Hread by done; injection Hread as <-;
     rewrite Hpid in Ha; rewrite Ht in Hstart; exists ps, app, q; by split_and!).
Qed.
End theorems.

(** ** The scripts on concrete inputs *)

#[export] Instance InstanceRecord_eq_dec : EqDecision InstanceRecord.
Proof. solve_decision. Defined.
#[export] Instance InstanceRecord_countable : Countable InstanceRecord :=
  inj_countable' (λ r, (ir_nonce r, ir_pid r, ir_start_time_utc r, ir_process_name r, ir_script_pid r))
    (λ '(n, p, t, m, s), mkInstanceRecord n p t m s) ltac:(by intros []).

Section example.
#[local] Instance record_codec : JsonCodec InstanceRecord := toy_codec InstanceRecord.
#[local] Instance record_laws : JsonLaws InstanceRecord (λ _, True) := toy_codec_laws InstanceRecord _.
(** The user's Word, another program that starts meanwhile, and a Word of our own; the
    script may be killed before its [n]-th call. *)
Definition users_word : WinProcess := mkWinProcess 500 "WINWORD".
Definition our_word : WinProcess := mkWinProcess 900 "WINWORD".
Definition word_env (killed : nat → bool) : OfficeEnv := {|
  oe_others _ ps := ps ∪ {[77 := mkWinProcess 700 "notepad"]};
  oe_killed := killed;
  oe_throws _ := None;
  oe_activate _ _ _ := mkComApp 4242 our_word;
  oe_has_window _ := true;
  oe_readable _ _ := true;
  oe_nonce _ := "nonce";
  oe_script_pid := 31
|}.
Definition word_world : OfficeWorld := mkOfficeWorld {[100 := users_word]} ∅ [] [] None false false 0.
Lemma word_no_reuse killed : @no_reuse (word_env killed).
Proof. intros n ps pid p q Hp Hq. simpl in Hq. rewrite (lookup_union_Some_l _ _ _ _ Hp) in Hq. by injection Hq. Qed.
Lemma word_quiet : quiet_world "record" [] word_world.
Proof. by repeat split. Qed.

(** A conversion that succeeds: it does all the trace, and closes its own Word. *)
Lemma script_touches_only_its_own_witness :
  let '(r, w') := @conversion_script (word_env (λ _, false)) _ "docx" "microsoft" "a.docx" "a.pdf" "record" word_world in
  r = Ok tt ∧ length (ow_actions w') = 12%nat ∧
  ∃ ps app k fin, ow_actions w' = take k (full_trace "docx" "a.docx" "a.pdf" "Word.Application" ps app) ++ fin ∧
    k = length (full_trace "docx" "a.docx" "a.pdf" "Word.Application" ps app).
Proof.
  pose proof (@script_touches_only_its_own (word_env (λ _, false)) _ Microsoft ODocx "a.docx" "a.pdf" "record"
    word_world (word_no_reuse _) word_quiet) as H.
  cbv zeta in H. change (format_name ODocx) with "docx" in H. change (provider_name Microsoft) with "microsoft" in H.
  change (prog_id Microsoft ODocx) with "Word.Application" in H.
  assert ((@conversion_script (word_env (λ _, false)) _ "docx" "microsoft" "a.docx" "a.pdf" "record"
    word_world).1 = Ok tt) as Hr by by vm_compute.
  assert (length (ow_actions (@conversion_script (word_env (λ _, false)) _ "docx" "microsoft" "a.docx" "a.pdf"
    "record" word_world).2) = 12%nat) as Ha by by vm_compute.
  destruct (conversion_script _ _ _ _ _ _) as [r w']. cbn [fst] in Hr. cbn [snd] in Ha. subst r.
  destruct H as (ps&app&k&fin&H1&_&_&H2). split; [reflexivity|]. split; [exact Ha|].
  exists ps, app, k, fin. exact (conj H1 H2).
Defined.

(** A conversion killed while the document is open: the clean-up stops its Word. *)
Definition killed_env : OfficeEnv := word_env (λ n, n =? 12)%nat.
Definition killed_world : OfficeWorld :=
  (@conversion_script killed_env _ (format_name ODocx) (provider_name Microsoft) "a.docx" "a.pdf" "record" word_world).2.
Definition cleanup_world : OfficeWorld :=
  mkOfficeWorld (ow_processes killed_world) (ow_files killed_world) [] [] None false false 100.
Lemma killed_record :
  ow_files cleanup_world !! "record" = ow_files (@conversion_script killed_env _ (format_name ODocx)
    (provider_name Microsoft) "a.docx" "a.pdf" "record" word_world).2 !! "record".
Proof. by vm_compute. Qed.
Lemma cleanup_stops_only_its_own_witness :
  ow_actions (@cleanup_script killed_env _ "record" cleanup_world).2 = [Stopped 4242 our_word] ∧
  ∃ (ps : Processes) app q, ow_actions (@cleanup_script killed_env _ "record" cleanup_world).2 = [Stopped (ca_pid app) q] ∧
    Activated "Word.Application" app ∈ ow_actions killed_world ∧
    ∀ p, ps !! ca_pid app = Some p → wp_start p ≠ wp_start (ca_process app).
Proof.
  assert (ow_actions (@cleanup_script killed_env _ "record" cleanup_world).2 = [Stopped 4242 our_word]) as Ha
    by by vm_compute.
  split; [exact Ha|].
  pose proof (@cleanup_stops_only_its_own killed_env _ Microsoft ODocx "a.docx" "a.pdf" "record" word_world
    cleanup_world (word_no_reuse _) _ word_quiet killed_record eq_refl) as H.
  destruct H as [H|(ps&app&q&H1&_&_&H2&_&H3)].
  - rewrite Ha in H. discriminate H.
  - exists ps, app, q. exact (conj H1 (conj H2 H3)).
Defined.
End example.
