(* ===== verification/Activity.v ===== *)
(** * Task activity ([crates/core/src/activity.rs], [crates/runtime/src/logs.rs])

    The log entries that are broadcast, the statuses and sources of the task
    history with their storage strings, and the bounded in-memory log. *)

From S2P Require Import Prelude RustStr Protocol.
Open Scope string_scope.
Open Scope N_scope.
Open Scope list_scope.

Record TaskLogEntry := mkTaskLogEntry {
  tl_timestamp : string;
  tl_request_id : option string;
  tl_batch_id : option string;
  tl_job_id : option string;
  tl_origin : option string;
  tl_status : JobStatus;
  tl_message : string
}.
#[export] Instance TaskLogEntry_eq_dec : EqDecision TaskLogEntry.
Proof. solve_decision. Defined.

Inductive TaskHistoryStatus :=
  | HQueued | HDownloading | HPrinting | HSubmitted | HCompleted | HFailed | HUnknown
  | HCancelled.
#[export] Instance TaskHistoryStatus_eq_dec : EqDecision TaskHistoryStatus.
Proof. solve_decision. Defined.

(** [TaskHistoryStatus::as_str] *)
Definition TaskHistoryStatus_as_str (s : TaskHistoryStatus) : string :=
  match s with
  | HQueued => "queued"
  | HDownloading => "downloading"
  | HPrinting => "printing"
  | HSubmitted => "submitted"
  | HCompleted => "completed"
  | HFailed => "failed"
  | HUnknown => "unknown"
  | HCancelled => "cancelled"
  end.

(** [TaskHistoryStatus::from_storage_str] *)
Definition TaskHistoryStatus_from_storage_str (value : string) : option TaskHistoryStatus :=
  if bool_decide (value = "queued") then Some HQueued
  else if bool_decide (value = "downloading") then Some HDownloading
  else if bool_decide (value = "printing") then Some HPrinting
  else if bool_decide (value = "submitted") then Some HSubmitted
  else if bool_decide (value = "completed") then Some HCompleted
  else if bool_decide (value = "failed") then Some HFailed
  else if bool_decide (value = "unknown") then Some HUnknown
  else if bool_decide (value = "cancelled") then Some HCancelled
  else None.

(** [TaskHistoryStatus::is_terminal] *)
Definition is_terminal (s : TaskHistoryStatus) : bool :=
  match s with
  | HSubmitted | HCompleted | HFailed | HUnknown | HCancelled => true
  | _ => false
  end.

Inductive TaskHistorySource := WebSocket | Remote | Test_.
#[export] Instance TaskHistorySource_eq_dec : EqDecision TaskHistorySource.
Proof. solve_decision. Defined.

(** [TaskHistorySource::as_str] *)
Definition TaskHistorySource_as_str (s : TaskHistorySource) : string :=
  match s with WebSocket => "web_socket" | Remote => "remote" | Test_ => "test" end.

(** [TaskHistorySource::from_storage_str] *)
Definition TaskHistorySource_from_storage_str (value : string) : option TaskHistorySource :=
  if bool_decide (value = "web_socket") then Some WebSocket
  else if bool_decide (value = "remote") then Some Remote
  else if bool_decide (value = "test") then Some Test_
  else None.

Record TaskHistoryJob := mkTaskHistoryJob {
  hj_job_id : string;
  hj_request_id : option string;
  hj_batch_id : option string;
  hj_source : TaskHistorySource;
  hj_current_status : TaskHistoryStatus;
  hj_current_message : option string;
  hj_printer_name : option string;
  hj_paper_name : option string;
  hj_copies : option N;
  hj_created_at : string;
  hj_updated_at : string;
  hj_finished_at : option string
}.
#[export] Instance TaskHistoryJob_eq_dec : EqDecision TaskHistoryJob.
Proof. solve_decision. Defined.

Record TaskHistoryEvent := mkTaskHistoryEvent {
  he_id : N;
  he_job_id : string;
  he_status : TaskHistoryStatus;
  he_message : option string;
  he_occurred_at : string
}.
#[export] Instance TaskHistoryEvent_eq_dec : EqDecision TaskHistoryEvent.
Proof. solve_decision. Defined.

(** ** The bounded log *)

Definition DEFAULT_LOG_CAPACITY : nat := 500.

Record LogStore := mkLogStore { ls_capacity : nat; ls_entries : list TaskLogEntry }.

(** [LogStore::with_capacity] and [LogStore::default] *)
Definition LogStore_with_capacity (capacity : nat) : LogStore := mkLogStore capacity [].
Definition LogStore_default : LogStore := LogStore_with_capacity DEFAULT_LOG_CAPACITY.

(** The [while] loop of [push]; a round removes an entry, so the length is
    enough fuel. *)
Fixpoint pop_front_while_over (fuel capacity : nat) (entries : list TaskLogEntry)
  : list TaskLogEntry :=
  match fuel with
  | O => entries
  | S n =>
      if (capacity <? length entries)%nat
      then pop_front_while_over n capacity (tail entries) else entries
  end.

(** [LogStore::push] *)
Definition log_push (s : LogStore) (entry : TaskLogEntry) : LogStore :=
  let entries := ls_entries s ++ [entry] in
  mkLogStore (ls_capacity s)
    (pop_front_while_over (length entries) (ls_capacity s) entries).

(** [LogStore::recent] and [LogStore::clear] *)
Definition log_recent (s : LogStore) : list TaskLogEntry := ls_entries s.
Definition log_clear (s : LogStore) : LogStore := mkLogStore (ls_capacity s) [].

(** ** Properties *)

(** The storage strings of statuses and sources read back as what was
    written, and nothing else does, so a row the store wrote is never rejected
    and a foreign value is. *)
Theorem storage_strings_roundtrip (v : string) (s : TaskHistoryStatus)
    (src : TaskHistorySource) :
  (TaskHistoryStatus_from_storage_str v = Some s ↔ v = TaskHistoryStatus_as_str s) ∧
  (TaskHistorySource_from_storage_str v = Some src ↔ v = TaskHistorySource_as_str src).
Proof.
  unfold TaskHistoryStatus_from_storage_str, TaskHistorySource_from_storage_str.
  split; split.
  - intros H. repeat (case_bool_decide; [by simplify_eq|]). done.
  - intros ->. by destruct s.
  - intros H. repeat (case_bool_decide; [by simplify_eq|]). done.
  - intros ->. by destruct src.
Qed.

Lemma status_from_as_str s :
  TaskHistoryStatus_from_storage_str (TaskHistoryStatus_as_str s) = Some s.
Proof. by destruct s. Qed.
Lemma source_from_as_str s :
  TaskHistorySource_from_storage_str (TaskHistorySource_as_str s) = Some s.
Proof. by destruct s. Qed.

(** The last [n] elements of a list. *)
Definition last_n {A} (n : nat) (l : list A) : list A := drop (length l - n) l.

Lemma pop_front_while_over_spec fuel cap l :
  (length l ≤ fuel)%nat → pop_front_while_over fuel cap l = last_n cap l.
Proof.
  unfold last_n. revert l. induction fuel as [|n IH]; intros l Hl; simpl.
  { destruct l; [done|simpl in Hl; lia]. }
  destruct (Nat.ltb_spec cap (length l)) as [Hc|Hc].
  - destruct l as [|x l]; [simpl in Hc; lia|]. cbn [tail length] in *.
    rewrite IH by lia. replace (S (length l) - cap)%nat with (S (length l - cap)) by lia.
    done.
  - replace (length l - cap)%nat with 0%nat by lia. done.
Qed.

Lemma last_n_app {A} n (l k : list A) : last_n n (last_n n l ++ k) = last_n n (l ++ k).
Proof.
  unfold last_n. rewrite !length_app, length_drop.
  destruct (decide (length l ≤ n)%nat) as [Hl|Hl].
  { replace (length l - n)%nat with 0%nat by lia. by rewrite Nat.sub_0_r. }
  replace (length l - (length l - n))%nat with n by lia.
  rewrite <-(drop_app_le l k (length l - n)) by lia. rewrite drop_drop. f_equal. lia.
Qed.

Lemma log_push_entries s e :
  ls_entries (log_push s e) = last_n (ls_capacity s) (ls_entries s ++ [e]).
Proof. unfold log_push. simpl. by apply pop_front_while_over_spec. Qed.

(** After any sequence of pushes the log holds exactly the last [capacity]
    entries, oldest first, whatever it held before. *)
Theorem log_keeps_last (s : LogStore) (es : list TaskLogEntry) :
  log_recent (fold_left log_push es s) =
    match es with [] => log_recent s | _ => last_n (ls_capacity s) (log_recent s ++ es) end ∧
  (es ≠ [] → (length (log_recent (fold_left log_push es s)) ≤ ls_capacity s)%nat).
Proof.
  assert (∀ e es s, ls_entries (fold_left log_push es (log_push s e)) =
            last_n (ls_capacity s) (ls_entries s ++ e :: es)) as Hgo.
  { clear. intros e es. revert e. induction es as [|e' es IH]; intros e s; simpl.
    - apply log_push_entries.
    - rewrite IH, log_push_entries. simpl. by rewrite last_n_app, <-app_assoc. }
  unfold log_recent. destruct es as [|e es]; simpl; [done|]. rewrite Hgo.
  split; [done|]. intros _. unfold last_n. rewrite length_drop. lia.
Qed.
