(* ===== verification/Sqlite.v ===== *)
(** * What the stores need of SQLite

    A database call either fails with an error of the environment or takes
    effect; a transaction takes effect as a whole when its commit succeeds.
    TEXT columns compare byte by byte (the BINARY collation), and an ORDER BY
    is a stable sort. *)

From S2P Require Import Prelude RustStr.
From Stdlib Require Import Ascii.
From stdpp Require Import sorting.
Open Scope string_scope.
Open Scope N_scope.
Open Scope list_scope.

(** The errors of rusqlite the stores return, by name where they name them. *)
Inductive SqlError := InvalidQuery | QueryReturnedNoRows | SqliteFailure (message : string).
#[export] Instance SqlError_eq_dec : EqDecision SqlError.
Proof. solve_decision. Defined.

(** Which of the database calls an operation makes fail, by their number. *)
Definition DbFault := nat → option SqlError.
Definition no_fault : DbFault := λ _, None.

Definition stmt {S} (f : DbFault) (i : nat) (upd : S → S) (s : S) : result SqlError S :=
  match f i with Some e => Err e | None => Ok (upd s) end.

(** A transaction: its final state is kept only when everything succeeded;
    dropping it otherwise rolls back. *)
Definition transaction {S} (body : S → result SqlError S) (s : S) : result SqlError unit * S :=
  match body s with Ok s' => (Ok tt, s') | Err e => (Err e, s) end.

(** ** Text order *)

Fixpoint bytes_leb (a b : bytes) : bool :=
  match a, b with
  | [], _ => true
  | _ :: _, [] => false
  | x :: a', y :: b' =>
      (N_of_ascii x <? N_of_ascii y) || ((N_of_ascii x =? N_of_ascii y) && bytes_leb a' b')
  end.
Definition str_leb (s t : string) : bool := bytes_leb (to_bytes s) (to_bytes t).
Definition str_ltb (s t : string) : bool := negb (str_leb t s).
(** [ORDER BY k1, k2] ascending, on two text columns. *)
Definition pair_leb (a b : string * string) : bool :=
  str_ltb a.1 b.1 || (bool_decide (a.1 = b.1) && str_leb a.2 b.2).

Lemma bytes_leb_refl a : bytes_leb a a = true.
Proof. induction a as [|x a IH]; [done|]. simpl. by rewrite N.eqb_refl, IH, orb_true_r. Qed.

Lemma bytes_leb_total a b : bytes_leb a b = true ∨ bytes_leb b a = true.
Proof.
  revert b. induction a as [|x a IH]; intros [|y b]; simpl; [by left..|by right|].
  destruct (N.ltb_spec (N_of_ascii x) (N_of_ascii y)); [by left|].
  destruct (N.ltb_spec (N_of_ascii y) (N_of_ascii x)); [by right|].
  rewrite !(proj2 (N.eqb_eq _ _)) by lia. apply IH.
Qed.

Lemma N_of_ascii_inj x y : N_of_ascii x = N_of_ascii y → x = y.
Proof. intros H. by rewrite <-(ascii_N_embedding x), <-(ascii_N_embedding y), H. Qed.

Lemma bytes_leb_antisym a b : bytes_leb a b = true → bytes_leb b a = true → a = b.
Proof.
  revert b. induction a as [|x a IH]; intros [|y b]; simpl; [done..|].
  rewrite !orb_true_iff, !andb_true_iff, !N.ltb_lt, !N.eqb_eq.
  intros [?|[Hx ?]] [?|[? ?]]; [lia..|].
  apply N_of_ascii_inj in Hx as ->. f_equal. by apply IH.
Qed.

Lemma bytes_leb_trans a b c : bytes_leb a b = true → bytes_leb b c = true → bytes_leb a c = true.
Proof.
  revert b c. induction a as [|x a IH]; intros [|y b] [|z c]; simpl; [done..|].
  rewrite !orb_true_iff, !andb_true_iff, !N.ltb_lt, !N.eqb_eq.
  intros [?|[? ?]] [?|[? ?]]; [left; lia..|]. right. split; [lia|by eapply IH].
Qed.

Lemma str_leb_refl s : str_leb s s = true.
Proof. apply bytes_leb_refl. Qed.
Lemma str_leb_total s t : str_leb s t = true ∨ str_leb t s = true.
Proof. apply bytes_leb_total. Qed.
Lemma str_leb_trans s t u : str_leb s t = true → str_leb t u = true → str_leb s u = true.
Proof. apply bytes_leb_trans. Qed.
Lemma str_leb_antisym s t : str_leb s t = true → str_leb t s = true → s = t.
Proof. intros ??. by apply to_bytes_inj, bytes_leb_antisym. Qed.

Lemma str_ltb_spec s t : str_ltb s t = true ↔ str_leb s t = true ∧ s ≠ t.
Proof.
  unfold str_ltb. rewrite negb_true_iff. split.
  - intros H. split.
    + destruct (str_leb_total s t); congruence.
    + intros ->. by rewrite str_leb_refl in H.
  - intros [H Hne]. destruct (str_leb t s) eqn:Ht; [|done]. by destruct Hne; apply str_leb_antisym.
Qed.

Lemma pair_leb_spec a b :
  pair_leb a b = true ↔ (str_leb a.1 b.1 = true ∧ (a.1 = b.1 → str_leb a.2 b.2 = true)).
Proof.
  unfold pair_leb. rewrite orb_true_iff, andb_true_iff, str_ltb_spec, bool_decide_eq_true.
  split.
  - intros [[? ?]|[Ha ?]]; [by split|]. by rewrite Ha, str_leb_refl.
  - intros [H1 H2]. destruct (decide (a.1 = b.1)); [right|left]; auto.
Qed.

Lemma pair_leb_total a b : pair_leb a b = true ∨ pair_leb b a = true.
Proof.
  rewrite !pair_leb_spec.
  destruct (decide (a.1 = b.1)) as [->|Hne].
  - rewrite str_leb_refl. destruct (str_leb_total a.2 b.2); auto.
  - destruct (str_leb_total a.1 b.1); [left|right]; (split; [done|]); congruence.
Qed.

Lemma pair_leb_trans a b c : pair_leb a b = true → pair_leb b c = true → pair_leb a c = true.
Proof.
  rewrite !pair_leb_spec. intros [H1 H2] [H3 H4]. split; [by eapply str_leb_trans|].
  intros Hac. assert (a.1 = b.1) as Hab.
  { apply str_leb_antisym; [done|]. by rewrite Hac. }
  eapply str_leb_trans; [by apply H2|]. apply H4. congruence.
Qed.

(** ** Sorted queries *)

Section order_by.
Context {A : Type} (leb : A → A → bool).

Definition rows_le (a b : A) : Prop := leb a b = true.
#[export] Instance rows_le_dec : RelDecision rows_le.
Proof. intros a b. unfold rows_le. apply _. Defined.

Definition order_by (l : list A) : list A := merge_sort rows_le l.

Lemma order_by_perm l : order_by l ≡ₚ l.
Proof. apply merge_sort_Permutation. Qed.

Context (Htot : ∀ a b, leb a b = true ∨ leb b a = true)
        (Htrans : ∀ a b c, leb a b = true → leb b c = true → leb a c = true).

Lemma order_by_sorted l : StronglySorted rows_le (order_by l).
Proof using Htot Htrans.
  assert (Transitive rows_le) by (intros a b c; apply Htrans).
  assert (Total rows_le) by (intros a b; apply Htot).
  apply (StronglySorted_merge_sort rows_le).
Qed.

(** LIMIT n keeps the first rows: no row left out precedes a kept one. *)
Lemma order_by_take n l a b :
  a ∈ take n (order_by l) → b ∈ drop n (order_by l) → leb a b = true.
Proof using Htot Htrans.
  intros Ha Hb. pose proof (order_by_sorted l) as Hs.
  rewrite <-(take_drop n (order_by l)) in Hs. revert Ha Hb Hs.
  generalize (take n (order_by l)), (drop n (order_by l)). intros l1 l2.
  induction l1 as [|x l1 IH]; intros Ha Hb Hs; [by apply not_elem_of_nil in Ha|].
  apply StronglySorted_cons in Hs as [Hf Hs]. rewrite Forall_forall in Hf.
  apply elem_of_cons in Ha as [->|Ha]; [|by apply IH].
  apply (Hf b), elem_of_app. by right.
Qed.

Lemma order_by_take_sorted n l : StronglySorted rows_le (take n (order_by l)).
Proof using Htot Htrans.
  pose proof (order_by_sorted l) as Hs. rewrite <-(take_drop n (order_by l)) in Hs.
  revert Hs. generalize (take n (order_by l)), (drop n (order_by l)). intros l1 l2.
  induction l1 as [|x l1 IH]; simpl; [constructor|].
  intros [Hf Hs]%StronglySorted_cons. apply StronglySorted_cons.
  split; [by apply Forall_app in Hf as [? _]|by apply IH].
Qed.
End order_by.
