(* ===== verification/TaskHistory.v ===== *)
(** * The task history ([crates/runtime/src/task_history.rs])

    The two tables of the history database, the transaction that records an
    event, and the queries.  The theorems say that the job row is always the
    summary of the job's recorded events. *)

From S2P Require Import Prelude RustStr Protocol Activity Sqlite.
From stdpp Require Import sorting.
Open Scope string_scope.
Open Scope N_scope.
Open Scope list_scope.

(** A row of [task_history_jobs]; enumerations are stored as text. *)
Record JobRow := mkJobRow {
  jr_job_id : string;
  jr_request_id : option string;
  jr_batch_id : option string;
  jr_source : string;
  jr_current_status : string;
  jr_current_message : option string;
  jr_printer_name : option string;
  jr_paper_name : option string;
  jr_copies : option N;
  jr_created_at : string;
  jr_updated_at : string;
  jr_finished_at : option string
}.

(** A row of [task_history_events]. *)
Record EventRow := mkEventRow {
  er_id : N;
  er_job_id : string;
  er_status : string;
  er_message : option string;
  er_occurred_at : string
}.

(** [TaskHistoryStore]: the connection's content.  [job_id] is the primary key
    of the jobs; event ids are AUTOINCREMENT, so never used again. *)
Record TaskHistoryStore := mkTaskHistoryStore {
  th_jobs : gmap string JobRow;
  th_events : list EventRow;
  th_last_id : N
}.

(** [initialize_schema] on a new database: two empty tables. *)
Definition TaskHistoryStore_new : TaskHistoryStore := mkTaskHistoryStore ∅ [] 0.

(** [NewTaskHistoryEvent] *)
Record NewTaskHistoryEvent := mkNewTaskHistoryEvent {
  ne_job_id : string;
  ne_request_id : option string;
  ne_batch_id : option string;
  ne_source : TaskHistorySource;
  ne_status : TaskHistoryStatus;
  ne_message : option string;
  ne_printer_name : option string;
  ne_paper_name : option string;
  ne_copies : option N;
  ne_occurred_at : string
}.

(** INSERT INTO task_history_events *)
Definition insert_event_row (ev : NewTaskHistoryEvent) (db : TaskHistoryStore) : TaskHistoryStore :=
  let id := th_last_id db + 1 in
  mkTaskHistoryStore (th_jobs db)
    (th_events db ++ [mkEventRow id (ne_job_id ev) (TaskHistoryStatus_as_str (ne_status ev))
                        (ne_message ev) (ne_occurred_at ev)]) id.

(** The VALUES row, and the ON CONFLICT(job_id) DO UPDATE of an existing one;
    COALESCE(excluded.c, c) keeps the old value of a column given as NULL. *)
Definition new_job_row (ev : NewTaskHistoryEvent) (finished_at : option string) : JobRow :=
  mkJobRow (ne_job_id ev) (ne_request_id ev) (ne_batch_id ev)
    (TaskHistorySource_as_str (ne_source ev)) (TaskHistoryStatus_as_str (ne_status ev))
    (ne_message ev) (ne_printer_name ev) (ne_paper_name ev) (ne_copies ev)
    (ne_occurred_at ev) (ne_occurred_at ev) finished_at.
Definition update_job_row (excluded old : JobRow) : JobRow :=
  mkJobRow (jr_job_id old)
    (opt_or (jr_request_id excluded) (jr_request_id old))
    (opt_or (jr_batch_id excluded) (jr_batch_id old))
    (jr_source excluded) (jr_current_status excluded) (jr_current_message excluded)
    (opt_or (jr_printer_name excluded) (jr_printer_name old))
    (opt_or (jr_paper_name excluded) (jr_paper_name old))
    (opt_or (jr_copies excluded) (jr_copies old))
    (jr_created_at old) (jr_updated_at excluded)
    (opt_or (jr_finished_at excluded) (jr_finished_at old)).
Definition upsert_job_row (ev : NewTaskHistoryEvent) (finished_at : option string)
    (db : TaskHistoryStore) : TaskHistoryStore :=
  let row := new_job_row ev finished_at in
  let row' := match th_jobs db !! ne_job_id ev with
              | Some old => update_job_row row old
              | None => row
              end in
  mkTaskHistoryStore (<[ne_job_id ev := row']> (th_jobs db)) (th_events db) (th_last_id db).

(** [lock_conn] fails when the mutex is poisoned. *)
Definition lock_conn (poisoned : bool) : result SqlError unit :=
  if poisoned then Err InvalidQuery else Ok tt.

(** [record_event]; the calls are BEGIN, the two statements and COMMIT. *)
Definition record_event (poisoned : bool) (f : DbFault) (ev : NewTaskHistoryEvent)
    (db : TaskHistoryStore) : result SqlError unit * TaskHistoryStore :=
  match lock_conn poisoned with
  | Err e => (Err e, db)
  | Ok _ =>
      let finished_at := if is_terminal (ne_status ev) then Some (ne_occurred_at ev) else None in
      transaction (λ db,
        db ← stmt f 0 id db;
        db ← stmt f 1 (insert_event_row ev) db;
        db ← stmt f 2 (upsert_job_row ev finished_at) db;
        stmt f 3 id db) db
  end.

(** [clear]; AUTOINCREMENT keeps counting. *)
Definition history_clear (poisoned : bool) (f : DbFault) (db : TaskHistoryStore)
  : result SqlError unit * TaskHistoryStore :=
  match lock_conn poisoned with
  | Err e => (Err e, db)
  | Ok _ =>
      transaction (λ db,
        db ← stmt f 0 id db;
        db ← stmt f 1 (λ db, mkTaskHistoryStore (th_jobs db) [] (th_last_id db)) db;
        db ← stmt f 2 (λ db, mkTaskHistoryStore ∅ (th_events db) (th_last_id db)) db;
        stmt f 3 id db) db
  end.

(** [row_to_job] and [row_to_event]: an unknown text is an error. *)
Definition row_to_job (r : JobRow) : result SqlError TaskHistoryJob :=
  source ← ok_or InvalidQuery (TaskHistorySource_from_storage_str (jr_source r));
  current_status ← ok_or InvalidQuery (TaskHistoryStatus_from_storage_str (jr_current_status r));
  Ok (mkTaskHistoryJob (jr_job_id r) (jr_request_id r) (jr_batch_id r) source current_status
        (jr_current_message r) (jr_printer_name r) (jr_paper_name r) (jr_copies r)
        (jr_created_at r) (jr_updated_at r) (jr_finished_at r)).
Definition row_to_event (r : EventRow) : result SqlError TaskHistoryEvent :=
  status ← ok_or InvalidQuery (TaskHistoryStatus_from_storage_str (er_status r));
  Ok (mkTaskHistoryEvent (er_id r) (er_job_id r) status (er_message r) (er_occurred_at r)).

(** [rows.collect()]: the first error is returned. *)
Fixpoint collect_rows {A B} (f : A → result SqlError B) (rows : list A)
  : result SqlError (list B) :=
  match rows with
  | [] => Ok []
  | r :: rows' => x ← f r; xs ← collect_rows f rows'; Ok (x :: xs)
  end.

(** ORDER BY updated_at DESC, job_id DESC *)
Definition job_row_leb (a b : JobRow) : bool :=
  pair_leb (jr_updated_at b, jr_job_id b) (jr_updated_at a, jr_job_id a).
(** ORDER BY occurred_at ASC, id ASC *)
Definition event_row_leb (a b : EventRow) : bool :=
  str_ltb (er_occurred_at a) (er_occurred_at b)
  || (bool_decide (er_occurred_at a = er_occurred_at b) && (er_id a <=? er_id b)).

(** The two queries; a call may fail as a whole. *)
Definition job_rows (db : TaskHistoryStore) : list JobRow := (map_to_list (th_jobs db)).*2.
Definition recent_jobs (poisoned : bool) (f : DbFault) (limit : N) (db : TaskHistoryStore)
  : result SqlError (list TaskHistoryJob) :=
  _ ← lock_conn poisoned;
  rows ← stmt f 0 (λ rows, take (N.to_nat limit) (order_by job_row_leb rows)) (job_rows db);
  collect_rows row_to_job rows.

Definition events_for_job (poisoned : bool) (f : DbFault) (job_id : string)
    (db : TaskHistoryStore) : result SqlError (list TaskHistoryEvent) :=
  _ ← lock_conn poisoned;
  rows ← stmt f 0 (λ rows, order_by event_row_leb
                     (filter (λ r, er_job_id r = job_id) rows)) (th_events db);
  collect_rows row_to_event rows.

(** ** What the tables mean *)

(** The log of the events recorded so far, newest last.  The summary of one
    job's events is the specification of its row. *)
Definition last_some {A} (f : NewTaskHistoryEvent → option A) (evs : list NewTaskHistoryEvent)
  : option A := iter_find_map f (reverse evs).

Definition terminal_time (e : NewTaskHistoryEvent) : option string :=
  if is_terminal (ne_status e) then Some (ne_occurred_at e) else None.

Definition job_summary (evs : list NewTaskHistoryEvent) : option JobRow :=
  first ← head evs;
  last ← last evs;
  Some (mkJobRow (ne_job_id first) (last_some ne_request_id evs) (last_some ne_batch_id evs)
    (TaskHistorySource_as_str (ne_source last)) (TaskHistoryStatus_as_str (ne_status last))
    (ne_message last) (last_some ne_printer_name evs) (last_some ne_paper_name evs)
    (last_some ne_copies evs) (ne_occurred_at first) (ne_occurred_at last)
    (last_some terminal_time evs)).

Definition of_job (j : string) (evs : list NewTaskHistoryEvent) : list NewTaskHistoryEvent :=
  filter (λ e, ne_job_id e = j) evs.

(** The rows of a log recorded from id [n] on. *)
Fixpoint event_rows (n : N) (evs : list NewTaskHistoryEvent) : list EventRow :=
  match evs with
  | [] => []
  | e :: evs' =>
      mkEventRow (n + 1) (ne_job_id e) (TaskHistoryStatus_as_str (ne_status e)) (ne_message e)
        (ne_occurred_at e) :: event_rows (n + 1) evs'
  end.

(** The calls a run makes, with the outcome of each. *)
Inductive HistoryOp :=
  | HRecord (poisoned : bool) (f : DbFault) (ev : NewTaskHistoryEvent)
  | HClear (poisoned : bool) (f : DbFault).

Definition history_step (db : TaskHistoryStore) (op : HistoryOp)
  : result SqlError unit * TaskHistoryStore :=
  match op with
  | HRecord p f ev => record_event p f ev db
  | HClear p f => history_clear p f db
  end.

(** The abstract log: a successful record appends, a successful clear empties. *)
Definition log_after (log : list NewTaskHistoryEvent) (op : HistoryOp) (ok : bool)
  : list NewTaskHistoryEvent :=
  if ok then match op with HRecord _ _ ev => log ++ [ev] | HClear _ _ => [] end else log.

Fixpoint history_run (db : TaskHistoryStore) (log : list NewTaskHistoryEvent)
    (ops : list HistoryOp) : TaskHistoryStore * list NewTaskHistoryEvent :=
  match ops with
  | [] => (db, log)
  | op :: ops' =>
      let '(r, db') := history_step db op in
      history_run db' (log_after log op (is_ok r)) ops'
  end.

(** ** Lemmas *)

Lemma transaction_spec {S} (body : S → result SqlError S) s r s' :
  transaction body s = (r, s') →
  (r = Ok tt ∧ body s = Ok s') ∨ (∃ e, r = Err e ∧ s' = s).
Proof.
  unfold transaction. destruct (body s); intros [= <- <-]; [by left|right]; eauto.
Qed.

Lemma stmt_ok {S} (f : DbFault) i (upd : S → S) s s' :
  stmt f i upd s = Ok s' → s' = upd s.
Proof. unfold stmt. destruct (f i); congruence. Qed.

Lemma record_event_spec p f ev db r db' :
  record_event p f ev db = (r, db') →
  (r = Ok tt ∧ db' = upsert_job_row ev (terminal_time ev) (insert_event_row ev db)) ∨
  (∃ e, r = Err e ∧ db' = db).
Proof.
  unfold record_event. destruct p; simpl; [intros [= <- <-]; right; eauto|].
  intros [[-> H]|?]%transaction_spec; [left|by right]. split; [done|].
  apply result_bind_ok in H as (?&->%stmt_ok&H).
  apply result_bind_ok in H as (?&->%stmt_ok&H).
  apply result_bind_ok in H as (?&->%stmt_ok&H). by apply stmt_ok in H as ->.
Qed.

Lemma history_clear_spec p f db r db' :
  history_clear p f db = (r, db') →
  (r = Ok tt ∧ db' = mkTaskHistoryStore ∅ [] (th_last_id db)) ∨ (∃ e, r = Err e ∧ db' = db).
Proof.
  unfold history_clear. destruct p; simpl; [intros [= <- <-]; right; eauto|].
  intros [[-> H]|?]%transaction_spec; [left|by right]. split; [done|].
  apply result_bind_ok in H as (?&->%stmt_ok&H).
  apply result_bind_ok in H as (?&->%stmt_ok&H).
  apply result_bind_ok in H as (?&->%stmt_ok&H). by apply stmt_ok in H as ->.
Qed.

Lemma last_some_snoc {A} (f : NewTaskHistoryEvent → option A) evs e :
  last_some f (evs ++ [e]) = opt_or (f e) (last_some f evs).
Proof.
  unfold last_some. rewrite reverse_snoc. simpl. by destruct (f e).
Qed.

Lemma last_some_single {A} (f : NewTaskHistoryEvent → option A) e : last_some f [e] = f e.
Proof. change (last_some f [e]) with (opt_or (f e) None). by destruct (f e). Qed.

Lemma of_job_snoc j evs e :
  of_job j (evs ++ [e]) = of_job j evs ++ (if decide (ne_job_id e = j) then [e] else []).
Proof. unfold of_job. by rewrite filter_app, filter_cons, filter_nil. Qed.

(** Recording an event updates the summary the way the upsert does. *)
Lemma job_summary_snoc evs e :
  job_summary (evs ++ [e]) =
  Some (let row := new_job_row e (terminal_time e) in
        match job_summary evs with Some old => update_job_row row old | None => row end).
Proof.
  unfold job_summary. destruct evs as [|e0 evs].
  { cbn [app head last mbind option_bind]. by rewrite !last_some_single. }
  rewrite last_snoc. cbn [app head mbind option_bind]. rewrite app_comm_cons, !last_some_snoc.
  destruct (last (e0 :: evs)) as [l|] eqn:Hl; [|by apply last_None in Hl]. done.
Qed.

Lemma event_rows_snoc n evs e :
  event_rows n (evs ++ [e]) =
  event_rows n evs ++
    [mkEventRow (n + N.of_nat (length evs) + 1) (ne_job_id e)
       (TaskHistoryStatus_as_str (ne_status e)) (ne_message e) (ne_occurred_at e)].
Proof.
  revert n. induction evs as [|x evs IH]; intros n; cbn [event_rows app length].
  - by rewrite N.add_0_r.
  - rewrite IH, Nat2N.inj_succ, N.add_succ_r.
    by replace (n + 1 + N.of_nat (length evs)) with (N.succ (n + N.of_nat (length evs))) by lia.
Qed.

(** The tables stand for the log. *)
Record history_rep (db : TaskHistoryStore) (log : list NewTaskHistoryEvent) : Prop := {
  hr_jobs j : th_jobs db !! j = job_summary (of_job j log);
  hr_base : ∃ n, th_events db = event_rows n log ∧ th_last_id db = n + N.of_nat (length log)
}.

Lemma record_rep db log ev :
  history_rep db log →
  history_rep (upsert_job_row ev (terminal_time ev) (insert_event_row ev db)) (log ++ [ev]).
Proof.
  intros [Hj (n&He&Hn)]. split.
  - intros j. simpl. rewrite of_job_snoc. destruct (decide (ne_job_id ev = j)) as [<-|Hne].
    + rewrite lookup_insert, decide_True by done. by rewrite job_summary_snoc, Hj.
    + by rewrite lookup_insert_ne, app_nil_r by done.
  - exists n. simpl. rewrite He, Hn, event_rows_snoc, length_app. simpl. split; [done|lia].
Qed.

Lemma history_step_rep db log op :
  history_rep db log →
  history_rep (history_step db op).2 (log_after log op (is_ok (history_step db op).1)).
Proof.
  intros Hr. destruct op as [p f ev|p f]; simpl.
  - destruct (record_event p f ev db) as [r db'] eqn:H.
    apply record_event_spec in H as [[-> ->]|(e&->&->)]; simpl; [by apply record_rep|done].
  - destruct (history_clear p f db) as [r db'] eqn:H.
    apply history_clear_spec in H as [[-> ->]|(e&->&->)]; simpl; [|done].
    split; [by intros j|]. exists (th_last_id db). simpl. split; [done|lia].
Qed.

Lemma history_run_rep ops db log :
  history_rep db log → let '(db', log') := history_run db log ops in history_rep db' log'.
Proof.
  revert db log. induction ops as [|op ops IH]; intros db log Hr; simpl; [done|].
  pose proof (history_step_rep db log op Hr) as Hs.
  destruct (history_step db op) as [r db']. by apply IH.
Qed.

Lemma history_new_rep : history_rep TaskHistoryStore_new [].
Proof. split; [done|]. by exists 0. Qed.

Lemma job_row_leb_total a b : job_row_leb a b = true ∨ job_row_leb b a = true.
Proof. apply pair_leb_total. Qed.
Lemma job_row_leb_trans a b c :
  job_row_leb a b = true → job_row_leb b c = true → job_row_leb a c = true.
Proof. intros ??. by eapply pair_leb_trans. Qed.

Lemma event_row_leb_spec a b :
  event_row_leb a b = true ↔
  str_leb (er_occurred_at a) (er_occurred_at b) = true ∧
  (er_occurred_at a = er_occurred_at b → er_id a ≤ er_id b).
Proof.
  unfold event_row_leb.
  rewrite orb_true_iff, andb_true_iff, str_ltb_spec, bool_decide_eq_true, N.leb_le. split.
  - intros [[??]|[H ?]]; [by split|]. by rewrite H, str_leb_refl.
  - intros [H1 H2]. destruct (decide (er_occurred_at a = er_occurred_at b)); auto.
Qed.
Lemma event_row_leb_total a b : event_row_leb a b = true ∨ event_row_leb b a = true.
Proof.
  rewrite !event_row_leb_spec.
  destruct (decide (er_occurred_at a = er_occurred_at b)) as [->|Hne].
  - rewrite str_leb_refl. destruct (N.le_ge_cases (er_id a) (er_id b)); auto.
  - destruct (str_leb_total (er_occurred_at a) (er_occurred_at b)); [left|right];
      (split; [done|]); congruence.
Qed.
Lemma event_row_leb_trans a b c :
  event_row_leb a b = true → event_row_leb b c = true → event_row_leb a c = true.
Proof.
  rewrite !event_row_leb_spec. intros [H1 H2] [H3 H4]. split; [by eapply str_leb_trans|].
  intros Hac. assert (er_occurred_at a = er_occurred_at b) as Hab.
  { apply str_leb_antisym; [done|]. by rewrite Hac. }
  etrans; [by apply H2|]. apply H4. congruence.
Qed.

Lemma collect_rows_ok {A B} (f : A → result SqlError B) rows xs :
  collect_rows f rows = Ok xs ↔ Forall2 (λ r x, f r = Ok x) rows xs.
Proof.
  revert xs. induction rows as [|r rows IH]; intros xs; simpl.
  - split; [intros [= <-]; constructor|by inversion 1].
  - rewrite result_bind_ok. setoid_rewrite result_bind_ok. setoid_rewrite IH. split.
    + intros (x&?&xs'&?&[= <-]). by constructor.
    + inversion 1; subst. eauto 10.
Qed.

Lemma job_summary_decodes evs r : job_summary evs = Some r → ∃ x, row_to_job r = Ok x.
Proof.
  unfold job_summary. destruct (head evs) as [e|]; [|done]. simpl.
  destruct (last evs) as [l|]; [|done]. intros [= <-].
  unfold row_to_job. cbn [jr_source jr_current_status].
  rewrite source_from_as_str, status_from_as_str. by eexists.
Qed.

Lemma Forall_collect {A B} (f : A → result SqlError B) rows :
  Forall (λ r, ∃ x, f r = Ok x) rows →
  ∃ xs, collect_rows f rows = Ok xs ∧ Forall2 (λ r x, f r = Ok x) rows xs.
Proof.
  intros Hf. induction Hf as [|r rows [x Hx] _ (xs&Hxs&?)]; [by exists []|].
  exists (x :: xs). simpl. rewrite Hx. simpl. rewrite Hxs. auto.
Qed.

Lemma job_rows_decode db log :
  history_rep db log → Forall (λ r, ∃ x, row_to_job r = Ok x) (job_rows db).
Proof.
  intros [Hj _]. apply Forall_forall. intros r Hr. unfold job_rows in Hr.
  apply list_elem_of_fmap in Hr as ([j r']&->&Hr). apply elem_of_map_to_list in Hr.
  rewrite Hj in Hr. by eapply job_summary_decodes.
Qed.

Lemma event_rows_decode n log : Forall (λ r, ∃ x, row_to_event r = Ok x) (event_rows n log).
Proof.
  revert n. induction log as [|e log IH]; intros n; simpl; constructor; [|apply IH].
  unfold row_to_event. simpl. rewrite status_from_as_str. by eexists.
Qed.

(** Ids grow along the table. *)
Lemma event_rows_ids n log r : r ∈ event_rows n log → n < er_id r.
Proof.
  revert n. induction log as [|e log IH]; intros n; simpl; [by intros ?%not_elem_of_nil|].
  intros [->|Hr]%elem_of_cons; simpl; [lia|]. apply IH in Hr. lia.
Qed.

Lemma event_rows_ids_inj n log a b :
  a ∈ event_rows n log → b ∈ event_rows n log → er_id a = er_id b → a = b.
Proof.
  revert n. induction log as [|e log IH]; intros n; simpl; [by intros ?%not_elem_of_nil|].
  intros [->|Ha]%elem_of_cons [->|Hb]%elem_of_cons; simpl; intros Heq; [done|..].
  - apply event_rows_ids in Hb. lia.
  - apply event_rows_ids in Ha. lia.
  - by eapply IH.
Qed.

(** The times of a log never decrease, as texts. *)
Definition times_sorted (evs : list NewTaskHistoryEvent) : Prop :=
  StronglySorted (λ a b, str_leb (ne_occurred_at a) (ne_occurred_at b) = true) evs.

Lemma event_rows_sorted n j log :
  times_sorted (of_job j log) →
  StronglySorted (rows_le event_row_leb) (filter (λ r, er_job_id r = j) (event_rows n log)).
Proof.
  unfold times_sorted, of_job. revert n. induction log as [|e log IH]; intros n Hs; simpl;
    [constructor|].
  revert Hs. rewrite !filter_cons. simpl.
  destruct (decide (ne_job_id e = j)); [|apply IH]. intros Hs.
  apply StronglySorted_cons in Hs as [Hf Hs]. constructor; [by apply IH|].
  clear IH Hs. apply Forall_forall. intros r [Hr Hin]%list_elem_of_filter.
  apply event_row_leb_spec. cbn [er_id er_occurred_at]. split.
  - assert (∃ e', e' ∈ log ∧ ne_job_id e' = j ∧ ne_occurred_at e' = er_occurred_at r)
      as (e'&?&?&<-).
    { revert Hr Hin. clear. generalize (n + 1). induction log as [|x log IH]; intros m Hr; simpl;
        [by intros ?%not_elem_of_nil|].
      intros [->|Hin]%elem_of_cons; [exists x; simpl in *; split_and!; [by left|done|done]|].
      destruct (IH _ Hr Hin) as (e'&?&?&?). exists e'. split_and!; [by right|done|done]. }
    eapply Forall_forall in Hf; [exact Hf|]. by apply list_elem_of_filter.
  - intros _. apply event_rows_ids in Hin. lia.
Qed.

(** What a client reads of one event. *)
Definition event_view (e : TaskHistoryEvent) : string * TaskHistoryStatus * option string * string :=
  (he_job_id e, he_status e, he_message e, he_occurred_at e).
Definition new_event_view (e : NewTaskHistoryEvent) :=
  (ne_job_id e, ne_status e, ne_message e, ne_occurred_at e).

Lemma event_rows_view n j log xs :
  Forall2 (λ r x, row_to_event r = Ok x) (filter (λ r, er_job_id r = j) (event_rows n log)) xs →
  map event_view xs = map new_event_view (of_job j log).
Proof.
  unfold of_job. revert n xs. induction log as [|e log IH]; intros n xs; simpl.
  { inversion 1. done. }
  rewrite !filter_cons. simpl. destruct (decide (ne_job_id e = j)); [|apply IH].
  inversion 1 as [|r x rows xs' Hr Hf]; subst. simpl. f_equal; [|by eapply IH].
  unfold row_to_event in Hr. simpl in Hr. rewrite status_from_as_str in Hr.
  by injection Hr as <-.
Qed.

(** ** Properties *)

(** Whatever sequence of calls is made on a new store, with failures at any
    statement, the job row of every id is the summary of the events recorded for
    it (latest status, message and time; first creation time; latest known value
    of the optional columns; time of the latest terminal status), and the events
    table holds exactly the recorded events in order.  So an event is in both
    tables or in neither. *)
Theorem history_tables_consistent (ops : list HistoryOp) :
  let '(db, log) := history_run TaskHistoryStore_new [] ops in
  (∀ j, th_jobs db !! j = job_summary (of_job j log)) ∧
  ∃ n, th_events db = event_rows n log ∧ th_last_id db = n + N.of_nat (length log).
Proof.
  pose proof (history_run_rep ops _ _ history_new_rep) as Hr.
  destruct (history_run _ _ ops) as [db log]. by destruct Hr.
Qed.

(** On any reachable store [recent_jobs] succeeds and returns [limit] jobs
    (or all when there are fewer), decoded, most recently updated first, and no
    job left out was updated after one returned. *)
Theorem recent_jobs_spec (ops : list HistoryOp) (limit : N) :
  let '(db, _) := history_run TaskHistoryStore_new [] ops in
  ∃ kept dropped jobs,
    recent_jobs false no_fault limit db = Ok jobs ∧
    Forall2 (λ r x, row_to_job r = Ok x) kept jobs ∧
    kept ++ dropped ≡ₚ job_rows db ∧
    length jobs = Nat.min (N.to_nat limit) (size (th_jobs db)) ∧
    StronglySorted (λ a b, job_row_leb a b = true) kept ∧
    ∀ a b, a ∈ kept → b ∈ dropped → job_row_leb a b = true.
Proof.
  pose proof (history_run_rep ops _ _ history_new_rep) as Hr.
  destruct (history_run _ _ ops) as [db log].
  set (rows := order_by job_row_leb (job_rows db)).
  assert (rows ≡ₚ job_rows db) as Hp by apply order_by_perm.
  assert (Forall (λ r, ∃ x, row_to_job r = Ok x) (take (N.to_nat limit) rows)) as Hd.
  { apply Forall_take. rewrite Hp. by eapply job_rows_decode. }
  destruct (Forall_collect _ _ Hd) as (jobs&Hjobs&Hf).
  exists (take (N.to_nat limit) rows), (drop (N.to_nat limit) rows), jobs. split_and!.
  - done.
  - done.
  - by rewrite take_drop.
  - rewrite <-(Forall2_length _ _ _ Hf), length_take, Hp. unfold job_rows.
    by rewrite length_fmap, length_map_to_list.
  - apply order_by_take_sorted; [apply job_row_leb_total|apply job_row_leb_trans].
  - intros a b. apply order_by_take; [apply job_row_leb_total|apply job_row_leb_trans].
Qed.

(** On any reachable store [events_for_job] succeeds and returns exactly the
    recorded events of the job, and in the order they were recorded when their
    times do not decrease. *)
Theorem events_for_job_spec (ops : list HistoryOp) (j : string) :
  let '(db, log) := history_run TaskHistoryStore_new [] ops in
  ∃ evs, events_for_job false no_fault j db = Ok evs ∧
    map event_view evs ≡ₚ map new_event_view (of_job j log) ∧
    (times_sorted (of_job j log) → map event_view evs = map new_event_view (of_job j log)).
Proof.
  pose proof (history_run_rep ops _ _ history_new_rep) as Hr.
  destruct (history_run _ _ ops) as [db log]. destruct Hr as [_ (n&He&_)].
  set (rows := filter (λ r, er_job_id r = j) (th_events db)).
  assert (order_by event_row_leb rows ≡ₚ rows) as Hp by apply order_by_perm.
  assert (Forall (λ r, ∃ x, row_to_event r = Ok x) (order_by event_row_leb rows)) as Hd.
  { rewrite Hp. unfold rows. rewrite He. apply Forall_forall. intros r [_ Hr]%list_elem_of_filter.
    pose proof (event_rows_decode n log) as Hd. by eapply Forall_forall in Hd. }
  destruct (Forall_collect _ _ Hd) as (evs&Hevs&Hf). exists evs. split_and!; [done|..].
  - destruct (Permutation_Forall2 Hp Hf) as (evs'&Hpe&Hf').
    unfold rows in Hf'. rewrite He in Hf'. apply event_rows_view in Hf'.
    rewrite <-Hf'. apply Permutation_map, Hpe.
  - intros Hs. apply (event_rows_view n). rewrite <-He. fold rows.
    assert (order_by event_row_leb rows = rows) as <-; [|done].
    eapply (StronglySorted_unique_strong (rows_le event_row_leb)); [|..|done].
    + intros a b Ha Hb Hab Hba.
      rewrite Hp in Ha. apply list_elem_of_filter in Ha as [_ Ha].
      apply list_elem_of_filter in Hb as [_ Hb]. rewrite He in Ha, Hb.
      eapply event_rows_ids_inj; [done..|].
      apply event_row_leb_spec in Hab as [Hab Hab'], Hba as [Hba Hba'].
      assert (er_occurred_at a = er_occurred_at b) as Heq by by apply str_leb_antisym.
      apply N.le_antisymm; [by apply Hab'|by apply Hba'].
    + apply order_by_sorted; [apply event_row_leb_total|apply event_row_leb_trans].
    + unfold rows. rewrite He. by apply event_rows_sorted.
Qed.
