(* ===== verification/RemoteStore.v ===== *)
(** * The remote store ([crates/runtime/src/remote_store.rs])

    The SQLite tables that remember which remote jobs were seen and which status
    reports still have to be delivered, with every operation on them. *)

From S2P Require Import Prelude RustStr Sqlite TaskHistory.
From stdpp Require Import sorting.
Open Scope string_scope.
Open Scope N_scope.
Open Scope list_scope.

Inductive RemoteReportStatus := Accepted | Success | RFailed.
#[export] Instance RemoteReportStatus_eq_dec : EqDecision RemoteReportStatus.
Proof. solve_decision. Defined.

Inductive RemoteDeliveryState := Pending | Delivered | Abandoned.
#[export] Instance RemoteDeliveryState_eq_dec : EqDecision RemoteDeliveryState.
Proof. solve_decision. Defined.

(** [DeliveryFailureOutcome] *)
Inductive DeliveryFailureOutcome := OWillRetry | OAbandoned.
#[export] Instance DeliveryFailureOutcome_eq_dec : EqDecision DeliveryFailureOutcome.
Proof. solve_decision. Defined.

(** [RemoteReportStatus::as_str] and [from_str] *)
Definition report_as_str (s : RemoteReportStatus) : string :=
  match s with Accepted => "accepted" | Success => "success" | RFailed => "failed" end.
Definition report_from_str (value : string) : result SqlError RemoteReportStatus :=
  if bool_decide (value = "accepted") then Ok Accepted
  else if bool_decide (value = "success") then Ok Success
  else if bool_decide (value = "failed") then Ok RFailed
  else Err InvalidQuery.

(** [RemoteDeliveryState::as_str] and [from_str] *)
Definition delivery_as_str (s : RemoteDeliveryState) : string :=
  match s with Pending => "pending" | Delivered => "delivered" | Abandoned => "abandoned" end.
Definition delivery_from_str (value : string) : result SqlError RemoteDeliveryState :=
  if bool_decide (value = "pending") then Ok Pending
  else if bool_decide (value = "delivered") then Ok Delivered
  else if bool_decide (value = "abandoned") then Ok Abandoned
  else Err InvalidQuery.

(** [NewRemoteJob], [NewRemoteStatusEvent] and [RemoteStatusEvent] *)
Record NewRemoteJob := mkNewRemoteJob {
  nj_request_id : string; nj_batch_id : option string;
  nj_job_id : string; nj_first_seen_at : string
}.
Record NewRemoteStatusEvent := mkNewRemoteStatusEvent {
  nse_job_id : string; nse_request_id : string; nse_batch_id : option string;
  nse_status : RemoteReportStatus; nse_message : option string;
  nse_occurred_at : string; nse_next_retry_at : string
}.
Record RemoteStatusEvent := mkRemoteStatusEvent {
  rse_event_id : string;
  rse_job_id : string;
  rse_request_id : string;
  rse_batch_id : option string;
  rse_status : RemoteReportStatus;
  rse_message : option string;
  rse_occurred_at : string;
  rse_delivery_state : RemoteDeliveryState;
  rse_retry_count : N;
  rse_next_retry_at : string;
  rse_last_error : option string
}.
#[export] Instance RemoteStatusEvent_eq_dec : EqDecision RemoteStatusEvent.
Proof. solve_decision. Defined.

(** The rows of [remote_jobs] and of [remote_status_events]. *)
Record RemoteJobRow := mkRemoteJobRow {
  rj_request_id : string; rj_batch_id : option string; rj_status : string;
  rj_first_seen_at : string; rj_updated_at : string
}.
Record StatusRow := mkStatusRow {
  sr_event_id : string; sr_job_id : string; sr_request_id : string;
  sr_batch_id : option string; sr_status : string; sr_message : option string;
  sr_occurred_at : string; sr_delivery_state : string; sr_delivered_at : option string;
  sr_retry_count : N; sr_next_retry_at : string; sr_last_error : option string
}.

(** The connection's content; [job_id] is the key of the jobs, and the events
    are in insertion order. *)
Record RemoteStore := mkRemoteStore {
  remote_jobs : gmap string RemoteJobRow;
  remote_status_events : list StatusRow
}.
(** [initialize_schema] on a new database. *)
Definition RemoteStore_new : RemoteStore := mkRemoteStore ∅ [].

(** A single statement that returns a value and changes the store. *)
Definition execute {A} (f : DbFault) (i : nat) (upd : RemoteStore → A * RemoteStore)
    (db : RemoteStore) : result SqlError A * RemoteStore :=
  match f i with
  | Some e => (Err e, db)
  | None => let '(a, db') := upd db in (Ok a, db')
  end.

(** [record_job_if_new]: INSERT OR IGNORE on the primary key. *)
Definition record_job_if_new (f : DbFault) (job : NewRemoteJob) (db : RemoteStore)
  : result SqlError bool * RemoteStore :=
  execute f 0 (λ db,
    match remote_jobs db !! nj_job_id job with
    | Some _ => (false, db)
    | None =>
        (true, mkRemoteStore
           (<[nj_job_id job := mkRemoteJobRow (nj_request_id job) (nj_batch_id job) "queued"
                                (nj_first_seen_at job) (nj_first_seen_at job)]> (remote_jobs db))
           (remote_status_events db))
    end) db.

(** [row_to_status_event] *)
Definition row_to_status_event (r : StatusRow) : result SqlError RemoteStatusEvent :=
  status ← report_from_str (sr_status r);
  delivery_state ← delivery_from_str (sr_delivery_state r);
  Ok (mkRemoteStatusEvent (sr_event_id r) (sr_job_id r) (sr_request_id r) (sr_batch_id r)
        status (sr_message r) (sr_occurred_at r) delivery_state (sr_retry_count r)
        (sr_next_retry_at r) (sr_last_error r)).

(** [find_status_event_locked]: the row of the primary key, if any. *)
Definition find_row (event_id : string) (db : RemoteStore) : option StatusRow :=
  iter_find (λ r, bool_decide (sr_event_id r = event_id)) (remote_status_events db).
Definition find_status_event_locked (f : DbFault) (i : nat) (event_id : string)
    (db : RemoteStore) : result SqlError (option RemoteStatusEvent) :=
  match f i with
  | Some e => Err e
  | None =>
      match find_row event_id db with
      | None => Ok None
      | Some r => ev ← row_to_status_event r; Ok (Some ev)
      end
  end.

(** The INSERT OR IGNORE of a status event: the primary key and the unique index
    on (job_id, status) make it ignore. *)
Definition status_conflict (event_id job_id status : string) (r : StatusRow) : bool :=
  bool_decide (sr_event_id r = event_id) ||
  (bool_decide (sr_job_id r = job_id) && bool_decide (sr_status r = status)).
Definition new_status_row (event_id : string) (ev : NewRemoteStatusEvent) : StatusRow :=
  mkStatusRow event_id (nse_job_id ev) (nse_request_id ev) (nse_batch_id ev)
    (report_as_str (nse_status ev)) (nse_message ev) (nse_occurred_at ev) "pending" None 0
    (nse_next_retry_at ev) None.

(** [insert_status_event]; the fresh UUID is an argument. *)
Definition insert_status_event (f : DbFault) (event_id : string) (ev : NewRemoteStatusEvent)
    (db : RemoteStore) : result SqlError (option RemoteStatusEvent) * RemoteStore :=
  let '(inserted, db') := execute f 0 (λ db,
    if existsb (status_conflict event_id (nse_job_id ev) (report_as_str (nse_status ev)))
         (remote_status_events db)
    then (0, db)
    else (1, mkRemoteStore (remote_jobs db)
               (remote_status_events db ++ [new_status_row event_id ev]))) db in
  match inserted with
  | Err e => (Err e, db')
  | Ok n => if n =? 0 then (Ok None, db')
            else (find_status_event_locked f 1 event_id db', db')
  end.

(** ORDER BY occurred_at ASC, event_id ASC *)
Definition status_row_leb (a b : StatusRow) : bool :=
  pair_leb (sr_occurred_at a, sr_event_id a) (sr_occurred_at b, sr_event_id b).
Definition is_due (now : string) (r : StatusRow) : bool :=
  bool_decide (sr_delivery_state r = "pending") && str_leb (sr_next_retry_at r) now.

(** [pending_status_events] *)
Definition pending_status_events (f : DbFault) (now : string) (limit : N) (db : RemoteStore)
  : result SqlError (list RemoteStatusEvent) :=
  match f O with
  | Some e => Err e
  | None =>
      collect_rows row_to_status_event
        (take (N.to_nat limit)
           (order_by status_row_leb (filter (λ r, is_due now r = true) (remote_status_events db))))
  end.

(** UPDATE ... WHERE event_id = ?1 *)
Definition update_event (event_id : string) (upd : StatusRow → StatusRow) (db : RemoteStore)
  : RemoteStore :=
  mkRemoteStore (remote_jobs db)
    (map (λ r, if bool_decide (sr_event_id r = event_id) then upd r else r)
       (remote_status_events db)).

(** [mark_delivered] *)
Definition set_delivered (delivered_at : string) (r : StatusRow) : StatusRow :=
  mkStatusRow (sr_event_id r) (sr_job_id r) (sr_request_id r) (sr_batch_id r) (sr_status r)
    (sr_message r) (sr_occurred_at r) "delivered" (Some delivered_at) (sr_retry_count r)
    (sr_next_retry_at r) None.
Definition mark_delivered (f : DbFault) (event_id delivered_at : string) (db : RemoteStore)
  : result SqlError unit * RemoteStore :=
  execute f 0 (λ db, (tt, update_event event_id (set_delivered delivered_at) db)) db.

(** [mark_delivery_failed] *)
Definition set_failed (count : N) (next_retry_at error : string) (state : RemoteDeliveryState)
    (r : StatusRow) : StatusRow :=
  mkStatusRow (sr_event_id r) (sr_job_id r) (sr_request_id r) (sr_batch_id r) (sr_status r)
    (sr_message r) (sr_occurred_at r) (delivery_as_str state) (sr_delivered_at r) count
    next_retry_at (Some error).
Definition mark_delivery_failed (f : DbFault) (event_id next_retry_at error : string)
    (max_retries : N) (db : RemoteStore) : result SqlError DeliveryFailureOutcome * RemoteStore :=
  match f O with
  | Some e => (Err e, db)
  | None =>
      match find_row event_id db with
      | None => (Err QueryReturnedNoRows, db)
      | Some r =>
          let next_retry_count := saturating_add_u32 (sr_retry_count r) 1 in
          let outcome := if max_retries <=? next_retry_count then OAbandoned else OWillRetry in
          let delivery_state :=
            match outcome with OWillRetry => Pending | OAbandoned => Abandoned end in
          execute f 1 (λ db,
            (outcome, update_event event_id
                        (set_failed next_retry_count next_retry_at error delivery_state) db)) db
      end
  end.

(** [cleanup_delivered_before]; a NULL [delivered_at] compares as unknown. *)
Definition delivered_before (cutoff : string) (r : StatusRow) : bool :=
  bool_decide (sr_delivery_state r = "delivered") &&
  match sr_delivered_at r with Some t => str_ltb t cutoff | None => false end.
Definition cleanup_delivered_before (f : DbFault) (cutoff : string) (db : RemoteStore)
  : result SqlError nat * RemoteStore :=
  execute f 0 (λ db,
    (length (filter (λ r, delivered_before cutoff r = true) (remote_status_events db)),
     mkRemoteStore (remote_jobs db)
       (filter (λ r, delivered_before cutoff r = false) (remote_status_events db)))) db.

(** ** Runs *)

(** Every call that changes the store. *)
Inductive RemoteOp :=
  | RRecord (f : DbFault) (job : NewRemoteJob)
  | RInsert (f : DbFault) (event_id : string) (ev : NewRemoteStatusEvent)
  | RDelivered (f : DbFault) (event_id delivered_at : string)
  | RDeliveryFailed (f : DbFault) (event_id next_retry_at error : string) (max_retries : N)
  | RCleanup (f : DbFault) (cutoff : string).

Definition remote_step (db : RemoteStore) (op : RemoteOp) : RemoteStore :=
  match op with
  | RRecord f j => (record_job_if_new f j db).2
  | RInsert f id ev => (insert_status_event f id ev db).2
  | RDelivered f id t => (mark_delivered f id t db).2
  | RDeliveryFailed f id t e m => (mark_delivery_failed f id t e m db).2
  | RCleanup f c => (cleanup_delivered_before f c db).2
  end.
Definition remote_run (db : RemoteStore) (ops : list RemoteOp) : RemoteStore :=
  fold_left remote_step ops db.

(** The ids whose recording returned [Ok true], in order. *)
Fixpoint newly_recorded (db : RemoteStore) (ops : list RemoteOp) : list string :=
  match ops with
  | [] => []
  | op :: ops' =>
      match op with
      | RRecord f j =>
          match (record_job_if_new f j db).1 with Ok true => [nj_job_id j] | _ => [] end
      | _ => []
      end ++ newly_recorded (remote_step db op) ops'
  end.

(** The invariant of the tables: keys and the unique index, and readable text. *)
Record store_inv (db : RemoteStore) : Prop := {
  si_ids : NoDup (map sr_event_id (remote_status_events db));
  si_job_status : NoDup (map (λ r, (sr_job_id r, sr_status r)) (remote_status_events db));
  si_readable : Forall (λ r, ∃ e, row_to_status_event r = Ok e) (remote_status_events db)
}.

(** ** Lemmas *)

Lemma execute_spec {A} f i (upd : RemoteStore → A * RemoteStore) db :
  (∃ e, f i = Some e ∧ execute f i upd db = (Err e, db)) ∨
  (f i = None ∧ execute f i upd db = (Ok (upd db).1, (upd db).2)).
Proof.
  unfold execute. destruct (f i) as [e|]; [left; eauto|right].
  by destruct (upd db).
Qed.

(** Splits on whether the statement of the goal failed. *)
Ltac exec_cases :=
  match goal with
  | |- context [execute ?f ?i ?u ?d] =>
      destruct (execute_spec f i u d) as [(?&?&->)|[? ->]]; simpl
  end.

Lemma report_from_as_str s : report_from_str (report_as_str s) = Ok s.
Proof. by destruct s. Qed.
Lemma delivery_from_as_str s : delivery_from_str (delivery_as_str s) = Ok s.
Proof. by destruct s. Qed.

Lemma report_from_str_ok v s : report_from_str v = Ok s → v = report_as_str s.
Proof.
  unfold report_from_str. intros H. by repeat (case_bool_decide; [by simplify_eq|]).
Qed.
Lemma delivery_from_str_ok v s : delivery_from_str v = Ok s → v = delivery_as_str s.
Proof.
  unfold delivery_from_str. intros H. by repeat (case_bool_decide; [by simplify_eq|]).
Qed.

Lemma row_readable r s d :
  sr_status r = report_as_str s → sr_delivery_state r = delivery_as_str d →
  ∃ e, row_to_status_event r = Ok e.
Proof.
  intros Hs Hd. unfold row_to_status_event.
  rewrite Hs, Hd, report_from_as_str, delivery_from_as_str. by eexists.
Qed.

Lemma row_readable_inv r e :
  row_to_status_event r = Ok e →
  sr_status r = report_as_str (rse_status e) ∧
  sr_delivery_state r = delivery_as_str (rse_delivery_state e) ∧
  sr_event_id r = rse_event_id e ∧ sr_job_id r = rse_job_id e ∧
  sr_occurred_at r = rse_occurred_at e ∧ sr_retry_count r = rse_retry_count e ∧
  sr_next_retry_at r = rse_next_retry_at e.
Proof.
  unfold row_to_status_event. intros (s&Hs&H)%result_bind_ok.
  apply result_bind_ok in H as (d&Hd&[= <-]). simpl.
  apply report_from_str_ok in Hs. apply delivery_from_str_ok in Hd. done.
Qed.

Lemma status_conflict_false event_id job_id status r :
  status_conflict event_id job_id status r = false ↔
  sr_event_id r ≠ event_id ∧ (sr_job_id r, sr_status r) ≠ (job_id, status).
Proof.
  unfold status_conflict. rewrite orb_false_iff, andb_false_iff, !bool_decide_eq_false.
  split; [intros [? ?]; split; [done|]; intros [= ? ?]; intuition|].
  intros [? H]. split; [done|]. destruct (decide (sr_job_id r = job_id)); [right|by left].
  intros ?. apply H. by subst.
Qed.

Lemma update_event_inv id upd db :
  (∀ r, sr_event_id (upd r) = sr_event_id r ∧ sr_job_id (upd r) = sr_job_id r ∧
        sr_status (upd r) = sr_status r) →
  (∀ r, ∃ d, sr_delivery_state (upd r) = delivery_as_str d) →
  store_inv db → store_inv (update_event id upd db).
Proof.
  intros Hk Hd [H1 H2 H3]. unfold update_event.
  assert (∀ r : StatusRow, sr_event_id (if bool_decide (sr_event_id r = id) then upd r else r)
            = sr_event_id r ∧
          (sr_job_id (if bool_decide (sr_event_id r = id) then upd r else r),
           sr_status (if bool_decide (sr_event_id r = id) then upd r else r))
            = (sr_job_id r, sr_status r)) as Hr.
  { intros r. case_bool_decide; [|done]. destruct (Hk r) as (->&->&->). done. }
  split; simpl.
  - rewrite map_map. erewrite map_ext; [exact H1|]. intros r. by destruct (Hr r).
  - rewrite map_map. erewrite map_ext; [exact H2|]. intros r. by destruct (Hr r).
  - apply Forall_map. eapply Forall_impl; [exact H3|]. intros r [e He].
    case_bool_decide; [|by exists e]. destruct (Hd r) as [d Hd'].
    apply row_readable_inv in He as (He&_). destruct (Hk r) as (_&_&Hs).
    eapply row_readable; [by rewrite Hs|done].
Qed.

Lemma filter_inv (P : StatusRow → bool) b db :
  store_inv db →
  store_inv (mkRemoteStore (remote_jobs db)
    (filter (λ r, P r = b) (remote_status_events db))).
Proof.
  intros [H1 H2 H3]. split; simpl.
  - by apply NoDup_map_filter.
  - by apply NoDup_map_filter.
  - by apply Forall_filter_keep.
Qed.

Lemma insert_row_inv id ev db :
  existsb (status_conflict id (nse_job_id ev) (report_as_str (nse_status ev)))
    (remote_status_events db) = false →
  store_inv db →
  store_inv (mkRemoteStore (remote_jobs db)
    (remote_status_events db ++ [new_status_row id ev])).
Proof.
  intros Hc [H1 H2 H3]. pose proof (proj1 (existsb_false _ _) Hc) as Hf.
  assert (∀ r, r ∈ remote_status_events db → sr_event_id r ≠ id ∧
    (sr_job_id r, sr_status r) ≠ (nse_job_id ev, report_as_str (nse_status ev))) as Hr
    by (intros r Hr; by apply status_conflict_false, Hf).
  split; simpl.
  - rewrite map_app. apply NoDup_app. split_and!; [done| |apply NoDup_singleton].
    intros x (r&->&Hin)%list_elem_of_fmap Hx%list_elem_of_singleton.
    by destruct (Hr r Hin) as [[] _].
  - rewrite map_app. apply NoDup_app. split_and!; [done| |apply NoDup_singleton].
    intros x (r&->&Hin)%list_elem_of_fmap Hx%list_elem_of_singleton.
    by destruct (Hr r Hin) as [_ []].
  - apply Forall_app. split; [done|]. apply Forall_singleton.
    by apply (row_readable _ (nse_status ev) Pending).
Qed.

Lemma record_job_if_new_spec f j db :
  match (record_job_if_new f j db).1 with
  | Ok b => b = bool_decide (remote_jobs db !! nj_job_id j = None) ∧
      remote_status_events (record_job_if_new f j db).2 = remote_status_events db ∧
      ∀ i, is_Some (remote_jobs (record_job_if_new f j db).2 !! i) ↔
           is_Some (remote_jobs db !! i) ∨ i = nj_job_id j
  | Err _ => (record_job_if_new f j db).2 = db
  end.
Proof.
  unfold record_job_if_new. exec_cases; [done|].
  destruct (remote_jobs db !! nj_job_id j) as [r|] eqn:Hj; simpl; split_and!; try done.
  - intros i. split; [by left|].
    intros [?| ->]; [done|]. by rewrite Hj.
  - intros i. rewrite lookup_insert_is_Some'. intuition.
Qed.

Lemma remote_step_inv db op : store_inv db → store_inv (remote_step db op).
Proof.
  intros Hi. destruct op as [f j|f id ev|f id t|f id t e m|f c]; simpl.
  - unfold record_job_if_new. exec_cases; [done|].
    destruct (remote_jobs db !! nj_job_id j); simpl; [done|]. by destruct Hi.
  - unfold insert_status_event.
    exec_cases; [done|].
    destruct (existsb _ _) eqn:Hc; simpl; [done|]. by apply insert_row_inv.
  - unfold mark_delivered. exec_cases; [done|].
    apply update_event_inv; [done| |done]. intros r. by exists Delivered.
  - unfold mark_delivery_failed. destruct (f 0%nat); [done|].
    destruct (find_row id db) as [r|]; [|done].
    exec_cases; [done|].
    apply update_event_inv; [done| |done]. intros r'.
    eexists. reflexivity.
  - unfold cleanup_delivered_before.
    exec_cases; [done|]. by apply filter_inv.
Qed.

Lemma remote_run_inv ops db : store_inv db → store_inv (remote_run db ops).
Proof.
  revert db. induction ops as [|op ops IH]; intros db Hi; [done|].
  by apply IH, remote_step_inv.
Qed.

Lemma store_new_inv : store_inv RemoteStore_new.
Proof. split; simpl; constructor. Qed.

Lemma update_event_jobs id upd db : remote_jobs (update_event id upd db) = remote_jobs db.
Proof. done. Qed.

Definition is_record (op : RemoteOp) : bool := if op is RRecord _ _ then true else false.

Lemma remote_step_other db op :
  is_record op = false → remote_jobs (remote_step db op) = remote_jobs db.
Proof.
  destruct op as [f j|f id ev|f id t|f id t e m|f c]; intros Hop; simpl; [done|..].
  - unfold insert_status_event. exec_cases; [done|]. by destruct (existsb _ _).
  - unfold mark_delivered. by exec_cases.
  - unfold mark_delivery_failed. destruct (f 0%nat); [done|].
    destruct (find_row id db) as [r|]; [|done]. by exec_cases.
  - unfold cleanup_delivered_before. by exec_cases.
Qed.

(** No operation but the recording touches the jobs, and recorded jobs stay. *)
Lemma remote_step_jobs db op i :
  is_Some (remote_jobs (remote_step db op) !! i) ↔
  is_Some (remote_jobs db !! i) ∨
  ∃ f j, op = RRecord f j ∧ i = nj_job_id j ∧ is_ok (record_job_if_new f j db).1 = true.
Proof.
  destruct op as [f j| | | |].
  { simpl. pose proof (record_job_if_new_spec f j db) as Hs.
    destruct (record_job_if_new f j db) as [[b|e] db'] eqn:Hr; simpl in *.
    - destruct Hs as (_&_&->). split; [intros [?| ->]|intros [?|(?&?&[= <- <-]&->&_)]]; try by left.
      + right. exists f, j. by rewrite Hr.
      + by right.
    - rewrite Hs. split; [by left|]. intros [|(?&?&[= <- <-]&_&H)]; [done|]. by rewrite Hr in H. }
  all: rewrite remote_step_other by done; split; [by left|by intros [?|(?&?&[=]&_)]].
Qed.

Lemma newly_recorded_fresh ops db i :
  i ∈ newly_recorded db ops → ¬ is_Some (remote_jobs db !! i).
Proof.
  revert db. induction ops as [|op ops IH]; intros db; simpl; [by intros ?%not_elem_of_nil|].
  intros [Hi|Hi]%elem_of_app.
  - destruct op as [f j| | | |]; try by apply not_elem_of_nil in Hi.
    pose proof (record_job_if_new_spec f j db) as Hs.
    destruct (record_job_if_new f j db).1 as [[]|]; try by apply not_elem_of_nil in Hi.
    apply list_elem_of_singleton in Hi as ->. destruct Hs as (Hb&_).
    symmetry in Hb. apply bool_decide_eq_true in Hb as ->. by intros [].
  - intros Hs. apply (IH _ Hi). apply remote_step_jobs. by left.
Qed.

(** ** Properties *)

(** A remote job is recorded as new at most once in the life of the store:
    over any run of calls with failures anywhere, the ids for which
    [record_job_if_new] answered [true] are distinct, and whenever it answers,
    the answer is whether the id was unknown, and the id is known from then on. *)
Theorem record_job_once (ops : list RemoteOp) :
  NoDup (newly_recorded RemoteStore_new ops) ∧
  ∀ f j, let db := remote_run RemoteStore_new ops in
    match record_job_if_new f j db with
    | (Ok b, db') => b = bool_decide (remote_jobs db !! nj_job_id j = None) ∧
        is_Some (remote_jobs db' !! nj_job_id j)
    | (Err _, db') => db' = db
    end.
Proof.
  split.
  - generalize RemoteStore_new. induction ops as [|op ops IH]; intros db; simpl; [constructor|].
    apply NoDup_app. split_and!; [| |apply IH].
    + destruct op; try constructor. destruct (record_job_if_new _ _ _).1 as [[]|];
        try constructor; [apply not_elem_of_nil|constructor].
    + intros i Hi Hin. apply newly_recorded_fresh in Hin. apply Hin. clear Hin.
      destruct op as [f j| | | |]; try by apply not_elem_of_nil in Hi.
      apply remote_step_jobs. right. exists f, j.
      destruct (record_job_if_new f j db).1 as [[]|]; try by apply not_elem_of_nil in Hi.
      by apply list_elem_of_singleton in Hi as ->.
  - intros f j db. pose proof (record_job_if_new_spec f j db) as Hs.
    destruct (record_job_if_new f j db) as [[b|e] db']; simpl in Hs; [|done].
    destruct Hs as (?&_&Hi). split; [done|]. apply Hi. by right.
Qed.

Lemma status_row_leb_total a b : status_row_leb a b = true ∨ status_row_leb b a = true.
Proof. apply pair_leb_total. Qed.
Lemma status_row_leb_trans a b c :
  status_row_leb a b = true → status_row_leb b c = true → status_row_leb a c = true.
Proof. intros ??. by eapply pair_leb_trans. Qed.

(** In every reachable store each (job, status) pair is reported by at most
    one event and event ids are unique; [pending_status_events] then succeeds
    and returns, oldest first, at most [limit] events, each of them pending and
    due, and leaves a pending due event out only when it is no older than all
    the events it returns. *)
Theorem pending_events_spec (ops : list RemoteOp) (now : string) (limit : N) :
  let db := remote_run RemoteStore_new ops in
  let due := filter (λ r, is_due now r = true) (remote_status_events db) in
  NoDup (map sr_event_id (remote_status_events db)) ∧
  NoDup (map (λ r, (sr_job_id r, sr_status r)) (remote_status_events db)) ∧
  ∃ kept dropped evs,
    pending_status_events no_fault now limit db = Ok evs ∧
    Forall2 (λ r e, row_to_status_event r = Ok e) kept evs ∧
    kept ++ dropped ≡ₚ due ∧
    length evs = Nat.min (N.to_nat limit) (length due) ∧
    Forall (λ e, rse_delivery_state e = Pending ∧ str_leb (rse_next_retry_at e) now = true) evs ∧
    StronglySorted (λ a b, status_row_leb a b = true) kept ∧
    ∀ a b, a ∈ kept → b ∈ dropped → status_row_leb a b = true.
Proof.
  intros db due. pose proof (remote_run_inv ops _ store_new_inv) as [H1 H2 H3].
  fold db in H1, H2, H3. split_and!; [done..|].
  set (rows := order_by status_row_leb due).
  assert (rows ≡ₚ due) as Hp by apply order_by_perm.
  assert (Forall (λ r, ∃ x, row_to_status_event r = Ok x) (take (N.to_nat limit) rows)) as Hd.
  { apply Forall_take. rewrite Hp. by apply Forall_filter_keep. }
  destruct (Forall_collect _ _ Hd) as (evs&Hevs&Hf).
  exists (take (N.to_nat limit) rows), (drop (N.to_nat limit) rows), evs. split_and!.
  - done.
  - done.
  - by rewrite take_drop.
  - by rewrite <-(Forall2_length _ _ _ Hf), length_take, Hp.
  - assert (Forall (λ r, is_due now r = true) (take (N.to_nat limit) rows)) as Hdue.
    { apply Forall_take. rewrite Hp. apply Forall_forall. by intros r [? _]%list_elem_of_filter. }
    clear Hevs Hd. induction Hf as [|r e rs es Hr _ IH]; [constructor|].
    apply Forall_cons in Hdue as [Hr' Hdue]. constructor; [|by apply IH].
    apply row_readable_inv in Hr as (_&Hs&_&_&_&_&Ht).
    apply andb_true_iff in Hr' as [Hp'%bool_decide_eq_true Hl]. rewrite Ht in Hl.
    split; [|done]. rewrite Hs in Hp'. by destruct (rse_delivery_state e).
  - apply order_by_take_sorted; [apply status_row_leb_total|apply status_row_leb_trans].
  - intros a b. apply order_by_take; [apply status_row_leb_total|apply status_row_leb_trans].
Qed.

Lemma find_row_update id id' upd db :
  (∀ r, sr_event_id (upd r) = sr_event_id r) →
  find_row id (update_event id' upd db) =
  (if decide (id = id') then upd else (λ r, r)) <$> find_row id db.
Proof.
  intros Hk. unfold find_row, update_event. simpl.
  induction (remote_status_events db) as [|r rows IH]; simpl; [done|].
  destruct (bool_decide (sr_event_id r = id')) eqn:Hr.
  - rewrite Hk. apply bool_decide_eq_true in Hr. rewrite Hr.
    destruct (decide (id = id')) as [->|Hne].
    + by rewrite bool_decide_eq_true_2.
    + by rewrite bool_decide_eq_false_2 by congruence.
  - apply bool_decide_eq_false in Hr. destruct (bool_decide (sr_event_id r = id)) eqn:Hid; [|done].
    apply bool_decide_eq_true in Hid. rewrite decide_False by congruence. done.
Qed.

(** What a failed delivery does to its row. *)
Definition failed_row (max_retries : N) (next_retry_at error : string) (r : StatusRow) : StatusRow :=
  let c := saturating_add_u32 (sr_retry_count r) 1 in
  set_failed c next_retry_at error (if max_retries <=? c then Abandoned else Pending) r.

Lemma mark_delivery_failed_row id t e m db r :
  find_row id db = Some r →
  mark_delivery_failed no_fault id t e m db =
  (Ok (if m <=? saturating_add_u32 (sr_retry_count r) 1 then OAbandoned else OWillRetry),
   update_event id (λ r', set_failed (saturating_add_u32 (sr_retry_count r) 1) t e
      (if m <=? saturating_add_u32 (sr_retry_count r) 1 then Abandoned else Pending) r') db).
Proof.
  intros Hr. unfold mark_delivery_failed, no_fault. rewrite Hr. unfold execute.
  by destruct (m <=? _).
Qed.

(** [n] deliveries of one event that all fail, with the outcome of the last. *)
Fixpoint fail_deliveries (n : nat) (id t e : string) (m : N)
    (last : result SqlError DeliveryFailureOutcome) (db : RemoteStore)
  : result SqlError DeliveryFailureOutcome * RemoteStore :=
  match n with
  | O => (last, db)
  | S n' => let '(o, db') := mark_delivery_failed no_fault id t e m db in
            fail_deliveries n' id t e m o db'
  end.

Lemma fail_deliveries_spec n id t e m last db r :
  find_row id db = Some r → sr_retry_count r + N.of_nat n ≤ u32_max →
  ∃ r', find_row id (fail_deliveries n id t e m last db).2 = Some r' ∧
    sr_retry_count r' = sr_retry_count r + N.of_nat n ∧
    sr_job_id r' = sr_job_id r ∧ sr_status r' = sr_status r ∧
    (n ≠ 0%nat → (fail_deliveries n id t e m last db).1 =
               Ok (if m <=? sr_retry_count r' then OAbandoned else OWillRetry) ∧
       sr_delivery_state r' = if m <=? sr_retry_count r' then "abandoned" else "pending").
Proof.
  revert last db r. induction n as [|n IH]; intros last db r Hr Hc.
  { exists r. simpl. split_and!; try done. lia. }
  cbn [fail_deliveries]. rewrite (mark_delivery_failed_row _ _ _ _ _ _ Hr).
  assert (saturating_add_u32 (sr_retry_count r) 1 = sr_retry_count r + 1) as ->.
  { unfold saturating_add_u32. lia. }
  set (r1 := set_failed (sr_retry_count r + 1) t e
    (if m <=? sr_retry_count r + 1 then Abandoned else Pending) r).
  match goal with |- context [fail_deliveries n id t e m ?l ?d] =>
    set (l1 := l); set (db1 := d) end.
  assert (find_row id db1 = Some r1) as Hr1.
  { unfold db1. rewrite find_row_update, Hr by done. by rewrite decide_True. }
  destruct (IH l1 db1 r1 Hr1) as (r'&H1&H2&H3&H4&H5); [unfold r1; simpl; lia|].
  exists r'. split_and!; [done|rewrite H2; unfold r1; simpl; lia|done|done|]. intros _.
  destruct n as [|n]; [|by apply H5]. cbn [fail_deliveries fst snd] in *.
  rewrite Hr1 in H1. injection H1 as <-. unfold l1, r1. simpl.
  by destruct (m <=? _).
Qed.

(** Retries stop.  An event whose deliveries keep failing stays pending
    through the first [m - 1] failures and is abandoned by the [m]-th, exactly,
    after which it is never returned for delivery again. *)
Theorem delivery_retries_bounded (id t e now : string) (m : N) (n : nat) (r : StatusRow)
    (db : RemoteStore) :
  find_row id db = Some r → sr_retry_count r = 0 →
  (0 < n)%nat → N.of_nat n ≤ u32_max →
  let '(o, db') := fail_deliveries n id t e m (Ok OWillRetry) db in
  o = Ok (if m <=? N.of_nat n then OAbandoned else OWillRetry) ∧
  ∃ r', find_row id db' = Some r' ∧ sr_retry_count r' = N.of_nat n ∧
    sr_delivery_state r' = (if m <=? N.of_nat n then "abandoned" else "pending") ∧
    (m ≤ N.of_nat n → is_due now r' = false).
Proof.
  intros Hr H0 Hn Hmax.
  destruct (fail_deliveries_spec n id t e m (Ok OWillRetry) db r Hr) as (r'&H1&H2&_&_&H3);
    [lia|].
  destruct (fail_deliveries _ _ _ _ _ _ _) as [o db']. simpl in *.
  rewrite H0, N.add_0_l in H2. destruct H3 as [-> H4]; [lia|]. rewrite H2 in *.
  split; [done|]. exists r'. split_and!; try done.
  intros Hm. unfold is_due. rewrite H4. by rewrite (proj2 (N.leb_le _ _) Hm).
Qed.

Definition witness_event : NewRemoteStatusEvent :=
  mkNewRemoteStatusEvent "j" "r" None Accepted None "2024-01-01T00:00:00Z" "2024-01-01T00:00:00Z".
Definition witness_store : RemoteStore :=
  remote_run RemoteStore_new [RInsert no_fault "e1" witness_event].

Lemma delivery_retries_bounded_witness :
  let '(o, db') := fail_deliveries 2 "e1" "t" "x" 2 (Ok OWillRetry) witness_store in
  o = Ok (if 2 <=? N.of_nat 2 then OAbandoned else OWillRetry) ∧
  ∃ r', find_row "e1" db' = Some r' ∧ sr_retry_count r' = N.of_nat 2 ∧
    sr_delivery_state r' = (if 2 <=? N.of_nat 2 then "abandoned" else "pending") ∧
    (2 ≤ N.of_nat 2 → is_due "z" r' = false).
Proof.
  apply (delivery_retries_bounded "e1" "t" "x" "z" 2 2 (new_status_row "e1" witness_event)
           witness_store).
  - reflexivity.
  - reflexivity.
  - lia.
  - vm_compute. discriminate.
Defined.
