(* ===== verification/State.v ===== *)
(** * The shared runtime state ([crates/runtime/src/state.rs],
    [crates/runtime/src/html/mod.rs])

    The state that the server, the workers and the commands share, the
    environment they run in, and the operation that replaces the configuration.

    The environment answers differently each time it is asked, so it is indexed
    by a tick that every handler advances: the clock, fresh UUIDs, the failures
    of the databases, the platform's print backend, the HTML renderer and the
    Office converter. *)

From S2P Require Import Prelude RustStr F64 NetAddr Externs Toy FileSys PrintTypes Protocol.
From S2P Require Import IpWhitelist Config JobQueue Download Document Office Activity Sqlite.
From S2P Require Import TaskHistory RemoteStore.
From Stdlib Require Import Ascii.
Open Scope string_scope.
Open Scope N_scope.
Open Scope list_scope.

(** ** HTML rendering requests ([html/mod.rs]) *)

Section html.
Context `{U : UrlOps}.

Inductive HtmlSource := SourceUrl (u : Url) | SourceInline (html : string).
Record HtmlRenderRequest := mkHtmlRenderRequest {
  hq_source : HtmlSource;
  hq_allowed_loopback_origin : option Url;
  hq_paper : EffectivePaper;
  hq_wait_ms : N;
  hq_output_path : string
}.
Record HtmlRenderResult := mkHtmlRenderResult { hs_renderer : string; hs_output_path : string }.

Inductive HtmlRenderError :=
  | RendererUnavailable (searched : list string)
  | BlockedResource (resource : string)
  | Navigation (message : string)
  | HTimeout (timeout_ms : N)
  | PdfExport (message : string)
  | InvalidProxyRequest (reason : string)
  | HIo (e : IoError)
  | HHttp (message : string).

(** [{searched:?}], Rust's debug form of a list of strings: quotes, backslashes
    and line controls are escaped (the searched paths have no other character
    that would be). *)
Definition debug_char (c : ascii) : bytes :=
  if Ascii.eqb c "034" then ["\"; "034"]%char
  else if Ascii.eqb c "\" then ["\"; "\"]%char
  else if Ascii.eqb c "010" then ["\"; "n"]%char
  else if Ascii.eqb c "013" then ["\"; "r"]%char
  else if Ascii.eqb c "009" then ["\"; "t"]%char
  else [c].
Definition debug_str (s : string) : string :=
  of_bytes (["034"%char] ++ flat_map debug_char (to_bytes s) ++ ["034"%char]).
Definition debug_list (l : list string) : string :=
  "[" +:+ join ", " (map debug_str l) +:+ "]".
Definition HtmlRenderError_display (e : HtmlRenderError) : string :=
  match e with
  | RendererUnavailable s =>
      "no installed Chromium-family browser is available; searched: " +:+ debug_list s
  | BlockedResource r => "blocked HTML resource: " +:+ r
  | Navigation m => "browser navigation failed: " +:+ m
  | HTimeout t => "browser rendering timed out after " +:+ pretty t +:+ "ms"
  | PdfExport m => "browser PDF export failed: " +:+ m
  | InvalidProxyRequest r => "invalid proxy request: " +:+ r
  | HIo e => "HTML proxy I/O error: " +:+ io_message e
  | HHttp m => "HTML proxy HTTP error: " +:+ m
  end.
End html.

(** ** The environment *)

Class RuntimeEnv `{U : UrlOps} := {
  (** [OffsetDateTime::now_utc().format(&Rfc3339)], with the fallback text. *)
  env_now : nat → string;
  (** [Uuid::new_v4()] and the milliseconds since the epoch. *)
  env_uuid : nat → string;
  env_millis : nat → N;
  env_temp_dir : string;
  env_db_fault : nat → DbFault;
  env_db_poisoned : nat → bool;
  env_backend : nat → PrintBackend;
  env_render : nat → HtmlRenderRequest → M Fs HtmlRenderError HtmlRenderResult;
  env_converter : nat → Converter
}.

(** ** The state *)

(** What was asked of the platform's print queue, in order. *)
Inductive BackendCall :=
  | CallPdf (path : string) (content : option string) (options : PrintOptions)
            (r : PrintResult PrintSubmission)
  | CallRaw (data : string) (options : RawPrintOptions) (r : PrintResult PrintSubmission).

Definition STATUS_EVENT_CAPACITY : nat := 128.

(** [AgentState], with what its parts have done: [st_sent] is every entry given
    to the broadcast channel, [st_calls] every submission to the backend, and
    [st_permit] the permit a [notify_one] leaves for the worker. *)
Record AgentState := mkAgentState {
  st_config : AgentConfig;
  st_config_path : option string;
  st_logs : LogStore;
  st_sent : list TaskLogEntry;
  st_queue : QueueState;
  st_permit : bool;
  st_remote_store : option RemoteStore;
  st_task_history : option TaskHistoryStore;
  st_fs : Fs;
  st_calls : list BackendCall;
  st_tick : nat
}.

Definition set_config (c : AgentConfig) (s : AgentState) : AgentState :=
  mkAgentState c (st_config_path s) (st_logs s) (st_sent s) (st_queue s) (st_permit s)
    (st_remote_store s) (st_task_history s) (st_fs s) (st_calls s) (st_tick s).
Definition set_logs (l : LogStore) (s : AgentState) : AgentState :=
  mkAgentState (st_config s) (st_config_path s) l (st_sent s) (st_queue s) (st_permit s)
    (st_remote_store s) (st_task_history s) (st_fs s) (st_calls s) (st_tick s).
Definition set_sent (l : list TaskLogEntry) (s : AgentState) : AgentState :=
  mkAgentState (st_config s) (st_config_path s) (st_logs s) l (st_queue s) (st_permit s)
    (st_remote_store s) (st_task_history s) (st_fs s) (st_calls s) (st_tick s).
Definition set_queue (q : QueueState) (s : AgentState) : AgentState :=
  mkAgentState (st_config s) (st_config_path s) (st_logs s) (st_sent s) q (st_permit s)
    (st_remote_store s) (st_task_history s) (st_fs s) (st_calls s) (st_tick s).
Definition set_permit (b : bool) (s : AgentState) : AgentState :=
  mkAgentState (st_config s) (st_config_path s) (st_logs s) (st_sent s) (st_queue s) b
    (st_remote_store s) (st_task_history s) (st_fs s) (st_calls s) (st_tick s).
Definition set_remote_store (r : option RemoteStore) (s : AgentState) : AgentState :=
  mkAgentState (st_config s) (st_config_path s) (st_logs s) (st_sent s) (st_queue s)
    (st_permit s) r (st_task_history s) (st_fs s) (st_calls s) (st_tick s).
Definition set_task_history (h : option TaskHistoryStore) (s : AgentState) : AgentState :=
  mkAgentState (st_config s) (st_config_path s) (st_logs s) (st_sent s) (st_queue s)
    (st_permit s) (st_remote_store s) h (st_fs s) (st_calls s) (st_tick s).
Definition set_fs (f : Fs) (s : AgentState) : AgentState :=
  mkAgentState (st_config s) (st_config_path s) (st_logs s) (st_sent s) (st_queue s)
    (st_permit s) (st_remote_store s) (st_task_history s) f (st_calls s) (st_tick s).
Definition add_call (c : BackendCall) (s : AgentState) : AgentState :=
  mkAgentState (st_config s) (st_config_path s) (st_logs s) (st_sent s) (st_queue s)
    (st_permit s) (st_remote_store s) (st_task_history s) (st_fs s) (st_calls s ++ [c])
    (st_tick s).
Definition next_tick (s : AgentState) : AgentState :=
  mkAgentState (st_config s) (st_config_path s) (st_logs s) (st_sent s) (st_queue s)
    (st_permit s) (st_remote_store s) (st_task_history s) (st_fs s) (st_calls s)
    (S (st_tick s)).

(** [with_printing_and_config_path], which every public constructor calls: the
    configuration is normalised, everything else is empty. *)
Definition with_printing_and_config_path (config : AgentConfig) (config_path : option string)
    (fs : Fs) : AgentState :=
  mkAgentState (normalized config) config_path LogStore_default [] QueueState_default false
    None None fs [] 0.
(** [with_remote_store] and [with_task_history_store] *)
Definition with_remote_store (s : AgentState) (r : RemoteStore) : AgentState :=
  set_remote_store (Some r) s.
Definition with_task_history_store (s : AgentState) (h : TaskHistoryStore) : AgentState :=
  set_task_history (Some h) s.

(** A handler on the state. *)
Abbreviation Handler E := (M AgentState E).

(** A tick: the next index into the environment. *)
Definition tick {E} : Handler E nat := λ s, (Ok (st_tick s), next_tick s).
(** A file system operation inside a handler. *)
Definition on_fs {E A} (m : M Fs E A) : Handler E A := zoom st_fs set_fs m.

(** [broadcast_status]; having no subscriber is not an error. *)
Definition broadcast_status {E} (entry : TaskLogEntry) : Handler E unit :=
  modify (λ s, set_sent (st_sent s ++ [entry]) s).

Section save_config.
Context `{U : UrlOps, I : IpNetOps, J : JsonCodec AgentConfig}.

(** [save_config] *)
Definition save_config (config : AgentConfig) : Handler IoError AgentConfig :=
  _ ← lift (try_for_each (λ origin,
        map_err (λ e, mkIoError InvalidInput (ProtocolError_display e)) (validate_origin origin))
        (se_allowed_origins (cfg_security config)));
  _ ← lift (try_for_each (λ entry,
        map_err (mkIoError InvalidInput) (validate_allowed_ip_entry entry))
        (se_allowed_ips (cfg_security config)));
  let config := normalized config in
  if rc_poll_interval_seconds (cfg_remote config) <? MIN_REMOTE_POLL_INTERVAL_SECONDS then
    raise (mkIoError InvalidInput
      ("轮询时间必须大于等于 " +:+ pretty MIN_REMOTE_POLL_INTERVAL_SECONDS +:+ " 秒"))
  else if rc_max_report_retries (cfg_remote config) <? MIN_REMOTE_MAX_REPORT_RETRIES then
    raise (mkIoError InvalidInput
      ("上报重试次数必须大于等于 " +:+ pretty MIN_REMOTE_MAX_REPORT_RETRIES))
  else
    path ← gets st_config_path;
    _ ← match path with
        | Some path => on_fs (save config path)
        | None => mret tt
        end;
    _ ← modify (set_config config);
    mret config.
End save_config.

(** ** Properties *)

Section save_config_properties.
Context `{U : UrlOps, I : IpNetOps, J : JsonCodec AgentConfig}.

(** What the configuration in force must satisfy. *)
Definition config_ok (c : AgentConfig) : Prop :=
  Forall (λ o, validate_origin o = Ok tt) (se_allowed_origins (cfg_security c)) ∧
  normalized c = c ∧
  MIN_REMOTE_POLL_INTERVAL_SECONDS ≤ rc_poll_interval_seconds (cfg_remote c) ∧
  MIN_REMOTE_MAX_REPORT_RETRIES ≤ rc_max_report_retries (cfg_remote c) ∧
  Forall (λ e, e = REQUIRED_LOOPBACK_IP ∨ ∃ e', e = trim e' ∧ validate_allowed_ip_entry e' = Ok tt)
    (se_allowed_ips (cfg_security c)).

Lemma default_config_ok : config_ok AgentConfig_default.
Proof.
  split; [constructor|]. split; [apply default_normalized|]. split; [done|]. split; [done|].
  apply Forall_singleton. by left.
Qed.

Lemma try_for_each_total {A E} (f : A → result E unit) l :
  try_for_each f l = Ok tt ∨ ∃ e, try_for_each f l = Err e.
Proof. destruct (try_for_each f l) as [[]|e]; [by left|right; by exists e]. Qed.

Lemma save_config_outcome (config : AgentConfig) (s : AgentState) :
  let '(r, s') := save_config config s in
  match r with
  | Ok c => c = normalized config ∧ st_config s' = c ∧ config_ok c ∧
      (∀ path, st_config_path s = Some path →
        fs_files (st_fs s') !! path = Some (to_json (normalized c)))
  | Err e => st_config s' = st_config s ∧
      (¬ config_ok (normalized config) → st_fs s' = st_fs s)
  end.
Proof.
  unfold save_config. rewrite M_bind_eq. unfold lift at 1.
  destruct (try_for_each _ (se_allowed_origins (cfg_security config))) as [[]|e] eqn:Ho;
    [|done].
  rewrite M_bind_eq. unfold lift at 1.
  destruct (try_for_each _ (se_allowed_ips (cfg_security config))) as [[]|e] eqn:Hi; [|done].
  cbv zeta. destruct (_ <? MIN_REMOTE_POLL_INTERVAL_SECONDS) eqn:Hp; [done|].
  destruct (_ <? MIN_REMOTE_MAX_REPORT_RETRIES) eqn:Hm; [done|].
  apply N.ltb_ge in Hp, Hm. apply try_for_each_ok in Ho, Hi.
  assert (config_ok (normalized config)) as Hok.
  { split_and!; [|apply normalized_idemp|done|done|].
    - eapply Forall_impl; [exact Ho|]. intros o H. by apply map_err_ok in H.
    - apply Forall_forall. intros e He. simpl in He.
      apply normalize_elem in He as [->|[(e'&He'&->) _]]; [by left|right].
      exists e'. split; [done|]. rewrite Forall_forall in Hi.
      specialize (Hi e' He'). by apply map_err_ok in Hi. }
  rewrite M_bind_eq. unfold gets at 1. rewrite M_bind_eq.
  destruct (st_config_path s) as [path|] eqn:Hpath.
  - unfold on_fs, zoom. destruct (save (normalized config) path (st_fs s)) as [[[]|e] fs'] eqn:Hs.
    + rewrite M_bind_eq. unfold modify, mret, M_ret. simpl. split_and!; try done.
      intros ? [= <-]. unfold save in Hs. apply M_bind_ok in Hs as (?&fs1&_&Hw).
      unfold fs_write in Hw. destruct (fault_now fs1) as [[? [?|]]|]; [done|done|].
      injection Hw as <-. simpl. rewrite lookup_insert, decide_True by done.
      by rewrite !normalized_idemp.
    + by split.
  - unfold mret, M_ret, modify. rewrite M_bind_eq. by split_and!.
Qed.

(** Saving a configuration is all or nothing in memory.  If it succeeds, the
    configuration in force is the returned one: normalised, with valid Origins
    and allow-list entries and remote settings at or above their minima, and the
    file (when there is one) holds it.  If it fails, the configuration in force
    has not changed, and an invalid one never touches the file. *)
Theorem save_config_spec (config : AgentConfig) (s : AgentState) :
  let '(r, s') := save_config config s in
  match r with
  | Ok c => c = normalized config ∧ st_config s' = c ∧ config_ok c ∧
      (∀ path, st_config_path s = Some path →
        fs_files (st_fs s') !! path = Some (to_json (normalized c)))
  | Err e => st_config s' = st_config s ∧
      (¬ config_ok (normalized config) → st_fs s' = st_fs s)
  end.
Proof. apply save_config_outcome. Qed.
End save_config_properties.

(** ** A concrete environment, for the witnesses *)

Definition toy_printer : PrinterInfo := PrinterInfo_new "office" true.
Definition toy_backend : PrintBackend := {|
  list_printers := Ok [toy_printer];
  list_papers _ := Ok [];
  list_trays := default_list_trays;
  list_media_types := default_list_media_types;
  print_pdf _ _ := Ok (mkPrintSubmission "2024-01-01T00:00:00Z" "toy" None false);
  print_raw _ _ := Ok (mkPrintSubmission "2024-01-01T00:00:00Z" "toy" None false);
  track_submission := default_track_submission;
  track_raw_submission := default_track_raw_submission
|}.
#[export] Instance toy_env : @RuntimeEnv toy_url := {|
  env_now n := "2024-01-01T00:00:" +:+ pretty (10 + N.of_nat n) +:+ "Z";
  env_uuid n := "uuid-" +:+ pretty (N.of_nat n);
  env_millis n := N.of_nat n;
  env_temp_dir := "/tmp";
  env_db_fault _ := no_fault;
  env_db_poisoned _ := false;
  env_backend _ := toy_backend;
  env_render _ _ := raise (RendererUnavailable []);
  env_converter _ _ _ _ := mret "toy"
|}.
Definition toy_state : AgentState :=
  with_printing_and_config_path AgentConfig_default None (mkFs ∅ ∅ 0 (λ _, None)).
