(* ===== verification/TestPrint.v ===== *)
(** * The calibration page ([crates/runtime/src/test_print.rs])

    Printing one calibration page with a given configuration: the page is
    written to a temporary file, submitted, and the file is removed. *)

From S2P Require Import Prelude RustStr F64 NetAddr Externs Toy FileSys PrintTypes Printing.
From S2P Require Import Protocol IpWhitelist Config JobQueue Download Document Office Activity.
From S2P Require Import Sqlite TaskHistory RemoteStore State.
Open Scope string_scope.
Open Scope N_scope.
Open Scope list_scope.

Inductive TestPrintError :=
  | TestPrinterNotConfigured
  | TestPaperNotConfigured
  | TestDocument (e : DocumentError)
  | TestPrintFailed (e : PrintError).
Definition TestPrintError_display (e : TestPrintError) : string :=
  match e with
  | TestPrinterNotConfigured => "printer not configured"
  | TestPaperNotConfigured => "paper not configured"
  | TestDocument e => "document generation failed: " +:+ DocumentError_display e
  | TestPrintFailed e => "print failed: " +:+ PrintError_display e
  end.

Section test_print.
Context `{U : UrlOps, IM : !ImageOps, R : !RuntimeEnv}.

(** The file's own copies of [format_paper_dimension] and
    [paper_info_from_effective]. *)
Definition test_paper_dimension (value : f64) : string :=
  if f64_ltb (f64_abs (f64_fract value)) f64_epsilon then f64_format 0 value
  else trim_end_matches "." (trim_end_matches "0" (f64_format 2 value)).
Definition test_paper_info (paper : EffectivePaper) : PaperInfo :=
  mkPaperInfo
    ("custom_" +:+ test_paper_dimension (ep_width_mm paper) +:+ "x" +:+
     test_paper_dimension (ep_height_mm paper) +:+ "mm")
    (paper_name (ep_width_mm paper) (ep_height_mm paper))
    (ep_width_mm paper) (ep_height_mm paper).

Definition calibration_temp_path (uuid : string) : string :=
  env_temp_dir +:+ "/print-bridge-calibration-" +:+ uuid +:+ ".pdf".

Definition print_calibration_page_inner (printer_name : string) (paper : EffectivePaper)
    (path : string) : Handler TestPrintError unit :=
  _ ← on_fs (mapping_err TestDocument (calibration_page_to_pdf paper path));
  let options := mkPrintOptions printer_name (test_paper_info paper) 1 in
  n ← tick;
  content ← gets (λ s, fs_files (st_fs s) !! path);
  let print_result := print_pdf (env_backend n) path options in
  _ ← modify (add_call (CallPdf path content options print_result));
  _ ← lift (map_err TestPrintFailed print_result);
  mret tt.

Definition print_calibration_page_with_config (config : AgentConfig)
  : Handler TestPrintError unit :=
  printer_name ← lift (ok_or TestPrinterNotConfigured (pc_default_printer (cfg_printing config)));
  paper ← lift (ok_or TestPaperNotConfigured (pc_default_paper (cfg_printing config)));
  n ← tick;
  let path := calibration_temp_path (env_uuid n) in
  result ← attempt (print_calibration_page_inner printer_name paper path);
  _ ← on_fs (fs_remove_quietly path);
  lift result.

Definition print_calibration_page : Handler TestPrintError unit :=
  config ← gets st_config;
  print_calibration_page_with_config config.

(** ** Properties *)

(** The parts of the state a test print leaves alone. *)
Definition same_but_print (s s' : AgentState) : Prop :=
  st_config s' = st_config s ∧ st_config_path s' = st_config_path s ∧
  st_logs s' = st_logs s ∧ st_sent s' = st_sent s ∧ st_queue s' = st_queue s ∧
  st_permit s' = st_permit s ∧ st_remote_store s' = st_remote_store s ∧
  st_task_history s' = st_task_history s.

(** What a test print submits. *)
Definition calibration_call (path : string) (n : nat)
    (printer : string) (paper : EffectivePaper) : BackendCall :=
  let options := mkPrintOptions printer (test_paper_info paper) 1 in
  CallPdf path (Some (pdf_save (calibration_document paper))) options
    (print_pdf (env_backend n) path options).

Lemma inner_spec printer paper path s :
  let '(r, s') := print_calibration_page_inner printer paper path s in
  same_but_print s s' ∧ only_path path (st_fs s) (st_fs s') ∧
  ((∃ e, r = Err (TestDocument e) ∧ st_calls s' = st_calls s ∧ st_tick s' = st_tick s) ∨
   is_positive_finite (ep_width_mm paper) = true ∧ is_positive_finite (ep_height_mm paper) = true ∧
   st_tick s' = S (st_tick s) ∧
   let c := calibration_call path (st_tick s) printer paper in
   st_calls s' = st_calls s ++ [c] ∧
   r = (λ _, tt) <$> map_err TestPrintFailed
         (print_pdf (env_backend (st_tick s)) path (mkPrintOptions printer (test_paper_info paper) 1))).
Proof.
  unfold print_calibration_page_inner. rewrite M_bind_eq. unfold on_fs, zoom, mapping_err.
  unfold calibration_page_to_pdf. rewrite M_bind_eq. unfold lift at 1.
  destruct (map_err _ (EffectivePaper_validate paper)) as [[]|e];
    [|split; [done|]; split; [apply only_path_refl|]; left; by eexists].
  destruct (negb _ || _) eqn:Hp;
    [split; [done|]; split; [apply only_path_refl|]; left; by eexists|].
  apply orb_false_iff in Hp as [Hw%negb_false_iff Hh%negb_false_iff].
  unfold mapping_err. pose proof (fs_write_only path (pdf_save (calibration_document paper)) (st_fs s)) as Ho.
  assert (∀ fs', fs_write path (pdf_save (calibration_document paper)) (st_fs s) = (Ok tt, fs') →
    fs_files fs' !! path = Some (pdf_save (calibration_document paper))) as Hwr.
  { intros fs'. unfold fs_write. destruct (fault_now _) as [[e [r|]]|]; intros [= <-].
    simpl. by rewrite lookup_insert, decide_True. }
  destruct (fs_write _ _ _) as [[[]|e] fs']; simpl in *;
    [|split; [done|]; split; [done|]; left; by eexists].
  unfold tick, gets, modify, lift, mret, M_ret. rewrite !M_bind_eq. cbv beta iota.
  rewrite ?M_bind_eq. cbn. rewrite (Hwr _ eq_refl). unfold calibration_call.
  destruct (print_pdf _ _ _); simpl; (split; [done|]; split; [done|]; right; by split_and!).
Qed.

Lemma test_print_outcome (config : AgentConfig) (s : AgentState) :
  let path := calibration_temp_path (env_uuid (st_tick s)) in
  let '(r, s') := print_calibration_page_with_config config s in
  same_but_print s s' ∧ only_path path (st_fs s) (st_fs s') ∧
  match pc_default_printer (cfg_printing config), pc_default_paper (cfg_printing config) with
  | Some printer, Some paper =>
      cleaned path (st_fs s') ∧
      ((∃ e, r = Err (TestDocument e)) ∧ st_calls s' = st_calls s ∨
      let c := calibration_call path (S (st_tick s)) printer paper in
      st_calls s' = st_calls s ++ [c] ∧
      r = (λ _, tt) <$> map_err TestPrintFailed (print_pdf (env_backend (S (st_tick s))) path
            (mkPrintOptions printer (test_paper_info paper) 1)))
  | None, _ => r = Err TestPrinterNotConfigured ∧ st_calls s' = st_calls s
  | Some _, None => r = Err TestPaperNotConfigured ∧ st_calls s' = st_calls s
  end.
Proof.
  intros path. unfold print_calibration_page_with_config. rewrite M_bind_eq. unfold lift at 1.
  destruct (pc_default_printer (cfg_printing config)) as [printer|];
    [|simpl; split_and!; try done; apply only_path_refl].
  cbn [ok_or]. rewrite M_bind_eq. unfold lift at 1.
  destruct (pc_default_paper (cfg_printing config)) as [paper|];
    [|simpl; split_and!; try done; apply only_path_refl].
  cbn [ok_or]. rewrite M_bind_eq. unfold tick at 1. cbv beta iota zeta. fold path.
  rewrite M_bind_eq. unfold attempt at 1.
  pose proof (inner_spec printer paper path (next_tick s)) as Hin.
  destruct (print_calibration_page_inner printer paper path (next_tick s)) as [r s1].
  destruct Hin as (Hs&Ho&Hr). rewrite M_bind_eq. unfold on_fs, zoom.
  destruct (fs_remove_quietly_cleaned (E := TestPrintError) path (st_fs s1)) as (fs'&->&Hq&Hc).
  unfold lift. simpl. split; [done|]. split; [by eapply only_path_trans|]. split; [done|].
  destruct Hr as [(e&->&Hcalls&_)|(_&_&_&Hcalls&->)]; [left|right]; rewrite Hcalls; eauto.
Qed.

(** A test print needs a configured printer and paper, submits nothing but the
    calibration page of that paper to that printer, once, and reports the
    backend's answer; it changes nothing else of the agent's state, and its
    temporary file is gone unless removing it failed. *)
Theorem test_print_spec (config : AgentConfig) (s : AgentState) :
  let path := calibration_temp_path (env_uuid (st_tick s)) in
  let '(r, s') := print_calibration_page_with_config config s in
  same_but_print s s' ∧ only_path path (st_fs s) (st_fs s') ∧
  match pc_default_printer (cfg_printing config), pc_default_paper (cfg_printing config) with
  | Some printer, Some paper =>
      cleaned path (st_fs s') ∧
      ((∃ e, r = Err (TestDocument e)) ∧ st_calls s' = st_calls s ∨
      let c := calibration_call path (S (st_tick s)) printer paper in
      st_calls s' = st_calls s ++ [c] ∧
      r = (λ _, tt) <$> map_err TestPrintFailed (print_pdf (env_backend (S (st_tick s))) path
            (mkPrintOptions printer (test_paper_info paper) 1)))
  | None, _ => r = Err TestPrinterNotConfigured ∧ st_calls s' = st_calls s
  | Some _, None => r = Err TestPaperNotConfigured ∧ st_calls s' = st_calls s
  end.
Proof. apply test_print_outcome. Qed.
End test_print.
