(* ===== verification/ResourcePolicy.v ===== *)
(** * The HTML resource policy ([crates/runtime/src/html/resource_policy.rs])

    Which addresses a rendered page may reach: the classification of addresses
    and the resolution of a URL to an approved address, against any resolver. *)

From S2P Require Import Prelude RustStr F64 NetAddr Externs Toy FileSys Protocol State.
From Stdlib Require Import Ascii.
Open Scope string_scope.
Open Scope N_scope.
Open Scope list_scope.

(** [HostResolver]: DNS answers anything, or fails. *)
Definition HostResolver := string → N → result IoError (list SocketAddr).

(** [ResolvedTarget] *)
Record ResolvedTarget := mkResolvedTarget {
  rt_authority : string;
  rt_address : SocketAddr
}.

Definition BLOCKED_IPV4_NETS : list string :=
  ["0.0.0.0/8"; "10.0.0.0/8"; "100.64.0.0/10"; "127.0.0.0/8"; "169.254.0.0/16";
   "172.16.0.0/12"; "192.0.0.0/24"; "192.0.2.0/24"; "192.88.99.0/24"; "192.168.0.0/16";
   "198.18.0.0/15"; "198.51.100.0/24"; "203.0.113.0/24"; "224.0.0.0/4"; "240.0.0.0/4"].
Definition BLOCKED_IPV6_NETS : list string :=
  ["100::/64"; "2001:db8::/32"; "fc00::/7"; "fec0::/10"].

Section policy.
Context `{U : UrlOps, I : IpNetOps}.

Definition matches_ip_net (address : IpAddr) (networks : list string) : bool :=
  existsb (λ network, match IpNet_parse network with
                      | Some network => net_contains network address
                      | None => false
                      end) networks.

Definition is_public_ip (address : IpAddr) : bool :=
  match address with
  | V4 n => negb (matches_ip_net (V4 n) BLOCKED_IPV4_NETS)
  | V6 n =>
      is_none (v6_to_ipv4_mapped n) && negb (is_loopback (V6 n)) &&
      negb (v6_is_unspecified n) && negb (v6_is_multicast n) &&
      negb (v6_is_unicast_link_local n) && negb (matches_ip_net (V6 n) BLOCKED_IPV6_NETS)
  end.

Definition blocked (u : Url) : HtmlRenderError := BlockedResource (url_as_str u).

Definition is_exact_loopback_host (host : string) : bool :=
  match parse_ip host with
  | Some (V4 n) => bool_decide (V4 n = v4 127 0 0 1)
  | _ => false
  end ||
  match parse_ip host with
  | Some (V6 n) => is_loopback (V6 n)
  | _ => false
  end.

Definition approved_target (u : Url) (authority : string) (address : SocketAddr)
    (is_allowed_loopback : bool) : result HtmlRenderError ResolvedTarget :=
  if is_public_ip (sa_ip address) || (is_allowed_loopback && is_loopback (sa_ip address))
  then Ok (mkResolvedTarget authority address)
  else Err (blocked u).

(** [authority] *)
Definition url_authority (u : Url) (host : string) : string :=
  let host := if contains ":" host then "[" +:+ host +:+ "]" else host in
  match url_port u with
  | Some port => host +:+ ":" +:+ pretty port
  | None => host
  end.

Definition resolve_target (resolve : HostResolver) (u : Url)
    (allowed_loopback_origin : option Url) : result HtmlRenderError ResolvedTarget :=
  if negb (bool_decide (url_scheme u = "http") || bool_decide (url_scheme u = "https"))
  then Err (blocked u)
  else
    host ← ok_or (blocked u) (url_host_str u);
    let normalized_host := to_ascii_lowercase (trim_end_matches "." host) in
    if is_empty normalized_host || bool_decide (normalized_host = "localhost")
    then Err (blocked u)
    else
      port ← ok_or (blocked u) (url_port_or_known_default u);
      let authority := url_authority u host in
      let is_allowed_loopback :=
        match allowed_loopback_origin with
        | Some origin => url_same_origin origin u && is_exact_loopback_host host
        | None => false
        end in
      match parse_ip normalized_host with
      | Some address =>
          approved_target u authority (mkSocketAddr address port) is_allowed_loopback
      | None =>
          addresses ← map_err (λ _, blocked u) (resolve normalized_host port);
          match addresses with
          | [] => Err (blocked u)
          | address :: _ =>
              if existsb (λ candidate, negb (is_public_ip (sa_ip candidate))) addresses
              then Err (blocked u)
              else approved_target u authority address false
          end
      end.

Definition resolve_public_target (resolve : HostResolver) (u : Url) :=
  resolve_target resolve u None.
End policy.

(** ** The networks, as numbers *)

(** The blocked networks with their addresses and lengths (RFC 6890 and its
    registries). *)
Definition blocked_v4 : list (IpAddr * N) :=
  [(v4 0 0 0 0, 8); (v4 10 0 0 0, 8); (v4 100 64 0 0, 10); (v4 127 0 0 0, 8);
   (v4 169 254 0 0, 16); (v4 172 16 0 0, 12); (v4 192 0 0 0, 24); (v4 192 0 2 0, 24);
   (v4 192 88 99 0, 24); (v4 192 168 0 0, 16); (v4 198 18 0 0, 15); (v4 198 51 100 0, 24);
   (v4 203 0 113 0, 24); (v4 224 0 0 0, 4); (v4 240 0 0 0, 4)].
Definition blocked_v6 : list (IpAddr * N) :=
  [(V6 (256 * 2 ^ 112), 64); (V6 (8193 * 2 ^ 112 + 3512 * 2 ^ 96), 32);
   (V6 (64512 * 2 ^ 112), 7); (V6 (65216 * 2 ^ 112), 10)].

(** The addresses a page must not reach on its own, by what they are. *)
Definition reserved (a : IpAddr) : Prop :=
  match a with
  | V4 _ => ∃ net p, (net, p) ∈ blocked_v4 ∧ prefix_match net p a = true
  | V6 n => v6_to_ipv4_mapped n ≠ None ∨ is_loopback a = true ∨ v6_is_unspecified n = true ∨
      v6_is_multicast n = true ∨ v6_is_unicast_link_local n = true ∨
      ∃ net p, (net, p) ∈ blocked_v6 ∧ prefix_match net p a = true
  end.

Section lemmas.
Context `{U : UrlOps, I : IpNetOps, IL : !IpNetLaws}.

Lemma matches_net_one a addr len address :
  contains "/" a = false → parse_ip a = Some addr → ip_wf addr = true → len ≤ ip_width addr →
  match IpNet_parse (a +:+ ("/" +:+ pretty len)) with
  | Some network => net_contains network address
  | None => false
  end = prefix_match addr len address.
Proof.
  intros H1 H2 H3 H4. destruct (IpNet_parse_cidr a addr len) as (n&->&<-&<-); try done.
  apply net_contains_prefix.
Qed.

(** The texts of the constants denote the numeric networks. *)
Definition denotes (text : string) (net : IpAddr * N) : bool :=
  match split_once "/" text with
  | Some (a, l) => negb (contains "/" a) && bool_decide (parse_ip a = Some net.1) &&
      bool_decide (l = pretty net.2) && ip_wf net.1 && (net.2 <=? ip_width net.1)
  | None => false
  end.

Lemma denotes_matches texts nets address :
  Forall2 (λ t n, denotes t n = true) texts nets →
  matches_ip_net address texts = true ↔
  ∃ net p, (net, p) ∈ nets ∧ prefix_match net p address = true.
Proof.
  intros Hd. unfold matches_ip_net. induction Hd as [|t [net p] texts nets H _ IH]; simpl.
  { split; [done|]. by intros (?&?&[]%not_elem_of_nil&_). }
  unfold denotes in H. destruct (split_once "/" t) as [[a l]|] eqn:Ht; [|done]. simpl in H.
  apply split_once_char in Ht as [-> _].
  repeat match goal with H : _ && _ = true |- _ => apply andb_true_iff in H as [? ?] end.
  repeat match goal with H : bool_decide _ = true |- _ => apply bool_decide_eq_true in H end.
  subst l. change (String "/" (pretty p)) with ("/" +:+ pretty p).
  rewrite (matches_net_one a net p) by (by try apply negb_true_iff; try apply N.leb_le).
  rewrite orb_true_iff, IH. split.
  - intros [Hm|(n&q&Hin&Hm)]; [exists net, p|exists n, q]; (split; [|done]);
      apply elem_of_cons; auto.
  - intros (n&q&[[= -> ->]|Hin]%elem_of_cons&Hm); [by left|right]. by exists n, q.
Qed.

Lemma blocked_denote :
  Forall2 (λ t n, denotes t n = true) BLOCKED_IPV4_NETS blocked_v4 ∧
  Forall2 (λ t n, denotes t n = true) BLOCKED_IPV6_NETS blocked_v6.
Proof. split; repeat (first [apply Forall2_nil_2 | apply Forall2_cons_2; [vm_compute; reflexivity|]]). Qed.

Lemma is_public_ip_reserved a : is_public_ip a = true ↔ ¬ reserved a.
Proof.
  destruct blocked_denote as [H4 H6].
  pose proof (denotes_matches _ _ a H4) as E4. pose proof (denotes_matches _ _ a H6) as E6.
  destruct a as [n|n]; unfold is_public_ip, reserved.
  - rewrite negb_true_iff, <-not_true_iff_false. by rewrite E4.
  - rewrite <-E6. clear. generalize (matches_ip_net (V6 n) BLOCKED_IPV6_NETS) as m.
    generalize (is_loopback (V6 n)) as l. intros l m.
    generalize (v6_is_unspecified n) as x, (v6_is_multicast n) as y,
      (v6_is_unicast_link_local n) as z. intros x y z.
    destruct (v6_to_ipv4_mapped n); cbn; [intuition congruence|].
    rewrite !andb_true_iff, !negb_true_iff, <-!not_true_iff_false. intuition congruence.
Qed.
End lemmas.

(** ** Properties *)

(** A bracketed text is not an address. *)
Lemma parse_ip_bracket s : starts_with "[" s = true → parse_ip s = None.
Proof. intros [r ->]%starts_with_spec. unfold parse_ip. rewrite to_bytes_app. reflexivity. Qed.

Lemma normalized_bracket host :
  starts_with "[" host = true →
  let name := to_ascii_lowercase (trim_end_matches "." host) in
  name = "" ∨ starts_with "[" name = true.
Proof.
  intros [r ->]%starts_with_spec. unfold trim_end_matches, to_ascii_lowercase.
  rewrite to_bytes_app, to_of_bytes.
  destruct (BytesFacts.trim_end_prefix [to_bytes "."] ltac:(set_solver) (to_bytes "[" ++ to_bytes r))
    as [k Hk].
  destruct (Bytes.trim_end _ _) as [|c l]; [by left|]. right. injection Hk as <- _.
  apply starts_with_spec. by eexists.
Qed.

Section properties.
Context `{U : UrlOps, I : IpNetOps, IL : !IpNetLaws}.

(** The decision once the host's name, the port and the exception are known. *)
Definition name_approved (resolve : HostResolver) (name : string) (port : N) (allow : bool)
    (address : SocketAddr) : Prop :=
  (∃ a, parse_ip name = Some a ∧ address = mkSocketAddr a port ∧
     (¬ reserved a ∨ is_loopback a = true ∧ allow = true)) ∨
  (parse_ip name = None ∧ ∃ rest, resolve name port = Ok (address :: rest) ∧
     Forall (λ a, ¬ reserved (sa_ip a)) (address :: rest)).

Lemma resolve_name_spec resolve u name port authority allow t :
  match parse_ip name with
  | Some address => approved_target u authority (mkSocketAddr address port) allow
  | None =>
      addresses ← map_err (λ _, blocked u) (resolve name port);
      match addresses with
      | [] => Err (blocked u)
      | address :: _ =>
          if existsb (λ candidate, negb (is_public_ip (sa_ip candidate))) addresses
          then Err (blocked u)
          else approved_target u authority address false
      end
  end = Ok t ↔
  rt_authority t = authority ∧ name_approved resolve name port allow (rt_address t).
Proof.
  unfold name_approved, approved_target.
  destruct (parse_ip name) as [a|]; simpl.
  - transitivity (is_public_ip a || (allow && is_loopback a) = true ∧
      mkResolvedTarget (authority) (mkSocketAddr a port) = t).
    { destruct (_ || _); [naive_solver|by split; [|intros []]]. }
    rewrite orb_true_iff, is_public_ip_reserved, andb_true_iff. split.
    + intros [H <-]. split; [done|]. left. exists a. naive_solver.
    + intros [Hau [(?&[= <-]&Had&?)|[[=] _]]]. split; [naive_solver|].
      destruct t. simpl in *. by subst.
  - destruct (resolve name port) as [[|b rest]|e]; simpl;
      [split; [done|naive_solver]| |split; [done|naive_solver]].
    transitivity (Forall (λ a, ¬ reserved (sa_ip a)) (b :: rest) ∧
      mkResolvedTarget (authority) b = t).
    { change (negb _ || existsb _ rest) with
        (existsb (λ c, negb (is_public_ip (sa_ip c))) (b :: rest)).
      assert (existsb (λ c, negb (is_public_ip (sa_ip c))) (b :: rest) = false ↔
        Forall (λ a, ¬ reserved (sa_ip a)) (b :: rest)) as Hall.
      { rewrite existsb_false, Forall_forall. apply forall_proper. intros c.
        by rewrite negb_false_iff, is_public_ip_reserved. }
      rewrite <-Hall. destruct (existsb _ _) eqn:Hex; [by split; [|intros []]|].
      pose proof (proj1 Hall eq_refl) as Hb. apply Forall_cons in Hb as [Hb _].
      apply is_public_ip_reserved in Hb. rewrite Hb. simpl. naive_solver. }
    split.
    + intros [Hf <-]. split; [done|]. right. split; [done|]. by exists rest.
    + intros [Hau [(?&[=]&_)|(_&?&[= -> ->]&Hf)]]. split; [done|].
      destruct t. simpl in *. by subst.
Qed.

(** The exception for the page's own loopback Origin. *)
Definition loopback_exception (u : Url) (allowed : option Url) (host : string) : bool :=
  match allowed with
  | Some origin => url_same_origin origin u && is_exact_loopback_host host
  | None => false
  end.
Lemma loopback_exception_true u allowed host :
  loopback_exception u allowed host = true ↔
  ∃ origin, allowed = Some origin ∧ url_same_origin origin u = true ∧
    is_exact_loopback_host host = true.
Proof.
  unfold loopback_exception. destruct allowed as [o|]; [|by split; [|intros (?&[=]&_)]].
  rewrite andb_true_iff. split; [intros []; by exists o|by intros (?&[= <-]&?&?)].
Qed.

Lemma resolve_target_ok resolve u allowed t :
  resolve_target resolve u allowed = Ok t ↔
  ∃ host port, url_host_str u = Some host ∧ url_port_or_known_default u = Some port ∧
  (url_scheme u = "http" ∨ url_scheme u = "https") ∧ rt_authority t = url_authority u host ∧
  let name := to_ascii_lowercase (trim_end_matches "." host) in
  name ≠ "" ∧ name ≠ "localhost" ∧
  name_approved resolve name port (loopback_exception u allowed host) (rt_address t).
Proof.
  unfold resolve_target.
  destruct (negb (bool_decide (url_scheme u = "http") || _)) eqn:Hs.
  { split; [done|]. apply negb_true_iff, orb_false_iff in Hs as [H1 H2].
    apply bool_decide_eq_false in H1, H2. intros (?&?&_&_&[|]&_); done. }
  apply negb_false_iff, orb_true_iff in Hs. rewrite !bool_decide_eq_true in Hs.
  destruct (url_host_str u) as [host|]; simpl; [|by split; [|intros (?&?&[=]&_)]].
  set (name := to_ascii_lowercase (trim_end_matches "." host)).
  destruct (is_empty name || _) eqn:Hn.
  { split; [done|]. rewrite orb_true_iff, is_empty_true, bool_decide_eq_true in Hn.
    intros (?&?&[= <-]&_&_&_&?&?&_). by destruct Hn. }
  rewrite orb_false_iff in Hn. destruct Hn as [He Hl%bool_decide_eq_false].
  assert (name ≠ "") as Hne by (intros Hz; by rewrite Hz in He).
  destruct (url_port_or_known_default u) as [port|]; simpl; [|by split; [|intros (?&?&_&[=]&_)]].
  change (match allowed with Some origin => _ | None => false end) with
    (loopback_exception u allowed host).
  rewrite resolve_name_spec. split.
  - intros [??]. by exists host, port.
  - by intros (?&?&[= <-]&[= <-]&_&?&_&_&?).
Qed.

(** The host and the port a URL names are this address and port. *)
Definition points_at (u : Url) (a : SocketAddr) : Prop :=
  ∃ host, url_host_str u = Some host ∧
    parse_ip (to_ascii_lowercase (trim_end_matches "." host)) = Some (sa_ip a) ∧
    url_port_or_known_default u = Some (sa_port a).
(** What an approved address is. *)
Lemma approved_address resolve u allowed t :
  resolve_target resolve u allowed = Ok t →
  ¬ reserved (sa_ip (rt_address t)) ∨
  (is_loopback (sa_ip (rt_address t)) = true ∧ points_at u (rt_address t) ∧
   ∃ origin, allowed = Some origin ∧ url_same_origin origin u = true).
Proof.
  intros (host&port&Hh&Hport&_&_&_&_&Hn)%resolve_target_ok.
  destruct Hn as [(a&Ha&->&[Hr|(Hl&Ho)])|(_&rest&_&Hf)].
  - by left.
  - right. split; [done|]. split; [by exists host|].
    apply loopback_exception_true in Ho as (o&?&?&_). by exists o.
  - left. by apply Forall_cons in Hf as [? _].
Qed.

(** C23: A page reaches only public addresses.  A target is approved exactly when
    the URL is HTTP or HTTPS, its host (lower case, without trailing dots) is
    neither empty nor [localhost], and one of two things holds.  Either the host
    is an address, which is the target with the URL's port, and it lies outside
    every reserved range, or it is a loopback address and the URL has the
    Origin approved for this page with a loopback host.  Or the host is a name,
    the resolver answered at least one address, all of them outside every
    reserved range, and the target is the first.  This holds whatever the
    resolver answers. *)
Theorem approved_targets_public (resolve : HostResolver) (u : Url) (allowed : option Url)
    (t : ResolvedTarget) :
  resolve_target resolve u allowed = Ok t ↔
  ∃ host port, url_host_str u = Some host ∧ url_port_or_known_default u = Some port ∧
  (url_scheme u = "http" ∨ url_scheme u = "https") ∧ rt_authority t = url_authority u host ∧
  let name := to_ascii_lowercase (trim_end_matches "." host) in
  name ≠ "" ∧ name ≠ "localhost" ∧
  ((∃ a, parse_ip name = Some a ∧ rt_address t = mkSocketAddr a port ∧
     (¬ reserved a ∨ is_loopback a = true ∧ ∃ origin, allowed = Some origin ∧
        url_same_origin origin u = true ∧ is_exact_loopback_host host = true)) ∨
   (parse_ip name = None ∧ ∃ rest, resolve name port = Ok (rt_address t :: rest) ∧
     Forall (λ a, ¬ reserved (sa_ip a)) (rt_address t :: rest))).
Proof.
  rewrite resolve_target_ok. unfold name_approved. by setoid_rewrite loopback_exception_true.
Qed.

(** A URL with an IPv6 address for its host is never matched against the
    ranges: the host is bracketed, so it is not recognised as an address and
    goes to the resolver as a name.  With a resolver that does not resolve
    bracketed names, every such URL is blocked, public addresses and the
    approved loopback Origin included. *)
Theorem ipv6_literals_blocked `{!UrlLaws} (resolve : HostResolver) (u : Url)
    (allowed : option Url) (host : string) :
  (∀ name port, starts_with "[" name = true → ∃ e, resolve name port = Err e) →
  url_host_str u = Some host → contains ":" host = true →
  resolve_target resolve u allowed = Err (blocked u).
Proof.
  intros Hr Hh Hc. pose proof (url_host_bracketed u host Hh Hc) as Hb.
  unfold resolve_target. destruct (negb _); [done|]. rewrite Hh. simpl.
  destruct (normalized_bracket host Hb) as [->|Hn]; [done|].
  set (name := to_ascii_lowercase _) in *. destruct (_ || _); [done|].
  destruct (url_port_or_known_default u) as [port|]; simpl; [|done].
  rewrite (parse_ip_bracket _ Hn). destruct (Hr name port Hn) as [e ->]. done.
Qed.
End properties.

(** ** Witnesses *)

(** A resolver that knows one public host and no bracketed name. *)
Definition toy_resolver : HostResolver := λ name port,
  if bool_decide (name = "cdn.example.com") then Ok [mkSocketAddr (v4 93 184 216 34) port]
  else Err (mkIoError NotFound "no such host").
Definition toy_page : @Url toy_url := mkToyUrl "https" (Some "cdn.example.com") None "/a.css".
Definition toy_v6_page : @Url toy_url := mkToyUrl "http" (Some "[::1]") (Some 6688) "/".

Lemma approved_targets_public_witness :
  ∃ t, resolve_target toy_resolver toy_page None = Ok t ∧
    ∃ host port, url_host_str toy_page = Some host ∧
      name_approved toy_resolver (to_ascii_lowercase (trim_end_matches "." host)) port false
        (rt_address t).
Proof.
  exists (mkResolvedTarget "cdn.example.com" (mkSocketAddr (v4 93 184 216 34) 443)).
  assert (resolve_target toy_resolver toy_page None =
    Ok (mkResolvedTarget "cdn.example.com" (mkSocketAddr (v4 93 184 216 34) 443))) as H
    by (vm_compute; reflexivity).
  split; [exact H|].
  apply approved_targets_public in H as (host&port&Hh&_&_&_&_&_&H).
  exists host, port. split; [exact Hh|].
  destruct H as [(a&?&?&[?|(_&?&[=]&_)])|H]; [left; exists a; tauto|right; exact H].
Defined.

Lemma ipv6_literals_blocked_witness :
  url_host_str toy_v6_page = Some "[::1]" ∧
  resolve_target toy_resolver toy_v6_page (Some toy_v6_page) = Err (blocked toy_v6_page).
Proof.
  split; [reflexivity|].
  apply (ipv6_literals_blocked toy_resolver toy_v6_page (Some toy_v6_page) "[::1]");
    [|reflexivity|reflexivity].
  intros name port Hn. unfold toy_resolver. rewrite bool_decide_eq_false_2.
  - eexists. reflexivity.
  - intros ->. discriminate Hn.
Defined.
