(* ===== verification/Proxy.v ===== *)
(** * The filtering proxy of the HTML renderer ([crates/runtime/src/html/proxy.rs])

    How the proxy answers each request of the browser: the inline page, a tunnel,
    a forwarded request or a refusal, with the connections it opens and the
    rejected resources it remembers.  The browser, the network and the resolver
    are arbitrary, and may answer differently every time. *)

From S2P Require Import Prelude RustStr F64 NetAddr Externs Toy FileSys Protocol State.
From S2P Require Import ResourcePolicy.
Open Scope string_scope.
Open Scope N_scope.
Open Scope list_scope.

(** [InlineRoute] *)
Record InlineRoute := mkInlineRoute { ir_authority : string; ir_body : string }.

(** The parts of a [Request<Incoming>] the proxy looks at: its URI ([pr_uri] is
    its text) and three headers as raw values. *)
Record ProxyRequest := mkProxyRequest {
  pr_connect : bool;
  pr_uri : string;
  pr_scheme : option string;
  pr_authority : option string;
  pr_path : string;
  pr_query : option string;
  pr_path_and_query : option string;
  pr_host : option string;
  pr_referer : option string;
  pr_origin : option string
}.

(** A request as it is sent upstream: its origin-form URI and Host header. *)
Record ForwardedRequest := mkForwardedRequest { fr_uri : string; fr_host : option string }.

(** The answers: the body of a forwarded one is not looked at. *)
Inductive ProxyResponse :=
  | RInlinePage (body : string)
  | RStatus (status : N)
  | RTunnel
  | RInlineTunnel
  | RForwarded (status : N).

(** What the proxy calls: [HeaderValue::to_str], the parsers of a URI and of a
    header value, a connection attempt, and the exchange over a connection. *)
Class ProxyEnv := {
  px_to_str : string → option string;
  px_parse_uri : string → result string unit;
  px_parse_header : string → result string unit;
  px_resolve : nat → HostResolver;
  px_connect : nat → SocketAddr → result IoError unit;
  px_exchange : nat → SocketAddr → ForwardedRequest → result string N
}.

Section proxy.
Context `{U : UrlOps, I : IpNetOps, P : !ProxyEnv}.

(** [RejectedResourceTracker], the connections opened so far, and the clock. *)
Record ProxyLog := mkProxyLog {
  pl_rejected : option string;
  pl_page_url : option Url;
  pl_connections : list SocketAddr;
  pl_tick : nat
}.
(** [ProxyState] without its tracker. *)
Record ProxyState := mkProxyState {
  ps_allowed_loopback_origin : option Url;
  ps_inline : option InlineRoute
}.

Abbreviation Proxy E := (M ProxyLog E).

Definition proxy_tick {E} : Proxy E nat := λ l,
  (Ok (pl_tick l), mkProxyLog (pl_rejected l) (pl_page_url l) (pl_connections l) (S (pl_tick l))).

(** ** The tracker *)

Definition tracker_new : ProxyLog := mkProxyLog None None [] 0.

Definition set_page_url (page_url : Url) (l : ProxyLog) : ProxyLog :=
  mkProxyLog (pl_rejected l) (Some page_url) (pl_connections l) (pl_tick l).

Definition belongs_to_page (l : ProxyLog) (request : ProxyRequest) : bool :=
  match pl_page_url l with
  | None => false
  | Some page_url =>
      existsb (λ header : option string,
        match (header ≫= px_to_str) ≫= Url_parse with
        | Some value => url_same_origin value page_url
        | None => false
        end) [pr_referer request; pr_origin request]
  end.

Definition record_rejected (resource : string) (belongs_to_page : bool) (l : ProxyLog)
  : ProxyLog :=
  if negb belongs_to_page then l
  else mkProxyLog (Some (unwrap_or (pl_rejected l) resource)) (pl_page_url l)
         (pl_connections l) (pl_tick l).

Definition clear_rejected (l : ProxyLog) : ProxyLog :=
  mkProxyLog None (pl_page_url l) (pl_connections l) (pl_tick l).

Definition record_rejected_resource (error : HtmlRenderError) (belongs_to_page : bool)
    (l : ProxyLog) : ProxyLog :=
  match error with
  | BlockedResource resource => record_rejected resource belongs_to_page l
  | _ => l
  end.

(** ** Requests *)

Definition invalid_request (reason : string) : HtmlRenderError := InvalidProxyRequest reason.

Definition request_authority (request : ProxyRequest) : option string :=
  match pr_authority request with
  | Some authority => Some authority
  | None => pr_host request ≫= px_to_str
  end.

Definition proxy_request_url (request : ProxyRequest) : result HtmlRenderError Url :=
  if is_some (pr_scheme request) then
    ok_or (invalid_request "proxy request URL is invalid") (Url_parse (pr_uri request))
  else
    authority ← ok_or (invalid_request "origin-form proxy request is missing Host")
                  (request_authority request);
    let path_and_query := unwrap_or (pr_path_and_query request) "/" in
    ok_or (invalid_request "origin-form proxy request URL is invalid")
      (Url_parse ("http://" +:+ (authority +:+ path_and_query))).

(** [is_inline_request] and [is_inline_favicon_request] differ in the path. *)
Definition is_inline_path (state : ProxyState) (request : ProxyRequest) (path : string) : bool :=
  match ps_inline state with
  | None => false
  | Some route =>
      bool_decide (request_authority request = Some (ir_authority route)) &&
      bool_decide (pr_path request = path) && is_none (pr_query request)
  end.
Definition is_inline_request (state : ProxyState) (request : ProxyRequest) : bool :=
  is_inline_path state request "/".
Definition is_inline_favicon_request (state : ProxyState) (request : ProxyRequest) : bool :=
  is_inline_path state request "/favicon.ico".

Definition is_inline_connect_authority (state : ProxyState) (authority : string) : bool :=
  match ps_inline state with
  | None => false
  | Some route =>
      bool_decide (authority = ir_authority route) ||
      bool_decide (authority = ir_authority route +:+ ":80")
  end.

Definition inline_response (route : InlineRoute) : ProxyResponse := RInlinePage (ir_body route).
Definition no_content_response : ProxyResponse := RStatus 204.
Definition error_response (error : HtmlRenderError) : ProxyResponse :=
  RStatus (match error with BlockedResource _ => 403 | _ => 502 end).

(** The service inside an inline tunnel. *)
Definition inline_tunnel_response (route : InlineRoute) (request : ProxyRequest)
  : ProxyResponse :=
  if bool_decide (pr_host request ≫= px_to_str = Some (ir_authority route)) &&
     bool_decide (pr_path request = "/") && is_none (pr_query request)
  then inline_response route
  else error_response (invalid_request "inline CONNECT tunnel only serves its synthetic page").

(** [connector.connect(address)] *)
Definition proxy_connect (address : SocketAddr) : Proxy HtmlRenderError nat :=
  n ← proxy_tick;
  _ ← modify (λ l, mkProxyLog (pl_rejected l) (pl_page_url l) (pl_connections l ++ [address])
                     (pl_tick l));
  _ ← lift (map_err HIo (px_connect n address));
  mret n.

Definition resolve_request (state : ProxyState) (u : Url) : Proxy HtmlRenderError ResolvedTarget :=
  n ← proxy_tick;
  lift (resolve_target (px_resolve n) u (ps_allowed_loopback_origin state)).

Definition handle_connect (state : ProxyState) (request : ProxyRequest)
  : Proxy HtmlRenderError ProxyResponse :=
  authority ← lift (ok_or (invalid_request "CONNECT target must be an authority")
                      (pr_authority request));
  if is_inline_connect_authority state authority then mret RInlineTunnel
  else
    url ← lift (ok_or (invalid_request "invalid URL") (Url_parse ("https://" +:+ (authority +:+ "/"))));
    target ← resolve_request state url;
    _ ← proxy_connect (rt_address target);
    mret RTunnel.

Definition handle_http (state : ProxyState) (request : ProxyRequest)
  : Proxy HtmlRenderError ProxyResponse :=
  url ← lift (proxy_request_url request);
  if negb (bool_decide (url_scheme url = "http")) then
    raise (invalid_request "HTTPS resources must use CONNECT")
  else
    target ← resolve_request state url;
    n ← proxy_connect (rt_address target);
    let origin_form := match url_query url with
                       | Some query => url_path url +:+ "?" +:+ query
                       | None => url_path url
                       end in
    _ ← lift (map_err InvalidProxyRequest (px_parse_uri origin_form));
    host ← match pr_host request with
           | Some host => mret (Some host)
           | None =>
               _ ← lift (map_err InvalidProxyRequest (px_parse_header (rt_authority target)));
               mret (Some (rt_authority target))
           end;
    status ← lift (map_err HHttp
               (px_exchange n (rt_address target) (mkForwardedRequest origin_form host)));
    mret (RForwarded status).

(** [handle]: every error becomes a response.  The route of an inline request is
    present ([expect] in the source). *)
Definition handle (state : ProxyState) (request : ProxyRequest) : Proxy Empty_set ProxyResponse :=
  belongs ← gets (λ l, belongs_to_page l request);
  response ← attempt (
    if pr_connect request then handle_connect state request
    else if is_inline_request state request then
      match ps_inline state with
      | Some route => mret (inline_response route)
      | None => raise (invalid_request "route checked")
      end
    else if is_inline_favicon_request state request then mret no_content_response
    else handle_http state request);
  match response with
  | Ok response => mret response
  | Err error =>
      _ ← modify (record_rejected_resource error belongs);
      mret (error_response error)
  end.

(** [start_with]: the inline route has a random authority. *)
Definition start_state (uuid : string) (inline_html : option string)
    (allowed_loopback_origin : option Url) : ProxyState :=
  mkProxyState allowed_loopback_origin
    ((λ body, mkInlineRoute (uuid +:+ ".printbridge.invalid") body) <$> inline_html).

(** [FilteringProxy]: its state, the address the browser is given, and the page of
    an inline document. *)
Record FilteringProxy := mkFilteringProxy {
  fp_state : ProxyState; fp_proxy_url : Url; fp_inline_url : option Url
}.
(** [start_with], up to the accept loop: [listen] is the port the operating
    system chose or its error.  The proxy's own URL not parsing is a panic of
    the source. *)
Definition proxy_start (listen : result IoError N) (uuid : string) (inline_html : option string)
    (allowed_loopback_origin : option Url) : result HtmlRenderError FilteringProxy :=
  port ← map_err HIo listen;
  let state := start_state uuid inline_html allowed_loopback_origin in
  inline_url ← match ps_inline state with
               | None => Ok None
               | Some route =>
                   url ← ok_or (InvalidProxyRequest "invalid URL")
                           (Url_parse ("http://" +:+ (ir_authority route +:+ "/")));
                   Ok (Some url)
               end;
  proxy_url ← ok_or (InvalidProxyRequest "loopback proxy URL must be valid")
                (Url_parse ("http://127.0.0.1:" +:+ pretty port));
  Ok (mkFilteringProxy state proxy_url inline_url).

(** [target_url]: the page to open; [None] is the panic of an inline source
    without a route. *)
Definition target_url (inline_url : option Url) (source : HtmlSource) : option Url :=
  match source with SourceUrl u => Some u | SourceInline _ => inline_url end.

(** A run: the requests the browser makes, one after the other. *)
Fixpoint proxy_run (state : ProxyState) (l : ProxyLog) (requests : list ProxyRequest)
  : list ProxyResponse * ProxyLog :=
  match requests with
  | [] => ([], l)
  | request :: requests' =>
      match handle state request l with
      | (Ok response, l') =>
          let '(responses, l'') := proxy_run state l' requests' in (response :: responses, l'')
      | (Err e, l') => match e with end
      end
  end.
End proxy.

(** ** Properties *)

Section proxy_lemmas.
Context `{U : UrlOps, I : IpNetOps, P : !ProxyEnv}.
Implicit Types (l : ProxyLog).

(** Between the two logs at most one connection was opened, to a target approved
    for some URL. *)
Definition connects (state : ProxyState) (asked : Url → Prop) (l l' : ProxyLog) : Prop :=
  ∃ cs, pl_connections l' = pl_connections l ++ cs ∧ (length cs ≤ 1)%nat ∧
    ∀ a, a ∈ cs → ∃ n u t, asked u ∧
      resolve_target (px_resolve n) u (ps_allowed_loopback_origin state) = Ok t ∧
      rt_address t = a.
(** The URL a request names. *)
Definition asks_for (request : ProxyRequest) (u : Url) : Prop :=
  if pr_connect request
  then ∃ authority, pr_authority request = Some authority ∧
         Url_parse ("https://" +:+ (authority +:+ "/")) = Some u
  else proxy_request_url request = Ok u.
(** The tracker was left alone. *)
Definition untracked (l l' : ProxyLog) : Prop :=
  pl_rejected l' = pl_rejected l ∧ pl_page_url l' = pl_page_url l.

Lemma connects_same state asked l l' :
  pl_connections l' = pl_connections l → connects state asked l l'.
Proof.
  intros H. exists []. rewrite H, app_nil_r. split_and!; [done|simpl; lia|].
  by intros a ?%not_elem_of_nil.
Qed.

Lemma resolve_request_spec state u l :
  let '(r, l') := resolve_request state u l in
  untracked l l' ∧ pl_connections l' = pl_connections l ∧
  r = resolve_target (px_resolve (pl_tick l)) u (ps_allowed_loopback_origin state).
Proof. done. Qed.

Lemma proxy_connect_spec a l :
  let '(r, l') := proxy_connect a l in
  untracked l l' ∧ pl_connections l' = pl_connections l ++ [a].
Proof.
  unfold proxy_connect. rewrite M_bind_eq. unfold proxy_tick at 1. rewrite M_bind_eq.
  unfold modify at 1. rewrite M_bind_eq. unfold lift at 1.
  by destruct (px_connect _ a) as [[]|].
Qed.

(** A step that neither tracks nor connects. *)
Definition quiet {A} (m : M ProxyLog HtmlRenderError A) : Prop :=
  ∀ l, untracked l (m l).2 ∧ pl_connections (m l).2 = pl_connections l.
(** A part of a handler that does not track and connects only as approved. *)
Definition careful {A} (state : ProxyState) (asked : Url → Prop) (m : M ProxyLog HtmlRenderError A)
  : Prop := ∀ l, untracked l (m l).2 ∧ connects state asked l (m l).2.

Lemma quiet_lift {A} (r : result HtmlRenderError A) : quiet (lift r).
Proof. by intros l. Qed.
Lemma quiet_bind {A C} (m : M ProxyLog HtmlRenderError A) (k : A → M ProxyLog HtmlRenderError C) :
  quiet m → (∀ a, quiet (k a)) → quiet (m ≫= k).
Proof.
  intros Hm Hk l. rewrite M_bind_eq. specialize (Hm l). destruct (m l) as [[a|e] l1]; [|done].
  destruct Hm as [[H1 H2] H3], (Hk a l1) as [[H4 H5] H6]. simpl in *.
  split; [split|]; congruence.
Qed.
Lemma quiet_careful {A} state asked (m : M ProxyLog HtmlRenderError A) :
  quiet m → careful state asked m.
Proof. intros Hm l. destruct (Hm l). split; [done|]. by apply connects_same. Qed.
Lemma careful_lift {A C} state asked (r : result HtmlRenderError A)
    (k : A → M ProxyLog HtmlRenderError C) :
  (∀ a, r = Ok a → careful state asked (k a)) → careful state asked (lift r ≫= k).
Proof.
  intros Hk l. rewrite lift_bind. destruct r as [a|e]; [by apply Hk|].
  split; [done|]. by apply connects_same.
Qed.
Lemma careful_bind {A C} state asked (m : M ProxyLog HtmlRenderError A)
    (k : A → M ProxyLog HtmlRenderError C) :
  quiet m → (∀ a, careful state asked (k a)) → careful state asked (m ≫= k).
Proof.
  intros Hm Hk l. rewrite M_bind_eq. specialize (Hm l). destruct (m l) as [[a|e] l1].
  - destruct Hm as [[H1 H2] H3], (Hk a l1) as [[H4 H5] (cs&H6&H7&H8)]. simpl in *.
    split; [split; congruence|]. exists cs. split_and!; [congruence|done|done].
  - destruct Hm. split; [done|]. by apply connects_same.
Qed.

(** Resolving a URL and connecting to the result. *)
Lemma careful_connect {A} state (asked : Url → Prop) u
    (k : ResolvedTarget → nat → M ProxyLog HtmlRenderError A) :
  asked u → (∀ t n, quiet (k t n)) →
  careful state asked (target ← resolve_request state u;
                       n ← proxy_connect (rt_address target);
                       k target n).
Proof.
  intros Hu0 Hk l. rewrite M_bind_eq. pose proof (resolve_request_spec state u l) as Hr.
  destruct (resolve_request state u l) as [[t|e] l1]; destruct Hr as (Hu&Hc&Heq).
  2:{ split; [done|]. by apply connects_same. }
  rewrite M_bind_eq. pose proof (proxy_connect_spec (rt_address t) l1) as Hp.
  assert (∀ l2, untracked l1 l2 → pl_connections l2 = pl_connections l1 ++ [rt_address t] →
    untracked l l2 ∧ connects state asked l l2) as Hone.
  { intros l2 [??] H2. destruct Hu. split; [split; congruence|]. exists [rt_address t].
    split_and!; [congruence|done|]. intros a ->%list_elem_of_singleton.
    by exists (pl_tick l), u, t. }
  destruct (proxy_connect (rt_address t) l1) as [[n|e] l2]; destruct Hp as [Hu2 Hc2];
    [|by apply Hone].
  destruct (Hk t n l2) as [[H1 H2] H3], Hu2 as [H4 H5]. apply Hone; [split; congruence|congruence].
Qed.

Lemma handle_connect_careful state request :
  pr_connect request = true → careful state (asks_for request) (handle_connect state request).
Proof.
  intros Hc. unfold handle_connect. apply careful_lift. intros authority Ha%ok_or_ok.
  destruct (is_inline_connect_authority state authority); [by apply quiet_careful|].
  apply careful_lift. intros u Hu%ok_or_ok. apply careful_connect; [|done].
  unfold asks_for. rewrite Hc. by exists authority.
Qed.

Lemma handle_http_careful state request :
  pr_connect request = false → careful state (asks_for request) (handle_http state request).
Proof.
  intros Hc. unfold handle_http. apply careful_lift. intros u Hu.
  destruct (negb _); [by apply quiet_careful|].
  apply careful_connect; [by unfold asks_for; rewrite Hc|]. intros t n. cbv zeta.
  apply quiet_bind; [apply quiet_lift|]. intros _. apply quiet_bind.
  - destruct (pr_host request); [done|]. apply quiet_bind; [apply quiet_lift|done].
  - intros host. by apply quiet_bind; [apply quiet_lift|].
Qed.

(** The body of [handle], before its errors become responses. *)
Definition respond (state : ProxyState) (request : ProxyRequest)
  : M ProxyLog HtmlRenderError ProxyResponse :=
  if pr_connect request then handle_connect state request
  else if is_inline_request state request then
    match ps_inline state with
    | Some route => mret (inline_response route)
    | None => raise (invalid_request "route checked")
    end
  else if is_inline_favicon_request state request then mret no_content_response
  else handle_http state request.

Lemma respond_careful state request : careful state (asks_for request) (respond state request).
Proof.
  unfold respond. destruct (pr_connect request) eqn:Hc; [by apply handle_connect_careful|].
  destruct (is_inline_request state request).
  { destruct (ps_inline state); by apply quiet_careful. }
  destruct (is_inline_favicon_request state request); [by apply quiet_careful|].
  by apply handle_http_careful.
Qed.

(** What [handle] does with the result of its body. *)
Lemma handle_respond state request l :
  let '(r, l1) := respond state request l in
  handle state request l =
    match r with
    | Ok response => (Ok response, l1)
    | Err error => (Ok (error_response error),
                    record_rejected_resource error (belongs_to_page l request) l1)
    end.
Proof.
  unfold handle. rewrite M_bind_eq. unfold gets at 1. rewrite M_bind_eq. unfold attempt at 1.
  fold (respond state request). destruct (respond state request l) as [[r|e] l1]; [done|].
  rewrite M_bind_eq. done.
Qed.
End proxy_lemmas.

Section proxy_properties.
Context `{U : UrlOps, I : IpNetOps, IL : !IpNetLaws, P : !ProxyEnv}.

Lemma record_connections e b l :
  pl_connections (record_rejected_resource e b l) = pl_connections l.
Proof. destruct e; try done. simpl. unfold record_rejected. by destruct b. Qed.

Lemma handle_connects state request l :
  ∃ response l', handle state request l = (Ok response, l') ∧ connects state (asks_for request) l l'.
Proof.
  pose proof (handle_respond state request l) as Hr.
  destruct (respond_careful state request l) as [_ Hc].
  destruct (respond state request l) as [[response|e] l1]; rewrite Hr.
  - by exists response, l1.
  - eexists _, _. split; [done|]. destruct Hc as (cs&H1&H2&H3). exists cs.
    by rewrite record_connections.
Qed.

Lemma proxy_run_connections state requests : ∀ l,
  let '(responses, l') := proxy_run state l requests in
  length responses = length requests ∧
  ∃ cs, pl_connections l' = pl_connections l ++ cs ∧ (length cs ≤ length requests)%nat ∧
    ∀ a, a ∈ cs → ∃ request n u t, request ∈ requests ∧ asks_for request u ∧
      resolve_target (px_resolve n) u (ps_allowed_loopback_origin state) = Ok t ∧
      rt_address t = a.
Proof.
  induction requests as [|request requests IH]; intros l; simpl.
  { split; [done|]. exists []. rewrite app_nil_r. split_and!; [done|simpl; lia|].
    by intros a ?%not_elem_of_nil. }
  destruct (handle_connects state request l) as (response&l1&->&cs&H1&H2&H3).
  specialize (IH l1). destruct (proxy_run state l1 requests) as [responses l2].
  destruct IH as (Hlen&cs'&H4&H5&H6). split; [simpl; lia|]. exists (cs ++ cs').
  rewrite H4, H1, app_assoc, length_app. split_and!; [done|lia|].
  intros a [Ha|Ha]%elem_of_app.
  - destruct (H3 a Ha) as (n&u&t&?&?). exists request, n, u, t. split; [by left|done].
  - destruct (H6 a Ha) as (r&n&u&t&?&?). exists r, n, u, t. split; [by right|done].
Qed.

(** C24: The proxy is no way into the local network.  Over any sequence of
    requests of the browser, with DNS answering differently every time, every
    request gets one response and opens at most one connection, and every
    connection goes to an address outside all reserved ranges, or, for a request whose
    URL has the loopback Origin that was approved for the page, to the loopback address
    and the port this URL names; the address is the one that was checked, so a second
    resolution cannot redirect it. *)
Theorem proxy_connections_approved (uuid : string) (inline : option string)
    (allowed : option Url) (requests : list ProxyRequest) :
  let '(responses, l) := proxy_run (start_state uuid inline allowed) tracker_new requests in
  length responses = length requests ∧ (length (pl_connections l) ≤ length requests)%nat ∧
  ∀ a, a ∈ pl_connections l →
    ¬ reserved (sa_ip a) ∨
    (is_loopback (sa_ip a) = true ∧ ∃ request u origin, request ∈ requests ∧
       asks_for request u ∧ points_at u a ∧ allowed = Some origin ∧ url_same_origin origin u = true).
Proof.
  pose proof (proxy_run_connections (start_state uuid inline allowed) requests tracker_new) as H.
  destruct (proxy_run _ _ requests) as [responses l].
  destruct H as (Hlen&cs&Hcs&Hle&Hall). simpl in Hcs. rewrite Hcs.
  split_and!; [done|done|]. intros a (request&n&u&t&Hin&Hu&Ht&<-)%Hall.
  destruct (approved_address _ _ _ _ Ht) as [?|(?&?&o&?&?)]; [by left|right].
  split; [done|]. by exists request, u, o.
Qed.

(** The inline document is served only under its secret authority: a request
    is answered with it exactly when it is not a CONNECT, names the random
    authority of the route (in its URI, or in its Host header when the URI has
    none), and asks for the path [/] without a query. *)
Theorem inline_page_authority (state : ProxyState) (request : ProxyRequest) (l : ProxyLog)
    (body : string) :
  (handle state request l).1 = Ok (RInlinePage body) ↔
  pr_connect request = false ∧ pr_path request = "/" ∧ pr_query request = None ∧
  ∃ route, ps_inline state = Some route ∧ ir_body route = body ∧
    request_authority request = Some (ir_authority route).
Proof.
  assert (is_inline_request state request = true ↔ pr_path request = "/" ∧
    pr_query request = None ∧ ∃ route, ps_inline state = Some route ∧
    request_authority request = Some (ir_authority route)) as Hin.
  { unfold is_inline_request, is_inline_path. destruct (ps_inline state) as [route|];
      [|by split; [|intros (_&_&?&[=]&_)]].
    rewrite !andb_true_iff, !bool_decide_eq_true.
    destruct (pr_query request); simpl; naive_solver. }
  pose proof (handle_respond state request l) as Hr. unfold respond in Hr.
  destruct (pr_connect request).
  { split; [|by intros [[=] _]]. intros H. exfalso. revert H.
    destruct (handle_connect state request l) as [[r|e] l1] eqn:Hh; rewrite Hr; simpl; [|done].
    intros [= ->]. unfold handle_connect in Hh.
    apply M_bind_ok in Hh as (?&?&_&Hh). destruct (is_inline_connect_authority _ _); [done|].
    apply M_bind_ok in Hh as (?&?&_&Hh). apply M_bind_ok in Hh as (?&?&_&Hh).
    by apply M_bind_ok in Hh as (?&?&_&Hh). }
  destruct (is_inline_request state request) eqn:Hi.
  - destruct (proj1 Hin eq_refl) as (Hp&Hq&route&Hroute&Ha). rewrite Hroute in *.
    rewrite Hr. simpl. unfold inline_response. split.
    + intros [= <-]. split_and!; try done. by exists route.
    + by intros (_&_&_&?&[= <-]&<-&_).
  - split; [|intros (_&Hp&Hq&route&H1&_&H2)].
    2:{ assert (false = true) as [=]. apply Hin. split_and!; try done. by exists route. }
    intros H. exfalso. revert H. destruct (is_inline_favicon_request state request).
    { by rewrite Hr. }
    destruct (handle_http state request l) as [[r|e] l1] eqn:Hh; rewrite Hr; simpl; [|done].
    intros [= ->]. unfold handle_http in Hh.
    apply M_bind_ok in Hh as (?&?&_&Hh). destruct (negb _); [done|].
    apply M_bind_ok in Hh as (?&?&_&Hh). apply M_bind_ok in Hh as (?&?&_&Hh).
    cbv zeta in Hh. apply M_bind_ok in Hh as (?&?&_&Hh). apply M_bind_ok in Hh as (?&?&_&Hh).
    by apply M_bind_ok in Hh as (?&?&_&Hh).
Qed.
End proxy_properties.

(** ** Witness *)

#[export] Instance toy_proxy_env : ProxyEnv := {|
  px_to_str s := Some s;
  px_parse_uri _ := Ok tt;
  px_parse_header _ := Ok tt;
  px_resolve _ := toy_resolver;
  px_connect _ _ := Ok tt;
  px_exchange _ _ _ := Ok 200
|}.
Definition toy_request (host : string) : ProxyRequest :=
  mkProxyRequest false "/a.css" None None "/a.css" None (Some "/a.css") (Some host) None None.

Lemma proxy_connections_approved_witness :
  let '(responses, l) := proxy_run (start_state "uuid" None None) tracker_new
    [toy_request "cdn.example.com"; toy_request "10.0.0.8"] in
  responses = [RForwarded 200; RStatus 403] ∧
  ∀ a, a ∈ pl_connections l → ¬ reserved (sa_ip a) ∨
    (is_loopback (sa_ip a) = true ∧ ∃ request u origin,
       request ∈ [toy_request "cdn.example.com"; toy_request "10.0.0.8"] ∧
       asks_for request u ∧ points_at u a ∧ None = Some origin ∧ url_same_origin origin u = true).
Proof.
  pose proof (proxy_connections_approved "uuid" None None
    [toy_request "cdn.example.com"; toy_request "10.0.0.8"]) as H.
  assert ((proxy_run (start_state "uuid" None None) tracker_new
    [toy_request "cdn.example.com"; toy_request "10.0.0.8"]).1 = [RForwarded 200; RStatus 403])
    as Hr by (vm_compute; reflexivity).
  destruct (proxy_run _ _ _) as [responses l]. destruct H as (_&_&H). split; [exact Hr|exact H].
Defined.
