(* ===== verification/Browser.v ===== *)
(** * Finding and launching a browser ([crates/runtime/src/html/browser.rs], first half)

    The browsers that are looked for on each platform, the order of the
    candidates, and launching them one after the other, each within a limit of
    time, behind a gate that lets one launch run at a time. *)

From S2P Require Import Prelude RustStr F64 NetAddr Externs Toy FileSys Protocol IpWhitelist.
From S2P Require Import Config JobQueue State ResourcePolicy Proxy.
From Stdlib Require Import Ascii.
Open Scope string_scope.
Open Scope N_scope.
Open Scope list_scope.

(** Times are in nanoseconds. *)
Definition millis (n : N) : N := n * 1000000.
Definition secs (n : N) : N := n * 1000000000.
Definition VERSION_CHECK_TIMEOUT : N := secs 2.
Definition RENDER_TIMEOUT : N := secs 60.
Definition MAX_CDP_OPERATION_TIMEOUT : N := secs 10.
Definition WAIT_POLL_INTERVAL : N := millis 10.
Definition FORCE_LOOPBACK_THROUGH_PROXY : string := "--proxy-bypass-list=<-loopback>".

Inductive BrowserKind := Edge | Chrome | Chromium.
#[export] Instance BrowserKind_eq_dec : EqDecision BrowserKind.
Proof. solve_decision. Defined.
Definition kind_label (k : BrowserKind) : string :=
  match k with Edge => "edge" | Chrome => "chrome" | Chromium => "chromium" end.
Record BrowserExecutable := mkBrowserExecutable {
  be_kind : BrowserKind; be_path : string; be_label : string
}.
#[export] Instance BrowserExecutable_eq_dec : EqDecision BrowserExecutable.
Proof. solve_decision. Defined.

Inductive TargetOs := TWindows | TMacOs | TLinux.
(** [TargetOs::current] *)
Definition target_os (pf : Platform) : TargetOs :=
  match pf with Windows => TWindows | MacOs => TMacOs | OtherUnix => TLinux end.

(** ** Probing *)

(** The trait [BrowserProbe]. *)
Record BrowserProbe := mkBrowserProbe {
  probe_is_file : string → bool;
  probe_find_in_path : string → option string;
  probe_has_version : string → bool
}.

(** What [try_wait] says of the child, and the time since it was started. *)
Inductive ChildPoll := Exited (success : bool) | StillRunning | PollFailed.

(** The loop of [has_version] from its [i]-th look on; a look that finds the child
    running within the limit sleeps and looks again.  [None] is a loop that has
    not ended after [fuel] looks. *)
Fixpoint has_version_loop (fuel i : nat) (child : nat → ChildPoll * N) : option bool :=
  match fuel with
  | O => None
  | S fuel' =>
      match child i with
      | (Exited success, _) => Some success
      | (StillRunning, elapsed) =>
          if elapsed <? VERSION_CHECK_TIMEOUT then has_version_loop fuel' (S i) child
          else Some false
      | (PollFailed, _) => Some false
      end
  end.
(** A look and the sleep after it take at least twenty milliseconds. *)
Definition VERSION_CHECK_LOOKS : nat := 101.
Definition has_version (spawned : option (nat → ChildPoll * N)) : bool :=
  match spawned with
  | None => false
  | Some child => unwrap_or (has_version_loop VERSION_CHECK_LOOKS 0 child) false
  end.

(** [SystemBrowserProbe]: [PATH], the files there are, and the children started
    with [--version]. *)
Definition split_paths (pf : Platform) (path : string) : list string :=
  split_char (match pf with Windows => ";" | _ => ":" end)%char path.
Definition system_probe (pf : Platform) (env : Env) (is_file : string → bool)
    (spawn : string → option (nat → ChildPoll * N)) : BrowserProbe := {|
  probe_is_file := is_file;
  probe_find_in_path command :=
    path ← env "PATH";
    iter_find is_file (map (λ directory, path_join pf directory command) (split_paths pf path));
  probe_has_version path := has_version (spawn path)
|}.

(** ** Candidates *)

Section candidates.
Context (env : Env) (probe : BrowserProbe).

Definition windows_path (root suffix : string) : string := root +:+ "\" +:+ suffix.
Definition option_list {A} (o : option A) : list A :=
  match o with Some a => [a] | None => [] end.

Definition windows_candidates : list (BrowserKind * string) :=
  let program_files_x86 := unwrap_or (env "PROGRAMFILES(X86)") "C:\Program Files (x86)" in
  let program_files := unwrap_or (env "PROGRAMFILES") "C:\Program Files" in
  let local_app_data := env "LOCALAPPDATA" in
  map (λ root, (Edge, windows_path root "Microsoft\Edge\Application\msedge.exe"))
    [program_files_x86; program_files] ++
  map (λ root, (Chrome, windows_path root "Google\Chrome\Application\chrome.exe"))
    (program_files :: option_list local_app_data) ++
  map (λ root, (Chromium, windows_path root "Chromium\Application\chrome.exe"))
    (program_files :: option_list local_app_data).

Definition macos_candidates : list (BrowserKind * string) :=
  let roots := "/Applications" ::
    option_list ((λ home, path_join MacOs home "Applications") <$> env "HOME") in
  map (λ root, (Chrome, path_join MacOs root "Google Chrome.app/Contents/MacOS/Google Chrome"))
    roots ++
  map (λ root, (Chromium, path_join MacOs root "Chromium.app/Contents/MacOS/Chromium")) roots.

Definition linux_candidates : list (BrowserKind * string) :=
  omap (λ '(kind, command), pair kind <$> probe_find_in_path probe command)
    [(Chrome, "google-chrome-stable"); (Chrome, "google-chrome");
     (Chromium, "chromium"); (Chromium, "chromium-browser")].

Definition candidates (os : TargetOs) : list (BrowserKind * string) :=
  match os with
  | TWindows => windows_candidates
  | TMacOs => macos_candidates
  | TLinux => linux_candidates
  end.

Definition is_available (os : TargetOs) (path : string) : bool :=
  match os with
  | TWindows => probe_is_file probe path
  | TMacOs => probe_is_file probe path && probe_has_version probe path
  | TLinux => probe_has_version probe path
  end.

(** [BrowserLocator::available]: all of them, or what was searched. *)
Definition available (os : TargetOs) : result (list string) (list BrowserExecutable) :=
  let searched := map snd (candidates os) in
  let available_candidates :=
    omap (λ '(kind, path),
      if is_available os path then Some (mkBrowserExecutable kind path (kind_label kind)) else None)
      (candidates os) in
  if bool_decide (available_candidates = []) then Err searched else Ok available_candidates.
End candidates.

(** [BrowserLocator::find]; the first candidate is there because the list is not
    empty ([expect] in the source). *)
Definition find_browser `{U : UrlOps} (env : Env) (probe : BrowserProbe) (os : TargetOs)
  : result HtmlRenderError BrowserExecutable :=
  l ← map_err RendererUnavailable (available env probe os);
  match l with
  | executable :: _ => Ok executable
  | [] => Err (RendererUnavailable [])
  end.

(** ** Launching *)

(** What the program asks of [headless_chrome] for a browser. *)
Record LaunchOptions := mkLaunchOptions {
  lo_path : string; lo_user_data_dir : string; lo_proxy_server : option string;
  lo_args : list string; lo_ignore_certificate_errors : bool; lo_headless : bool;
  lo_sandbox : bool; lo_idle_browser_timeout : N
}.

(** One attempt to launch: how long another launch still holds the gate, the
    failure to start the launching thread, and how long the launch takes with
    its result; [None] is a thread that stopped without one. *)
Record LaunchRun := mkLaunchRun {
  lr_gate_wait : N; lr_spawn : result string unit; lr_duration : N;
  lr_result : option (result string unit)
}.

(** What happens outside the renderer, by the number of the observation: the time
    that passes, the requests the page makes meanwhile, and the answers of the
    operating system and of the browser. *)
Record PrintToPdfOptions := mkPrintToPdfOptions {
  pp_print_background : bool; pp_paper_width : f64; pp_paper_height : f64;
  pp_margin_top : f64; pp_margin_right : f64; pp_margin_bottom : f64; pp_margin_left : f64
}.
Class BrowserEnv := {
  br_elapsed : nat → N;
  br_requests : nat → list ProxyRequest;
  br_tempdir : nat → result IoError string;
  br_listen : nat → result IoError N;
  br_uuid : nat → string;
  br_launch : nat → LaunchOptions → LaunchRun;
  chrome_new_tab : nat → N → result string unit;
  chrome_navigate_to : nat → string → result string unit;
  chrome_wait_until_navigated : nat → N → result string unit;
  chrome_print_to_pdf : nat → PrintToPdfOptions → result string string;
  (** The text of a join error, given the message of the panic. *)
  br_join_error : string → string;
  br_timer_fires : nat → bool;
  br_var : Env;
  br_probe : BrowserProbe;
  br_os : TargetOs
}.

Section launch.
Context `{U : UrlOps, I : IpNetOps, P : !ProxyEnv, BE : !BrowserEnv}.

(** The clock, the observations made, the cancellation flag, the files, the
    tracker of the proxy, and the browsers launched so far. *)
Record BrowserWorld := mkBrowserWorld {
  bw_clock : N;
  bw_tick : nat;
  bw_cancelled : bool;
  bw_fs : Fs;
  bw_log : ProxyLog;
  bw_launches : list LaunchOptions
}.
Abbreviation BrowserM := (M BrowserWorld HtmlRenderError).

(** Time passes, and the page of [px] (if a proxy is running) makes requests. *)
Definition pass (px : option ProxyState) (ns : N) (w : BrowserWorld) : BrowserWorld :=
  mkBrowserWorld (bw_clock w + ns) (S (bw_tick w)) (bw_cancelled w) (bw_fs w)
    (match px with
     | Some state => (proxy_run state (bw_log w) (br_requests (bw_tick w))).2
     | None => bw_log w
     end) (bw_launches w).
(** An observation: the number it has, once the time before it has passed. *)
Definition observe (px : option ProxyState) : BrowserM nat := λ w,
  (Ok (bw_tick w), pass px (br_elapsed (bw_tick w)) w).
(** [Instant::now()] *)
Definition now (px : option ProxyState) : BrowserM N :=
  _ ← observe px; gets bw_clock.
(** [thread::sleep], at least for the given time. *)
Definition sleep (px : option ProxyState) (ns : N) : BrowserM unit := λ w,
  (Ok tt, pass px (ns + br_elapsed (bw_tick w)) w).

Inductive BrowserLaunchAttemptError :=
  | LaunchFailed (error : string)
  | LaunchTimedOut (timeout_ms : N)
  | LaunchAbort (error : HtmlRenderError).
Abbreviation LaunchM := (M BrowserWorld BrowserLaunchAttemptError).

(** [BrowserLaunchGuard::acquire]: waiting for the gate until [deadline]. *)
Definition acquire_gate (px : option ProxyState) (deadline timeout_ms gate_wait : N)
  : LaunchM unit :=
  if gate_wait =? 0 then mret tt
  else
    time ← mapping_err LaunchAbort (now px);
    let remaining := deadline - time in
    if remaining =? 0 then raise (LaunchTimedOut timeout_ms)
    else if gate_wait <=? remaining then mapping_err LaunchAbort (sleep px gate_wait)
    else
      _ ← mapping_err LaunchAbort (sleep px remaining);
      raise (LaunchTimedOut timeout_ms).

(** [launch_with_timeout] *)
Definition launch_with_timeout (px : option ProxyState) (timeout timeout_ms : N)
    (options : LaunchOptions) : LaunchM unit :=
  start ← mapping_err LaunchAbort (now px);
  let deadline := start + timeout in
  n ← mapping_err LaunchAbort (observe px);
  let run := br_launch n options in
  _ ← acquire_gate px deadline timeout_ms (lr_gate_wait run);
  time ← mapping_err LaunchAbort (now px);
  let remaining := deadline - time in
  if remaining =? 0 then raise (LaunchTimedOut timeout_ms)
  else
    _ ← lift (map_err LaunchFailed (lr_spawn run));
    _ ← modify (λ w, mkBrowserWorld (bw_clock w) (bw_tick w) (bw_cancelled w) (bw_fs w) (bw_log w)
                       (bw_launches w ++ [options]));
    if lr_duration run <=? remaining then
      _ ← mapping_err LaunchAbort (sleep px (lr_duration run));
      match lr_result run with
      | Some result => lift (map_err LaunchFailed result)
      | None => raise (LaunchFailed "browser launch worker stopped unexpectedly")
      end
    else
      _ ← mapping_err LaunchAbort (sleep px remaining);
      raise (LaunchTimedOut timeout_ms).

(** The loop of [launch_first_available], with the failures so far. *)
Fixpoint launch_loop (launch : BrowserExecutable → LaunchM unit)
    (candidates : list BrowserExecutable) (failures : list string)
  : BrowserM BrowserExecutable :=
  match candidates with
  | [] => raise (RendererUnavailable failures)
  | executable :: candidates' =>
      result ← attempt (launch executable);
      match result with
      | Ok _ => mret executable
      | Err (LaunchFailed error) =>
          launch_loop launch candidates' (failures ++ [be_path executable +:+ ": " +:+ error])
      | Err (LaunchTimedOut timeout_ms) => raise (HTimeout timeout_ms)
      | Err (LaunchAbort error) => raise error
      end
  end.
Definition launch_first_available (candidates : list BrowserExecutable)
    (launch : BrowserExecutable → LaunchM unit) : BrowserM BrowserExecutable :=
  launch_loop launch candidates [].

Definition launch_options (executable : BrowserExecutable) (profile : string)
    (proxy_server : option string) (timeout : N) : LaunchOptions :=
  mkLaunchOptions (be_path executable) profile proxy_server [FORCE_LOOPBACK_THROUGH_PROXY]
    false true true (N.min timeout MAX_CDP_OPERATION_TIMEOUT).

(** [launch_headless_browser]; [attempt_timeout] is asked before every attempt. *)
Definition launch_headless_browser (px : option ProxyState) (profile : string)
    (proxy_server : option string) (attempt_timeout : BrowserM (N * N))
  : BrowserM BrowserExecutable :=
  candidates ← lift (map_err RendererUnavailable (available br_var br_probe br_os));
  launch_first_available candidates (λ executable,
    '(timeout, timeout_ms) ← mapping_err LaunchAbort attempt_timeout;
    launch_with_timeout px timeout timeout_ms
      (launch_options executable profile proxy_server timeout)).

(** [check_browser_launch] *)
Definition check_browser_launch : BrowserM BrowserExecutable :=
  n ← observe None;
  profile ← lift (map_err HIo (br_tempdir n));
  start ← now None;
  let deadline := start + RENDER_TIMEOUT in
  launch_headless_browser None profile None
    (time ← now None;
     let remaining := deadline - time in
     if remaining =? 0 then raise (HTimeout (RENDER_TIMEOUT / 1000000))
     else mret (remaining, RENDER_TIMEOUT / 1000000)).
End launch.
