(* ===== verification/Renderer.v ===== *)
(** * The HTML renderer ([crates/runtime/src/html/browser.rs], second half)

    The deadline every step of a rendering checks, the driver that takes a page
    to a PDF through the browser, and the renderer that runs it behind the
    filtering proxy with a limit of time. *)

From S2P Require Import Prelude RustStr F64 NetAddr Externs Toy FileSys Protocol IpWhitelist.
From S2P Require Import Config JobQueue State ResourcePolicy Proxy Browser.
From Stdlib Require Import ZArith.
Open Scope string_scope.
Open Scope N_scope.
Open Scope list_scope.

Section renderer.
Context `{U : UrlOps, I : IpNetOps, P : !ProxyEnv, BE : !BrowserEnv}.
Abbreviation BrowserM := (M BrowserWorld HtmlRenderError).

(** ** The deadline *)

(** [BrowserRenderControl]; the flag it shares is [bw_cancelled]. *)
Record BrowserRenderControl := mkBrowserRenderControl {
  ct_deadline : N; ct_timeout_ms : N; ct_cdp_operation_timeout : N
}.

Section control.
Context (px : option ProxyState) (control : BrowserRenderControl).

Definition cancel {E} : M BrowserWorld E unit :=
  modify (λ w, mkBrowserWorld (bw_clock w) (bw_tick w) true (bw_fs w) (bw_log w) (bw_launches w)).
Definition timeout_error : HtmlRenderError := HTimeout (ct_timeout_ms control).

Definition check_active : BrowserM unit :=
  cancelled ← gets bw_cancelled;
  expired ← (if cancelled : bool then mret true
             else time ← now px; mret (ct_deadline control <=? time));
  if expired : bool then _ ← cancel; raise timeout_error else mret tt.

Definition remaining_time : BrowserM N :=
  _ ← check_active;
  time ← now px;
  let remaining := ct_deadline control - time in
  if remaining =? 0 then _ ← cancel; raise timeout_error else mret remaining.

Definition before_cdp_operations (request_count : N) : BrowserM N :=
  let required := ct_cdp_operation_timeout control * request_count in
  remaining ← remaining_time;
  if remaining <? required then _ ← cancel; raise timeout_error
  else mret (ct_cdp_operation_timeout control).

(** The loop of [wait]; [None] is a loop that has not ended after [fuel] rounds. *)
Fixpoint wait_loop (fuel : nat) (wait_deadline : N) : BrowserM (option unit) :=
  match fuel with
  | O => mret None
  | S fuel' =>
      _ ← check_active;
      time ← now px;
      if wait_deadline <=? time then mret (Some tt)
      else
        let remaining_wait := wait_deadline - time in
        remaining ← remaining_time;
        _ ← sleep px (N.min (N.min remaining remaining_wait) WAIT_POLL_INTERVAL);
        wait_loop fuel' wait_deadline
  end.
(** Rounds that are enough: every one but the last two sleeps a whole interval. *)
Definition wait_rounds (duration : N) : nat := S (S (N.to_nat (duration / WAIT_POLL_INTERVAL))).
(** [wait]; the second case never happens ([wait_returns] below). *)
Definition wait (duration : N) : BrowserM unit :=
  time ← now px;
  result ← wait_loop (wait_rounds duration) (time + duration);
  match result with
  | Some _ => mret tt
  | None => raise timeout_error
  end.
End control.

(** ** The driver *)

Record BrowserDriverRequest := mkBrowserDriverRequest {
  bd_proxy_url : Url; bd_target_url : Url; bd_profile : string; bd_paper : EffectivePaper;
  bd_wait_ms : N; bd_print_background : bool; bd_output_path : string
}.

(** A panic of the worker thread, as the error the renderer makes of it. *)
Definition worker_panic (message : string) : HtmlRenderError :=
  Navigation ("browser worker stopped unexpectedly: " +:+ br_join_error message).

(** [chrome_proxy_server]: [None] is a panic. *)
Definition chrome_proxy_server (proxy_url : Url) : option string :=
  host ← url_host_str proxy_url;
  let host := if contains ":" host then "[" +:+ host +:+ "]" else host in
  port ← url_port_or_known_default proxy_url;
  Some (url_scheme proxy_url +:+ "://" +:+ host +:+ ":" +:+ pretty port).

(** [HtmlRenderError::navigation] and [pdf_export] *)
Definition navigation {A} (r : result string A) : result HtmlRenderError A := map_err Navigation r.
Definition pdf_export {A} (r : result string A) : result HtmlRenderError A := map_err PdfExport r.

Definition mm_per_inch : f64 := f64_lit 254 1.
Definition print_options (request : BrowserDriverRequest) : PrintToPdfOptions :=
  mkPrintToPdfOptions (bd_print_background request)
    (f64_div (ep_width_mm (bd_paper request)) mm_per_inch)
    (f64_div (ep_height_mm (bd_paper request)) mm_per_inch) f64_zero f64_zero f64_zero f64_zero.

Definition on_browser_fs {A} (m : IO A) : BrowserM A :=
  mapping_err HIo (zoom bw_fs (λ fs w, mkBrowserWorld (bw_clock w) (bw_tick w) (bw_cancelled w) fs
    (bw_log w) (bw_launches w)) m).
Definition on_tracker {E} (f : ProxyLog → ProxyLog) : M BrowserWorld E unit :=
  modify (λ w, mkBrowserWorld (bw_clock w) (bw_tick w) (bw_cancelled w) (bw_fs w) (f (bw_log w))
                 (bw_launches w)).

(** [InstalledBrowserDriver::render], of a page behind the proxy [state]. *)
Definition driver_render (state : ProxyState) (request : BrowserDriverRequest)
    (control : BrowserRenderControl) : BrowserM unit :=
  let px := Some state in
  proxy_server ← lift (ok_or (worker_panic "the filtering proxy URL always has a host")
                         (chrome_proxy_server (bd_proxy_url request)));
  _ ← launch_headless_browser px (bd_profile request) (Some proxy_server)
        (remaining ← remaining_time px control; mret (remaining, ct_timeout_ms control));
  _ ← before_cdp_operations px control 1;
  remaining ← remaining_time px control;
  n ← observe px;
  _ ← lift (navigation (chrome_new_tab n (remaining - ct_cdp_operation_timeout control)));
  _ ← before_cdp_operations px control 2;
  _ ← on_tracker clear_rejected;
  n ← observe px;
  _ ← lift (navigation (chrome_navigate_to n (url_as_str (bd_target_url request))));
  remaining ← remaining_time px control;
  n ← observe px;
  _ ← lift (navigation (chrome_wait_until_navigated n remaining));
  _ ← wait px control (millis (bd_wait_ms request));
  _ ← before_cdp_operations px control 2;
  n ← observe px;
  pdf ← lift (pdf_export (chrome_print_to_pdf n (print_options request)));
  _ ← check_active px control;
  on_browser_fs (fs_write (bd_output_path request) pdf).

(** ** The renderer *)

(** [BrowserHtmlRenderer::render].  The worker thread runs the driver; the timer
    can fire only once the deadline has passed, and the renderer then waits for
    the worker all the same. *)
Definition render (timeout cdp_operation_timeout : N) (request : HtmlRenderRequest)
  : BrowserM HtmlRenderResult :=
  start ← now None;
  let deadline := start + timeout in
  let control := mkBrowserRenderControl deadline (timeout / 1000000) cdp_operation_timeout in
  let inline_html := match hq_source request with
                     | SourceUrl _ => None
                     | SourceInline html => Some html
                     end in
  n ← observe None;
  proxy ← lift (proxy_start (br_listen n) (br_uuid n) inline_html
                  (hq_allowed_loopback_origin request));
  let px := Some (fp_state proxy) in
  page ← lift (ok_or (Navigation "inline HTML requires a proxy inline route")
                 (target_url (fp_inline_url proxy) (hq_source request)));
  _ ← on_tracker (λ _, set_page_url page tracker_new);
  n ← observe px;
  profile ← lift (map_err HIo (br_tempdir n));
  let driver_request := mkBrowserDriverRequest (fp_proxy_url proxy) page profile (hq_paper request)
                          (hq_wait_ms request) true (hq_output_path request) in
  _ ← before_cdp_operations px control 1;
  _ ← remaining_time px control;
  outcome ← attempt (driver_render (fp_state proxy) driver_request control);
  n ← observe px;
  clock ← gets bw_clock;
  if (deadline <=? clock) && br_timer_fires n then
    _ ← cancel;
    raise (timeout_error control)
  else
    _ ← lift outcome;
    rejected_resource ← gets (λ w, pl_rejected (bw_log w));
    match rejected_resource with
    | Some resource => raise (BlockedResource resource)
    | None =>
        _ ← check_active None control;
        mret (mkHtmlRenderResult "chromium" (hq_output_path request))
    end.
(** [BrowserHtmlRenderer::new] *)
Definition render_default : HtmlRenderRequest → BrowserM HtmlRenderResult :=
  render RENDER_TIMEOUT MAX_CDP_OPERATION_TIMEOUT.
End renderer.

(** ** What a rendering may do *)

Section renderer_properties.
Context `{U : UrlOps, I : IpNetOps, IL : !IpNetLaws, P : !ProxyEnv, BE : !BrowserEnv}.
Abbreviation BrowserM := (M BrowserWorld HtmlRenderError).
Implicit Types (w : BrowserWorld) (control : BrowserRenderControl).

(** An address the resource policy approved for the page behind [px]. *)
Definition approved (px : option ProxyState) (a : SocketAddr) : Prop :=
  ∃ state k request n u t, px = Some state ∧ request ∈ br_requests k ∧ asks_for request u ∧
    resolve_target (px_resolve n) u (ps_allowed_loopback_origin state) = Ok t ∧ rt_address t = a.

(** A browser that talks to the network through [server] only, in its sandbox and
    with its own profile. *)
Definition isolated (server : option string) (profile : string) (o : LaunchOptions) : Prop :=
  lo_proxy_server o = server ∧ is_Some server ∧ FORCE_LOOPBACK_THROUGH_PROXY ∈ lo_args o ∧
  lo_sandbox o = true ∧ lo_headless o = true ∧ lo_ignore_certificate_errors o = false ∧
  lo_user_data_dir o = profile.

(** How the world changes while a page is rendered to [out]. *)
Record evolves (px : option ProxyState) (server : option string) (profile out : string)
    w w' : Prop := {
  ev_clock : bw_clock w ≤ bw_clock w';
  ev_launches : ∃ new, bw_launches w' = bw_launches w ++ new ∧ Forall (isolated server profile) new;
  ev_connections : ∃ cs, pl_connections (bw_log w') = pl_connections (bw_log w) ++ cs ∧
    ∀ a, a ∈ cs → approved px a;
  ev_files : only_path out (bw_fs w) (bw_fs w')
}.
#[local] Instance evolves_preorder px server profile out : PreOrder (evolves px server profile out).
Proof.
  split.
  - intros w. split; [done|exists []; by rewrite app_nil_r|exists []|apply only_path_refl].
    rewrite app_nil_r. split; [done|]. by intros a ?%not_elem_of_nil.
  - intros w1 w2 w3 [H1 (n1&Hn1&Hf1) (c1&Hc1&Ha1) Ho1] [H2 (n2&Hn2&Hf2) (c2&Hc2&Ha2) Ho2].
    split; [lia| | |by eapply only_path_trans].
    + exists (n1 ++ n2). rewrite Hn2, Hn1, app_assoc. split; [done|]. by apply Forall_app.
    + exists (c1 ++ c2). rewrite Hc2, Hc1, app_assoc. split; [done|].
      intros a [?|?]%elem_of_app; auto.
Qed.

Lemma no_connections px l : ∃ cs, l = l ++ cs ∧ ∀ a, a ∈ cs → approved px a.
Proof. exists []. rewrite app_nil_r. split; [done|]. by intros ? ?%not_elem_of_nil. Qed.

Section evolve.
Context (px : option ProxyState) (server : option string) (profile out : string).
Abbreviation E := (evolves px server profile out).

Lemma pass_evolves ns w : E w (pass px ns w).
Proof.
  split; simpl; [lia|exists []; by rewrite app_nil_r| |apply only_path_refl].
  destruct px as [state|]; [|by apply no_connections].
  pose proof (proxy_run_connections state (br_requests (bw_tick w)) (bw_log w)) as H.
  destruct (proxy_run _ _ _) as [responses l']. destruct H as (_&cs&Hcs&_&Ha). simpl.
  exists cs. split; [done|]. intros a (request&n&u&t&?&?&?&?)%Ha.
  by exists state, (bw_tick w), request, n, u, t.
Qed.
Lemma observe_evolves : respects E (observe px).
Proof. intros w. apply pass_evolves. Qed.
Lemma sleep_evolves ns : respects E (sleep px ns).
Proof. intros w. apply pass_evolves. Qed.
Hint Resolve observe_evolves sleep_evolves : respects.
Lemma now_evolves : respects E (now px).
Proof. unfold now. solve_respects. Qed.
Lemma cancel_evolves {Er} : respects E (cancel (E := Er)).
Proof.
  apply respects_modify. intros w. split; simpl;
    [done|exists []; by rewrite app_nil_r|apply no_connections|apply only_path_refl].
Qed.
Hint Resolve now_evolves cancel_evolves : respects.

Lemma check_active_evolves control : respects E (check_active px control).
Proof. unfold check_active. solve_respects. Qed.
Hint Resolve check_active_evolves : respects.
Lemma remaining_time_evolves control : respects E (remaining_time px control).
Proof. unfold remaining_time. solve_respects. Qed.
Hint Resolve remaining_time_evolves : respects.
Lemma before_cdp_evolves control n : respects E (before_cdp_operations px control n).
Proof. unfold before_cdp_operations. solve_respects. Qed.
Lemma wait_loop_evolves control fuel d : respects E (wait_loop px control fuel d).
Proof. induction fuel as [|fuel IH]; simpl; solve_respects. Qed.
Hint Resolve before_cdp_evolves wait_loop_evolves : respects.
Lemma wait_evolves control d : respects E (wait px control d).
Proof. unfold wait. solve_respects. Qed.

Lemma acquire_gate_evolves d t g : respects E (acquire_gate px d t g).
Proof. unfold acquire_gate. solve_respects. Qed.
Hint Resolve wait_evolves acquire_gate_evolves : respects.
Lemma launch_with_timeout_evolves t tm options :
  isolated server profile options → respects E (launch_with_timeout px t tm options).
Proof.
  intros Ho. unfold launch_with_timeout. solve_respects.
  apply respects_modify. intros w. split; simpl;
    [done|exists [options]; by rewrite Forall_singleton|apply no_connections|apply only_path_refl].
Qed.
Lemma launch_loop_evolves launch l fs :
  (∀ e, respects E (launch e)) → respects E (launch_loop launch l fs).
Proof. intros Hl. revert fs. induction l as [|e l IH]; intros fs; simpl; solve_respects. Qed.
Lemma launch_headless_evolves attempt_timeout :
  is_Some server → respects E attempt_timeout → respects E (launch_headless_browser px profile server attempt_timeout).
Proof.
  intros Hs Ha. unfold launch_headless_browser, launch_first_available. solve_respects.
  apply launch_loop_evolves. intros e. solve_respects. apply launch_with_timeout_evolves.
  split_and!; try done. by apply list_elem_of_singleton.
Qed.

Hint Resolve launch_headless_evolves : respects.
Lemma on_tracker_evolves {Er} f :
  (∀ l, pl_connections (f l) = pl_connections l) → respects E (on_tracker (E := Er) f).
Proof.
  intros Hf. apply respects_modify. intros w. split; simpl;
    [done|exists []; by rewrite app_nil_r|rewrite Hf; apply no_connections|apply only_path_refl].
Qed.
Lemma write_evolves content : respects E (on_browser_fs (fs_write out content)).
Proof.
  intros w. unfold on_browser_fs, mapping_err, zoom.
  pose proof (fs_write_only out content (bw_fs w)) as Ho.
  destruct (fs_write out content (bw_fs w)) as [r fs']. split; simpl;
    [done|exists []; by rewrite app_nil_r|apply no_connections|done].
Qed.
Hint Resolve write_evolves : respects.

Lemma driver_evolves state request control :
  px = Some state → chrome_proxy_server (bd_proxy_url request) = server →
  bd_profile request = profile → bd_output_path request = out →
  respects E (driver_render state request control).
Proof.
  intros Hpx Hs Hp Ho. unfold driver_render. rewrite Hs, <-Hpx, Hp, Ho. solve_respects.
  - match goal with H : ok_or _ _ = Ok _ |- _ => apply ok_or_ok in H; rename H into Hok end.
    rewrite <-Hok. apply launch_headless_evolves; [rewrite Hok; by eexists|solve_respects].
  - by apply on_tracker_evolves.
Qed.
End evolve.

(** ** The deadline *)

Definition same_but_time w w' : Prop :=
  bw_clock w ≤ bw_clock w' ∧ bw_fs w' = bw_fs w ∧ (bw_cancelled w = true → bw_cancelled w' = true).
#[local] Instance same_but_time_preorder : PreOrder same_but_time.
Proof. split; [by intros w|]. intros w1 w2 w3 (?&?&?) (?&?&?). split_and!; [lia|congruence|auto]. Qed.

Section deadline.
Context (px : option ProxyState) (control : BrowserRenderControl).

Lemma now_spec w : ∃ w', now px w = (Ok (bw_clock w'), w') ∧ same_but_time w w' ∧
  bw_cancelled w' = bw_cancelled w.
Proof.
  eexists. split; [reflexivity|]. split; [|done]. split_and!; simpl; [lia|done|done].
Qed.
(** An operation that goes on did so before the deadline; otherwise the rendering
    is cancelled with a time-out. *)
Definition in_time {A} (r : result HtmlRenderError A) w w' : Prop :=
  same_but_time w w' ∧
  match r with
  | Ok _ => bw_clock w' < ct_deadline control
  | Err e => e = timeout_error control ∧ bw_cancelled w' = true
  end.
Lemma check_active_in_time w :
  let '(r, w') := check_active px control w in in_time r w w'.
Proof.
  unfold check_active. m_step. rewrite M_bind_eq.
  destruct (bw_cancelled w) eqn:Hc; [by split; [split_and!|]|].
  destruct (now_spec w) as (w'&Hn&Hs&Hc'). rewrite M_bind_eq, Hn. cbn beta iota.
  unfold mret at 1, M_ret at 1. cbn beta iota. destruct (N.leb_spec (ct_deadline control) (bw_clock w')).
  - destruct Hs as (?&?&?). by split; [split_and!|].
  - by split.
Qed.
Lemma remaining_time_in_time w :
  let '(r, w') := remaining_time px control w in
  in_time r w w' ∧ match r with Ok n => n = ct_deadline control - bw_clock w' | Err _ => True end.
Proof.
  unfold remaining_time. rewrite M_bind_eq. pose proof (check_active_in_time w) as H.
  destruct (check_active px control w) as [[[]|e] w1]; [|done]. destruct H as [H1 _].
  destruct (now_spec w1) as (w2&Hn&Hs&_). rewrite M_bind_eq, Hn. cbn beta iota zeta.
  assert (same_but_time w w2) by (by etrans).
  destruct (N.eqb_spec (ct_deadline control - bw_clock w2) 0).
  - split; [|done]. split; [|done]. destruct H as (?&?&?). by split_and!.
  - split; [|done]. split; [done|]. lia.
Qed.

(** Enough rounds to come to the end [d] of a waiting time. *)
Definition enough_rounds (fuel : nat) (d : N) w : Prop :=
  (1 ≤ fuel)%nat ∧ (d ≤ bw_clock w ∨ ct_deadline control ≤ bw_clock w) ∨
  (N.to_nat ((d - bw_clock w) / WAIT_POLL_INTERVAL) + 2 ≤ fuel)%nat.

Lemma enough_rounds_next fuel d w (c2 c3 : N) w' :
  enough_rounds (S fuel) d w → bw_clock w ≤ c2 ≤ c3 → c2 < d → bw_clock w < ct_deadline control →
  c3 + N.min (N.min (ct_deadline control - c3) (d - c2)) WAIT_POLL_INTERVAL ≤ bw_clock w' →
  enough_rounds fuel d w'.
Proof.
  unfold enough_rounds. intros [[_ [?|?]]|Hf] Hc Hd Hdl Hw; [lia..|].
  set (step := WAIT_POLL_INTERVAL) in *. assert (0 < step) by done. clearbody step.
  assert (step ≤ d - bw_clock w → bw_clock w + step ≤ bw_clock w' →
    (d - bw_clock w') / step + 1 ≤ (d - bw_clock w) / step) as Hq.
  { intros H1 H2. replace (d - bw_clock w) with ((d - bw_clock w - step) + 1 * step) by lia.
    rewrite N.div_add by lia. apply N.add_le_mono_r, N.Div0.div_le_mono. lia. }
  set (q := (d - bw_clock w) / step) in *. set (q' := (d - bw_clock w') / step) in *.
  clearbody q q'. assert (1 ≤ fuel)%nat by lia.
  destruct (decide (d ≤ bw_clock w' ∨ ct_deadline control ≤ bw_clock w')); [by left|right].
  specialize (Hq ltac:(lia) ltac:(lia)). lia.
Qed.

Lemma wait_loop_spec fuel d w :
  enough_rounds fuel d w →
  let '(r, w') := wait_loop px control fuel d w in
  same_but_time w w' ∧
  match r with
  | Ok o => o = Some tt ∧ d ≤ bw_clock w'
  | Err e => e = timeout_error control ∧ bw_cancelled w' = true
  end.
Proof.
  revert w. induction fuel as [|fuel IH]; intros w Hf; 
    [destruct Hf as [[? _]|Hf]; [lia|rewrite Nat.add_comm in Hf; by apply Nat.nle_succ_0 in Hf]|].
  simpl. rewrite M_bind_eq.
  pose proof (check_active_in_time w) as H.
  destruct (check_active px control w) as [[[]|e] w1]; [|exact H]. destruct H as [H1 Hd1].
  destruct (now_spec w1) as (w2&Hn&Hs2&_). rewrite M_bind_eq, Hn. cbn beta iota zeta.
  assert (same_but_time w w2) as H2 by (by etrans).
  destruct (N.leb_spec d (bw_clock w2)) as [Hd|Hd]; [by split|].
  rewrite M_bind_eq. pose proof (remaining_time_in_time w2) as H.
  destruct (remaining_time px control w2) as [[n|e] w3].
  2:{ destruct H as [[??] _]. split; [by etrans|done]. }
  destruct H as [[H3 _] ->]. rewrite M_bind_eq. unfold sleep. cbn beta iota.
  set (ns := N.min _ _). set (w4 := pass px _ w3).
  assert (same_but_time w w4) as H4.
  { etrans; [exact H2|]. etrans; [exact H3|]. split_and!; simpl; [lia|done|done]. }
  assert (enough_rounds fuel d w4) as Hf'.
  { assert (bw_clock w3 + ns ≤ bw_clock w4) as Hw4 by (simpl; lia).
    destruct H1 as [? _], H2 as [? _], H3 as [? _], Hs2 as [? _]. clearbody w4.
    apply (enough_rounds_next fuel d w (bw_clock w2) (bw_clock w3)); [done|lia..|done]. }
  specialize (IH w4 Hf'). destruct (wait_loop px control fuel d w4) as [r w5].
  destruct IH as [??]. split; [by etrans|done].
Qed.

Lemma wait_spec duration w :
  let '(r, w') := wait px control duration w in
  same_but_time w w' ∧
  match r with
  | Ok _ => bw_clock w + duration ≤ bw_clock w'
  | Err e => e = timeout_error control ∧ bw_cancelled w' = true
  end.
Proof.
  unfold wait. destruct (now_spec w) as (w1&Hn&Hs&_). rewrite M_bind_eq, Hn. cbn beta iota.
  rewrite M_bind_eq. pose proof (wait_loop_spec (wait_rounds duration) (bw_clock w1 + duration) w1) as H.
  destruct (wait_loop _ _ _ _ _) as [[o|e] w2].
  - destruct H as [H [-> Hd]]; [right; unfold wait_rounds|].
    { replace (bw_clock w1 + duration - bw_clock w1) with duration by lia. by rewrite Nat.add_comm. }
    split; [by etrans|]. destruct Hs as [? _]. lia.
  - destruct H as [H ?]; [right; unfold wait_rounds|by split; [etrans|]].
    replace (bw_clock w1 + duration - bw_clock w1) with duration by lia. by rewrite Nat.add_comm.
Qed.
End deadline.

Lemma respects_at {S E A} (R : S → S → Prop) (m : M S E A) s r s' :
  respects R m → m s = (r, s') → R s s'.
Proof. intros H Hm. specialize (H s). by rewrite Hm in H. Qed.

Lemma evolves_clock px server profile out {Er A} (m : M BrowserWorld Er A) w r w' :
  m w = (r, w') → respects (evolves px server profile out) m → bw_clock w ≤ bw_clock w'.
Proof. intros Hm H. apply (respects_at _ _ _ _ _ H Hm). Qed.

Lemma driver_ok state request control w w' :
  driver_render state request control w = (Ok tt, w') →
  (∃ n pdf, chrome_print_to_pdf n (print_options request) = Ok pdf ∧
     fs_files (bw_fs w') !! bd_output_path request = Some pdf) ∧
  (∃ n, chrome_navigate_to n (url_as_str (bd_target_url request)) = Ok tt) ∧
  bw_clock w + millis (bd_wait_ms request) ≤ bw_clock w'.
Proof.
  unfold driver_render. cbv zeta. intros H.
  apply M_bind_ok in H as (server&w0&[= Hs <-]&H). apply ok_or_ok in Hs.
  apply M_bind_ok in H as (?&w1&H1&H). apply M_bind_ok in H as (?&w2&H2&H).
  apply M_bind_ok in H as (?&w3&H3&H). apply M_bind_ok in H as (?&w4&H4&H).
  apply M_bind_ok in H as (?&w4'&[= _ <-]&H). apply M_bind_ok in H as (?&w5&H5&H).
  apply M_bind_ok in H as (?&w6&[= _ <-]&H). apply M_bind_ok in H as (n&w7&[= <- <-]&H).
  apply M_bind_ok in H as (?&w8&[= Hnav <-]&H). apply M_bind_ok in H as (?&w9&H9&H).
  apply M_bind_ok in H as (?&w10&H10&H). apply M_bind_ok in H as (?&w11&[= _ <-]&H).
  apply M_bind_ok in H as (?&w12&H12&H). apply M_bind_ok in H as (?&w13&H13&H).
  apply M_bind_ok in H as (n&w14&[= <- <-]&H). apply M_bind_ok in H as (pdf&w15&[= Hpdf <-]&H).
  apply M_bind_ok in H as (?&w16&H16&H).
  apply map_err_ok in Hpdf, Hnav. split_and!.
  - exists (bw_tick w13), pdf. split; [done|].
    unfold on_browser_fs, mapping_err, zoom in H.
    destruct (fs_write _ _ _) as [[[]|e] fs'] eqn:Hw; [|done]. injection H as <-. by apply fs_write_ok in Hw.
  - exists (bw_tick w5). by destruct x6.
  - pose proof (wait_spec (Some state) control (millis (bd_wait_ms request)) w10) as Hwait.
    rewrite H12 in Hwait. destruct Hwait as [_ Hwait].
    apply (evolves_clock (Some state) (Some server) (bd_profile request) "") in H1, H2, H3, H4, H5, H9, H10, H13, H16;
      [|eauto using check_active_evolves, observe_evolves, remaining_time_evolves, before_cdp_evolves..].
    + apply (evolves_clock (Some state) None "" (bd_output_path request)) in H; [|apply write_evolves].
      simpl in *. lia.
    + apply launch_headless_evolves; [by eexists|]. solve_respects. apply remaining_time_evolves.
Qed.

(** What is allowed to a rendering of [request] from the world [w]. *)
Definition contained (request : HtmlRenderRequest) w w' : Prop :=
  (∃ new, bw_launches w' = bw_launches w ++ new ∧
     (new = [] ∨ ∃ (port : N) proxy_url profile,
        br_listen (S (bw_tick w)) = Ok port ∧
        Url_parse ("http://127.0.0.1:" +:+ pretty port) = Some proxy_url ∧
        br_tempdir (2 + bw_tick w) = Ok profile ∧
        Forall (isolated (chrome_proxy_server proxy_url) profile) new)) ∧
  (∀ a, a ∈ pl_connections (bw_log w') →
     ¬ reserved (sa_ip a) ∨
     (is_loopback (sa_ip a) = true ∧ ∃ k asked u origin, asked ∈ br_requests k ∧
        asks_for asked u ∧ points_at u a ∧
        hq_allowed_loopback_origin request = Some origin ∧ url_same_origin origin u = true)) ∧
  only_path (hq_output_path request) (bw_fs w) (bw_fs w').

Lemma contained_refl request w w' :
  pl_connections (bw_log w') = [] → bw_launches w' = bw_launches w → bw_fs w' = bw_fs w →
  contained request w w'.
Proof.
  intros Hc Hl Hf. split_and!.
  - exists []. rewrite app_nil_r. split; [done|by left].
  - rewrite Hc. by intros a ?%not_elem_of_nil.
  - rewrite Hf. apply only_path_refl.
Qed.
Lemma evolves_contained request state (port : N) proxy_url profile w w1 w2 :
  ps_allowed_loopback_origin state = hq_allowed_loopback_origin request →
  br_listen (S (bw_tick w)) = Ok port →
  Url_parse ("http://127.0.0.1:" +:+ pretty port) = Some proxy_url →
  br_tempdir (2 + bw_tick w) = Ok profile ∨ bw_launches w2 = bw_launches w →
  pl_connections (bw_log w1) = [] → bw_launches w1 = bw_launches w → bw_fs w1 = bw_fs w →
  evolves (Some state) (chrome_proxy_server proxy_url) profile (hq_output_path request) w1 w2 →
  contained request w w2.
Proof.
  intros Hs Hlp Hp Hprof Hc Hl Hf [_ (new&Hn&Hi) (cs&Hcs&Ha) Ho]. split_and!.
  - destruct Hprof as [Hprof|Hprof].
    + exists new. rewrite Hn, Hl. split; [done|]. right. by exists port, proxy_url, profile.
    + exists []. rewrite app_nil_r. split; [done|by left].
  - rewrite Hcs, Hc. simpl. intros a (state'&k&asked&n&u&t&[= <-]&Hk&Hu&Ht&<-)%Ha. rewrite Hs in Ht.
    destruct (approved_address _ _ _ _ Ht) as [?|(?&?&o&?&?)]; [by left|right].
    split; [done|]. by exists k, asked, u, o.
  - by rewrite <-Hf.
Qed.

Lemma now_eq px w :
  now px w = (Ok (bw_clock w + br_elapsed (bw_tick w)), pass px (br_elapsed (bw_tick w)) w).
Proof. done. Qed.

Lemma proxy_start_ok listen uuid inline allowed proxy :
  proxy_start listen uuid inline allowed = Ok proxy →
  ∃ port : N, listen = Ok port ∧ fp_state proxy = start_state uuid inline allowed ∧
    Url_parse ("http://127.0.0.1:" +:+ pretty port) = Some (fp_proxy_url proxy) ∧
    (is_Some (fp_inline_url proxy) →
     Url_parse ("http://" +:+ ((uuid +:+ ".printbridge.invalid") +:+ "/")) = fp_inline_url proxy).
Proof.
  unfold proxy_start. intros (port&Hl%map_err_ok&H)%result_bind_ok.
  apply result_bind_ok in H as (inline_url&Hi&H). apply result_bind_ok in H as (u&Hu%ok_or_ok&H).
  injection H as <-. exists port. split_and!; [done..|]. simpl. intros [page ->].
  destruct inline; [|done]. simpl in Hi. apply result_bind_ok in Hi as (?&Hi%ok_or_ok&[= ->]). done.
Qed.

Lemma check_active_none px server profile out control :
  respects (evolves px server profile out) (check_active None control).
Proof.
  intros w. destruct (check_active_evolves None server profile out control w) as [H1 H2 (cs&H3&H4) H5].
  split; [done..| |done]. exists cs. split; [done|]. by intros a (?&?&?&?&?&?&[=]&_)%H4.
Qed.

Lemma check_active_quiet control w u w' :
  check_active None control w = (Ok u, w') →
  bw_log w' = bw_log w ∧ bw_fs w' = bw_fs w ∧ bw_clock w ≤ bw_clock w' < ct_deadline control.
Proof.
  intros H. pose proof (check_active_in_time None control w) as Ht. rewrite H in Ht.
  destruct Ht as [(?&?&_) ?]. split_and!; [|done..].
  unfold check_active in H. apply M_bind_ok in H as (b&?&[= <- <-]&H).
  destruct (bw_cancelled w); [done|]. apply M_bind_ok in H as (x&w1&Hx&H).
  apply M_bind_ok in Hx as (time&w2&[= <- <-]&[= <- <-]).
  destruct (_ <=? _); [done|]. by injection H as _ <-.
Qed.

Lemma respects_unfold {S E A} (R : S → S → Prop) (m : M S E A) :
  respects R m → ∀ s, R s (m s).2.
Proof. done. Qed.

(** C17: A rendering is contained, however it ends.  Every browser it launches runs
    headless in its sandbox, with the fresh temporary directory of this rendering
    as its profile, with certificate checks on, and with its proxy set to the
    loopback port the filtering proxy of this rendering got, loopback addresses
    included; every connection the proxy opens for the page goes to a public
    address or, when a loopback Origin was approved for this request, to the
    loopback address named by the URL of a request of the page under that Origin;
    and no file but the requested output changes.  This holds whatever the page requests, at
    every moment, and whatever the browsers, the resolver and the clock do. *)
Theorem render_contained (timeout cdp_operation_timeout : N) (request : HtmlRenderRequest)
    (w : BrowserWorld) (Hlog : pl_connections (bw_log w) = []) :
  contained request w (render timeout cdp_operation_timeout request w).2.
Proof.
  unfold render. cbv zeta. rewrite M_bind_eq, now_eq. cbn beta iota. rewrite M_bind_eq.
  unfold observe at 1. cbn beta iota.
  set (w1 := pass None _ _). rewrite lift_bind.
  destruct (proxy_start _ _ _ _) as [proxy|e] eqn:Hp; [|by apply contained_refl].
  rewrite lift_bind. destruct (ok_or _ _) as [page|e]; [|by apply contained_refl].
  unfold on_tracker. rewrite modify_bind. set (w2 := mkBrowserWorld _ _ _ _ _ _).
  rewrite M_bind_eq. unfold observe at 1. cbn beta iota. rewrite lift_bind.
  set (w3 := pass _ _ w2).
  destruct (proxy_start_ok _ _ _ _ _ Hp) as (port&Hport&Hs&Hu&_).
  assert (∀ profile w', br_tempdir (2 + bw_tick w) = Ok profile ∨ bw_launches w' = bw_launches w →
    evolves (Some (fp_state proxy)) (chrome_proxy_server (fp_proxy_url proxy)) profile
      (hq_output_path request) w3 w' → contained request w w') as Hrest.
  { intros profile w' Hprof H.
    apply (evolves_contained request (fp_state proxy) port (fp_proxy_url proxy) profile w w2);
      [by rewrite Hs|exact Hport|exact Hu|exact Hprof|done..|]. etrans; [apply pass_evolves|exact H]. }
  destruct (map_err HIo _) as [profile|e] eqn:Hprof; [|by apply (Hrest ""); [right|]].
  apply map_err_ok in Hprof.
  apply (Hrest profile); [by left|]. clearbody w3. clear. revert w3. apply respects_unfold. solve_respects;
    eauto using before_cdp_evolves, remaining_time_evolves, observe_evolves, cancel_evolves,
      check_active_none.
  by apply driver_evolves.
Qed.

(** A rendering that succeeds did what was asked.  The browser was sent to the
    requested page (or the inline one), the file of the request holds the PDF the
    browser printed of it with the requested paper, without margins and with its
    backgrounds; nothing the page needed was refused; the requested waiting time
    has passed, and the deadline has not. *)
Theorem render_ok (timeout cdp_operation_timeout : N) (request : HtmlRenderRequest)
    (w w' : BrowserWorld) (r : HtmlRenderResult)
    (Hr : render timeout cdp_operation_timeout request w = (Ok r, w')) :
  r = mkHtmlRenderResult "chromium" (hq_output_path request) ∧
  (∃ n pdf, fs_files (bw_fs w') !! hq_output_path request = Some pdf ∧
     chrome_print_to_pdf n (mkPrintToPdfOptions true
       (f64_div (ep_width_mm (hq_paper request)) mm_per_inch)
       (f64_div (ep_height_mm (hq_paper request)) mm_per_inch)
       f64_zero f64_zero f64_zero f64_zero) = Ok pdf) ∧
  (∃ n page, chrome_navigate_to n (url_as_str page) = Ok tt ∧
     match hq_source request with
     | SourceUrl url => page = url
     | SourceInline _ => ∃ m,
         Url_parse ("http://" +:+ ((br_uuid m +:+ ".printbridge.invalid") +:+ "/")) = Some page
     end) ∧
  pl_rejected (bw_log w') = None ∧
  bw_clock w + millis (hq_wait_ms request) ≤ bw_clock w' <
    bw_clock w + br_elapsed (bw_tick w) + timeout.
Proof.
  unfold render in Hr. cbv zeta in Hr.
  apply M_bind_ok in Hr as (start&w1&[= <- <-]&Hr).
  apply M_bind_ok in Hr as (n&w2&[= <- <-]&Hr).
  apply M_bind_ok in Hr as (proxy&w3&[= Hp <-]&Hr). apply M_bind_ok in Hr as (page&w4&[= Hpage <-]&Hr).
  apply ok_or_ok in Hpage.
  apply M_bind_ok in Hr as (?&w5&[= _ <-]&Hr). apply M_bind_ok in Hr as (?&w6&H6&Hr).
  apply M_bind_ok in Hr as (profile&w7&[= _ <-]&Hr). apply M_bind_ok in Hr as (?&w8&H8&Hr).
  apply M_bind_ok in Hr as (?&w9&H9&Hr). apply M_bind_ok in Hr as (outcome&w10&H10&Hr).
  apply M_bind_ok in Hr as (n11&w11&H11&Hr). apply M_bind_ok in Hr as (clock&w12&[= <- <-]&Hr).
  destruct (_ && _); [by apply M_bind_ok in Hr as (?&?&_&[=])|].
  apply M_bind_ok in Hr as (u&w13&[= -> <-]&Hr). apply M_bind_ok in Hr as (rej&w14&[= Hrej <-]&Hr).
  destruct rej; [done|]. apply M_bind_ok in Hr as (?&w15&H15&[= <- <-]).
  unfold attempt in H10. destruct (driver_render _ _ _ w9) as [od wd] eqn:Hd. injection H10 as -> <-.
  destruct u. apply driver_ok in Hd as ((n1&pdf&Hpdf&Hout)&(n2&Hnav)&Hclock).
  simpl in Hpdf, Hout, Hnav, Hclock.
  apply check_active_quiet in H15 as (Hlog&Hfs&Hc15&Hdl). simpl in Hdl.
  assert (bw_fs w11 = bw_fs wd) as Hfs11 by (injection H11 as <- <-; done).
  apply (evolves_clock (Some (fp_state proxy)) None "" "") in H6, H8, H9, H11;
    [|apply observe_evolves|apply remaining_time_evolves|apply before_cdp_evolves|apply observe_evolves].
  simpl in H6. split_and!; [done| | |by rewrite Hlog|lia|lia].
  - exists n1, pdf. by rewrite Hfs, Hfs11.
  - exists n2, page. split; [done|]. destruct (hq_source request) as [url|html]; simpl in Hpage.
    { by injection Hpage as ->. }
    destruct (proxy_start_ok _ _ _ _ _ Hp) as (_&_&_&_&Hi).
    eexists. rewrite Hi by (rewrite Hpage; by eexists). done.
Qed.

(** C40: Waiting ends, and waits long enough.  The loop of [wait] never runs out of
    the rounds it is given, whatever time every step takes: it ends after the
    whole duration has passed, or with the time-out of a rendering whose deadline
    has passed or that was cancelled, which it then marks as cancelled. *)
Theorem wait_returns (px : option ProxyState) (control : BrowserRenderControl) (duration : N)
    (w : BrowserWorld) :
  (wait_loop px control (wait_rounds duration) (bw_clock w + duration) w).1 ≠ Ok None ∧
  let '(r, w') := wait px control duration w in
  bw_fs w' = bw_fs w ∧
  match r with
  | Ok _ => bw_clock w + duration ≤ bw_clock w'
  | Err e => e = timeout_error control ∧ bw_cancelled w' = true
  end.
Proof.
  split.
  - pose proof (wait_loop_spec px control (wait_rounds duration) (bw_clock w + duration) w) as H.
    destruct (wait_loop _ _ _ _ _) as [[o|e] w']; [|done]. simpl. intros [= ->].
    destruct H as [_ [[=] _]]. right. unfold wait_rounds.
    replace (bw_clock w + duration - bw_clock w) with duration by lia. by rewrite Nat.add_comm.
  - pose proof (wait_spec px control duration w) as H. destruct (wait _ _ _ _) as [r w'].
    destruct H as [(_&?&_) ?]. done.
Qed.
End renderer_properties.

(** ** Witnesses *)

(** Every observation takes a millisecond; the first browser does not start, the
    second takes a second; the page loads a public style sheet and tries a host
    of the local network while it is waited for. *)
#[export] Instance toy_browser_env : @BrowserEnv := {|
  br_elapsed _ := millis 1;
  br_requests n :=
    if bool_decide (n = 20%nat) then [toy_request "cdn.example.com"; toy_request "10.0.0.8"] else [];
  br_tempdir _ := Ok "/tmp/profile";
  br_listen _ := Ok 40123;
  br_uuid _ := "7b1d";
  br_launch _ options :=
    if bool_decide (lo_path options = "/usr/bin/chromium")
    then mkLaunchRun 0 (Ok tt) (secs 1) (Some (Ok tt))
    else mkLaunchRun 0 (Ok tt) (millis 5) (Some (Err "no display"));
  chrome_new_tab _ _ := Ok tt;
  chrome_navigate_to _ _ := Ok tt;
  chrome_wait_until_navigated _ _ := Ok tt;
  chrome_print_to_pdf _ _ := Ok "%PDF-1.7";
  br_join_error message := message;
  br_timer_fires _ := true;
  br_var _ := None;
  br_probe := mkBrowserProbe (λ _, true) (λ command, Some ("/usr/bin/" +:+ command)) (λ _, true);
  br_os := TLinux
|}.
Definition toy_html_request : HtmlRenderRequest :=
  mkHtmlRenderRequest (SourceUrl toy_page) None (mkEffectivePaper (f64_of_Z 210) (f64_of_Z 297)) 50
    "/tmp/out.pdf".
Definition toy_browser_world : BrowserWorld :=
  mkBrowserWorld 0 0 false (mkFs ∅ ∅ 0 (λ _, None)) tracker_new [].

Lemma render_contained_witness :
  let w' := (render_default toy_html_request toy_browser_world).2 in
  (length (pl_connections (bw_log w')) = 1%nat ∧ length (bw_launches w') = 3%nat) ∧
  contained toy_html_request toy_browser_world w'.
Proof.
  split; [vm_compute; by split|].
  apply (render_contained RENDER_TIMEOUT MAX_CDP_OPERATION_TIMEOUT). reflexivity.
Defined.

Lemma render_ok_witness :
  let '(r, w') := render_default toy_html_request toy_browser_world in
  r = Ok (mkHtmlRenderResult "chromium" "/tmp/out.pdf") ∧
  ∃ n pdf, fs_files (bw_fs w') !! "/tmp/out.pdf" = Some pdf ∧
    chrome_print_to_pdf n (mkPrintToPdfOptions true (f64_div (f64_of_Z 210) mm_per_inch)
       (f64_div (f64_of_Z 297) mm_per_inch) f64_zero f64_zero f64_zero f64_zero) = Ok pdf.
Proof.
  destruct (render_default toy_html_request toy_browser_world) as [r w'] eqn:Hr.
  assert (r = Ok (mkHtmlRenderResult "chromium" "/tmp/out.pdf")) as ->.
  { change r with (fst (r, w')). rewrite <-Hr. vm_compute. reflexivity. }
  split; [reflexivity|].
  apply (render_ok RENDER_TIMEOUT MAX_CDP_OPERATION_TIMEOUT toy_html_request) in Hr
    as (_&(n&pdf&H1&H2)&_). by exists n, pdf.
Defined.

