(* ===== verification/ConfigTransfer.v ===== *)
(** * Configuration transfer ([crates/cli/src/config_transfer.rs])

    Exporting selected settings into an encrypted file and importing one: the
    payload, its encryption envelope, merging it into a configuration with all
    its checks, and the preview shown before an import.  The ciphers, the key
    derivation, the hash and the JSON codecs are parameters. *)

From S2P Require Import Prelude RustStr F64 Externs Toy FileSys Protocol IpWhitelist Config.
From S2P Require Import JobQueue State.
Open Scope string_scope.
Open Scope N_scope.
Open Scope list_scope.

Definition ENCRYPTED_FORMAT : string := "printbridge-config-encrypted".
Definition PAYLOAD_FORMAT : string := "printbridge-config".
Definition TRANSFER_VERSION : N := 1.
Definition SALT_LEN : N := 16.
Definition NONCE_LEN : N := 12.
Definition ARGON2_MEMORY_KIB : N := 19456.
Definition ARGON2_ITERATIONS : N := 2.
Definition ARGON2_PARALLELISM : N := 1.
Definition GCM_TAG_BYTES : N := 16.

(** [ExportConfigOptions] *)
Record ExportConfigOptions := mkExportConfigOptions {
  eo_service_port : bool;
  eo_allowed_origins : bool;
  eo_allowed_ips : bool;
  eo_remote_enabled : bool;
  eo_remote_endpoint_url : bool;
  eo_remote_bearer_token : bool;
  eo_remote_poll_interval_seconds : bool;
  eo_remote_max_report_retries : bool
}.
(** [ExportConfigOptions::all] *)
Definition export_all : ExportConfigOptions :=
  mkExportConfigOptions true true true true true true true true.

Record CryptoMetadata := mkCryptoMetadata {
  cm_kdf : string; cm_memory_kib : N; cm_iterations : N; cm_parallelism : N;
  cm_cipher : string; cm_tag_bytes : N; cm_salt : string; cm_nonce : string
}.
Record EncryptedConfigFile := mkEncryptedConfigFile {
  ef_format : string; ef_version : N; ef_crypto : CryptoMetadata; ef_payload : string
}.

Record PartialServiceTransferConfig := mkPartialService { ts_port : option N }.
Record PartialSecurityTransferConfig := mkPartialSecurity {
  tu_allowed_origins : option (list string); tu_allowed_ips : option (list string)
}.
Record PartialRemoteTransferConfig := mkPartialRemote {
  tr_enabled : option bool;
  tr_endpoint_url : option (option string);
  tr_bearer_token : option (option string);
  tr_poll_interval_seconds : option N;
  tr_max_report_retries : option N
}.
Record PartialTransferConfig := mkPartialTransfer {
  tc_service : option PartialServiceTransferConfig;
  tc_security : option PartialSecurityTransferConfig;
  tc_remote : option PartialRemoteTransferConfig
}.
Record ConfigTransferPayload := mkConfigTransferPayload {
  tp_format : string; tp_version : N; tp_config : PartialTransferConfig
}.
#[export] Instance PartialServiceTransferConfig_eq_dec : EqDecision PartialServiceTransferConfig.
Proof. solve_decision. Defined.
#[export] Instance PartialSecurityTransferConfig_eq_dec : EqDecision PartialSecurityTransferConfig.
Proof. solve_decision. Defined.
#[export] Instance PartialRemoteTransferConfig_eq_dec : EqDecision PartialRemoteTransferConfig.
Proof. solve_decision. Defined.
#[export] Instance PartialTransferConfig_eq_dec : EqDecision PartialTransferConfig.
Proof. solve_decision. Defined.
#[export] Instance ConfigTransferPayload_eq_dec : EqDecision ConfigTransferPayload.
Proof. solve_decision. Defined.

(** [ImportPreviewItem] and [ImportPreview] *)
Record ImportPreviewItem := mkImportPreviewItem {
  ii_key : string; ii_label : string; ii_current : string; ii_next : string
}.
Record ImportPreview := mkImportPreview { ip_file_hash : string; ip_items : list ImportPreviewItem }.

Inductive ConfigTransferError :=
  | InvalidFile
  | InvalidPasswordOrPayload
  | Serialize
  | InvalidField (message : string).

(** [From<io::Error>] *)
Definition transfer_io_error (e : IoError) : ConfigTransferError := InvalidField (io_message e).

(** The module [double_option] on one field of a JSON object: it may be missing,
    [null], or have a value. *)
Inductive JsonField (A : Type) := FieldMissing | FieldNull | FieldValue (a : A).
Arguments FieldMissing {A}.
Arguments FieldNull {A}.
Arguments FieldValue {A} a.
Definition double_option_serialize {A} (value : option (option A)) : JsonField A :=
  match value with
  | Some (Some inner) => FieldValue inner
  | Some None | None => FieldNull
  end.
Definition double_option_deserialize {A} (value : option A) : option (option A) := Some value.
(** The attributes of the two fields around it. *)
Definition write_field {A} (value : option (option A)) : JsonField A :=
  if is_some value then double_option_serialize value else FieldMissing.
Definition read_field {A} (field : JsonField A) : option (option A) :=
  match field with
  | FieldMissing => None
  | FieldNull => double_option_deserialize None
  | FieldValue a => double_option_deserialize (Some a)
  end.

(** ** Export *)

(** [bool::then_some] *)
Definition then_some {A} (b : bool) (a : A) : option A := if b then Some a else None.

Definition build_remote_transfer (config : AgentConfig) (options : ExportConfigOptions)
  : option PartialRemoteTransferConfig :=
  let r := cfg_remote config in
  let remote := mkPartialRemote
    (then_some (eo_remote_enabled options) (rc_enabled r))
    (then_some (eo_remote_endpoint_url options) (rc_endpoint_url r))
    (then_some (eo_remote_bearer_token options) (rc_bearer_token r))
    (then_some (eo_remote_poll_interval_seconds options) (rc_poll_interval_seconds r))
    (then_some (eo_remote_max_report_retries options) (rc_max_report_retries r)) in
  if is_some (tr_enabled remote) || is_some (tr_endpoint_url remote) ||
     is_some (tr_bearer_token remote) || is_some (tr_poll_interval_seconds remote) ||
     is_some (tr_max_report_retries remote)
  then Some remote else None.

Definition build_transfer_payload (config : AgentConfig) (options : ExportConfigOptions)
  : ConfigTransferPayload :=
  let service := then_some (eo_service_port options)
                   (mkPartialService (Some (sv_port (cfg_service config)))) in
  let security := then_some (eo_allowed_origins options || eo_allowed_ips options)
    (mkPartialSecurity
       (then_some (eo_allowed_origins options) (se_allowed_origins (cfg_security config)))
       (then_some (eo_allowed_ips options) (se_allowed_ips (cfg_security config)))) in
  let remote := build_remote_transfer config options in
  mkConfigTransferPayload PAYLOAD_FORMAT TRANSFER_VERSION
    (mkPartialTransfer service security remote).

Definition validate_payload (payload : ConfigTransferPayload)
  : result ConfigTransferError unit :=
  if negb (bool_decide (tp_format payload = PAYLOAD_FORMAT)) ||
     negb (tp_version payload =? TRANSFER_VERSION)
  then Err InvalidFile else Ok tt.

Definition validate_envelope (file : EncryptedConfigFile) : result ConfigTransferError unit :=
  let c := ef_crypto file in
  if negb (bool_decide (ef_format file = ENCRYPTED_FORMAT)) ||
     negb (ef_version file =? TRANSFER_VERSION) ||
     negb (bool_decide (cm_kdf c = "argon2id13")) ||
     negb (cm_memory_kib c =? ARGON2_MEMORY_KIB) ||
     negb (cm_iterations c =? ARGON2_ITERATIONS) ||
     negb (cm_parallelism c =? ARGON2_PARALLELISM) ||
     negb (bool_decide (cm_cipher c = "aes-256-gcm")) ||
     negb (cm_tag_bytes c =? GCM_TAG_BYTES)
  then Err InvalidFile else Ok tt.

(** ** Encryption *)

(** Argon2id with the program's parameters, AES-256-GCM and SHA-256. *)
Class TransferCrypto := {
  argon2_key : string → string → option string;
  aes_encrypt : string → string → string → option string;
  aes_decrypt : string → string → string → option string;
  sha256_hex : string → string
}.
Class TransferCryptoLaws `{C : TransferCrypto} : Prop := {
  aes_decrypt_encrypt key nonce m c :
    aes_encrypt key nonce m = Some c → aes_decrypt key nonce c = Some m
}.

Section encryption.
Context `{B : Base64Ops, C : !TransferCrypto, JP : !JsonCodec ConfigTransferPayload,
          JF : !JsonCodec EncryptedConfigFile}.

Definition derive_key (password salt : string) : result ConfigTransferError string :=
  ok_or InvalidPasswordOrPayload (argon2_key password salt).

(** [encrypt_payload]; the random salt and nonce are arguments. *)
Definition encrypt_payload (salt nonce : string) (payload : ConfigTransferPayload)
    (password : string) : result ConfigTransferError EncryptedConfigFile :=
  key ← derive_key password salt;
  let plaintext := to_json payload in
  ciphertext ← ok_or Serialize (aes_encrypt key nonce plaintext);
  Ok (mkEncryptedConfigFile ENCRYPTED_FORMAT TRANSFER_VERSION
        (mkCryptoMetadata "argon2id13" ARGON2_MEMORY_KIB ARGON2_ITERATIONS
           ARGON2_PARALLELISM "aes-256-gcm" GCM_TAG_BYTES (b64_encode salt) (b64_encode nonce))
        (b64_encode ciphertext)).

Definition decode_fixed (n : N) (value : string) : result ConfigTransferError string :=
  bytes ← ok_or InvalidPasswordOrPayload (b64_decode value);
  if str_len bytes =? n then Ok bytes else Err InvalidPasswordOrPayload.

Definition decrypt_payload (file : EncryptedConfigFile) (password : string)
  : result ConfigTransferError ConfigTransferPayload :=
  _ ← validate_envelope file;
  salt ← decode_fixed SALT_LEN (cm_salt (ef_crypto file));
  nonce ← decode_fixed NONCE_LEN (cm_nonce (ef_crypto file));
  ciphertext ← ok_or InvalidPasswordOrPayload (b64_decode (ef_payload file));
  key ← derive_key password salt;
  plaintext ← ok_or InvalidPasswordOrPayload (aes_decrypt key nonce ciphertext);
  payload ← map_err (λ _, InvalidPasswordOrPayload) (from_json plaintext);
  _ ← validate_payload payload;
  Ok payload.

Definition write_encrypted_file (path : string) (file : EncryptedConfigFile)
  : M Fs ConfigTransferError unit :=
  let content := to_json file in
  mapping_err transfer_io_error (fs_write path content).

Definition read_encrypted_file_with_hash (path : string)
  : M Fs ConfigTransferError (EncryptedConfigFile * string) :=
  content ← mapping_err (λ _, InvalidFile) (fs_read path);
  let hash := sha256_hex content in
  file ← lift (map_err (λ _, InvalidFile) (from_json content));
  mret (file, hash).
Definition read_encrypted_file (path : string) : M Fs ConfigTransferError EncryptedConfigFile :=
  '(file, _) ← read_encrypted_file_with_hash path;
  mret file.
End encryption.

(** ** Import *)

Section import.
Context `{U : UrlOps, I : IpNetOps}.

Definition normalize_endpoint_url (value : option string)
  : result ConfigTransferError (option string) :=
  match opt_filter non_empty (trim <$> value) with
  | None => Ok None
  | Some value =>
      url ← ok_or (InvalidField "远程任务 URL 无效") (Url_parse value);
      if bool_decide (url_scheme url = "http") || bool_decide (url_scheme url = "https")
      then Ok (Some value)
      else Err (InvalidField "远程任务 URL 只支持 http 或 https")
  end.

(** A field of the payload that is present is checked and replaces [current]. *)
Definition merge_field {A C} (field : option A) (check : A → result ConfigTransferError C)
    (current : C) : result ConfigTransferError C :=
  match field with Some value => check value | None => Ok current end.

Definition check_port (port : N) : result ConfigTransferError N :=
  if port =? 0 then Err (InvalidField "本地端口必须大于 0") else Ok port.
Definition check_origins (origins : list string) : result ConfigTransferError (list string) :=
  _ ← try_for_each (λ origin,
        map_err (λ _, InvalidField ("Origin 无效: " +:+ origin)) (validate_origin origin)) origins;
  Ok origins.
Definition check_ips (entries : list string) : result ConfigTransferError (list string) :=
  _ ← try_for_each (λ entry, map_err InvalidField (validate_allowed_ip_entry entry)) entries;
  Ok entries.
(** An empty token keeps the current one. *)
Definition merge_token (current token : option string) : option string :=
  match opt_filter non_empty (trim <$> token) with Some token => Some token | None => current end.
Definition check_poll_interval (seconds : N) : result ConfigTransferError N :=
  if seconds <? MIN_REMOTE_POLL_INTERVAL_SECONDS then
    Err (InvalidField ("轮询时间必须大于等于 " +:+ pretty MIN_REMOTE_POLL_INTERVAL_SECONDS +:+ " 秒"))
  else Ok seconds.
Definition check_retries (retries : N) : result ConfigTransferError N :=
  if retries =? 0 then Err (InvalidField "上报重试次数必须大于等于 1") else Ok retries.

(** The three blocks of [merge_payload]. *)
Definition merge_service (current : ServiceConfig) (service : option PartialServiceTransferConfig)
  : result ConfigTransferError ServiceConfig :=
  match service with
  | None => Ok current
  | Some service =>
      port ← merge_field (ts_port service) check_port (sv_port current);
      Ok (mkServiceConfig (sv_host current) port)
  end.
Definition merge_security (current : SecurityConfig)
    (security : option PartialSecurityTransferConfig)
  : result ConfigTransferError SecurityConfig :=
  match security with
  | None => Ok current
  | Some security =>
      origins ← merge_field (tu_allowed_origins security) check_origins
                  (se_allowed_origins current);
      ips ← merge_field (tu_allowed_ips security) check_ips (se_allowed_ips current);
      Ok (mkSecurityConfig origins ips)
  end.
Definition merge_remote (current : RemoteConfig) (remote : option PartialRemoteTransferConfig)
  : result ConfigTransferError RemoteConfig :=
  match remote with
  | None => Ok current
  | Some remote =>
      let enabled := unwrap_or (tr_enabled remote) (rc_enabled current) in
      endpoint_url ← merge_field (tr_endpoint_url remote) normalize_endpoint_url
                       (rc_endpoint_url current);
      let bearer_token := match tr_bearer_token remote with
                          | Some token => merge_token (rc_bearer_token current) token
                          | None => rc_bearer_token current
                          end in
      seconds ← merge_field (tr_poll_interval_seconds remote) check_poll_interval
                  (rc_poll_interval_seconds current);
      retries ← merge_field (tr_max_report_retries remote) check_retries
                  (rc_max_report_retries current);
      Ok (mkRemoteConfig enabled endpoint_url bearer_token (rc_device_id current)
            (rc_device_name current) seconds retries (rc_history_retention_days current))
  end.

Definition merge_payload (current : AgentConfig) (payload : ConfigTransferPayload)
  : result ConfigTransferError AgentConfig :=
  _ ← validate_payload payload;
  service ← merge_service (cfg_service current) (tc_service (tp_config payload));
  security ← merge_security (cfg_security current) (tc_security (tp_config payload));
  remote ← merge_remote (cfg_remote current) (tc_remote (tp_config payload));
  Ok (normalized (mkAgentConfig service security (cfg_printing current) (cfg_limits current)
                    (cfg_app current) remote)).

(** ** Preview *)

Definition display_bool (value : bool) : string := if value then "开启" else "关闭".
Definition display_optional_string (value : option string) : string := unwrap_or value "未设置".
Definition has_token (value : option string) : bool :=
  match value with Some token => non_empty (trim token) | None => false end.
Definition display_token_current (value : option string) : string :=
  if has_token value then "已设置" else "未设置".
Definition display_token_next (value : option (option string)) : string :=
  if has_token (value ≫= id) then "将覆盖" else "保留当前".
Definition display_seconds (value : N) : string := pretty value +:+ " 秒".
Definition display_count {A} (l : list A) : string := pretty (N.of_nat (length l)) +:+ " 项".

(** One item when its field is present. *)
Definition item_if (present : bool) (key label current next : string) : list ImportPreviewItem :=
  if present then [mkImportPreviewItem key label current next] else [].

Definition preview_payload (current : AgentConfig) (payload : ConfigTransferPayload)
  : result ConfigTransferError ImportPreview :=
  next ← merge_payload current payload;
  let c := tp_config payload in
  let port := tc_service c ≫= ts_port in
  let origins := tc_security c ≫= tu_allowed_origins in
  let ips := tc_security c ≫= tu_allowed_ips in
  let remote_items := match tc_remote c with
    | None => []
    | Some remote =>
        item_if (is_some (tr_enabled remote)) "remote.enabled" "远程任务开关"
          (display_bool (rc_enabled (cfg_remote current)))
          (display_bool (rc_enabled (cfg_remote next))) ++
        item_if (is_some (tr_endpoint_url remote)) "remote.endpoint_url" "远程任务 URL"
          (display_optional_string (rc_endpoint_url (cfg_remote current)))
          (display_optional_string (rc_endpoint_url (cfg_remote next))) ++
        item_if (is_some (tr_bearer_token remote)) "remote.bearer_token"
          "远程任务 Authorization Token"
          (display_token_current (rc_bearer_token (cfg_remote current)))
          (display_token_next (tr_bearer_token remote)) ++
        item_if (is_some (tr_poll_interval_seconds remote)) "remote.poll_interval_seconds"
          "轮询时间"
          (display_seconds (rc_poll_interval_seconds (cfg_remote current)))
          (display_seconds (rc_poll_interval_seconds (cfg_remote next))) ++
        item_if (is_some (tr_max_report_retries remote)) "remote.max_report_retries" "上报重试次数"
          (pretty (rc_max_report_retries (cfg_remote current)))
          (pretty (rc_max_report_retries (cfg_remote next)))
    end in
  Ok (mkImportPreview ""
    (item_if (is_some port) "service.port" "本地端口"
       (pretty (sv_port (cfg_service current))) (pretty (sv_port (cfg_service next))) ++
     item_if (is_some origins) "security.allowed_origins" "网站白名单"
       (display_count (se_allowed_origins (cfg_security current)))
       (display_count (se_allowed_origins (cfg_security next))) ++
     item_if (is_some ips) "security.allowed_ips" "IP 白名单"
       (display_count (se_allowed_ips (cfg_security current)))
       (display_count (se_allowed_ips (cfg_security next))) ++
     remote_items)).
End import.

(** ** Properties *)

(** The nested options survive the JSON form: an unselected field, a field
    selected as empty, and a value stay apart. *)
Lemma double_option_roundtrip {A} (v : option (option A)) :
  read_field (write_field v) = v.
Proof. by destruct v as [[]|]. Qed.

Section import_properties.
Context `{U : UrlOps, I : IpNetOps}.

(** An endpoint that is stored as it is: absent, or a trimmed HTTP URL. *)
Definition endpoint_clean (e : option string) : Prop :=
  ∀ v, e = Some v → trim v = v ∧ v ≠ "" ∧ ∃ u, Url_parse v = Some u ∧
    (url_scheme u = "http" ∨ url_scheme u = "https").

Lemma normalize_endpoint_clean value r :
  normalize_endpoint_url value = Ok r → endpoint_clean r.
Proof.
  unfold normalize_endpoint_url. destruct (opt_filter _ _) as [v|] eqn:Hv; [|by intros [= <-]].
  destruct (Url_parse v) as [u|] eqn:Hu; simpl; [|done].
  destruct (_ || _) eqn:Hs; intros [= <-]. intros ? [= <-].
  apply opt_filter_some in Hv as [Hv Hn]. destruct value as [w|]; [|done].
  injection Hv as <-. split_and!; [apply trim_idemp|by apply non_empty_true|].
  exists u. split; [done|]. apply orb_true_iff in Hs. by rewrite !bool_decide_eq_true in Hs.
Qed.

Lemma endpoint_clean_fixed e : endpoint_clean e → normalize_endpoint_url e = Ok e.
Proof.
  intros He. unfold normalize_endpoint_url. destruct e as [v|]; [|done].
  destruct (He v eq_refl) as (Ht&Hne&u&Hu&Hs). simpl. rewrite Ht.
  assert (non_empty v = true) as -> by (by apply non_empty_true).
  rewrite Hu. simpl. assert (bool_decide (url_scheme u = "http") ||
    bool_decide (url_scheme u = "https") = true) as ->; [|done].
  apply orb_true_iff. by rewrite !bool_decide_eq_true.
Qed.
End import_properties.

Section merge_properties.
Context `{U : UrlOps, I : IpNetOps}.
Implicit Types (current next : AgentConfig) (payload : ConfigTransferPayload).

Lemma check_origins_ok l r :
  check_origins l = Ok r ↔ r = l ∧ Forall (λ o, validate_origin o = Ok tt) l.
Proof.
  unfold check_origins. rewrite result_bind_ok. split.
  - intros ([]&H%try_for_each_ok&[= <-]). split; [done|]. eapply Forall_impl; [exact H|].
    intros o Ho. by apply map_err_ok in Ho.
  - intros [-> H]. exists tt. split; [|done]. apply try_for_each_ok. eapply Forall_impl; [exact H|].
    intros o Ho. by apply map_err_ok.
Qed.
Lemma check_ips_ok l r :
  check_ips l = Ok r ↔ r = l ∧ Forall (λ e, validate_allowed_ip_entry e = Ok tt) l.
Proof.
  unfold check_ips. rewrite result_bind_ok. split.
  - intros ([]&H%try_for_each_ok&[= <-]). split; [done|]. eapply Forall_impl; [exact H|].
    intros o Ho. by apply map_err_ok in Ho.
  - intros [-> H]. exists tt. split; [|done]. apply try_for_each_ok. eapply Forall_impl; [exact H|].
    intros o Ho. by apply map_err_ok.
Qed.

(** A merged field is the current one, or a checked one of the payload. *)
Lemma merge_field_ok {A C} (field : option A) (check : A → result ConfigTransferError C) (cur r : C) :
  merge_field field check cur = Ok r ↔
  field = None ∧ r = cur ∨ ∃ a, field = Some a ∧ check a = Ok r.
Proof. unfold merge_field. destruct field as [a|]; naive_solver. Qed.

(** What the payload selects. *)
Definition selected {A} (o : option A) : Prop := is_Some o.
Definition pl_port payload := tc_service (tp_config payload) ≫= ts_port.
Definition pl_origins payload := tc_security (tp_config payload) ≫= tu_allowed_origins.
Definition pl_ips payload := tc_security (tp_config payload) ≫= tu_allowed_ips.
Definition pl_enabled payload := tc_remote (tp_config payload) ≫= tr_enabled.
Definition pl_endpoint payload := tc_remote (tp_config payload) ≫= tr_endpoint_url.
Definition pl_token payload := tc_remote (tp_config payload) ≫= tr_bearer_token.
Definition pl_poll payload := tc_remote (tp_config payload) ≫= tr_poll_interval_seconds.
Definition pl_retries payload := tc_remote (tp_config payload) ≫= tr_max_report_retries.

(** The result of merging: the selected fields come from the payload, the rest
    from the current configuration. *)
Definition overlay current payload (endpoint : option string) : AgentConfig :=
  let r := cfg_remote current in
  mkAgentConfig
    (mkServiceConfig (sv_host (cfg_service current))
       (default (sv_port (cfg_service current)) (pl_port payload)))
    (mkSecurityConfig (default (se_allowed_origins (cfg_security current)) (pl_origins payload))
       (default (se_allowed_ips (cfg_security current)) (pl_ips payload)))
    (cfg_printing current) (cfg_limits current) (cfg_app current)
    (mkRemoteConfig (default (rc_enabled r) (pl_enabled payload)) endpoint
       (from_option (merge_token (rc_bearer_token r)) (rc_bearer_token r) (pl_token payload))
       (rc_device_id r) (rc_device_name r)
       (default (rc_poll_interval_seconds r) (pl_poll payload))
       (default (rc_max_report_retries r) (pl_retries payload))
       (rc_history_retention_days r)).

(** When a payload can be merged. *)
Record importable payload : Prop := {
  im_format : validate_payload payload = Ok tt;
  im_port p : pl_port payload = Some p → p ≠ 0;
  im_origins l : pl_origins payload = Some l → Forall (λ o, validate_origin o = Ok tt) l;
  im_ips l : pl_ips payload = Some l → Forall (λ e, validate_allowed_ip_entry e = Ok tt) l;
  im_poll n : pl_poll payload = Some n → MIN_REMOTE_POLL_INTERVAL_SECONDS ≤ n;
  im_retries n : pl_retries payload = Some n → 1 ≤ n
}.

(** A check that returns its argument, or fails. *)
Lemma merge_checked_ok {A} (P : A → Prop) check (field : option A) (cur r : A) :
  (∀ a r, check a = Ok r ↔ r = a ∧ P a) →
  merge_field field check cur = Ok r ↔
  r = default cur field ∧ ∀ a, field = Some a → P a.
Proof.
  intros Hc. rewrite merge_field_ok. destruct field as [l|]; cbn [default].
  - split.
    + intros [[[=] _]|(?&[= <-]&H)]. apply Hc in H as [-> H]. split; [done|]. by intros ? [= <-].
    + intros [-> H]. right. exists l. split; [done|]. apply Hc. auto.
  - split; [|by intros [-> _]; left]. intros [[_ ->]|(?&[=]&_)]. by split.
Qed.
Lemma check_port_ok p r : check_port p = Ok r ↔ r = p ∧ p ≠ 0.
Proof.
  unfold check_port. destruct (p =? 0) eqn:Hp; [apply N.eqb_eq in Hp|apply N.eqb_neq in Hp].
  - split; [done|]. by intros [_ ?].
  - split; [by intros [= <-]|by intros [-> _]].
Qed.
Lemma check_poll_ok n r :
  check_poll_interval n = Ok r ↔ r = n ∧ MIN_REMOTE_POLL_INTERVAL_SECONDS ≤ n.
Proof.
  unfold check_poll_interval.
  destruct (n <? _) eqn:Hp; [apply N.ltb_lt in Hp|apply N.ltb_ge in Hp].
  - split; [done|]. intros [_ ?]. lia.
  - split; [by intros [= <-]|by intros [-> _]].
Qed.
Lemma check_retries_ok n r : check_retries n = Ok r ↔ r = n ∧ 1 ≤ n.
Proof.
  unfold check_retries. destruct (n =? 0) eqn:Hp; [apply N.eqb_eq in Hp|apply N.eqb_neq in Hp].
  - split; [done|]. intros [_ ?]. lia.
  - split; [intros [= <-]; split; [done|lia]|by intros [-> _]].
Qed.

(** The endpoint of the result. *)
Definition endpoint_merged current payload (e : option string) : Prop :=
  match pl_endpoint payload with
  | None => e = rc_endpoint_url (cfg_remote current)
  | Some v => normalize_endpoint_url v = Ok e
  end.

Lemma merge_service_ok current payload service :
  merge_service (cfg_service current) (tc_service (tp_config payload)) = Ok service ↔
  service = mkServiceConfig (sv_host (cfg_service current))
    (default (sv_port (cfg_service current)) (pl_port payload)) ∧
  ∀ p, pl_port payload = Some p → p ≠ 0.
Proof.
  unfold merge_service, pl_port. destruct (tc_service _) as [sv|]; cbn [mbind option_bind].
  - rewrite result_bind_ok. split.
    + intros (?&[-> ?]%(merge_checked_ok _ _ _ _ _ check_port_ok)&[= <-]). done.
    + intros [-> ?]. eexists. split; [|done]. by apply (merge_checked_ok _ _ _ _ _ check_port_ok).
  - destruct (cfg_service current). split; [by intros [= <-]|by intros [-> _]].
Qed.
Lemma merge_security_ok current payload security :
  merge_security (cfg_security current) (tc_security (tp_config payload)) = Ok security ↔
  security = mkSecurityConfig
    (default (se_allowed_origins (cfg_security current)) (pl_origins payload))
    (default (se_allowed_ips (cfg_security current)) (pl_ips payload)) ∧
  (∀ l, pl_origins payload = Some l → Forall (λ o, validate_origin o = Ok tt) l) ∧
  (∀ l, pl_ips payload = Some l → Forall (λ e, validate_allowed_ip_entry e = Ok tt) l).
Proof.
  unfold merge_security, pl_origins, pl_ips.
  destruct (tc_security _) as [sv|]; cbn [mbind option_bind].
  - rewrite result_bind_ok. split.
    + intros (?&[-> ?]%(merge_checked_ok _ _ _ _ _ check_origins_ok)&Hr).
      apply result_bind_ok in Hr as (?&[-> ?]%(merge_checked_ok _ _ _ _ _ check_ips_ok)&[= <-]).
      done.
    + intros (->&?&?). eexists. split; [by apply (merge_checked_ok _ _ _ _ _ check_origins_ok)|].
      apply result_bind_ok. eexists. split; [|done]. by apply (merge_checked_ok _ _ _ _ _ check_ips_ok).
  - destruct (cfg_security current). split; [by intros [= <-]|by intros [-> _]].
Qed.
Lemma merge_remote_ok current payload remote :
  merge_remote (cfg_remote current) (tc_remote (tp_config payload)) = Ok remote ↔
  (∃ e, endpoint_merged current payload e ∧ remote = cfg_remote (overlay current payload e)) ∧
  (∀ n, pl_poll payload = Some n → MIN_REMOTE_POLL_INTERVAL_SECONDS ≤ n) ∧
  (∀ n, pl_retries payload = Some n → 1 ≤ n).
Proof.
  unfold merge_remote, endpoint_merged, overlay, pl_endpoint, pl_poll, pl_retries, pl_token,
    pl_enabled. cbn [cfg_remote].
  destruct (tc_remote _) as [sv|]; cbn [mbind option_bind].
  - rewrite result_bind_ok. split.
    + intros (e&He&Hr).
      apply result_bind_ok in Hr as (?&[-> ?]%(merge_checked_ok _ _ _ _ _ check_poll_ok)&Hr).
      apply result_bind_ok in Hr as (?&[-> ?]%(merge_checked_ok _ _ _ _ _ check_retries_ok)&Hr).
      injection Hr as <-. split; [|done].
      exists e. split; [|by destruct (tr_enabled sv), (tr_bearer_token sv)].
      by destruct (tr_endpoint_url sv); [|injection He as <-].
    + intros ((e&He&->)&?&?). exists e. split; [by destruct (tr_endpoint_url sv); [|rewrite He]|].
      apply result_bind_ok. eexists. split; [by apply (merge_checked_ok _ _ _ _ _ check_poll_ok)|].
      apply result_bind_ok. eexists. split; [by apply (merge_checked_ok _ _ _ _ _ check_retries_ok)|].
      by destruct (tr_enabled sv), (tr_bearer_token sv).
  - split.
    + intros [= <-]. split; [|done]. eexists. split; [done|]. by destruct (cfg_remote current).
    + intros ((e&->&->)&_). by destruct (cfg_remote current).
Qed.

(** Merging succeeds exactly on the importable payloads whose endpoint is
    usable, and gives the overlay, normalized. *)
Lemma merge_payload_ok current payload next :
  merge_payload current payload = Ok next ↔
  importable payload ∧
  ∃ e, endpoint_merged current payload e ∧ next = normalized (overlay current payload e).
Proof.
  unfold merge_payload. rewrite result_bind_ok. split.
  - intros ([]&Hf&Hr). apply result_bind_ok in Hr as (?&[-> ?]%merge_service_ok&Hr).
    apply result_bind_ok in Hr as (?&(->&?&?)%merge_security_ok&Hr).
    apply result_bind_ok in Hr as (?&((e&?&->)&?&?)%merge_remote_ok&Hr).
    injection Hr as <-. split; [by split|]. by exists e.
  - intros [[] (e&He&->)]. exists tt. split; [done|].
    apply result_bind_ok. eexists. split; [by apply merge_service_ok|].
    apply result_bind_ok. eexists. split; [by apply merge_security_ok|].
    apply result_bind_ok. eexists. split; [|done].
    apply merge_remote_ok. split; [by exists e|done].
Qed.

(** ** What an import promises *)

(** The value an endpoint field denotes, and whether it can be used. *)
Definition endpoint_value (v : option string) : option string :=
  opt_filter non_empty (trim <$> v).
Definition endpoint_usable (v : option string) : Prop :=
  ∀ t, endpoint_value v = Some t →
    ∃ u, Url_parse t = Some u ∧ (url_scheme u = "http" ∨ url_scheme u = "https").

Lemma normalize_endpoint_ok v r :
  normalize_endpoint_url v = Ok r ↔ endpoint_usable v ∧ r = endpoint_value v.
Proof.
  unfold normalize_endpoint_url, endpoint_usable, endpoint_value.
  destruct (opt_filter _ _) as [t|]; [|split; [by intros [= <-]|by intros [_ ->]]].
  split.
  - destruct (Url_parse t) as [u|] eqn:Hu; cbn; [|done].
    destruct (_ || _) eqn:Hs; intros [= <-]. split; [|done]. intros ? [= <-].
    exists u. split; [done|]. apply orb_true_iff in Hs. by rewrite !bool_decide_eq_true in Hs.
  - intros [Hu ->]. destruct (Hu t eq_refl) as (u&Hp&Hs). rewrite Hp. cbn.
    assert (_ || _ = true) as ->; [|done]. apply orb_true_iff. by rewrite !bool_decide_eq_true.
Qed.

(** What a payload must satisfy to be imported. *)
Definition acceptable payload : Prop :=
  importable payload ∧ ∀ v, pl_endpoint payload = Some v → endpoint_usable v.
(** The configuration an acceptable payload leads to. *)
Definition imported current payload : AgentConfig :=
  normalized (overlay current payload
    (from_option endpoint_value (rc_endpoint_url (cfg_remote current)) (pl_endpoint payload))).

Lemma merge_payload_imported current payload next :
  merge_payload current payload = Ok next ↔
  acceptable payload ∧ next = imported current payload.
Proof.
  rewrite merge_payload_ok. unfold acceptable, imported, endpoint_merged.
  destruct (pl_endpoint payload) as [v|]; cbn [from_option].
  - split.
    + intros [? (e&[? ->]%normalize_endpoint_ok&->)]. split; [|done].
      split; [done|]. by intros ? [= <-].
    + intros [[? Hv] ->]. split; [done|]. eexists. split; [|done].
      apply normalize_endpoint_ok. split; [by apply Hv|done].
  - split; [intros [? (e&->&->)]; by split|]. intros [[? _] ->]. split; [done|]. by eexists.
Qed.

Lemma allowed_entry_trim e :
  validate_allowed_ip_entry (trim e) = validate_allowed_ip_entry e.
Proof. unfold validate_allowed_ip_entry. by rewrite trim_idemp. Qed.

Lemma imported_ok current payload :
  config_ok current → acceptable payload → config_ok (imported current payload).
Proof.
  intros (Ho&Hn&Hp&Hr&Hi) [[_ _ Hpo Hpi Hpp Hpr] _]. split_and!.
  - unfold imported. simpl. destruct (pl_origins payload) as [l|] eqn:Hl; simpl; [by apply Hpo|done].
  - apply normalized_idemp.
  - unfold imported. cbn [normalized overlay cfg_remote rc_poll_interval_seconds].
    destruct (pl_poll payload) as [n|] eqn:Hl; [by apply Hpp|done].
  - unfold imported. cbn [normalized overlay cfg_remote rc_max_report_retries].
    destruct (pl_retries payload) as [n|] eqn:Hl; [by apply Hpr|done].
  - apply Forall_forall. intros e He. unfold imported in He. simpl in He.
    apply normalize_elem in He as [->|[(e'&He'&->) _]]; [by left|].
    destruct (pl_ips payload) as [l|] eqn:Hl; simpl in He'.
    + right. exists e'. split; [done|]. specialize (Hpi _ eq_refl).
      rewrite Forall_forall in Hpi. by apply Hpi.
    + rewrite Forall_forall in Hi. destruct (Hi e' He') as [->|(e2&->&?)]; [by left|].
      right. exists e2. by rewrite trim_idemp.
Qed.

(** C35: An import is all or nothing: it succeeds exactly on the acceptable payloads,
    and then gives the configuration with the selected fields replaced (an
    empty token keeping the old one, the endpoint trimmed, the allow list in
    normal form) and every other field untouched; a valid configuration stays
    valid. *)
Theorem merge_keeps_valid current payload :
  config_ok current →
  match merge_payload current payload with
  | Ok next =>
      acceptable payload ∧ config_ok next ∧ next = imported current payload ∧
      cfg_printing next = cfg_printing current ∧ cfg_limits next = cfg_limits current ∧
      cfg_app next = cfg_app current ∧
      (tc_security (tp_config payload) = None → cfg_security next = cfg_security current) ∧
      (tc_remote (tp_config payload) = None → cfg_remote next = cfg_remote current) ∧
      (tc_service (tp_config payload) = None → cfg_service next = cfg_service current)
  | Err e => ¬ acceptable payload
  end.
Proof.
  intros Hc. destruct (merge_payload current payload) as [next|e] eqn:Hm.
  - apply merge_payload_imported in Hm as [Ha ->].
    split_and!; try done; [by apply imported_ok|..]; intros Hs;
      destruct Hc as (_&Hn&_); rewrite <- Hn at 2; unfold imported, normalized, overlay,
      pl_origins, pl_ips, pl_port, pl_endpoint, pl_enabled, pl_token, pl_poll, pl_retries;
      rewrite Hs; try done. simpl. by destruct (cfg_remote current).
  - intros Ha. assert (merge_payload current payload = Ok (imported current payload)); [|congruence].
    by apply merge_payload_imported.
Qed.
End merge_properties.

(** ** What a preview shows *)

Section preview_properties.
Context `{U : UrlOps, I : IpNetOps}.
Implicit Types (current next : AgentConfig) (payload : ConfigTransferPayload).

(** A configuration with another token, and a payload with another one in place
    of the one it carries. *)
Definition with_token current (t : option string) : AgentConfig :=
  let r := cfg_remote current in
  mkAgentConfig (cfg_service current) (cfg_security current) (cfg_printing current)
    (cfg_limits current) (cfg_app current)
    (mkRemoteConfig (rc_enabled r) (rc_endpoint_url r) t (rc_device_id r) (rc_device_name r)
       (rc_poll_interval_seconds r) (rc_max_report_retries r) (rc_history_retention_days r)).
Definition with_remote_token (u : option string) (r : PartialRemoteTransferConfig)
  : PartialRemoteTransferConfig :=
  mkPartialRemote (tr_enabled r) (tr_endpoint_url r) ((λ _, u) <$> tr_bearer_token r)
    (tr_poll_interval_seconds r) (tr_max_report_retries r).
Definition with_payload_token payload (u : option string) : ConfigTransferPayload :=
  let c := tp_config payload in
  mkConfigTransferPayload (tp_format payload) (tp_version payload)
    (mkPartialTransfer (tc_service c) (tc_security c) (with_remote_token u <$> tc_remote c)).

Lemma merge_with_token current payload t u :
  ∃ t', merge_payload (with_token current t) (with_payload_token payload u) =
    (λ n, with_token n t') <$> merge_payload current payload.
Proof.
  destruct payload as [f v [sv se re]]. unfold merge_payload, validate_payload. simpl.
  destruct (_ || _); [by exists t|]. simpl.
  destruct (merge_service _ _) as [sv'|]; simpl; [|by exists t].
  destruct (merge_security _ _) as [se'|]; simpl; [|by exists t].
  destruct re as [re|]; simpl; [|by exists t].
  destruct (merge_field (tr_endpoint_url re) _ _); simpl; [|by exists t].
  destruct (merge_field (tr_poll_interval_seconds re) _ _); simpl; [|by exists t].
  destruct (merge_field (tr_max_report_retries re) _ _); simpl; [|by exists t].
  by eexists.
Qed.

(** A preview never reveals a token: it depends on the stored token and on the
    token of the file only through whether they are blank. *)
Theorem preview_hides_token current payload (t t' u u' : option string) :
  has_token t = has_token t' → has_token u = has_token u' →
  preview_payload (with_token current t) (with_payload_token payload u) =
  preview_payload (with_token current t') (with_payload_token payload u').
Proof.
  intros Ht Hu. unfold preview_payload.
  destruct (merge_with_token current payload t u) as [t1 ->].
  destruct (merge_with_token current payload t' u') as [t2 ->].
  destruct (merge_payload current payload) as [next|e]; simpl; [|done].
  destruct (tc_remote (tp_config payload)) as [re|]; simpl; [|done].
  unfold display_token_current, display_token_next. rewrite Ht.
  destruct (tr_bearer_token re); simpl; [|done]. by rewrite Hu.
Qed.

(** The fields a payload selects, in the order of the form. *)
Definition selected_keys payload : list string :=
  snd <$> filter (λ p, p.1 = true)
    [(is_some (pl_port payload), "service.port");
     (is_some (pl_origins payload), "security.allowed_origins");
     (is_some (pl_ips payload), "security.allowed_ips");
     (is_some (pl_enabled payload), "remote.enabled");
     (is_some (pl_endpoint payload), "remote.endpoint_url");
     (is_some (pl_token payload), "remote.bearer_token");
     (is_some (pl_poll payload), "remote.poll_interval_seconds");
     (is_some (pl_retries payload), "remote.max_report_retries")].

(** What the form shows for a field of a configuration. *)
Definition shown (c : AgentConfig) (key : string) : option string :=
  if bool_decide (key = "service.port") then Some (pretty (sv_port (cfg_service c)))
  else if bool_decide (key = "security.allowed_origins") then
    Some (display_count (se_allowed_origins (cfg_security c)))
  else if bool_decide (key = "security.allowed_ips") then
    Some (display_count (se_allowed_ips (cfg_security c)))
  else if bool_decide (key = "remote.enabled") then
    Some (display_bool (rc_enabled (cfg_remote c)))
  else if bool_decide (key = "remote.endpoint_url") then
    Some (display_optional_string (rc_endpoint_url (cfg_remote c)))
  else if bool_decide (key = "remote.poll_interval_seconds") then
    Some (display_seconds (rc_poll_interval_seconds (cfg_remote c)))
  else if bool_decide (key = "remote.max_report_retries") then
    Some (pretty (rc_max_report_retries (cfg_remote c)))
  else None.

(** An item shows both configurations; the token is shown as set or not. *)
Definition item_shows current next payload (it : ImportPreviewItem) : Prop :=
  if bool_decide (ii_key it = "remote.bearer_token") then
    ii_current it = display_token_current (rc_bearer_token (cfg_remote current)) ∧
    ii_next it = (if has_token (pl_token payload ≫= id) then "将覆盖" else "保留当前")
  else shown current (ii_key it) = Some (ii_current it) ∧
       shown next (ii_key it) = Some (ii_next it).

Lemma item_if_keys b k l x y (p : list (bool * string)) rest :
  ii_key <$> rest = snd <$> filter (λ p, p.1 = true) p →
  ii_key <$> (item_if b k l x y ++ rest) = snd <$> filter (λ p, p.1 = true) ((b, k) :: p).
Proof. intros H. rewrite fmap_app, H, filter_cons. by destruct b. Qed.

(** A preview fails exactly when the import would, with the same error, and
    otherwise lists the fields the file selects, in order, each with the value
    in force and the value the import would install. *)
Theorem preview_matches_merge current payload :
  match preview_payload current payload with
  | Ok p => ∃ next, merge_payload current payload = Ok next ∧
      ii_key <$> ip_items p = selected_keys payload ∧
      Forall (item_shows current next payload) (ip_items p)
  | Err e => merge_payload current payload = Err e
  end.
Proof.
  unfold preview_payload. destruct (merge_payload current payload) as [next|e]; simpl; [|done].
  exists next. split; [done|]. unfold selected_keys, pl_port, pl_origins, pl_ips, pl_enabled,
    pl_endpoint, pl_token, pl_poll, pl_retries.
  destruct (tc_remote _) as [re|] eqn:Hre; cbn [mbind option_bind is_some];
    (split; [repeat apply item_if_keys; try done|]).
  all: rewrite ?Forall_app; repeat apply conj; unfold item_if.
  all: try (match goal with |- context [if ?b then _ else _] => destruct b eqn:? end); try done.
  all: apply Forall_singleton; unfold item_shows; simpl; try done.
  unfold pl_token. rewrite Hre. simpl. done.
Qed.
End preview_properties.

(** ** From one machine to another *)

Section transfer_properties.
Context `{U : UrlOps, I : IpNetOps, B : Base64Ops, !Base64Laws, C : TransferCrypto,
          !TransferCryptoLaws}.
Context `{JP : !JsonCodec ConfigTransferPayload, !JsonLaws ConfigTransferPayload (λ _, True)}.
Context `{JF : !JsonCodec EncryptedConfigFile, !JsonLaws EncryptedConfigFile (λ _, True)}.
Implicit Types (src current next : AgentConfig) (opts : ExportConfigOptions).

(** A valid configuration whose port and endpoint can be used. *)
Definition exportable src : Prop :=
  config_ok src ∧ sv_port (cfg_service src) ≠ 0 ∧ endpoint_usable (rc_endpoint_url (cfg_remote src)).

Lemma allowed_loopback : validate_allowed_ip_entry REQUIRED_LOOPBACK_IP = Ok tt.
Proof. by vm_compute. Qed.

(** What an exported payload carries. *)
Lemma pl_port_build src opts :
  pl_port (build_transfer_payload src opts) =
  then_some (eo_service_port opts) (sv_port (cfg_service src)).
Proof. unfold pl_port, build_transfer_payload. by destruct (eo_service_port opts). Qed.
Lemma pl_origins_build src opts :
  pl_origins (build_transfer_payload src opts) =
  then_some (eo_allowed_origins opts) (se_allowed_origins (cfg_security src)).
Proof.
  unfold pl_origins, build_transfer_payload.
  by destruct (eo_allowed_origins opts), (eo_allowed_ips opts).
Qed.
Lemma pl_ips_build src opts :
  pl_ips (build_transfer_payload src opts) =
  then_some (eo_allowed_ips opts) (se_allowed_ips (cfg_security src)).
Proof.
  unfold pl_ips, build_transfer_payload.
  by destruct (eo_allowed_origins opts), (eo_allowed_ips opts).
Qed.
Lemma pl_remote_build {A} src opts (f : PartialRemoteTransferConfig → option A) b v :
  f (mkPartialRemote
      (then_some (eo_remote_enabled opts) (rc_enabled (cfg_remote src)))
      (then_some (eo_remote_endpoint_url opts) (rc_endpoint_url (cfg_remote src)))
      (then_some (eo_remote_bearer_token opts) (rc_bearer_token (cfg_remote src)))
      (then_some (eo_remote_poll_interval_seconds opts) (rc_poll_interval_seconds (cfg_remote src)))
      (then_some (eo_remote_max_report_retries opts) (rc_max_report_retries (cfg_remote src)))) =
    then_some b v →
  (b = true → eo_remote_enabled opts || eo_remote_endpoint_url opts || eo_remote_bearer_token opts ||
    eo_remote_poll_interval_seconds opts || eo_remote_max_report_retries opts = true) →
  tc_remote (tp_config (build_transfer_payload src opts)) ≫= f = then_some b v.
Proof.
  intros Hf Hb. unfold build_transfer_payload, build_remote_transfer.
  cbn [tp_config tc_remote tr_enabled tr_endpoint_url tr_bearer_token tr_poll_interval_seconds
       tr_max_report_retries].
  assert (∀ (c : bool) {X} (x : X), is_some (then_some c x) = c) as Hs by by intros [].
  rewrite !Hs. destruct (_ || _); [done|]. by destruct b; [specialize (Hb eq_refl)|].
Qed.
Ltac solve_remote_build f :=
  refine (pl_remote_build _ _ f _ _ eq_refl _); intros ->; by rewrite ?orb_true_r.
Lemma pl_enabled_build src opts :
  pl_enabled (build_transfer_payload src opts) =
  then_some (eo_remote_enabled opts) (rc_enabled (cfg_remote src)).
Proof. solve_remote_build tr_enabled. Qed.
Lemma pl_endpoint_build src opts :
  pl_endpoint (build_transfer_payload src opts) =
  then_some (eo_remote_endpoint_url opts) (rc_endpoint_url (cfg_remote src)).
Proof. solve_remote_build tr_endpoint_url. Qed.
Lemma pl_token_build src opts :
  pl_token (build_transfer_payload src opts) =
  then_some (eo_remote_bearer_token opts) (rc_bearer_token (cfg_remote src)).
Proof. solve_remote_build tr_bearer_token. Qed.
Lemma pl_poll_build src opts :
  pl_poll (build_transfer_payload src opts) =
  then_some (eo_remote_poll_interval_seconds opts) (rc_poll_interval_seconds (cfg_remote src)).
Proof. solve_remote_build tr_poll_interval_seconds. Qed.
Lemma pl_retries_build src opts :
  pl_retries (build_transfer_payload src opts) =
  then_some (eo_remote_max_report_retries opts) (rc_max_report_retries (cfg_remote src)).
Proof. solve_remote_build tr_max_report_retries. Qed.

Lemma then_some_inv {A} b (x y : A) : then_some b x = Some y → y = x.
Proof. destruct b; [by intros [= ->]|done]. Qed.

Lemma payload_acceptable src opts :
  exportable src → acceptable (build_transfer_payload src opts).
Proof.
  intros ((Ho&_&Hp&Hr&Hi)&Hport&He).
  assert (Forall (λ e, validate_allowed_ip_entry e = Ok tt) (se_allowed_ips (cfg_security src))) as Hi'.
  { eapply Forall_impl; [exact Hi|]. intros e [->|(e'&->&?)]; [apply allowed_loopback|].
    by rewrite allowed_entry_trim. }
  split; [split|].
  - done.
  - by intros p; rewrite pl_port_build; intros ->%then_some_inv.
  - by intros p; rewrite pl_origins_build; intros ->%then_some_inv.
  - by intros p; rewrite pl_ips_build; intros ->%then_some_inv.
  - by intros p; rewrite pl_poll_build; intros ->%then_some_inv.
  - by intros p; rewrite pl_retries_build; intros ->%then_some_inv.
  - by intros p; rewrite pl_endpoint_build; intros ->%then_some_inv.
Qed.

(** The selected fields of [src] over those of [current]. *)
Definition transferred src current opts next : Prop :=
  let pick {A} (b : bool) (x y : A) := if b then x else y in
  let rs := cfg_remote src in let rc := cfg_remote current in let rn := cfg_remote next in
  sv_port (cfg_service next) =
    pick (eo_service_port opts) (sv_port (cfg_service src)) (sv_port (cfg_service current)) ∧
  se_allowed_origins (cfg_security next) =
    pick (eo_allowed_origins opts) (se_allowed_origins (cfg_security src))
      (se_allowed_origins (cfg_security current)) ∧
  se_allowed_ips (cfg_security next) =
    pick (eo_allowed_ips opts) (se_allowed_ips (cfg_security src))
      (se_allowed_ips (cfg_security current)) ∧
  rc_enabled rn = pick (eo_remote_enabled opts) (rc_enabled rs) (rc_enabled rc) ∧
  rc_endpoint_url rn =
    pick (eo_remote_endpoint_url opts) (endpoint_value (rc_endpoint_url rs)) (rc_endpoint_url rc) ∧
  rc_bearer_token rn =
    pick (eo_remote_bearer_token opts) (merge_token (rc_bearer_token rc) (rc_bearer_token rs))
      (rc_bearer_token rc) ∧
  rc_poll_interval_seconds rn = pick (eo_remote_poll_interval_seconds opts)
    (rc_poll_interval_seconds rs) (rc_poll_interval_seconds rc) ∧
  rc_max_report_retries rn = pick (eo_remote_max_report_retries opts)
    (rc_max_report_retries rs) (rc_max_report_retries rc) ∧
  (sv_host (cfg_service next), rc_device_id rn, rc_device_name rn, rc_history_retention_days rn,
   cfg_printing next, cfg_limits next, cfg_app next) =
  (sv_host (cfg_service current), rc_device_id rc, rc_device_name rc, rc_history_retention_days rc,
   cfg_printing current, cfg_limits current, cfg_app current).

Lemma normalized_service c : normalized c = c → sv_host (cfg_service c) = "127.0.0.1".
Proof. by intros <-. Qed.
Lemma normalized_ips c :
  normalized c = c → normalize_allowed_ips (se_allowed_ips (cfg_security c)) = se_allowed_ips (cfg_security c).
Proof. intros Hn. by rewrite <- Hn at 2. Qed.

Lemma imported_transferred src current opts :
  config_ok src → config_ok current →
  transferred src current opts (imported current (build_transfer_payload src opts)).
Proof.
  intros (_&Hs&_) (_&Hc&_). apply normalized_ips in Hs. pose proof (normalized_ips _ Hc) as Hi.
  apply normalized_service in Hc.
  unfold transferred, imported, overlay, normalized.
  cbn -[pl_port pl_origins pl_ips pl_enabled pl_endpoint pl_token pl_poll pl_retries
        normalize_allowed_ips].
  rewrite pl_port_build, pl_origins_build, pl_ips_build, pl_enabled_build, pl_endpoint_build,
    pl_token_build, pl_poll_build, pl_retries_build.
  repeat apply conj; [..|by rewrite Hc].
  all: match goal with |- context [then_some ?b] => by destruct b end.
Qed.

Lemma decode_fixed_encode n s :
  str_len s = n → decode_fixed n (b64_encode s) = Ok s.
Proof.
  intros <-. unfold decode_fixed. rewrite b64_decode_encode. simpl. by rewrite N.eqb_refl.
Qed.

Lemma decrypt_encrypt src opts salt nonce password file :
  str_len salt = SALT_LEN → str_len nonce = NONCE_LEN →
  encrypt_payload salt nonce (build_transfer_payload src opts) password = Ok file →
  decrypt_payload file password = Ok (build_transfer_payload src opts).
Proof.
  intros Hs Hn He. unfold encrypt_payload in He.
  apply result_bind_ok in He as (key&Hk&He). cbv zeta in He.
  apply result_bind_ok in He as (c&Hc&[= <-]).
  unfold decrypt_payload. cbn [ef_crypto ef_payload cm_salt cm_nonce].
  change (validate_envelope _) with (Ok (E := ConfigTransferError) tt).
  rewrite decode_fixed_encode by done. cbn [mbind result_bind].
  rewrite decode_fixed_encode by done. cbn [mbind result_bind].
  rewrite b64_decode_encode. cbn [ok_or mbind result_bind]. rewrite Hk. cbn [mbind result_bind].
  destruct (aes_encrypt _ _ _) as [c'|] eqn:Ha; [injection Hc as ->|done].
  rewrite (aes_decrypt_encrypt _ _ _ _ Ha). cbn [ok_or mbind result_bind].
  rewrite from_to_json by done. done.
Qed.

(** C34: A configuration travels: exported with any choice of fields, written to a
    file and read back on another machine, it decrypts under the same password
    to the same payload, and importing it installs exactly the chosen fields
    and keeps the others.  This is for a valid configuration with a port and an
    endpoint an import accepts ([exportable]); a blank token leaves the token in
    place ([merge_token]). *)
Theorem export_import_roundtrip src current opts (salt nonce password key ciphertext path : string)
    (fs : Fs) :
  exportable src → config_ok current →
  str_len salt = SALT_LEN → str_len nonce = NONCE_LEN →
  argon2_key password salt = Some key →
  aes_encrypt key nonce (to_json (build_transfer_payload src opts)) = Some ciphertext →
  no_faults fs →
  ∃ file fs' next,
    encrypt_payload salt nonce (build_transfer_payload src opts) password = Ok file ∧
    write_encrypted_file path file fs = (Ok tt, fs') ∧
    (read_encrypted_file_with_hash path fs').1 = Ok (file, sha256_hex (to_json file)) ∧
    decrypt_payload file password = Ok (build_transfer_payload src opts) ∧
    merge_payload current (build_transfer_payload src opts) = Ok next ∧
    config_ok next ∧ transferred src current opts next.
Proof.
  intros Hsrc Hcur Hs Hn Hk Hc Hf.
  assert (∃ file, encrypt_payload salt nonce (build_transfer_payload src opts) password = Ok file)
    as [file He].
  { unfold encrypt_payload, derive_key. rewrite Hk. cbn [ok_or mbind result_bind].
    rewrite Hc. by eexists. }
  pose proof (no_faults_step _ Hf) as Hf1.
  exists file, (fs_step (fs_with_files <[path := to_json file]> fs)),
    (imported current (build_transfer_payload src opts)).
  split; [done|]. split_and!.
  - unfold write_encrypted_file, mapping_err, fs_write. by rewrite (no_faults_now _ Hf).
  - unfold read_encrypted_file_with_hash, mapping_err, fs_read. rewrite M_bind_eq. cbv beta.
    assert (fault_now (fs_step (fs_with_files <[path := to_json file]> fs)) = None) as ->
      by by apply (no_faults_now (fs_step fs)).
    simpl. rewrite lookup_insert, decide_True by done. simpl. unfold lift. rewrite M_bind_eq.
    by rewrite from_to_json by done.
  - by eapply decrypt_encrypt.
  - apply merge_payload_imported. split; [by apply payload_acceptable|done].
  - apply imported_ok; [done|by apply payload_acceptable].
  - apply imported_transferred; [by destruct Hsrc|done].
Qed.
End transfer_properties.

(** ** Witnesses *)

#[export] Instance toy_crypto : TransferCrypto := {|
  argon2_key _ salt := Some salt;
  aes_encrypt _ _ m := Some m;
  aes_decrypt _ _ c := Some c;
  sha256_hex s := s
|}.
#[export] Instance toy_crypto_laws : TransferCryptoLaws.
Proof. split. by intros ???? [= ->]. Qed.

#[export] Instance ConfigTransferPayload_countable : Countable ConfigTransferPayload.
Proof.
  refine (inj_countable'
    (λ p, (tp_format p, tp_version p,
      ts_port <$> tc_service (tp_config p),
      (λ u, (tu_allowed_origins u, tu_allowed_ips u)) <$> tc_security (tp_config p),
      (λ r, (tr_enabled r, tr_endpoint_url r, tr_bearer_token r, tr_poll_interval_seconds r,
             tr_max_report_retries r)) <$> tc_remote (tp_config p)))
    (λ '(f, v, a, b, c), mkConfigTransferPayload f v (mkPartialTransfer
      (mkPartialService <$> a)
      ((λ '(x, y), mkPartialSecurity x y) <$> b)
      ((λ '(x, y, z, w, v), mkPartialRemote x y z w v) <$> c))) _).
  by intros [? ? [[[]|] [[]|] [[]|]]].
Defined.
#[export] Instance CryptoMetadata_eq_dec : EqDecision CryptoMetadata.
Proof. solve_decision. Defined.
#[export] Instance EncryptedConfigFile_eq_dec : EqDecision EncryptedConfigFile.
Proof. solve_decision. Defined.
#[export] Instance EncryptedConfigFile_countable : Countable EncryptedConfigFile.
Proof.
  refine (inj_countable'
    (λ e, (ef_format e, ef_version e, ef_payload e,
      (let c := ef_crypto e in (cm_kdf c, cm_memory_kib c, cm_iterations c, cm_parallelism c,
       cm_cipher c, cm_tag_bytes c, cm_salt c, cm_nonce c))))
    (λ '(f, v, p, (a, b, c, d, e, g, h, i)),
      mkEncryptedConfigFile f v (mkCryptoMetadata a b c d e g h i) p) _).
  by intros [? ? [] ?].
Defined.

Definition toy_payload : ConfigTransferPayload :=
  mkConfigTransferPayload PAYLOAD_FORMAT 1 (mkPartialTransfer (Some (mkPartialService (Some 20000)))
    None (Some (mkPartialRemote (Some true) (Some (Some " https://print.example/api "))
      (Some (Some "")) (Some 30) None))).

Lemma merge_keeps_valid_witness :
  config_ok AgentConfig_default ∧
  ∃ next, merge_payload AgentConfig_default toy_payload = Ok next ∧ config_ok next ∧
    rc_endpoint_url (cfg_remote next) = Some "https://print.example/api" ∧
    sv_port (cfg_service next) = 20000.
Proof.
  split; [apply default_config_ok|].
  pose proof (merge_keeps_valid AgentConfig_default toy_payload default_config_ok) as H.
  destruct (merge_payload AgentConfig_default toy_payload) as [next|e] eqn:Hm.
  - exists next. destruct H as (_&Hok&->&_). split; [done|]. split; [done|]. by vm_compute.
  - exfalso. by vm_compute in Hm.
Defined.

Lemma preview_hides_token_witness :
  preview_payload (with_token AgentConfig_default (Some "secret-1"))
    (with_payload_token toy_payload (Some "token-1")) =
  preview_payload (with_token AgentConfig_default (Some "secret-2"))
    (with_payload_token toy_payload (Some "token-2")).
Proof. by apply (preview_hides_token AgentConfig_default toy_payload). Defined.

Lemma export_import_roundtrip_witness :
  let JP := toy_codec ConfigTransferPayload in
  let JF := toy_codec EncryptedConfigFile in
  ∃ file fs' next,
    encrypt_payload "0123456789abcdef" "0123456789ab"
      (build_transfer_payload AgentConfig_default export_all) "password" = Ok file ∧
    write_encrypted_file "dir/config.pbe" file toy_fs = (Ok tt, fs') ∧
    (read_encrypted_file_with_hash "dir/config.pbe" fs').1 = Ok (file, sha256_hex (to_json file)) ∧
    decrypt_payload file "password" = Ok (build_transfer_payload AgentConfig_default export_all) ∧
    merge_payload AgentConfig_default (build_transfer_payload AgentConfig_default export_all) =
      Ok next ∧
    config_ok next ∧ transferred AgentConfig_default AgentConfig_default export_all next.
Proof.
  intros JP JF.
  eapply (@export_import_roundtrip toy_url toy_ipnet toy_base64 toy_base64_laws toy_crypto
    toy_crypto_laws JP (toy_codec_laws _ _) JF (toy_codec_laws _ _)).
  - split_and!; [apply default_config_ok|done|done].
  - apply default_config_ok.
  - reflexivity.
  - reflexivity.
  - reflexivity.
  - reflexivity.
  - intros n _. reflexivity.
Defined.
