(* ===== verification/Worker.v ===== *)
(** * The print worker ([crates/runtime/src/queue.rs])

    Processing one queued job: resolving its options, obtaining a PDF or the raw
    bytes, submitting them to the print queue, tracking the submission, and
    recording every status in the log, the history and the remote reports.

    The theorems use a small program logic on handlers ([spec] below): what a
    handler emits (statuses, remote reports, submissions) is described by a
    relation that composes along the code. *)

From S2P Require Import Prelude RustStr F64 NetAddr Externs Toy FileSys PrintTypes Printing.
From S2P Require Import Protocol IpWhitelist Config JobQueue Download Document Office Activity.
From S2P Require Import Sqlite TaskHistory RemoteStore State.
Open Scope string_scope.
Open Scope N_scope.
Open Scope list_scope.

(** ** Errors and pure helpers *)

Section worker.
Context `{U : UrlOps, HT : !HttpOps, B : Base64Ops, IM : !ImageOps, ZI : !ZipOps, R : !RuntimeEnv}.

Inductive ProcessJobError :=
  | PrinterNotConfigured_
  | PaperNotConfigured_
  | CopiesOutOfRange_
  | UnsupportedFormat_
  | InvalidMessage_ (message : string)
  | FileTooLarge_
  | FormatMismatch_ (expected actual : string)
  | PDownload (e : DownloadError)
  | PDocument (e : DocumentError)
  | POffice (e : OfficeConvertError)
  | PHtml (e : HtmlRenderError)
  | PIo (e : IoError)
  | PPrint (e : PrintError).

Definition ProcessJobError_display (e : ProcessJobError) : string :=
  match e with
  | PrinterNotConfigured_ => "printer not configured"
  | PaperNotConfigured_ => "paper not configured"
  | CopiesOutOfRange_ => "copies out of range"
  | UnsupportedFormat_ => "unsupported document format"
  | InvalidMessage_ m => m
  | FileTooLarge_ => "file too large"
  | FormatMismatch_ x a => "format mismatch: expected " +:+ x +:+ ", got " +:+ a
  | PDownload e => "download failed: " +:+ DownloadError_display e
  | PDocument e => "document normalization failed: " +:+ DocumentError_display e
  | POffice e => OfficeConvertError_display e
  | PHtml e => "HTML rendering failed: " +:+ HtmlRenderError_display e
  | PIo e => io_message e
  | PPrint e => "print failed: " +:+ PrintError_display e
  end.

(** [PreparedPdf] *)
Record PreparedPdf := mkPreparedPdf { pp_path : string; pp_office_converter : option string }.

Definition format_matches (expected : SupportedFormat) (actual : DocumentFormat) : bool :=
  match expected, actual with
  | Pdf, DPdf => true
  | Image, (DPng | DJpeg) => true
  | Png, DPng => true
  | (Jpg | Jpeg), DJpeg => true
  | _, _ => false
  end.

Definition supported_format_name (f : SupportedFormat) : string :=
  match f with
  | Pdf => "pdf" | Image => "image" | Png => "png" | Jpg => "jpg" | Jpeg => "jpeg"
  | Docx => "docx" | Xlsx => "xlsx" | Pptx => "pptx" | Raw => "raw" | Html => "html"
  | RawHtml => "raw-html"
  end.
Definition document_format_name (f : DocumentFormat) : string :=
  match f with DPdf => "pdf" | DPng => "png" | DJpeg => "jpeg" end.
Definition office_format_name (f : OfficeFormat) : string :=
  match f with ODocx => "docx" | OXlsx => "xlsx" | OPptx => "pptx" end.

(** [format_paper_dimension] is [format_mm] written again. *)
Definition format_paper_dimension (value : f64) : string :=
  if f64_ltb (f64_abs (f64_fract value)) f64_epsilon then f64_format 0 value
  else trim_end_matches "." (trim_end_matches "0" (f64_format 2 value)).

Definition paper_info_from_effective (paper : EffectivePaper) : PaperInfo :=
  mkPaperInfo
    ("custom_" +:+ format_paper_dimension (ep_width_mm paper) +:+ "x" +:+
     format_paper_dimension (ep_height_mm paper) +:+ "mm")
    (paper_name (ep_width_mm paper) (ep_height_mm paper))
    (ep_width_mm paper) (ep_height_mm paper).

(** ** Options *)

Definition resolve_printer_name (q : QueuedJob) (config : AgentConfig)
  : result ProcessJobError string :=
  ok_or PrinterNotConfigured_
    (opt_or (ji_printer_name (qj_job q)) (pc_default_printer (cfg_printing config))).

Definition resolve_file_print_options (q : QueuedJob) (config : AgentConfig)
  : result ProcessJobError PrintOptions :=
  printer_name ← resolve_printer_name q config;
  paper ← ok_or PaperNotConfigured_
            (opt_or (ji_paper (qj_job q)) (pc_default_paper (cfg_printing config)));
  let copies := unwrap_or (ji_copies (qj_job q)) 1 in
  if (copies =? 0) || (lc_max_copies (cfg_limits config) <? copies)
  then Err CopiesOutOfRange_
  else Ok (mkPrintOptions printer_name (paper_info_from_effective paper) copies).

Definition resolve_print_options := resolve_file_print_options.

Definition resolve_raw_print_options (q : QueuedJob) (config : AgentConfig)
  : result ProcessJobError RawPrintOptions :=
  printer_name ← resolve_printer_name q config;
  Ok (mkRawPrintOptions printer_name).

(** ** Recording a status *)

Definition task_history_status (status : JobStatus) : TaskHistoryStatus :=
  match status with
  | Queued => HQueued
  | Downloading => HDownloading
  | Printing => HPrinting
  | Submitted => HSubmitted
  | Completed => HCompleted
  | Failed => HFailed
  | Unknown => HUnknown
  | Cancelled => HCancelled
  end.

Definition task_history_source (q : QueuedJob) : TaskHistorySource :=
  if qj_remote q then Remote else WebSocket.

Definition remote_status_for_job_status (status : JobStatus) : option RemoteReportStatus :=
  match status with
  | Queued => Some Accepted
  | Submitted => Some Success
  | Failed | Cancelled => Some RFailed
  | Downloading | Printing | Completed | Unknown => None
  end.

(** [if message.is_empty() { None } else { Some(message) }] *)
Definition non_empty_message (message : string) : option string :=
  if is_empty message then None else Some message.

(** [enqueue_remote_status_event]; its result is discarded. *)
Definition enqueue_remote_status_event {E} (q : QueuedJob) (status : JobStatus)
    (message : string) : Handler E unit :=
  if negb (qj_remote q) then mret tt
  else
    match remote_status_for_job_status status with
    | None => mret tt
    | Some remote_status =>
        store ← gets st_remote_store;
        match store with
        | None => mret tt
        | Some db =>
            n ← tick;
            let occurred_at := env_now n in
            let '(_, db') := insert_status_event (env_db_fault n) (env_uuid n)
              (mkNewRemoteStatusEvent (qj_id q) (qj_request_id q) (qj_batch_id q)
                 remote_status (non_empty_message message) occurred_at occurred_at) db in
            modify (set_remote_store (Some db'))
        end
    end.

(** [PrintLogMetadata] with [file_metadata] and [raw_metadata]. *)
Record PrintLogMetadata := mkPrintLogMetadata {
  md_printer_name : option string; md_paper_name : option string; md_copies : option N
}.
Definition file_metadata (o : PrintOptions) : PrintLogMetadata :=
  mkPrintLogMetadata (Some (po_printer_name o)) (Some (pa_name (po_paper o))) (Some (po_copies o)).
Definition raw_metadata (o : RawPrintOptions) : PrintLogMetadata :=
  mkPrintLogMetadata (Some (ro_printer_name o)) None None.

Definition history_event (q : QueuedJob) (status : JobStatus) (message : string)
    (metadata : option PrintLogMetadata) (occurred_at : string) : NewTaskHistoryEvent :=
  mkNewTaskHistoryEvent (qj_id q) (Some (qj_request_id q)) (qj_batch_id q)
    (task_history_source q) (task_history_status status) (non_empty_message message)
    (metadata ≫= md_printer_name) (metadata ≫= md_paper_name) (metadata ≫= md_copies)
    occurred_at.

(** The history part of the next function: a failure is only logged. *)
Definition record_task_history {E} (n : nat) (ev : NewTaskHistoryEvent) : Handler E unit :=
  history ← gets st_task_history;
  match history with
  | None => mret tt
  | Some h =>
      let '(_, h') := record_event (env_db_poisoned n) (env_db_fault n) ev h in
      modify (set_task_history (Some h'))
  end.

Definition push_log_with_print_metadata_and_remote {E} (q : QueuedJob) (status : JobStatus)
    (message : string) (metadata : option PrintLogMetadata) (enqueue_remote : bool)
  : Handler E unit :=
  n ← tick;
  let entry := mkTaskLogEntry (env_now n) (Some (qj_request_id q)) (qj_batch_id q)
                 (Some (qj_id q)) None status message in
  let occurred_at := tl_timestamp entry in
  _ ← modify (λ s, set_logs (log_push (st_logs s) entry) s);
  _ ← broadcast_status entry;
  _ ← record_task_history n (history_event q status message metadata occurred_at);
  when enqueue_remote (enqueue_remote_status_event q status message).

Definition push_log_with_metadata {E} (q : QueuedJob) (status : JobStatus) (message : string)
    (options : option PrintOptions) : Handler E unit :=
  push_log_with_print_metadata_and_remote q status message (file_metadata <$> options) true.
Definition push_log_with_metadata_without_remote {E} (q : QueuedJob) (status : JobStatus)
    (message : string) (options : option PrintOptions) : Handler E unit :=
  push_log_with_print_metadata_and_remote q status message (file_metadata <$> options) false.
Definition push_log_with_raw_metadata {E} (q : QueuedJob) (status : JobStatus)
    (message : string) (options : RawPrintOptions) : Handler E unit :=
  push_log_with_print_metadata_and_remote q status message (Some (raw_metadata options)) true.
Definition push_log_with_raw_metadata_without_remote {E} (q : QueuedJob) (status : JobStatus)
    (message : string) (options : RawPrintOptions) : Handler E unit :=
  push_log_with_print_metadata_and_remote q status message (Some (raw_metadata options)) false.
Definition push_log {E} (q : QueuedJob) (status : JobStatus) (message : string)
  : Handler E unit := push_log_with_metadata q status message None.

(** [cleanup_file] *)
Definition cleanup_file {E} (path : string) : Handler E unit := on_fs (fs_remove_quietly path).

(** ** Preparing the document *)

Definition normalize_pdf_path (downloaded_path : string) : M Fs ProcessJobError string :=
  if match path_extension downloaded_path with
     | Some e => eq_ignore_ascii_case e "pdf"
     | None => false
     end
  then mret downloaded_path
  else
    let output_path := with_extension downloaded_path "pdf" in
    _ ← mapping_err PIo (fs_copy downloaded_path output_path);
    mret output_path.

Definition prepare_printable_pdf (converter : Converter) (downloaded_path : string)
    (expected_format : SupportedFormat) (paper : PaperInfo)
  : M Fs ProcessJobError PreparedPdf :=
  match office_format_from_supported expected_format with
  | Some expected_office_format =>
      actual ← mapping_err POffice (detect_office_format downloaded_path);
      if negb (bool_decide (actual = Some expected_office_format)) then
        raise (FormatMismatch_ (office_format_name expected_office_format)
                 (match actual with Some f => office_format_name f | None => "unsupported" end))
      else
        let output_path := with_extension downloaded_path "pdf" in
        name ← mapping_err POffice
                 (office_to_pdf_with_converter downloaded_path expected_office_format
                    output_path converter);
        mret (mkPreparedPdf output_path (Some name))
  | None =>
      detected ← mapping_err PDocument (detect_format downloaded_path);
      actual_format ← lift (ok_or UnsupportedFormat_ detected);
      if negb (format_matches expected_format actual_format) then
        raise (FormatMismatch_ (supported_format_name expected_format)
                 (document_format_name actual_format))
      else
        match actual_format with
        | DPdf => path ← normalize_pdf_path downloaded_path; mret (mkPreparedPdf path None)
        | DPng | DJpeg =>
            let output_path := with_extension downloaded_path "pdf" in
            _ ← mapping_err PDocument
                  (image_to_pdf downloaded_path
                     (mkEffectivePaper (pa_width_mm paper) (pa_height_mm paper)) output_path);
            mret (mkPreparedPdf output_path None)
        end
  end.

(** ** Submitting and tracking *)

Definition tracking_status (o : PrintTrackingOutcome) : JobStatus * string :=
  match o with
  | TrackCompleted m => (Completed, m)
  | TrackFailed m => (Failed, m)
  | TrackUnknown m => (Unknown, m)
  end.

Definition submit_pdf_and_track (q : QueuedJob) (options : PrintOptions) (pdf_path : string)
  : Handler ProcessJobError unit :=
  _ ← push_log_with_metadata q Printing "printing" (Some options);
  n ← tick;
  content ← gets (λ s, fs_files (st_fs s) !! pdf_path);
  let print_result := print_pdf (env_backend n) pdf_path options in
  _ ← modify (add_call (CallPdf pdf_path content options print_result));
  submission ← lift (map_err PPrint print_result);
  _ ← push_log_with_metadata q Submitted "submitted to system print queue" (Some options);
  if negb (su_tracking_supported submission) then mret tt
  else
    n ← tick;
    let '(status, message) :=
      tracking_status (track_submission (env_backend n) submission options) in
    push_log_with_metadata_without_remote q status message (Some options).

Definition print_raw_job (q : QueuedJob) (options : RawPrintOptions) (config : AgentConfig)
  : Handler ProcessJobError unit :=
  data_base64 ← lift (ok_or (InvalidMessage_ "raw job requires data_base64")
                        (ji_data_base64 (qj_job q)));
  data ← lift (ok_or (InvalidMessage_ "invalid raw data_base64") (b64_decode data_base64));
  let max_bytes := saturating_mul_u64 (lc_max_file_size_mb (cfg_limits config)) mib in
  if max_bytes <? str_len data then raise FileTooLarge_
  else
    _ ← push_log_with_raw_metadata q Printing "printing raw" options;
    n ← tick;
    let print_result := print_raw (env_backend n) data options in
    _ ← modify (add_call (CallRaw data options print_result));
    submission ← lift (map_err PPrint print_result);
    _ ← push_log_with_raw_metadata q Submitted "submitted to system print queue" options;
    if negb (su_tracking_supported submission) then mret tt
    else
      n ← tick;
      let '(status, message) :=
        tracking_status (track_raw_submission (env_backend n) submission options) in
      push_log_with_raw_metadata_without_remote q status message options.

(** ** The three kinds of jobs *)

Definition html_source (q : QueuedJob) : result ProcessJobError HtmlSource :=
  match ji_format (qj_job q) with
  | Html =>
      file_url ← ok_or (InvalidMessage_ "html job requires file_url") (ji_file_url (qj_job q));
      url ← map_err (λ e, InvalidMessage_ ("invalid html file_url: " +:+ ProtocolError_display e))
              (validate_html_file_url file_url);
      Ok (SourceUrl url)
  | RawHtml =>
      html ← ok_or (InvalidMessage_ "raw-html job requires html") (ji_html (qj_job q));
      Ok (SourceInline html)
  | _ => Err UnsupportedFormat_
  end.

Definition print_html_job (q : QueuedJob) (options : PrintOptions)
  : Handler ProcessJobError unit :=
  source ← lift (html_source q);
  n ← tick;
  let output_path := env_temp_dir +:+ "/print-bridge-html-" +:+ env_uuid n +:+ ".pdf" in
  let request := mkHtmlRenderRequest source
    (qj_html_local_origin q ≫= Url_parse)
    (unwrap_or (ji_paper (qj_job q))
       (mkEffectivePaper (pa_width_mm (po_paper options)) (pa_height_mm (po_paper options))))
    (unwrap_or (ji_wait_ms (qj_job q)) DEFAULT_HTML_WAIT_MS)
    output_path in
  render_result ← attempt (on_fs (env_render n request));
  match render_result with
  | Err error =>
      _ ← cleanup_file output_path;
      raise (PHtml error)
  | Ok rendered =>
      _ ← push_log_with_metadata q Printing ("rendering html with " +:+ hs_renderer rendered)
            (Some options);
      result ← attempt (submit_pdf_and_track q options (hs_output_path rendered));
      _ ← cleanup_file (hs_output_path rendered);
      _ ← when (negb (bool_decide (hs_output_path rendered = output_path)))
            (cleanup_file output_path);
      lift result
  end.

Definition print_downloaded_file (q : QueuedJob) (options : PrintOptions)
    (downloaded_path : string) : Handler ProcessJobError unit :=
  n ← tick;
  printable ← on_fs (prepare_printable_pdf (env_converter n) downloaded_path
                       (ji_format (qj_job q)) (po_paper options));
  _ ← match pp_office_converter printable with
      | Some converter =>
          push_log_with_metadata q Printing ("converted office with " +:+ converter)
            (Some options)
      | None => mret tt
      end;
  result ← attempt (submit_pdf_and_track q options (pp_path printable));
  _ ← when (negb (bool_decide (pp_path printable = downloaded_path)))
        (cleanup_file (pp_path printable));
  lift result.

Definition process_job_inner (q : QueuedJob) : Handler ProcessJobError unit :=
  config ← gets st_config;
  match ji_format (qj_job q) with
  | Html | RawHtml =>
      options ← lift (resolve_print_options q config);
      print_html_job q options
  | Raw =>
      options ← lift (resolve_raw_print_options q config);
      print_raw_job q options config
  | _ =>
      _ ← push_log q Downloading "downloading";
      file_url ← lift (ok_or (InvalidMessage_ "file job requires file_url")
                         (ji_file_url (qj_job q)));
      options ← lift (resolve_print_options q config);
      n ← tick;
      downloaded_path ← on_fs (mapping_err PDownload
        (download_to_temp env_temp_dir (env_millis n) (env_uuid n) file_url (cfg_limits config)));
      result ← attempt (print_downloaded_file q options downloaded_path);
      _ ← cleanup_file downloaded_path;
      lift result
  end.

(** [process_job] never fails. *)
Definition process_job (q : QueuedJob) : Handler Empty_set unit :=
  _ ← push_log q Queued "queued";
  r ← attempt (process_job_inner q);
  match r with
  | Ok _ => mret tt
  | Err error => push_log q Failed (ProcessJobError_display error)
  end.

(** One round of [run_worker_until]: the next job is popped and processed, or
    the worker waits for a permit. *)
Inductive WorkerRound := Stopped | Processed (q : QueuedJob) | Waiting.
Definition worker_round (cancelled : bool) (s : AgentState) : WorkerRound * AgentState :=
  if cancelled then (Stopped, s)
  else
    let '(next, queue) := pop_next (st_queue s) in
    let s := set_queue queue s in
    match next with
    | Some q => (Processed q, (process_job q s).2)
    | None => (Waiting, s)
    end.
End worker.
