(* ===== verification/WorkerSpec.v ===== *)
(** * What processing a job emits

    A program logic for the handlers of [Worker.v]: [spec] relates a handler to
    the trace it emits (statuses, remote reports, submissions) and its result,
    and composes along the monad.  The theorems describe the trace of
    [process_job] completely. *)

From S2P Require Import Prelude RustStr F64 NetAddr Externs Toy FileSys PrintTypes Printing.
From S2P Require Import Protocol IpWhitelist Config JobQueue Download Document Office Activity.
From S2P Require Import Sqlite TaskHistory RemoteStore State Worker.
Open Scope string_scope.
Open Scope N_scope.
Open Scope list_scope.

(** ** Traces *)

Record Trace := mkTrace {
  t_statuses : list JobStatus;
  t_reports : list RemoteReportStatus;
  t_calls : list BackendCall
}.
Definition tnil : Trace := mkTrace [] [] [].
Definition tapp (a b : Trace) : Trace :=
  mkTrace (t_statuses a ++ t_statuses b) (t_reports a ++ t_reports b) (t_calls a ++ t_calls b).

Lemma tapp_nil_l t : tapp tnil t = t.
Proof. by destruct t. Qed.
Lemma tapp_nil_r t : tapp t tnil = t.
Proof. destruct t. unfold tapp. simpl. by rewrite !app_nil_r. Qed.
Lemma tapp_assoc a b c : tapp a (tapp b c) = tapp (tapp a b) c.
Proof. unfold tapp. simpl. by rewrite !app_assoc. Qed.

(** What a store is after the operations it was asked for, if there is one. *)
Definition store_ran {S Op} (run : S → list Op → S) (asked : list Op → Prop) (o o' : option S) : Prop :=
  match o with None => o' = None | Some db => ∃ ops, o' = Some (run db ops) ∧ asked ops end.

Lemma store_ran_nil {S Op} (run : S → list Op → S) (asked : list Op → Prop) o :
  (∀ db, run db [] = db) → asked [] → store_ran run asked o o.
Proof. intros Hrun Ha. destruct o as [db|]; [|done]. exists []. by rewrite Hrun. Qed.
Lemma store_ran_app {S Op} (run : S → list Op → S) (asked1 asked2 asked : list Op → Prop) o1 o2 o3 :
  (∀ db ops1 ops2, run db (ops1 ++ ops2) = run (run db ops1) ops2) →
  (∀ ops1 ops2, asked1 ops1 → asked2 ops2 → asked (ops1 ++ ops2)) →
  store_ran run asked1 o1 o2 → store_ran run asked2 o2 o3 → store_ran run asked o1 o3.
Proof.
  intros Hrun Ha. destruct o1 as [db|]; simpl; [|by intros ->].
  intros (ops1&->&H1) (ops2&->&H2). exists (ops1 ++ ops2). rewrite Hrun. auto.
Qed.
Lemma store_ran_conseq {S Op} (run : S → list Op → S) (asked asked' : list Op → Prop) o o' :
  store_ran run asked o o' → (∀ ops, asked ops → asked' ops) → store_ran run asked' o o'.
Proof. intros H Ha. destruct o as [db|]; [|done]. destruct H as (ops&?&?). exists ops. auto. Qed.

Definition apply_history (ops : list HistoryOp) (db : TaskHistoryStore) : TaskHistoryStore :=
  fold_left (λ db op, (history_step db op).2) ops db.

Section emits.
Context `{U : UrlOps, R : !RuntimeEnv}.

(** The entry, the history record and the remote report of one status of [q]; the
    stores are asked between the ticks [a] and [b], and fail as the environment has it
    at that time. *)
Definition entry_of (q : QueuedJob) (e : TaskLogEntry) : Prop :=
  tl_job_id e = Some (qj_id q) ∧ tl_request_id e = Some (qj_request_id q) ∧
  tl_batch_id e = qj_batch_id q.
Definition history_op (q : QueuedJob) (a b : nat) (e : TaskLogEntry) (op : HistoryOp) : Prop :=
  ∃ n printer paper copies, (a ≤ n < b)%nat ∧ tl_timestamp e = env_now n ∧
    op = HRecord (env_db_poisoned n) (env_db_fault n)
           (mkNewTaskHistoryEvent (qj_id q) (Some (qj_request_id q)) (qj_batch_id q)
              (task_history_source q) (task_history_status (tl_status e))
              (non_empty_message (tl_message e)) printer paper copies (tl_timestamp e)).
Definition report_op (q : QueuedJob) (a b : nat) (status : RemoteReportStatus) (op : RemoteOp) : Prop :=
  ∃ n message, (a ≤ n < b)%nat ∧
    op = RInsert (env_db_fault n) (env_uuid n)
           (mkNewRemoteStatusEvent (qj_id q) (qj_request_id q) (qj_batch_id q) status message
              (env_now n) (env_now n)).
Lemma history_op_mono q a b a' b' e op :
  (a' ≤ a)%nat → (b ≤ b')%nat → history_op q a b e op → history_op q a' b' e op.
Proof. intros Ha Hb (n&p&k&c&?&?). exists n, p, k, c. split; [lia|done]. Qed.
Lemma report_op_mono q a b a' b' status op :
  (a' ≤ a)%nat → (b ≤ b')%nat → report_op q a b status op → report_op q a' b' status op.
Proof. intros Ha Hb (n&m&?&?). exists n, m. split; [lia|done]. Qed.

(** [emits q s s' t]: between the two states exactly [t] was recorded for [q],
    in the log, the broadcast channel, the history and the remote reports, and
    nothing else of the shared state but the files and the clock moved.  The history
    store, if there is one, is what recording each entry sent makes of it; the remote
    store is what inserting each report makes of it. *)
Record emits (q : QueuedJob) (s s' : AgentState) (t : Trace) : Prop := {
  em_sent : ∃ es, st_sent s' = st_sent s ++ es ∧
    st_logs s' = fold_left log_push es (st_logs s) ∧
    map tl_status es = t_statuses t ∧ Forall (entry_of q) es ∧
    store_ran (λ db ops, apply_history ops db)
      (λ ops, Forall2 (history_op q (st_tick s) (st_tick s')) es ops)
      (st_task_history s) (st_task_history s');
  em_remote : store_ran remote_run
    (λ ops, Forall2 (report_op q (st_tick s) (st_tick s')) (t_reports t) ops)
    (st_remote_store s) (st_remote_store s');
  em_calls : st_calls s' = st_calls s ++ t_calls t;
  em_queue : st_queue s' = st_queue s;
  em_config : st_config s' = st_config s;
  em_permit : st_permit s' = st_permit s;
  em_tick : (st_tick s ≤ st_tick s')%nat
}.

Lemma emits_nil q s s' :
  st_sent s' = st_sent s → st_logs s' = st_logs s → st_task_history s' = st_task_history s →
  st_remote_store s' = st_remote_store s → st_calls s' = st_calls s →
  st_queue s' = st_queue s → st_config s' = st_config s → st_permit s' = st_permit s →
  (st_tick s ≤ st_tick s')%nat → emits q s s' tnil.
Proof.
  intros H1 H2 H3 H4 H5 H6 H7 H8 H9. split; simpl; [..|done|done|done|done].
  - exists []. rewrite app_nil_r, H3. split_and!; try done. by apply store_ran_nil.
  - rewrite H4. by apply store_ran_nil.
  - by rewrite app_nil_r.
Qed.

Lemma emits_app q s1 s2 s3 t1 t2 :
  emits q s1 s2 t1 → emits q s2 s3 t2 → emits q s1 s3 (tapp t1 t2).
Proof.
  intros [(es1&A1&A2&A3&A4&B1) C1 D1 E1 F1 G1 T1] [(es2&A5&A6&A7&A8&B2) C2 D2 E2 F2 G2 T2].
  split; simpl; [..|congruence|congruence|congruence|lia].
  - exists (es1 ++ es2). rewrite A5, A1, A6, A2, <-app_assoc, fold_left_app, map_app, A3, A7.
    split_and!; try done; [by apply Forall_app|].
    eapply store_ran_app; [| |exact B1|exact B2].
    + intros db ops1 ops2. unfold apply_history. by rewrite fold_left_app.
    + intros ops1 ops2 H1 H2. apply Forall2_app; (eapply Forall2_impl; [eassumption|]);
        intros e op; apply history_op_mono; lia.
  - eapply store_ran_app; [| |exact C1|exact C2].
    + intros db ops1 ops2. unfold remote_run. by rewrite fold_left_app.
    + intros ops1 ops2 H1 H2. apply Forall2_app; (eapply Forall2_impl; [eassumption|]);
        intros e op; apply report_op_mono; lia.
  - by rewrite D2, D1, app_assoc.
Qed.
End emits.

(** ** The logic *)

Section logic.
Context `{U : UrlOps, HT : !HttpOps, B : Base64Ops, IM : !ImageOps, ZI : !ZipOps, R : !RuntimeEnv}.
Context (cfg : AgentConfig) (q : QueuedJob).

Definition spec {E A} (m : Handler E A) (P : Trace → result E A → Prop) : Prop :=
  ∀ s, st_config s = cfg → ∃ t, emits q s (m s).2 t ∧ P t (m s).1.

Lemma spec_conseq {E A} (m : Handler E A) (P Q : Trace → result E A → Prop) :
  spec m P → (∀ t r, P t r → Q t r) → spec m Q.
Proof. intros Hm HPQ s Hs. destruct (Hm s Hs) as (t&?&?). eauto. Qed.

Lemma spec_bind {E A A'} (m : Handler E A) (k : A → Handler E A')
    (P : Trace → result E A → Prop) (Q : Trace → result E A' → Prop) :
  spec m P →
  (∀ a t, P t (Ok a) → spec (k a) (λ t' r, Q (tapp t t') r)) →
  (∀ e t, P t (Err e) → Q t (Err e)) →
  spec (m ≫= k) Q.
Proof.
  intros Hm Hk He s Hs. rewrite M_bind_eq. destruct (Hm s Hs) as (t&Ht&HP).
  destruct (m s) as [[a|e] s1]; simpl in *; [|by eauto].
  destruct (Hk a t HP s1) as (t'&Ht'&HQ); [by rewrite (em_config _ _ _ _ Ht)|].
  exists (tapp t t'). split; [by eapply emits_app|done].
Qed.

(** Steps that emit nothing. *)
Lemma spec_silent {E A} (m : Handler E A) (P : Trace → result E A → Prop) :
  (∀ s, st_config s = cfg → P tnil (m s).1) →
  (∀ s, st_sent (m s).2 = st_sent s ∧ st_logs (m s).2 = st_logs s ∧
        st_task_history (m s).2 = st_task_history s ∧
        st_remote_store (m s).2 = st_remote_store s ∧ st_calls (m s).2 = st_calls s ∧
        st_queue (m s).2 = st_queue s ∧ st_config (m s).2 = st_config s ∧
        st_permit (m s).2 = st_permit s ∧ (st_tick s ≤ st_tick (m s).2)%nat) →
  spec m P.
Proof.
  intros HP Hs s Hc. exists tnil. split; [|by apply HP].
  destruct (Hs s) as (?&?&?&?&?&?&?&?&?). by apply emits_nil.
Qed.

Lemma spec_lift {E A} (r : result E A) P : P tnil r → spec (lift r) P.
Proof. intros H. by apply spec_silent. Qed.
Lemma spec_ret {E A} (a : A) (P : Trace → result E A → Prop) : P tnil (Ok a) → spec (mret a) P.
Proof. intros H. by apply spec_silent. Qed.
Lemma spec_raise {E A} (e : E) (P : Trace → result E A → Prop) :
  P tnil (Err e) → spec (raise e) P.
Proof. intros H. by apply spec_silent. Qed.
Lemma spec_gets {E A} (f : AgentState → A) (P : Trace → result E A → Prop) :
  (∀ s, st_config s = cfg → P tnil (Ok (f s))) → spec (gets f) P.
Proof. intros H. by apply spec_silent. Qed.
Lemma spec_tick {E} (P : Trace → result E nat → Prop) :
  (∀ n, P tnil (Ok n)) → spec tick P.
Proof. intros H. apply spec_silent; [intros s _; apply H|]. intros s. split_and!; simpl; done || lia. Qed.
Lemma spec_on_fs {E A} (m : M Fs E A) (P : Trace → result E A → Prop) :
  (∀ fs r fs', m fs = (r, fs') → P tnil r) → spec (on_fs m) P.
Proof.
  intros H. apply spec_silent; intros s; unfold on_fs, zoom;
    destruct (m (st_fs s)) as [r fs'] eqn:Hm; [|done]. intros _. by eapply H.
Qed.
Lemma spec_attempt {E E' A} (m : Handler E' A) (P : Trace → result E (result E' A) → Prop) :
  spec m (λ t r, P t (Ok r)) → spec (attempt m) P.
Proof.
  intros Hm s Hs. destruct (Hm s Hs) as (t&?&?). exists t. unfold attempt.
  by destruct (m s).
Qed.
Lemma spec_call {E} (c : BackendCall) (P : Trace → result E unit → Prop) :
  P (mkTrace [] [] [c]) (Ok tt) → spec (modify (add_call c)) P.
Proof.
  intros HP s Hs. exists (mkTrace [] [] [c]). split; [|done].
  destruct (emits_nil q s s) as [H1 H2 _ _ _ _ _]; try done.
Qed.

(** The reports a status gives rise to. *)
Definition reports_of (enqueue_remote : bool) (status : JobStatus) : list RemoteReportStatus :=
  if enqueue_remote && qj_remote q
  then option_list (remote_status_for_job_status status) else [].

Lemma enqueue_remote_emits {E} status message s :
  ∃ s', enqueue_remote_status_event (E := E) q status message s = (Ok tt, s') ∧
    st_sent s' = st_sent s ∧ st_logs s' = st_logs s ∧
    st_task_history s' = st_task_history s ∧ st_calls s' = st_calls s ∧
    st_queue s' = st_queue s ∧ st_config s' = st_config s ∧ st_permit s' = st_permit s ∧
    (st_tick s ≤ st_tick s')%nat ∧
    store_ran remote_run
      (λ ops, Forall2 (report_op q (st_tick s) (st_tick s')) (reports_of true status) ops)
      (st_remote_store s) (st_remote_store s').
Proof.
  unfold enqueue_remote_status_event, reports_of. destruct (qj_remote q); simpl.
  2:{ eexists. split_and!; [done..|by apply store_ran_nil]. }
  destruct (remote_status_for_job_status status) as [rs|]; simpl.
  2:{ eexists. split_and!; [done..|by apply store_ran_nil]. }
  rewrite M_bind_eq. unfold gets at 1.
  destruct (st_remote_store s) as [db|] eqn:Hdb.
  2:{ eexists. split_and!; [done..|]. exact Hdb. }
  rewrite M_bind_eq. cbn [tick].
  destruct (insert_status_event (env_db_fault (st_tick s)) (env_uuid (st_tick s)) _ db) as [r db'] eqn:Hi.
  eexists. split_and!; [done..|simpl; lia|]. cbn.
  eexists [RInsert _ _ _]. split; [by simpl; rewrite Hi|].
  constructor; [|constructor]. eexists (st_tick s), _. split; [lia|done].
Qed.

Lemma record_history_emits {E} n ev s :
  ∃ s', record_task_history (E := E) n ev s = (Ok tt, s') ∧
    st_sent s' = st_sent s ∧ st_logs s' = st_logs s ∧
    store_ran (λ db ops, apply_history ops db)
      (λ ops, ops = [HRecord (env_db_poisoned n) (env_db_fault n) ev])
      (st_task_history s) (st_task_history s') ∧
    st_remote_store s' = st_remote_store s ∧ st_calls s' = st_calls s ∧
    st_queue s' = st_queue s ∧ st_config s' = st_config s ∧ st_permit s' = st_permit s ∧
    st_tick s' = st_tick s.
Proof.
  unfold record_task_history. rewrite M_bind_eq. unfold gets at 1.
  destruct (st_task_history s) as [h|] eqn:Hh.
  - destruct (record_event (env_db_poisoned n) (env_db_fault n) ev h) as [r h'] eqn:Hr.
    eexists. split; [done|]. split_and!; try done.
    eexists. split; [|done]. simpl. by rewrite Hr.
  - eexists. split; [done|]. split_and!; done.
Qed.

Lemma spec_push {E} status message metadata remote (P : Trace → result E unit → Prop) :
  P (mkTrace [status] (reports_of remote status) []) (Ok tt) →
  spec (push_log_with_print_metadata_and_remote q status message metadata remote) P.
Proof.
  intros HP s Hs. exists (mkTrace [status] (reports_of remote status) []).
  destruct (push_log_with_print_metadata_and_remote q status message metadata remote s)
    as [r s'] eqn:Hm.
  unfold push_log_with_print_metadata_and_remote in Hm.
  rewrite M_bind_eq in Hm. unfold tick at 1 in Hm. cbv zeta in Hm. simpl tl_timestamp in Hm.
  set (n := st_tick s) in Hm. set (entry := mkTaskLogEntry _ _ _ _ _ _ _) in Hm.
  rewrite M_bind_eq in Hm. unfold modify at 1 in Hm. rewrite M_bind_eq in Hm.
  unfold broadcast_status, modify at 1 in Hm.
  rewrite M_bind_eq in Hm. set (s1 := set_sent _ _) in Hm.
  set (ev := history_event _ _ _ _ _) in Hm.
  destruct (record_history_emits (E := E) n ev s1) as (s2&Hrec&A1&A2&A3&A4&A5&A6&A7&A8&A9).
  rewrite Hrec in Hm. clear Hrec.
  assert (entry_of q entry) as Hentry by done.
  assert (∃ s3, (when remote (enqueue_remote_status_event q status message) : Handler E unit) s2
      = (Ok tt, s3) ∧
    st_sent s3 = st_sent s2 ∧ st_logs s3 = st_logs s2 ∧
    st_task_history s3 = st_task_history s2 ∧ st_calls s3 = st_calls s2 ∧
    st_queue s3 = st_queue s2 ∧ st_config s3 = st_config s2 ∧ st_permit s3 = st_permit s2 ∧
    (st_tick s2 ≤ st_tick s3)%nat ∧
    store_ran remote_run
      (λ ops, Forall2 (report_op q (st_tick s2) (st_tick s3)) (reports_of remote status) ops)
      (st_remote_store s2) (st_remote_store s3)) as (s3&Hen&B1&B2&B3&B4&B5&B6&B8&B9&B7).
  { destruct remote; [apply enqueue_remote_emits|]. eexists. split_and!; [done..|by apply store_ran_nil]. }
  assert (st_tick s2 = S n) as Hn by by rewrite A9.
  rewrite Hen in Hm. injection Hm as <- <-. split; [|exact HP].
  split; cbn [fst snd t_statuses t_reports t_calls]; [..|fold n; lia].
  - exists [entry]. rewrite B1, B2, A1, A2. split_and!; try done; [by constructor|].
    rewrite B3. eapply store_ran_conseq; [exact A3|]. intros ops ->. constructor; [|constructor].
    eexists n, _, _, _. split; [fold n; lia|]. done.
  - change (st_remote_store s) with (st_remote_store s1). rewrite <-A4.
    eapply store_ran_conseq; [exact B7|]. intros ops Hops. eapply Forall2_impl; [exact Hops|].
    intros x op. apply report_op_mono; [fold n; lia|done].
  - by rewrite B4, A5, app_nil_r.
  - by rewrite B5, A6.
  - by rewrite B6, A7.
  - by rewrite B8, A8.
Qed.

(** ** The trace of a job *)

Definition call_result (c : BackendCall) : PrintResult PrintSubmission :=
  match c with CallPdf _ _ _ r => r | CallRaw _ _ r => r end.

(** A submission asks for what the job and the configuration say. *)
Definition call_ok (c : BackendCall) : Prop :=
  match c with
  | CallPdf _ _ o _ => resolve_print_options q cfg = Ok o ∧ ji_format (qj_job q) ≠ Raw
  | CallRaw data o _ =>
      resolve_raw_print_options q cfg = Ok o ∧ ji_format (qj_job q) = Raw ∧
      (∃ b64, ji_data_base64 (qj_job q) = Some b64 ∧ b64_decode b64 = Some data) ∧
      str_len data ≤ saturating_mul_u64 (lc_max_file_size_mb (cfg_limits cfg)) mib
  end.

Definition before_submit (x : JobStatus) : Prop := x = Downloading ∨ x = Printing.
Definition tracked (x : JobStatus) : Prop := x = Completed ∨ x = Failed ∨ x = Unknown.
Definition reports (l : list RemoteReportStatus) : list RemoteReportStatus :=
  if qj_remote q then l else [].

(** A successful run submitted once, said so, and reported success; the status
    of the tracking, when the platform tracks, comes last. *)
Definition submitted_trace (t : Trace) : Prop :=
  ∃ mid tail c sub, t_statuses t = mid ++ Submitted :: tail ∧ Forall before_submit mid ∧
    t_calls t = [c] ∧ call_ok c ∧ call_result c = Ok sub ∧
    t_reports t = reports [Success] ∧
    if su_tracking_supported sub then ∃ x, tail = [x] ∧ tracked x else tail = [].
(** A failed run submitted nothing, or one job that the backend refused. *)
Definition failed_trace (t : Trace) (e : ProcessJobError) : Prop :=
  Forall before_submit (t_statuses t) ∧ t_reports t = [] ∧
  (t_calls t = [] ∨
   ∃ c e', t_calls t = [c] ∧ call_ok c ∧ call_result c = Err e' ∧ e = PPrint e').
Definition job_trace (t : Trace) (r : result ProcessJobError unit) : Prop :=
  match r with Ok _ => submitted_trace t | Err e => failed_trace t e end.

(** Statuses before the submission do not change the kind of a trace. *)
Lemma job_trace_prepend mid t r :
  Forall before_submit mid → job_trace t r → job_trace (tapp (mkTrace mid [] []) t) r.
Proof.
  intros Hm. destruct r as [[]|e]; simpl.
  - intros (mid'&tail&c&sub&Hs&Hf&Hc&Hok&Hr&Hrep&Ht). exists (mid ++ mid'), tail, c, sub.
    simpl. rewrite Hs, app_assoc. split_and!; try done. by apply Forall_app.
  - intros (Hs&Hr&Hc). split_and!; simpl; [by apply Forall_app|done|done].
Qed.

Lemma failed_nil e : failed_trace tnil e.
Proof. split_and!; [constructor|done|by left]. Qed.

Lemma reports_of_before remote x : before_submit x → reports_of remote x = [].
Proof. unfold reports_of. intros [->| ->]; by destruct (remote && qj_remote q). Qed.
Lemma reports_of_submitted : reports_of true Submitted = reports [Success].
Proof. unfold reports_of, reports. simpl. by destruct (qj_remote q). Qed.

(** A failing step emits nothing. *)
Lemma spec_lift_job {A} (r : result ProcessJobError A) (Q : A → Prop) :
  (∀ a, r = Ok a → Q a) →
  spec (lift r) (λ t r, t = tnil ∧ match r with Ok a => Q a | Err _ => True end).
Proof. intros H. apply spec_lift. split; [done|]. destruct r; auto. Qed.

(** The continuation of a silent step. *)
Lemma spec_after {A} (m : Handler ProcessJobError A) (Q : A → Prop)
    (k : A → Handler ProcessJobError unit) :
  spec m (λ t r, t = tnil ∧ match r with Ok a => Q a | Err _ => True end) →
  (∀ a, Q a → spec (k a) job_trace) →
  spec (m ≫= k) job_trace.
Proof.
  intros Hm Hk. eapply spec_bind; [exact Hm|..]; simpl.
  - intros a t [-> Ha]. eapply spec_conseq; [by apply Hk|]. intros t r. by rewrite tapp_nil_l.
  - intros e t [-> _]. apply failed_nil.
Qed.

(** The continuation of a status before the submission. *)
Lemma spec_after_status status message metadata remote
    (k : unit → Handler ProcessJobError unit) :
  before_submit status →
  (∀ u, spec (k u) job_trace) →
  spec (push_log_with_print_metadata_and_remote q status message metadata remote ≫= k) job_trace.
Proof.
  intros Hb Hk. eapply spec_bind.
  - apply (spec_push _ _ _ _ (λ t r, t = mkTrace [status] [] [] ∧ r = Ok tt)).
    by rewrite reports_of_before.
  - intros u t [-> _]. eapply spec_conseq; [apply Hk|]. intros t r.
    apply job_trace_prepend. by constructor.
  - by intros e t [_ [=]].
Qed.

(** A clean-up after a part whose result is handed on. *)
Lemma spec_then_cleanup {A} (m : Handler ProcessJobError unit) (c : Handler ProcessJobError A) :
  spec m job_trace → spec c (λ t r, t = tnil ∧ is_ok r = true) →
  spec (result ← attempt m; _ ← c; lift result) job_trace.
Proof.
  intros Hm Hc.
  eapply (spec_bind _ _ (λ t r, ∃ r', r = Ok r' ∧ job_trace t r')).
  - apply spec_attempt. eapply spec_conseq; [exact Hm|]. intros t r H. by exists r.
  - intros r t (?&[= <-]&Ht).
    eapply (spec_bind _ _ (λ t' r', t' = tnil ∧ is_ok r' = true)); [exact Hc|..].
    + intros a t' [-> _]. apply spec_lift. by rewrite !tapp_nil_r.
    + intros e t' [_ [=]].
  - by intros e t (?&[=]&_).
Qed.

Lemma spec_cleanup_file path :
  spec (cleanup_file (E := ProcessJobError) path) (λ t r, t = tnil ∧ is_ok r = true).
Proof.
  apply spec_on_fs. intros fs r fs' H. split; [done|].
  destruct (fs_remove_quietly_spec (E := ProcessJobError) path fs) as (?&Hq&_).
  rewrite Hq in H. by injection H as <- _.
Qed.

Lemma spec_when_cleanup b path :
  spec (when b (cleanup_file (E := ProcessJobError) path)) (λ t r, t = tnil ∧ is_ok r = true).
Proof. destruct b; [apply spec_cleanup_file|by apply spec_ret]. Qed.

(** The submission itself, shared by PDF and raw jobs: the call, the status and
    whatever follows it. *)
Lemma spec_submission (c : BackendCall) message metadata
    (k : PrintSubmission → Handler ProcessJobError unit) :
  call_ok c →
  (∀ sub, call_result c = Ok sub →
    spec (k sub) (λ t r, t_calls t = [] ∧ t_reports t = [] ∧ r = Ok tt ∧
      if su_tracking_supported sub then ∃ x, t_statuses t = [x] ∧ tracked x
      else t_statuses t = [])) →
  spec (_ ← modify (add_call c);
        sub ← lift (map_err PPrint (call_result c));
        _ ← push_log_with_print_metadata_and_remote q Submitted message metadata true;
        k sub) job_trace.
Proof.
  intros Hc Hk.
  eapply (spec_bind _ _ (λ t r, t = mkTrace [] [] [c] ∧ r = Ok tt)); [by apply spec_call|..];
    [|by intros e t [_ [=]]].
  intros [] t [-> _].
  eapply (spec_bind _ _ (λ t r, t = tnil ∧ r = map_err PPrint (call_result c)));
    [by apply spec_lift|..].
  - intros sub t [-> Hr]. symmetry in Hr. apply map_err_ok in Hr.
    eapply (spec_bind _ _ (λ t r, t = mkTrace [Submitted] (reports [Success]) [] ∧ r = Ok tt)).
    { apply spec_push. by rewrite reports_of_submitted. }
    + intros [] t [-> _]. eapply spec_conseq; [by apply Hk|].
      intros t r (H1&H2&->&H3). simpl.
      exists [], (t_statuses t), c, sub. simpl. rewrite H1, H2, app_nil_r.
      split_and!; try done.
    + by intros e t [_ [=]].
  - intros e t [-> Hr]. simpl. split_and!; simpl; [constructor|done|]. right.
    destruct (call_result c) as [|e'] eqn:He; simpl in Hr; [done|]. injection Hr as ->.
    by exists c, e'.
Qed.

(** Tracking ends with one status that is not reported. *)
Lemma spec_tracking (n_track : nat → JobStatus * string) metadata (supported : bool) :
  (∀ n, tracked (n_track n).1) →
  spec (if negb supported then mret tt
        else n ← tick;
             let '(status, message) := n_track n in
             push_log_with_print_metadata_and_remote q status message metadata false
        : Handler ProcessJobError unit)
    (λ t r, t_calls t = [] ∧ t_reports t = [] ∧ r = Ok tt ∧
      if supported then ∃ x, t_statuses t = [x] ∧ tracked x else t_statuses t = []).
Proof.
  intros Ht. destruct supported; simpl; [|by apply spec_ret].
  eapply (spec_bind _ _ (λ t r, t = tnil ∧ is_ok r = true)); [by apply spec_tick|..].
  - intros n t [-> _]. specialize (Ht n). destruct (n_track n) as [status message].
    apply spec_push. split_and!; try done. by exists status.
  - by intros e t [_ [=]].
Qed.

Lemma tracking_status_tracked o : tracked (tracking_status o).1.
Proof. destruct o; unfold tracked; simpl; tauto. Qed.

(** ** The handlers *)

(** A step that succeeds or fails without emitting anything. *)
Lemma spec_after_tick (k : nat → Handler ProcessJobError unit) :
  (∀ n, spec (k n) job_trace) → spec (tick ≫= k) job_trace.
Proof.
  intros Hk. apply (spec_after _ (λ _, True)); [by apply spec_tick|]. intros n _. apply Hk.
Qed.
Lemma spec_after_lift {A} (r : result ProcessJobError A)
    (k : A → Handler ProcessJobError unit) :
  (∀ a, r = Ok a → spec (k a) job_trace) → spec (lift r ≫= k) job_trace.
Proof. intros Hk. apply (spec_after _ (λ a, r = Ok a)); [by apply spec_lift_job|]. exact Hk. Qed.
Lemma spec_after_fs {A} (m : M Fs ProcessJobError A)
    (k : A → Handler ProcessJobError unit) :
  (∀ a, spec (k a) job_trace) → spec (on_fs m ≫= k) job_trace.
Proof.
  intros Hk. apply (spec_after _ (λ _, True)); [|intros a _; apply Hk].
  apply spec_on_fs. intros fs [] fs' _; done.
Qed.
Lemma spec_fail e : spec (raise e : Handler ProcessJobError unit) job_trace.
Proof. apply spec_raise. apply failed_nil. Qed.

Lemma spec_submit_pdf options path :
  resolve_print_options q cfg = Ok options → ji_format (qj_job q) ≠ Raw →
  spec (submit_pdf_and_track q options path) job_trace.
Proof.
  intros Ho Hf. unfold submit_pdf_and_track, push_log_with_metadata.
  apply spec_after_status; [by right|]. intros _.
  apply spec_after_tick. intros n.
  apply (spec_after _ (λ _, True)); [by apply spec_gets|]. intros content _.
  apply (spec_submission (CallPdf path content options (print_pdf (env_backend n) path options)));
    [by split|].
  intros sub _. apply (spec_tracking (λ n, tracking_status _)).
  intros m. apply tracking_status_tracked.
Qed.

Lemma spec_print_raw options :
  resolve_raw_print_options q cfg = Ok options → ji_format (qj_job q) = Raw →
  spec (print_raw_job q options cfg) job_trace.
Proof.
  intros Ho Hf. unfold print_raw_job. cbv zeta.
  apply spec_after_lift. intros b64 Hb%ok_or_ok.
  apply spec_after_lift. intros data Hd%ok_or_ok.
  destruct (_ <? _) eqn:Hsz; [apply spec_fail|]. apply N.ltb_ge in Hsz.
  apply spec_after_status; [by right|]. intros _.
  apply spec_after_tick. intros n.
  apply (spec_submission (CallRaw data options (print_raw (env_backend n) data options))).
  - split_and!; try done. by exists b64.
  - intros sub _. apply (spec_tracking (λ n, tracking_status _)).
    intros m. apply tracking_status_tracked.
Qed.

Lemma spec_print_html options :
  resolve_print_options q cfg = Ok options → ji_format (qj_job q) ≠ Raw →
  spec (print_html_job q options) job_trace.
Proof.
  intros Ho Hf. unfold print_html_job.
  apply spec_after_lift. intros source _. apply spec_after_tick. intros n. cbv zeta.
  apply (spec_after _ (λ _, True)).
  { apply spec_attempt, spec_on_fs. by intros. }
  intros [rendered|error] _.
  - apply spec_after_status; [by right|]. intros _.
    eapply (spec_bind _ _ (λ t r, ∃ r', r = Ok r' ∧ job_trace t r')).
    + apply spec_attempt. eapply spec_conseq; [by apply spec_submit_pdf|]. eauto.
    + intros r t (?&[= <-]&Ht).
      eapply spec_bind; [apply spec_cleanup_file|..]; simpl; [|by intros ? ? [_ [=]]].
      intros [] t' [-> _].
      eapply spec_bind; [apply spec_when_cleanup|..]; simpl; [|by intros ? ? [_ [=]]].
      intros [] t' [-> _]. apply spec_lift. by rewrite !tapp_nil_r.
    + by intros e t (?&[=]&_).
  - eapply spec_bind; [apply spec_cleanup_file|..]; simpl; [|by intros ? ? [_ [=]]].
    intros [] t [-> _]. apply spec_raise. apply failed_nil.
Qed.

Lemma spec_print_downloaded options path :
  resolve_print_options q cfg = Ok options → ji_format (qj_job q) ≠ Raw →
  spec (print_downloaded_file q options path) job_trace.
Proof.
  intros Ho Hf. unfold print_downloaded_file.
  apply spec_after_tick. intros n. apply spec_after_fs. intros printable.
  assert (spec (result ← attempt (submit_pdf_and_track q options (pp_path printable));
    _ ← when (negb (bool_decide (pp_path printable = path))) (cleanup_file (pp_path printable));
    lift result) job_trace) as Hrest.
  { apply spec_then_cleanup; [by apply spec_submit_pdf|apply spec_when_cleanup]. }
  destruct (pp_office_converter printable) as [converter|].
  - apply spec_after_status; [by right|]. by intros _.
  - apply (spec_after _ (λ _, True)); [by apply spec_ret|]. by intros _ _.
Qed.

Lemma spec_process_job_inner : spec (process_job_inner q) job_trace.
Proof.
  unfold process_job_inner. apply (spec_after _ (λ c, c = cfg)); [by apply spec_gets|].
  intros config ->.
  assert (ji_format (qj_job q) ≠ Raw →
    spec (_ ← push_log q Downloading "downloading";
      file_url ← lift (ok_or (InvalidMessage_ "file job requires file_url")
                         (ji_file_url (qj_job q)));
      options ← lift (resolve_print_options q cfg);
      n ← tick;
      downloaded_path ← on_fs (mapping_err PDownload
        (download_to_temp env_temp_dir (env_millis n) (env_uuid n) file_url (cfg_limits cfg)));
      result ← attempt (print_downloaded_file q options downloaded_path);
      _ ← cleanup_file downloaded_path;
      lift result) job_trace) as Hfile.
  { intros Hf. apply spec_after_status; [by left|]. intros _.
    apply spec_after_lift. intros url _. apply spec_after_lift. intros options Ho.
    apply spec_after_tick. intros n. apply spec_after_fs. intros path.
    apply spec_then_cleanup; [by apply spec_print_downloaded|apply spec_cleanup_file]. }
  destruct (ji_format (qj_job q)) eqn:Hf; try (by apply Hfile);
    apply spec_after_lift; intros options Ho.
  - apply spec_print_raw; done.
  - apply spec_print_html; [done|by rewrite Hf].
  - apply spec_print_html; [done|by rewrite Hf].
Qed.

(** ** A whole job *)

(** What the log, the history and the server are told about a job that was
    submitted, and about one that was not. *)
Definition printed_trace (t : Trace) : Prop :=
  ∃ mid tail c sub, t_statuses t = Queued :: mid ++ Submitted :: tail ∧
    Forall before_submit mid ∧ t_calls t = [c] ∧ call_ok c ∧ call_result c = Ok sub ∧
    t_reports t = reports [Accepted; Success] ∧
    if su_tracking_supported sub then ∃ x, tail = [x] ∧ tracked x else tail = [].
Definition refused_trace (t : Trace) : Prop :=
  ∃ mid, t_statuses t = Queued :: mid ++ [Failed] ∧ Forall before_submit mid ∧
    t_reports t = reports [Accepted; RFailed] ∧
    (t_calls t = [] ∨ ∃ c e, t_calls t = [c] ∧ call_ok c ∧ call_result c = Err e).

Lemma reports_of_final :
  reports_of true Queued = reports [Accepted] ∧ reports_of true Failed = reports [RFailed].
Proof. unfold reports_of, reports. simpl. by destruct (qj_remote q). Qed.
Lemma reports_app l k : reports l ++ reports k = reports (l ++ k).
Proof. unfold reports. by destruct (qj_remote q). Qed.

Lemma spec_process_job :
  spec (process_job q) (λ t r, r = Ok tt ∧ (printed_trace t ∨ refused_trace t)).
Proof.
  destruct reports_of_final as [Hq Hf].
  unfold process_job, push_log, push_log_with_metadata.
  eapply (spec_bind _ _ (λ t r, t = mkTrace [Queued] (reports [Accepted]) [] ∧ r = Ok tt)).
  { apply spec_push. by rewrite Hq. }
  2:{ by intros e t [_ [=]]. }
  intros [] t0 [-> _].
  eapply (spec_bind _ _ (λ t r, ∃ r', r = Ok r' ∧ job_trace t r')).
  { apply spec_attempt. eapply spec_conseq; [apply spec_process_job_inner|]. eauto. }
  2:{ by intros e t (?&[=]&_). }
  intros r t (?&[= <-]&Ht). destruct r as [[]|error].
  - apply spec_ret. split; [done|]. left. destruct Ht as (mid&tail&c&sub&H1&H2&H3&H4&H5&H6&H7).
    exists mid, tail, c, sub. simpl. rewrite !app_nil_r, H1, H3, H6, reports_app.
    split_and!; done.
  - apply spec_push. split; [done|]. right. destruct Ht as (H1&H2&H3).
    exists (t_statuses t). simpl. rewrite H2, Hf, app_nil_r.
    rewrite (app_nil_l (reports [RFailed])), reports_app. 
    destruct H3 as [->|(c&e'&->&?&?&_)]; split_and!; eauto 10.
Qed.

(** A submission is within the limits, and to a printer and on a paper that the
    job or the configuration names. *)
Definition submission_within (c : BackendCall) : Prop :=
  let printer := opt_or (ji_printer_name (qj_job q)) (pc_default_printer (cfg_printing cfg)) in
  match c with
  | CallPdf _ _ o _ =>
      printer = Some (po_printer_name o) ∧
      (∃ paper, opt_or (ji_paper (qj_job q)) (pc_default_paper (cfg_printing cfg)) = Some paper ∧
        pa_width_mm (po_paper o) = ep_width_mm paper ∧
        pa_height_mm (po_paper o) = ep_height_mm paper) ∧
      po_copies o = default 1 (ji_copies (qj_job q)) ∧
      1 ≤ po_copies o ≤ lc_max_copies (cfg_limits cfg)
  | CallRaw data o _ =>
      printer = Some (ro_printer_name o) ∧
      (∃ b64, ji_data_base64 (qj_job q) = Some b64 ∧ b64_decode b64 = Some data) ∧
      str_len data ≤ saturating_mul_u64 (lc_max_file_size_mb (cfg_limits cfg)) mib
  end.

Lemma call_ok_within c : call_ok c → submission_within c.
Proof.
  destruct c as [path content o r|data o r]; simpl.
  - unfold resolve_print_options, resolve_file_print_options, resolve_printer_name.
    intros [Ho _]. apply result_bind_ok in Ho as (p&Hp%ok_or_ok&Ho).
    apply result_bind_ok in Ho as (paper&Hpaper%ok_or_ok&Ho).
    destruct ((_ =? 0) || _) eqn:Hc; [done|]. injection Ho as <-. simpl.
    apply orb_false_iff in Hc as [H0%N.eqb_neq H1%N.ltb_ge].
    split_and!; try done; [by exists paper|unfold unwrap_or in *; lia].
  - unfold resolve_raw_print_options, resolve_printer_name.
    intros (Ho&_&Hd&Hsz). apply result_bind_ok in Ho as (p&Hp%ok_or_ok&Ho).
    injection Ho as <-. done.
Qed.
End logic.

Section process.
Context `{U : UrlOps, HT : !HttpOps, B : Base64Ops, IM : !ImageOps, ZI : !ZipOps, R : !RuntimeEnv}.


Lemma submissions_within (q : QueuedJob) (s : AgentState) :
  ∃ calls, st_calls (process_job q s).2 = st_calls s ++ calls ∧ (length calls ≤ 1)%nat ∧
    Forall (submission_within (st_config s) q) calls.
Proof.
  destruct (spec_process_job (st_config s) q s eq_refl) as (t&Ht&_&Hk).
  exists (t_calls t). split; [by apply (em_calls _ _ _ _ Ht)|].
  destruct Hk as [(mid&tail&c&sub&_&_&->&Hc&_)|(mid&_&_&_&[->|(c&e&->&Hc&_)])]; simpl;
    (split; [lia|]); try constructor; try (by apply call_ok_within); constructor.
Qed.

(** C3: What reaches the print queue is within the limits: every call made while
    processing a job goes to the printer the job names or the default one, a
    document has the job's paper or the default one and between 1 and
    [max_copies] copies (the job's number, 1 when it gives none), raw data is
    the decoding of the job's [data_base64] and not longer than
    [max_file_size_mb]. *)
Theorem process_job_submissions (q : QueuedJob) (s : AgentState) :
  ∃ calls, st_calls (process_job q s).2 = st_calls s ++ calls ∧ (length calls ≤ 1)%nat ∧
    Forall (submission_within (st_config s) q) calls.
Proof. apply submissions_within. Qed.
End process.
