(* ===== verification/Server.v ===== *)
(** * The WebSocket server ([crates/runtime/src/server.rs])

    The address the service binds, the two access checks in front of the
    protocol, the answer to one client text on every branch, and a connection as
    a step function over what it receives: frames of its client and status
    entries of the broadcast channel.

    A handler reads the configuration and locks the queue in separate steps of
    the asynchronous runtime; it is modelled as one step. *)

From S2P Require Import Prelude RustStr F64 NetAddr Externs Toy FileSys PrintTypes Protocol.
From S2P Require Import IpWhitelist Config JobQueue Document Office Activity Sqlite TaskHistory.
From S2P Require Import RemoteStore State.
From Stdlib Require Import Ascii.
Open Scope string_scope.
Open Scope N_scope.
Open Scope list_scope.

(** ** Binding *)

Definition BIND_HOST : string := "0.0.0.0".

(** [SocketAddr::from_str] on the IPv4 form (std's [parse_with] of an address, a
    colon and a port); the texts given to it start with [BIND_HOST]. *)
Definition parse_socket_addr (s : string) : option SocketAddr :=
  '(ip, l) ← read_ipv4_addr (to_bytes s);
  l ← Bytes.strip_prefix [":"%char] l;
  '(port, l) ← read_number 10 (length l) true u16_max l;
  if is_empty (of_bytes l) then Some (mkSocketAddr (V4 ip) port) else None.

Inductive ServerError := SBind (e : IoError) | SInvalidAddress.

Definition configured_addr (config : AgentConfig) : option SocketAddr :=
  parse_socket_addr (BIND_HOST +:+ ":" +:+ pretty (sv_port (cfg_service config))).

(** [bind_listener]; the listener is the address it is bound to. *)
Definition bind_listener (bind : SocketAddr → result IoError SocketAddr)
    (config : AgentConfig) : result ServerError SocketAddr :=
  addr ← ok_or SInvalidAddress (configured_addr config);
  map_err SBind (bind addr).

Section server.
Context `{U : UrlOps, B : Base64Ops, I : IpNetOps, R : !RuntimeEnv}.

(** ** Access *)

Definition is_ws_origin_allowed (s : AgentState) (origin : option string) : bool :=
  is_allowed_origin origin (se_allowed_origins (cfg_security (st_config s))).

Definition is_client_ip_allowed_for_state (s : AgentState) (client_ip : IpAddr) : bool :=
  is_client_ip_allowed client_ip (se_allowed_ips (cfg_security (st_config s))).

(** What the HTTP layer answers: a refusal or the upgraded connection with the
    Origin it was opened from. *)
Inductive HttpAnswer := Forbidden | Upgraded (origin : option string).

(** [client_ip_error_response] *)
Definition client_ip_error_response : HttpAnswer := Forbidden.

(** [ws_handler]; [to_str] is [HeaderValue::to_str], which fails on a value that
    is not visible ASCII. *)
Definition ws_handler (to_str : string → option string) (s : AgentState)
    (origin_header : option string) : HttpAnswer :=
  let origin := origin_header ≫= to_str in
  if negb (is_ws_origin_allowed s origin) then Forbidden else Upgraded origin.

(** [ip_whitelist_middleware]; the connection's address is absent when the
    service is run without connection information. *)
Definition ip_whitelist_middleware (s : AgentState) (connect_info : option SocketAddr)
    (next : HttpAnswer) : HttpAnswer :=
  match connect_info with
  | None => next
  | Some addr =>
      if is_client_ip_allowed_for_state s (sa_ip addr) then next else client_ip_error_response
  end.

(** The route [/ws] of [router]. *)
Definition ws_route (to_str : string → option string) (s : AgentState)
    (connect_info : option SocketAddr) (origin_header : option string) : HttpAnswer :=
  ip_whitelist_middleware s connect_info (ws_handler to_str s origin_header).

(** ** Answers *)

(** [ClientTextOutcome] and its constructor [response]. *)
Record ClientTextOutcome := mkClientTextOutcome {
  co_response : ServerMessage;
  co_accepted_job_ids : list string
}.
Definition outcome_response (response : ServerMessage) : ClientTextOutcome :=
  mkClientTextOutcome response [].

Definition queue_error_response (request_id : option string) (error : QueueError)
  : ServerMessage :=
  SError request_id
    (match error with
     | DuplicateJobId => JobDuplicated
     | DuplicateBatchId => BatchDuplicated
     | QInvalidMessage => InvalidMessage
     end) (QueueError_display error).

Definition invalid_message_response (request_id : option string) (message : string)
  : ServerMessage := SError request_id InvalidMessage message.

Definition job_validation_error_response (request_id : option string)
    (error : JobValidationError) : ServerMessage :=
  SError request_id
    (match error with FileTooLarge => EFileTooLarge | _ => InvalidMessage end)
    (JobValidationError_display error).

Definition print_error_response (request_id : option string) (error : PrintError)
  : ServerMessage :=
  SError request_id
    (match error with
     | PrinterNotFound _ => EPrinterNotFound
     | PaperNotFound _ => EPaperNotFound
     | UnsupportedPlatform | CommandFailed _ _ => PrintFailed
     end) (PrintError_display error).

(** ** Loopback pages *)

Definition is_exact_loopback_url (u : Url) : bool :=
  match url_host_str u with
  | Some h => bool_decide (h = "127.0.0.1") || bool_decide (h = "::1")
  | None => false
  end.

(** The loopback pages among the jobs. *)
Definition loopback_urls (jobs : list PrintJobInput) : list Url :=
  filter (λ u, is_exact_loopback_url u = true)
    (omap (λ file_url, result_ok (validate_html_file_url file_url))
       (omap ji_file_url (filter (λ job, ji_format job = Html) jobs))).

Definition html_local_origin (jobs : list PrintJobInput) (origin : option string)
  : result string (option string) :=
  let loopback_urls := loopback_urls jobs in
  match loopback_urls with
  | [] => Ok None
  | _ =>
      origin ← ok_or "loopback HTML URLs require a matching loopback WebSocket Origin" origin;
      origin ← ok_or "loopback HTML URLs require a matching loopback WebSocket Origin"
                 (opt_filter is_exact_loopback_url (Url_parse origin));
      if existsb (λ file_url, negb (url_same_origin file_url origin)) loopback_urls
      then Err "loopback HTML URL must match the WebSocket Origin exactly"
      else Ok (Some (url_origin_ascii origin))
  end.

(** ** One client message

    An early [return] of [handle_client_text] answers with a message and accepts
    nothing: it is the error of the handler. *)

Definition default_marked (default_printer : option string) (printers : list PrinterInfo)
  : list PrinterInfo :=
  match default_printer with
  | Some name =>
      map (λ p, mkPrinterInfo (pi_name p) (bool_decide (pi_name p = name)) (pi_dpi p)
                  (pi_port p) (pi_is_local p) (pi_is_network p) (pi_is_virtual p)) printers
  | None => printers
  end.

Definition get_printers_list (request_id : string) : Handler ServerMessage ClientTextOutcome :=
  n ← tick;
  printers ← lift (map_err (print_error_response (Some request_id)) (list_printers (env_backend n)));
  config ← gets st_config;
  mret (outcome_response
    (PrintersList request_id (default_marked (pc_default_printer (cfg_printing config)) printers))).

Definition get_printer_info (request_id printer_name : string)
  : Handler ServerMessage ClientTextOutcome :=
  let failed := print_error_response (Some request_id) in
  n ← tick;
  printers ← lift (map_err failed (list_printers (env_backend n)));
  printer ← lift (ok_or (failed (PrinterNotFound printer_name))
                    (iter_find (λ p, bool_decide (pi_name p = printer_name)) printers));
  n ← tick;
  papers ← lift (map_err failed (list_papers (env_backend n) (pi_name printer)));
  n ← tick;
  trays ← lift (map_err failed (list_trays (env_backend n) (pi_name printer)));
  n ← tick;
  media_types ← lift (map_err failed (list_media_types (env_backend n) (pi_name printer)));
  mret (outcome_response (SPrinterInfo request_id
    (mkPrinterDetails (pi_name printer) (pi_is_default printer) (pi_dpi printer)
       (pi_port printer) (pi_is_local printer) (pi_is_network printer) (pi_is_virtual printer)
       papers trays media_types))).

Definition print_queue_info (queued : QueuedJob) : PrintQueueJobInfo :=
  mkPrintQueueJobInfo (qj_request_id queued) (qj_batch_id queued) (qj_id queued) Queued
    (Some "queued").

Definition get_print_queue (request_id : string) : Handler ServerMessage ClientTextOutcome :=
  jobs ← gets (λ s, map print_queue_info (pending_jobs (st_queue s)));
  mret (outcome_response (PrintQueue request_id jobs)).

(** The queue operation of a submission, under the lock; a permit wakes the
    worker when it succeeds. *)
Definition on_queue (request_id : string)
    (op : QueueState → result QueueError unit * QueueState) : Handler ServerMessage unit :=
  queue ← gets st_queue;
  let '(result, queue') := op queue in
  _ ← modify (set_queue queue');
  _ ← lift (map_err (queue_error_response (Some request_id)) result);
  modify (set_permit true).

Definition handle_print (request_id : string) (job : PrintJobInput) (origin : option string)
  : Handler ServerMessage ClientTextOutcome :=
  max_file_size_mb ← gets (λ s, lc_max_file_size_mb (cfg_limits (st_config s)));
  _ ← lift (map_err (job_validation_error_response (Some request_id))
              (validate_for_acceptance job max_file_size_mb));
  html_local_origin ← lift (map_err (invalid_message_response (Some request_id))
                              (html_local_origin [job] origin));
  let job_id := ji_job_id job in
  _ ← on_queue request_id (λ queue,
        accept_job_with_html_local_origin queue request_id job html_local_origin);
  mret (mkClientTextOutcome (SJobStatus (Some request_id) job_id Queued (Some "queued")) [job_id]).

Definition handle_print_batch (request_id batch_id : string) (jobs : list PrintJobInput)
    (origin : option string) : Handler ServerMessage ClientTextOutcome :=
  max_batch_jobs ← gets (λ s, lc_max_batch_jobs (cfg_limits (st_config s)));
  if max_batch_jobs <? N.of_nat (length jobs) then
    raise (SError (Some request_id) BatchTooLarge "batch contains too many jobs")
  else
    max_file_size_mb ← gets (λ s, lc_max_file_size_mb (cfg_limits (st_config s)));
    _ ← lift (map_err (job_validation_error_response (Some request_id))
                (try_for_each (λ job, validate_for_acceptance job max_file_size_mb) jobs));
    html_local_origin ← lift (map_err (invalid_message_response (Some request_id))
                                (html_local_origin jobs origin));
    let queued := N.of_nat (length jobs) in
    let job_ids := map ji_job_id jobs in
    _ ← on_queue request_id (λ queue,
          accept_batch_with_html_local_origin queue request_id batch_id jobs html_local_origin);
    mret (mkClientTextOutcome
      (SJobStatus (Some request_id) batch_id Queued
         (Some ("batch accepted: " +:+ pretty queued +:+ " jobs queued"))) job_ids).

Definition handle_client_message (message : ClientMessage) (origin : option string)
  : Handler ServerMessage ClientTextOutcome :=
  match message with
  | Ping time => mret (outcome_response (Pong time "ready"))
  | GetPrintersList request_id => get_printers_list request_id
  | GetPrinterInfo request_id printer_name => get_printer_info request_id printer_name
  | GetPrintQueue request_id => get_print_queue request_id
  | Print request_id job => handle_print request_id job origin
  | PrintBatch request_id batch_id jobs => handle_print_batch request_id batch_id jobs origin
  end.

Definition answer (m : Handler ServerMessage ClientTextOutcome) (s : AgentState)
  : ClientTextOutcome * AgentState :=
  match m s with
  | (Ok outcome, s') => (outcome, s')
  | (Err response, s') => (outcome_response response, s')
  end.

(** [handle_client_text]; [from_str] is serde_json's parser of a client message. *)
Definition handle_client_text (from_str : string → result string ClientMessage)
    (s : AgentState) (text : string) (origin : option string) : ClientTextOutcome * AgentState :=
  match from_str text with
  | Err error => (outcome_response (SError None InvalidMessage error), s)
  | Ok message => answer (handle_client_message message origin) s
  end.

(** ** A connection *)

Definition status_message_for_connection (entry : TaskLogEntry)
    (accepted_job_ids : gset string) : option ServerMessage :=
  job_id ← tl_job_id entry;
  if negb (bool_decide (job_id ∈ accepted_job_ids)) then None
  else Some (SJobStatus (tl_request_id entry) job_id (tl_status entry) (Some (tl_message entry))).

(** What wakes the loop of [handle_socket]: the next frame of the client, or the
    next entry of the broadcast channel. *)
Inductive WsMessage := WsText (text : string) | WsPing (payload : string) | WsClose | WsOther.
Inductive RecvError := Lagged (skipped : N) | Closed.
Inductive SocketEvent :=
  | Received (frame : option (result string WsMessage))
  | StatusEvent (event : result RecvError TaskLogEntry).

(** The frames it sends. *)
Inductive WsFrame := FText (message : ServerMessage) (json : string) | FPong (payload : string).

(** The codecs of the messages, and whether the next frame can be sent. *)
Record SocketIo := mkSocketIo {
  io_parse : string → result string ClientMessage;
  io_print : ServerMessage → result string string
}.

(** Serialise and send; the loop goes on when both work. *)
Definition send_message (io : SocketIo) (can_send : bool) (message : ServerMessage)
  : list WsFrame * bool :=
  match io_print io message with
  | Ok json => if can_send then ([FText message json], true) else ([], false)
  | Err _ => ([], false)
  end.

(** One turn of the loop: the frames sent, the accepted ids, the state, and
    whether the loop goes on. *)
Definition socket_step (io : SocketIo) (origin : option string) (can_send : bool)
    (accepted_job_ids : gset string) (s : AgentState) (event : SocketEvent)
  : list WsFrame * gset string * AgentState * bool :=
  match event with
  | Received None => ([], accepted_job_ids, s, false)
  | Received (Some (Err _)) => ([], accepted_job_ids, s, false)
  | Received (Some (Ok message)) =>
      match message with
      | WsText text =>
          let '(outcome, s') := handle_client_text (io_parse io) s text origin in
          let accepted' := list_to_set (co_accepted_job_ids outcome) ∪ accepted_job_ids in
          let '(frames, go) := send_message io can_send (co_response outcome) in
          (frames, accepted', s', go)
      | WsPing payload =>
          if can_send then ([FPong payload], accepted_job_ids, s, true)
          else ([], accepted_job_ids, s, false)
      | WsClose => ([], accepted_job_ids, s, false)
      | WsOther => ([], accepted_job_ids, s, true)
      end
  | StatusEvent (Ok entry) =>
      match status_message_for_connection entry accepted_job_ids with
      | None => ([], accepted_job_ids, s, true)
      | Some response =>
          let '(frames, go) := send_message io can_send response in
          (frames, accepted_job_ids, s, go)
      end
  | StatusEvent (Err (Lagged _)) => ([], accepted_job_ids, s, true)
  | StatusEvent (Err Closed) => ([], accepted_job_ids, s, false)
  end.

(** A run of the loop over the events of one connection, with the state before
    each event in its log.  Between two events the rest of the program may change
    the shared state: the third part of an event says how. *)
Fixpoint socket_run (io : SocketIo) (origin : option string) (accepted : gset string)
    (s : AgentState) (events : list (bool * SocketEvent * (AgentState → AgentState)))
  : list (AgentState * SocketEvent * list WsFrame) :=
  match events with
  | [] => []
  | (can_send, event, env) :: events' =>
      let '(frames, accepted', s', go) := socket_step io origin can_send accepted s event in
      (s, event, frames) ::
      if go : bool then socket_run io origin accepted' (env s') events' else []
  end.
End server.

(** ** Lemmas *)

Lemma digits_go_take l acc cnt v :
  digits_go acc l = Some v → take_digits 10 acc cnt l = (v, (cnt + length l)%nat, []).
Proof.
  revert acc cnt. induction l as [|c l IH]; intros acc cnt; simpl.
  { intros [= ->]. by rewrite Nat.add_0_r. }
  destruct (to_digit c) as [d|] eqn:Hd; simpl; [|done]. intros H.
  assert (to_digit_radix 10 c = Some d) as ->.
  { revert Hd. unfold to_digit, to_digit_radix. destruct (_ && _) eqn:Hr; [|done].
    intros [= <-]. simpl. apply andb_true_iff in Hr as [H1%N.leb_le H2%N.leb_le].
    rewrite (proj2 (N.ltb_lt _ _)); [done|lia]. }
  rewrite (N.mul_comm acc 10), (IH _ (S cnt) H). f_equal. f_equal. lia.
Qed.

Lemma digits_pretty (n : N) : digits_go 0 (to_bytes (pretty n)) = Some n.
Proof. unfold pretty, pretty_N. case_decide; [by subst|]. apply digits_go_pretty. Qed.

Section server_lemmas.
Context `{U : UrlOps, B : Base64Ops, I : IpNetOps, R : !RuntimeEnv}.
Implicit Types (s : AgentState) (m : ClientMessage).

(** What a message asks of the queue, given the loopback Origin it may use. *)
Definition message_op (m : ClientMessage) (o : option string) : option QueueOp :=
  match m with
  | Print r j => Some (OpJob r j o false)
  | PrintBatch r b js => Some (OpBatch r b js o false)
  | _ => None
  end.
Definition message_jobs (m : ClientMessage) : list PrintJobInput :=
  match m with Print _ j => [j] | PrintBatch _ _ js => js | _ => [] end.
Definition message_request (m : ClientMessage) : option string :=
  match m with
  | Ping _ => None
  | GetPrintersList r | GetPrinterInfo r _ | GetPrintQueue r | Print r _
  | PrintBatch r _ _ => Some r
  end.
Definition batch_fits (s : AgentState) (m : ClientMessage) : Prop :=
  match m with
  | PrintBatch _ _ js => N.of_nat (length js) ≤ lc_max_batch_jobs (cfg_limits (st_config s))
  | _ => True
  end.
Definition fields_valid (s : AgentState) (j : PrintJobInput) : Prop :=
  validate_for_acceptance j (lc_max_file_size_mb (cfg_limits (st_config s))) = Ok tt.

(** The conditions under which a submission is accepted, as the operation [op]. *)
Definition admitted (s : AgentState) (m : ClientMessage) (origin : option string)
    (op : QueueOp) : Prop :=
  batch_fits s m ∧ Forall (fields_valid s) (message_jobs m) ∧
  ∃ o, html_local_origin (message_jobs m) origin = Ok o ∧ message_op m o = Some op ∧
    op_valid (st_queue s) op.

(** Why a submission is refused: the first condition that fails. *)
Inductive refused_for (s : AgentState) (m : ClientMessage) (origin : option string)
  : ErrorCode → Prop :=
  | refused_size : ¬ batch_fits s m → refused_for s m origin BatchTooLarge
  | refused_fields j e :
      batch_fits s m → j ∈ message_jobs m →
      validate_for_acceptance j (lc_max_file_size_mb (cfg_limits (st_config s))) = Err e →
      refused_for s m origin (if decide (e = FileTooLarge) then EFileTooLarge else InvalidMessage)
  | refused_origin e :
      batch_fits s m → Forall (fields_valid s) (message_jobs m) →
      html_local_origin (message_jobs m) origin = Err e → refused_for s m origin InvalidMessage
  | refused_queue o op e :
      batch_fits s m → Forall (fields_valid s) (message_jobs m) →
      html_local_origin (message_jobs m) origin = Ok o → message_op m o = Some op →
      (queue_step (st_queue s) op).1 = EvRejected e →
      refused_for s m origin
        (match e with
         | DuplicateJobId => JobDuplicated
         | DuplicateBatchId => BatchDuplicated
         | QInvalidMessage => InvalidMessage
         end).

Lemma set_queue_id s : set_queue (st_queue s) s = s.
Proof. by destruct s. Qed.

(** The queue operation of a submission, as a step of the queue. *)
Lemma on_queue_spec r f op s :
  (∀ st, queue_step st op =
    match f st with
    | (Ok _, st') => (EvAccepted (op_jobs op), st')
    | (Err e, st') => (EvRejected e, st')
    end) →
  (op_valid (st_queue s) op ∧
   on_queue r f s = (Ok tt, set_permit true (set_queue (enqueue (st_queue s) op) s))) ∨
  (¬ op_valid (st_queue s) op ∧ ∃ e,
   (queue_step (st_queue s) op).1 = EvRejected e ∧
   on_queue r f s = (Err (queue_error_response (Some r) e), s)).
Proof.
  intros Hf. pose proof (queue_step_spec (st_queue s) op) as Hs.
  rewrite Hf in Hs. rewrite Hf. unfold on_queue. rewrite M_bind_eq. unfold gets at 1 2.
  destruct (f (st_queue s)) as [[[]|e] q']; simpl in Hs.
  - left. destruct Hs as (_&Hv&->). split; [done|]. done.
  - right. destruct Hs as [-> Hn]. split; [done|]. exists e. split; [done|].
    rewrite M_bind_eq. unfold modify at 1. by rewrite set_queue_id.
Qed.

(** The two outcomes of a submission: it was queued, or it was refused and
    nothing of the state moved. *)
Definition submission_queued s m origin (out : ClientTextOutcome) (s' : AgentState) : Prop :=
  ∃ op, admitted s m origin op ∧
    s' = set_permit true (set_queue (enqueue (st_queue s) op) s) ∧
    co_accepted_job_ids out = map (λ q, qj_id q) (op_jobs op) ∧
    ∃ id msg, co_response out = SJobStatus (message_request m) id Queued (Some msg).
Definition submission_refused s m origin (out : ClientTextOutcome) (s' : AgentState) : Prop :=
  (∀ op, ¬ admitted s m origin op) ∧ s' = s ∧ co_accepted_job_ids out = [] ∧
  ∃ code msg, refused_for s m origin code ∧
    co_response out = SError (message_request m) code msg.
Definition submission_result s m origin (r : ClientTextOutcome * AgentState) : Prop :=
  submission_queued s m origin r.1 r.2 ∨ submission_refused s m origin r.1 r.2.

(** A submission that fails with [e] before it reaches the queue. *)
Lemma refused_early s m origin code msg (k : Handler ServerMessage ClientTextOutcome) :
  (∀ op, ¬ admitted s m origin op) → refused_for s m origin code →
  k s = (Err (SError (message_request m) code msg), s) →
  submission_result s m origin (answer k s).
Proof.
  intros Hn Hr Hk. right. unfold answer. rewrite Hk. split_and!; try done.
  by exists code, msg.
Qed.

Lemma refused_validation s m origin j e (k : Handler ServerMessage ClientTextOutcome) :
  batch_fits s m → j ∈ message_jobs m →
  validate_for_acceptance j (lc_max_file_size_mb (cfg_limits (st_config s))) = Err e →
  k s = (Err (job_validation_error_response (message_request m) e), s) →
  submission_result s m origin (answer k s).
Proof.
  intros Hf Hj He Hk. eapply refused_early; [|by eapply refused_fields|].
  - intros op (_&Hv&_). rewrite Forall_forall in Hv. specialize (Hv j Hj).
    unfold fields_valid in Hv. congruence.
  - rewrite Hk. unfold job_validation_error_response. by destruct e.
Qed.

Lemma refused_by_origin s m origin e (k : Handler ServerMessage ClientTextOutcome) :
  batch_fits s m → Forall (fields_valid s) (message_jobs m) →
  html_local_origin (message_jobs m) origin = Err e →
  k s = (Err (invalid_message_response (message_request m) e), s) →
  submission_result s m origin (answer k s).
Proof.
  intros Hf Hv He Hk. eapply refused_early; [|by eapply refused_origin|exact Hk].
  intros op (_&_&o&Ho&_). congruence.
Qed.

(** The last step of a submission, once its fields and Origin are settled. *)
Lemma submission_at_queue s m origin o op r f out :
  message_request m = Some r → message_op m o = Some op →
  batch_fits s m → Forall (fields_valid s) (message_jobs m) →
  html_local_origin (message_jobs m) origin = Ok o →
  (∀ st, queue_step st op =
    match f st with
    | (Ok _, st') => (EvAccepted (op_jobs op), st')
    | (Err e, st') => (EvRejected e, st')
    end) →
  co_accepted_job_ids out = map (λ q, qj_id q) (op_jobs op) →
  (∃ id msg, co_response out = SJobStatus (Some r) id Queued (Some msg)) →
  submission_result s m origin (answer (_ ← on_queue r f; mret out) s).
Proof.
  intros Hr Hop Hf Hv Ho Hq Hids Hresp.
  destruct (on_queue_spec r f op s Hq) as [[Hval Heq]|(Hval&e&He&Heq)].
  - left. unfold answer. rewrite M_bind_eq, Heq. exists op. rewrite Hr. split_and!; try done.
    split_and!; [done..|]. by exists o.
  - eapply refused_early; [|by eapply refused_queue|].
    + intros op' (_&_&o'&Ho'&Hop'&Hval'). congruence.
    + rewrite M_bind_eq, Heq, Hr. by destruct e.
Qed.

Lemma answer_print s r j origin :
  submission_result s (Print r j) origin (answer (handle_print r j origin) s).
Proof.
  destruct (validate_for_acceptance j (lc_max_file_size_mb (cfg_limits (st_config s))))
    as [[]|e] eqn:Hv.
  2:{ eapply (refused_validation s (Print r j) origin j e); [done|by left|done|].
      unfold handle_print. rewrite M_bind_eq. unfold gets at 1.
      rewrite M_bind_eq. unfold lift at 1. by rewrite Hv. }
  destruct (html_local_origin [j] origin) as [o|e] eqn:Ho.
  2:{ eapply (refused_by_origin s (Print r j) origin e); [done|by constructor|done|].
      unfold handle_print. rewrite M_bind_eq. unfold gets at 1.
      rewrite M_bind_eq. unfold lift at 1. rewrite Hv. simpl.
      rewrite M_bind_eq. unfold lift at 1. by rewrite Ho. }
  pose proof (submission_at_queue s (Print r j) origin o (OpJob r j o false) r
    (λ queue, accept_job_with_html_local_origin queue r j o)
    (mkClientTextOutcome (SJobStatus (Some r) (ji_job_id j) Queued (Some "queued"))
       [ji_job_id j])) as Hq.
  unfold handle_print, answer. rewrite M_bind_eq. unfold gets at 1.
  rewrite M_bind_eq. unfold lift at 1. rewrite Hv. simpl map_err.
  rewrite M_bind_eq. unfold lift at 1. rewrite Ho. simpl map_err.
  apply Hq; try done; [by constructor|by eexists _, _].
Qed.

Lemma answer_print_batch s r b js origin :
  submission_result s (PrintBatch r b js) origin (answer (handle_print_batch r b js origin) s).
Proof.
  set (m := PrintBatch r b js).
  set (limits := cfg_limits (st_config s)).
  destruct (lc_max_batch_jobs limits <? N.of_nat (length js)) eqn:Hsz.
  { assert (¬ batch_fits s m) by (apply N.ltb_lt in Hsz; simpl; unfold limits in *; lia).
    eapply (refused_early s m origin); [by intros op []|by apply refused_size|].
    unfold handle_print_batch. rewrite M_bind_eq. unfold gets at 1. fold limits. by rewrite Hsz. }
  assert (batch_fits s m) as Hf by (by apply N.ltb_ge in Hsz).
  assert (∀ k : N → Handler ServerMessage ClientTextOutcome,
    (gets (λ s, lc_max_batch_jobs (cfg_limits (st_config s))) ≫= k) s =
    k (lc_max_batch_jobs limits) s) as Hb by done.
  assert (∀ k : N → Handler ServerMessage ClientTextOutcome,
    (gets (λ s, lc_max_file_size_mb (cfg_limits (st_config s))) ≫= k) s =
    k (lc_max_file_size_mb limits) s) as Hm by done.
  destruct (try_for_each (λ j, validate_for_acceptance j (lc_max_file_size_mb limits)) js)
    as [[]|e] eqn:Hv.
  2:{ pose proof Hv as (pre&j&post&->&_&He)%try_for_each_err.
      eapply (refused_validation s m origin j e); [done|apply elem_of_app; right; left|done|].
      unfold handle_print_batch. rewrite Hb, Hsz, Hm, M_bind_eq. unfold lift at 1.
      by rewrite Hv. }
  pose proof Hv as Hall%try_for_each_ok.
  destruct (html_local_origin js origin) as [o|e] eqn:Ho.
  2:{ eapply (refused_by_origin s m origin e); [done..|].
      unfold handle_print_batch. rewrite Hb, Hsz, Hm, M_bind_eq. unfold lift at 1.
      rewrite Hv. simpl map_err. rewrite M_bind_eq. unfold lift at 1. by rewrite Ho. }
  unfold handle_print_batch, answer. rewrite Hb, Hsz, Hm, M_bind_eq. unfold lift at 1.
  rewrite Hv. simpl map_err. rewrite M_bind_eq. unfold lift at 1. rewrite Ho. simpl map_err.
  apply (submission_at_queue s m origin o (OpBatch r b js o false)
    r (λ queue, accept_batch_with_html_local_origin queue r b js o)); try done.
  - by rewrite op_jobs_ids.
  - by eexists _, _.
Qed.
End server_lemmas.

(** ** Properties *)

(** The service always binds: the address written from any 16-bit port
    parses, as that port on all IPv4 interfaces. *)
Theorem configured_addr_total (config : AgentConfig) :
  sv_port (cfg_service config) ≤ u16_max →
  configured_addr config = Some (mkSocketAddr (v4 0 0 0 0) (sv_port (cfg_service config))).
Proof.
  intros Hp. unfold configured_addr, parse_socket_addr. set (port := sv_port _) in *.
  rewrite !to_bytes_app.
  pose proof (digits_go_take _ _ 0%nat _ (digits_pretty port)) as Hd.
  destruct (pretty_N_no_plus port) as (c&l&Hl&_). rewrite Hl in *.
  assert (read_ipv4_addr (to_bytes BIND_HOST ++ to_bytes ":" ++ c :: l) =
    Some (0, ":"%char :: c :: l)) as -> by reflexivity.
  cbv beta iota zeta delta [mbind option_bind].
  change (Bytes.strip_prefix [":"%char] (":"%char :: c :: l)) with (Some (c :: l)).
  cbv beta iota. unfold read_number. rewrite Hd.
  cbn [negb andb].
  rewrite (proj2 (Nat.ltb_ge _ _)) by (simpl; lia). simpl.
  by rewrite (proj2 (N.leb_le _ _)).
Qed.

Section server_properties.
Context `{U : UrlOps, B : Base64Ops, I : IpNetOps, R : !RuntimeEnv}.

(** C15: A connection is upgraded exactly when its client and its Origin are both
    admitted: the client is a loopback address or matches an entry of the
    allow list (or the service runs without connection information), and the
    request has an [Origin] header that reads as text and equals one of the
    configured Origins.  An absent or unreadable Origin is refused. *)
Theorem ws_route_access (to_str : string → option string) (s : AgentState)
    (addr : option SocketAddr) (header : option string) (origin : option string) :
  ws_route to_str s addr header = Upgraded origin ↔
  (∀ a, addr = Some a → is_loopback (sa_ip a) = true ∨
     ∃ e, e ∈ se_allowed_ips (cfg_security (st_config s)) ∧
       entry_matches_client_ip e (sa_ip a) = true) ∧
  (∃ h o, header = Some h ∧ to_str h = Some o ∧ origin = Some o ∧
     o ∈ se_allowed_origins (cfg_security (st_config s))).
Proof.
  assert (∀ a, is_client_ip_allowed_for_state s a = true ↔ is_loopback a = true ∨
     ∃ e, e ∈ se_allowed_ips (cfg_security (st_config s)) ∧
       entry_matches_client_ip e a = true) as Hip.
  { intros a. unfold is_client_ip_allowed_for_state, is_client_ip_allowed.
    destruct (is_loopback a); [by split; [left|]|]. rewrite existsb_true.
    split; [by right|by intros [|]]. }
  assert (ws_handler to_str s header = Upgraded origin ↔
    (∃ h o, header = Some h ∧ to_str h = Some o ∧ origin = Some o ∧
     o ∈ se_allowed_origins (cfg_security (st_config s)))) as Hws.
  { unfold ws_handler, is_ws_origin_allowed, is_allowed_origin.
    destruct header as [h|]; simpl; [|split; [done|by intros (?&?&[=]&_)]].
    destruct (to_str h) as [o|] eqn:Hh; simpl;
      [|split; [done|by intros (?&?&[= <-]&?&_); congruence]].
    destruct (existsb _ _) eqn:He; simpl.
    - apply existsb_true in He as (x&Hx& ->%bool_decide_eq_true). split.
      + intros [= <-]. by exists h, o.
      + intros (?&?&[= <-]&Ho&->&_). congruence.
    - split; [done|]. intros (?&o'&[= <-]&Ho&->&Hin). exfalso.
      assert (o' = o) as -> by congruence.
      apply not_true_iff_false in He. apply He, existsb_true. exists o.
      split; [done|]. by apply bool_decide_eq_true. }
  unfold ws_route, ip_whitelist_middleware. destruct addr as [a|].
  - destruct (is_client_ip_allowed_for_state s (sa_ip a)) eqn:Ha.
    + rewrite Hws. split; [|by intros [_ ?]]. intros ?. split; [|done].
      intros ? [= <-]. by apply Hip.
    + split; [done|]. intros [H _]. specialize (H a eq_refl). apply Hip in H. congruence.
  - rewrite Hws. split; [by split|by intros [_ ?]].
Qed.

(** C13: A print message is accepted exactly when it is admissible, and then
    completely.  Admissible: a batch is not longer than [max_batch_jobs], every
    job's fields are valid under [max_file_size_mb], every loopback page among
    the jobs has the loopback Origin of the connection, and the queue's own
    conditions hold (new and distinct ids, loadable HTML sources).  Then all its
    jobs are appended to the queue in order, the worker is woken, exactly their
    ids are bound to the connection, and the answer is [Queued] under the
    request's id.  Otherwise the state does not move, no id is bound, and the
    answer is an error under the request's id whose code says which condition
    was the first to fail. *)
Theorem print_message_outcome (from_str : string → result string ClientMessage)
    (s : AgentState) (text : string) (origin : option string) (m : ClientMessage) :
  from_str text = Ok m → is_Some (message_op m None) →
  submission_result s m origin (handle_client_text from_str s text origin).
Proof.
  unfold handle_client_text. intros -> [op Hop].
  destruct m; try done; simpl; [apply answer_print|apply answer_print_batch].
Qed.

(** Every other client text is answered without touching anything but the
    clock: no job is queued, no id is bound to the connection, and the request's
    id (if any) comes back in the answer. *)
Theorem query_message_outcome (from_str : string → result string ClientMessage)
    (s : AgentState) (text : string) (origin : option string) :
  (∀ m, from_str text = Ok m → message_op m None = None) →
  let '(out, s') := handle_client_text from_str s text origin in
  co_accepted_job_ids out = [] ∧ (∃ n, s' = Nat.iter n next_tick s) ∧
  match from_str text with
  | Err e => co_response out = SError None InvalidMessage e
  | Ok (Ping t) => co_response out = Pong t "ready"
  | Ok (GetPrintQueue r) =>
      co_response out = PrintQueue r (map print_queue_info (pending (st_queue s)))
  | Ok (GetPrintersList r) =>
      (∃ l, co_response out = PrintersList r l) ∨ ∃ code msg, co_response out = SError (Some r) code msg
  | Ok (GetPrinterInfo r name) =>
      (∃ d, co_response out = SPrinterInfo r d ∧ pd_name d = name) ∨
      ∃ code msg, co_response out = SError (Some r) code msg
  | Ok _ => False
  end.
Proof.
  intros Hm. unfold handle_client_text. destruct (from_str text) as [m|e] eqn:He; simpl.
  2:{ split_and!; [done|by exists 0%nat|done]. }
  specialize (Hm m eq_refl).
  destruct m as [t|r|r name|r|r j|r b js]; try done; unfold answer, handle_client_message.
  - split_and!; [done|by exists 0%nat|done].
  - unfold get_printers_list. rewrite M_bind_eq. unfold tick at 1.
    rewrite M_bind_eq. unfold lift at 1.
    destruct (list_printers _) as [l|e]; simpl; (split_and!; [done|by exists 1%nat|]).
    + left. by eexists.
    + right. by eexists _, _.
  - unfold get_printer_info. cbv zeta. rewrite M_bind_eq. unfold tick at 1.
    rewrite M_bind_eq. unfold lift at 1.
    destruct (list_printers _) as [l|e]; simpl;
      [|by split_and!; [|exists 1%nat|right; eexists _, _]].
    rewrite M_bind_eq. unfold lift at 1. destruct (iter_find _ l) as [p|] eqn:Hp; simpl;
      [|by split_and!; [|exists 1%nat|right; eexists _, _]].
    apply iter_find_some in Hp as (_&_&_&Hp%bool_decide_eq_true&_).
    rewrite M_bind_eq. unfold tick at 1. rewrite M_bind_eq. unfold lift at 1.
    destruct (list_papers _ _); simpl; [|by split_and!; [|exists 2%nat|right; eexists _, _]].
    rewrite M_bind_eq. unfold tick at 1. rewrite M_bind_eq. unfold lift at 1.
    destruct (list_trays _ _); simpl; [|by split_and!; [|exists 3%nat|right; eexists _, _]].
    rewrite M_bind_eq. unfold tick at 1. rewrite M_bind_eq. unfold lift at 1.
    destruct (list_media_types _ _); simpl; [|by split_and!; [|exists 4%nat|right; eexists _, _]].
    split_and!; [done|by exists 4%nat|]. left. by eexists.
  - split_and!; [done|by exists 0%nat|done].
Qed.
End server_properties.

Section loopback.
Context `{U : UrlOps}.

Lemma loopback_urls_elem jobs u :
  u ∈ loopback_urls jobs ↔
  is_exact_loopback_url u = true ∧
  ∃ j url, j ∈ jobs ∧ ji_format j = Html ∧ ji_file_url j = Some url ∧
    validate_html_file_url url = Ok u.
Proof.
  unfold loopback_urls. rewrite list_elem_of_filter, list_elem_of_omap. split.
  - intros (Hl&url&(j&Hj&Hu)%list_elem_of_omap&Hv). split; [done|].
    apply list_elem_of_filter in Hj as [Hf Hj]. exists j, url. split_and!; try done.
    destruct (validate_html_file_url url); [by simplify_eq/=|done].
  - intros (Hl&j&url&Hj&Hf&Hu&Hv). split; [done|]. exists url. rewrite Hv. split; [|done].
    apply list_elem_of_omap. exists j. split; [|done]. by apply list_elem_of_filter.
Qed.

(** A page on the agent's own machine is only printed for a page of the same
    Origin.  The Origin handed to the renderer is present exactly when some job
    has a loopback page, and then the connection's Origin is itself a loopback
    URL, every loopback page of the message has that very Origin, and the text
    handed on is its serialisation; any other combination is refused. *)
Theorem html_local_origin_spec (jobs : list PrintJobInput) (origin : option string) :
  match html_local_origin jobs origin with
  | Ok None => ∀ u, u ∉ loopback_urls jobs
  | Ok (Some x) => loopback_urls jobs ≠ [] ∧ ∃ o u, origin = Some o ∧ Url_parse o = Some u ∧
      is_exact_loopback_url u = true ∧ x = url_origin_ascii u ∧
      ∀ j url v, j ∈ jobs → ji_format j = Html → ji_file_url j = Some url →
        validate_html_file_url url = Ok v → is_exact_loopback_url v = true →
        url_same_origin v u = true
  | Err _ => loopback_urls jobs ≠ [] ∧
      ∀ o u, origin = Some o → Url_parse o = Some u → is_exact_loopback_url u = true →
      ∃ v, v ∈ loopback_urls jobs ∧ url_same_origin v u = false
  end.
Proof.
  unfold html_local_origin. destruct (loopback_urls jobs) as [|v vs] eqn:Hl.
  { intros u. apply not_elem_of_nil. }
  destruct origin as [o|]; simpl; [|by split].
  destruct (opt_filter _ _) as [u|] eqn:Ho; simpl.
  2:{ split; [done|]. intros ? u [= <-] Hp Hu. rewrite Hp in Ho. simpl in Ho.
      by rewrite Hu in Ho. }
  apply opt_filter_some in Ho as [Hp Hu].
  destruct (negb (url_same_origin v u) || _) eqn:He.
  - split; [done|]. intros ? u' [= <-] Hp' _. assert (u' = u) as -> by congruence.
    assert (existsb (λ w, negb (url_same_origin w u)) (v :: vs) = true) as Hex by done.
    apply existsb_true in Hex as (w&Hw&Hs%negb_true_iff). by exists w.
  - split; [done|]. exists o, u. split_and!; try done.
    intros j url w Hj Hf Hurl Hv Hw.
    assert (w ∈ v :: vs) as Hin.
    { rewrite <-Hl. apply loopback_urls_elem. split; [done|]. by exists j, url. }
    destruct (url_same_origin w u) eqn:Hs; [done|].
    assert (existsb (λ w, negb (url_same_origin w u)) (v :: vs) = true) as Hex; [|].
    { apply existsb_true. exists w. by rewrite Hs. }
    simpl in Hex. congruence.
Qed.

(** Only IPv4 loopback counts: a URL's host is written in brackets when it is
    an IPv6 address, so the second case of the test never holds, and a page at
    [::1] is treated as a foreign page however it was opened. *)
Theorem ipv6_loopback_unrecognised `{!UrlLaws} (u : Url) :
  is_exact_loopback_url u = true ↔ url_host_str u = Some "127.0.0.1".
Proof.
  unfold is_exact_loopback_url. destruct (url_host_str u) as [h|] eqn:Hh; [|done].
  rewrite orb_true_iff, !bool_decide_eq_true. split.
  - intros [->| ->]; [done|]. by apply url_host_bracketed in Hh.
  - intros [= ->]. by left.
Qed.
End loopback.

Section socket.
Context `{U : UrlOps, B : Base64Ops, I : IpNetOps, R : !RuntimeEnv}.
Context (io : SocketIo) (origin : option string).

(** A job id the connection submitted, and had accepted, earlier in its log. *)
Definition submitted_here (log : list (AgentState * SocketEvent * list WsFrame)) (i : string)
  : Prop :=
  ∃ s text frames, (s, Received (Some (Ok (WsText text))), frames) ∈ log ∧
    i ∈ co_accepted_job_ids (handle_client_text (io_parse io) s text origin).1.

Definition status_frame (e : TaskLogEntry) (i json : string) : WsFrame :=
  FText (SJobStatus (tl_request_id e) i (tl_status e) (Some (tl_message e))) json.

Lemma submitted_here_cons x log i :
  submitted_here (x :: log) i ↔ submitted_here [x] i ∨ submitted_here log i.
Proof.
  unfold submitted_here. split.
  - intros (s&t&f&[<-|H]%elem_of_cons&Hi); [left|right]; exists s, t, f; split; try done.
    by apply list_elem_of_singleton.
  - intros [(s&t&f&<-%list_elem_of_singleton&Hi)|(s&t&f&H&Hi)]; exists s, t, f; split; try done;
      [by left|by right].
Qed.

(** The ids bound after one turn. *)
Lemma socket_step_accepted can_send accepted s ev frames accepted' s' go i :
  socket_step io origin can_send accepted s ev = (frames, accepted', s', go) →
  i ∈ accepted' ↔ submitted_here [(s, ev, frames)] i ∨ i ∈ accepted.
Proof.
  intros Hs.
  assert ((∀ text, ev ≠ Received (Some (Ok (WsText text)))) → accepted' = accepted →
    i ∈ accepted' ↔ submitted_here [(s, ev, frames)] i ∨ i ∈ accepted) as Hother.
  { intros Hne ->. split; [by right|]. intros [(?&t&?&Heq%list_elem_of_singleton&_)|]; [|done].
    injection Heq as _ <- _. by destruct (Hne t). }
  destruct ev as [[[[text|payload| |]|]|]|[entry|[]]]; simpl in Hs.
  - destruct (handle_client_text (io_parse io) s text origin) as [out s1] eqn:Ht.
    destruct (send_message io can_send (co_response out)) as [fs g]. simplify_eq.
    rewrite elem_of_union, elem_of_list_to_set. split.
    + intros [Hi|]; [left|by right]. exists s, text, frames.
      rewrite Ht. split; [by apply list_elem_of_singleton|done].
    + intros [(?&?&?&Heq%list_elem_of_singleton&Hi)|]; [left|by right].
      injection Heq as -> -> ->. by rewrite Ht in Hi.
  - by destruct can_send; simplify_eq; apply Hother.
  - by simplify_eq; apply Hother.
  - by simplify_eq; apply Hother.
  - by simplify_eq; apply Hother.
  - by simplify_eq; apply Hother.
  - destruct (status_message_for_connection entry accepted); [|by simplify_eq; apply Hother].
    destruct (send_message _ _ _). by simplify_eq; apply Hother.
  - by simplify_eq; apply Hother.
  - by simplify_eq; apply Hother.
Qed.

(** One status entry: what is sent, and whether the loop goes on. *)
Lemma socket_step_status can_send accepted s e frames accepted' s' go :
  socket_step io origin can_send accepted s (StatusEvent (Ok e)) = (frames, accepted', s', go) →
  (∀ f, f ∈ frames → ∃ i json, tl_job_id e = Some i ∧ i ∈ accepted ∧ f = status_frame e i json) ∧
  (go = true → ∀ i, tl_job_id e = Some i → i ∈ accepted →
     ∃ json, frames = [status_frame e i json]).
Proof.
  simpl. unfold status_message_for_connection.
  destruct (tl_job_id e) as [i|] eqn:Hi; simpl.
  2:{ intros [= <- <- <- <-]. split; [by intros f []%not_elem_of_nil|done]. }
  destruct (bool_decide (i ∈ accepted)) eqn:Hd; simpl.
  - apply bool_decide_eq_true in Hd. unfold send_message.
    destruct (io_print io _) as [json|e'] eqn:Hj.
    + destruct can_send; intros [= <- <- <- <-].
      * split; [intros f ->%list_elem_of_singleton; by exists i, json|].
        intros _ ? [= <-] _. by exists json.
      * split; [by intros f []%not_elem_of_nil|done].
    + intros [= <- <- <- <-]. split; [by intros f []%not_elem_of_nil|done].
  - apply bool_decide_eq_false in Hd. intros [= <- <- <- <-].
    split; [by intros f []%not_elem_of_nil|]. by intros _ ? [= <-] ?.
Qed.

Lemma socket_run_isolated events accepted s pre s0 e frames post :
  socket_run io origin accepted s events = pre ++ (s0, StatusEvent (Ok e), frames) :: post →
  (∀ f, f ∈ frames → ∃ i json, tl_job_id e = Some i ∧
     (submitted_here pre i ∨ i ∈ accepted) ∧ f = status_frame e i json) ∧
  (post ≠ [] → ∀ i, tl_job_id e = Some i → submitted_here pre i ∨ i ∈ accepted →
     ∃ json, frames = [status_frame e i json]).
Proof.
  revert accepted s pre. induction events as [|[[can_send ev] env] events IH];
    intros accepted s pre; simpl; [by destruct pre|].
  destruct (socket_step io origin can_send accepted s ev) as [[[fs acc'] s'] go] eqn:Hs.
  destruct pre as [|x pre]; simpl.
  - intros [= -> -> -> Hpost]. apply socket_step_status in Hs as [H1 H2].
    assert (∀ i, ¬ submitted_here [] i) as Hnil by (by intros i (?&?&?&[]%not_elem_of_nil&_)).
    split.
    + intros f (i&json&?&?&?)%H1. exists i, json. split_and!; try done. by right.
    + intros Hne i Hi [Hsub|Hacc]; [by apply Hnil in Hsub|].
      apply H2; try done. by destruct go; [|subst].
  - intros [= <- Hrun]. destruct go; [|by destruct pre].
    apply IH in Hrun as [H1 H2].
    assert (∀ i, submitted_here ((s, ev, fs) :: pre) i ∨ i ∈ accepted ↔
      submitted_here pre i ∨ i ∈ acc') as Heq.
    { intros i. rewrite submitted_here_cons, (socket_step_accepted _ _ _ _ _ _ _ _ i Hs). tauto. }
    split.
    + intros f (i&json&?&?%Heq&?)%H1. by exists i, json.
    + intros Hne i Hi Hsub%Heq. by apply H2.
Qed.

(** Frames are sent for an entry of the channel, or in answer to the client. *)
Definition asked_or_status (ev : SocketEvent) : Prop :=
  (∃ e, ev = StatusEvent (Ok e)) ∨ ∃ m, ev = Received (Some (Ok m)).
Lemma socket_run_asked accepted s events s1 ev fs :
  (s1, ev, fs) ∈ socket_run io origin accepted s events → fs ≠ [] → asked_or_status ev.
Proof.
  revert accepted s. induction events as [|[[can_send ev'] env] events IH]; intros accepted s;
    cbn [socket_run]; [by intros ?%not_elem_of_nil|].
  destruct (socket_step io origin can_send accepted s ev') as [[[fs' acc'] s'] go] eqn:Hs.
  intros [[= -> -> ->]|Hin]%elem_of_cons Hne.
  - destruct ev' as [[[m|e]|]|[e|[k|]]]; [by right; exists m| | |by left; exists e| |];
      by injection Hs as <- _ _ _.
  - destruct go; [by eapply IH|by apply not_elem_of_nil in Hin].
Qed.

(** C14: Of the status entries a connection receives from the channel it passes on those
    of its own jobs, and of no others.  In any run of a connection, with the shared
    state changing arbitrarily between its events, an entry is passed on only if the
    connection itself submitted that job earlier and had it accepted; and (unless
    sending fails and the connection ends) every such entry is passed on, once, with the
    entry's own request id, status and message.  Besides, a connection sends only
    answers to messages of its client. *)
Theorem socket_isolation (s : AgentState)
    (events : list (bool * SocketEvent * (AgentState → AgentState)))
    pre (s0 : AgentState) (e : TaskLogEntry) (frames : list WsFrame) post :
  socket_run io origin ∅ s events = pre ++ (s0, StatusEvent (Ok e), frames) :: post →
  (∀ f, f ∈ frames → ∃ i json, tl_job_id e = Some i ∧ submitted_here pre i ∧
     f = status_frame e i json) ∧
  (post ≠ [] → ∀ i, tl_job_id e = Some i → submitted_here pre i →
     ∃ json, frames = [status_frame e i json]) ∧
  (∀ s1 ev fs, (s1, ev, fs) ∈ pre ++ post → fs ≠ [] → asked_or_status ev).
Proof.
  intros Hrun. pose proof Hrun as [H1 H2]%socket_run_isolated. split_and!.
  - intros f (i&json&?&[?|[]%not_elem_of_empty]&?)%H1. by exists i, json.
  - intros Hne i Hi Hsub. apply H2; auto.
  - intros s1 ev fs Hin. apply (socket_run_asked ∅ s events s1). rewrite Hrun.
    apply elem_of_app in Hin as [?|?]; apply elem_of_app; [by left|right; by right].
Qed.
End socket.

(** ** Witnesses *)

Definition toy_file_job (id : string) : PrintJobInput :=
  mkPrintJobInput id Pdf (Some "office") (Some "https://files.example/a.pdf") None None None
    (Some 2) (Some (mkEffectivePaper (f64_of_Z 210) (f64_of_Z 297))).
Definition toy_batch : ClientMessage := PrintBatch "r" "b" [toy_file_job "1"; toy_file_job "2"].
Definition toy_io : SocketIo := mkSocketIo (λ _, Ok toy_batch) (λ _, Ok "{}").

Lemma configured_addr_total_witness :
  17890 ≤ u16_max ∧ configured_addr AgentConfig_default = Some (mkSocketAddr (v4 0 0 0 0) 17890).
Proof. split; [done|]. by apply (configured_addr_total AgentConfig_default). Defined.

Lemma print_message_outcome_witness :
  submission_result toy_state toy_batch None
    (handle_client_text (io_parse toy_io) toy_state "text" None) ∧
  co_accepted_job_ids (handle_client_text (io_parse toy_io) toy_state "text" None).1 = ["1"; "2"].
Proof.
  split; [|by vm_compute]. apply print_message_outcome; [reflexivity|by eexists].
Defined.

Lemma query_message_outcome_witness :
  let '(out, s') := handle_client_text (λ _, Ok (GetPrintQueue "r")) toy_state "text" None in
  co_accepted_job_ids out = [] ∧ (∃ n, s' = Nat.iter n next_tick toy_state) ∧
  co_response out = PrintQueue "r" [].
Proof.
  apply (query_message_outcome (λ _, Ok (GetPrintQueue "r")) toy_state "text" None).
  by intros m [= <-].
Defined.

Lemma ipv6_loopback_unrecognised_witness :
  ∃ u, Url_parse "http://[::1]:6688/a" = Some u ∧ url_host_str u = Some "[::1]" ∧
    (is_exact_loopback_url u = true ↔ url_host_str u = Some "127.0.0.1").
Proof. eexists. split; [reflexivity|]. split; [reflexivity|]. apply ipv6_loopback_unrecognised. Defined.

Lemma socket_isolation_witness :
  let entry i := mkTaskLogEntry "t" (Some "r") None (Some i) None Submitted "m" in
  ∃ pre s0 frames post,
    socket_run toy_io None ∅ toy_state
      [(true, Received (Some (Ok (WsText "x"))), id); (true, StatusEvent (Ok (entry "1")), id);
       (true, Received (Some (Ok WsOther)), id)] =
      pre ++ (s0, StatusEvent (Ok (entry "1")), frames) :: post ∧
    (∀ f, f ∈ frames → ∃ i json, tl_job_id (entry "1") = Some i ∧
       submitted_here toy_io None pre i ∧ f = status_frame (entry "1") i json) ∧
    frames = [status_frame (entry "1") "1" "{}"].
Proof.
  intros entry. eexists [_], _, _, [_].
  match goal with |- ?A ∧ _ => assert A as H by reflexivity end.
  split; [exact H|]. split; [|reflexivity].
  by apply socket_isolation in H as [? _].
Defined.
