(* ===== verification/RemoteClient.v ===== *)
(** * The remote service ([crates/core/src/remote_protocol.rs],
    [crates/runtime/src/remote_client.rs])

    Parsing the tasks a remote service sends, and the three requests the agent
    makes to it.  A request is a value: its method, URL, headers and body; what
    the network answers to it is a parameter. *)

From S2P Require Import Prelude RustStr F64 Externs Toy FileSys Protocol IpWhitelist Config.
From S2P Require Import JobQueue RemoteStore.
From Stdlib Require Import Ascii.
Open Scope string_scope.
Open Scope N_scope.
Open Scope list_scope.

(** ** Tasks *)

Inductive RemoteTask :=
  | RPrint (request_id : string) (job : PrintJobInput)
  | RPrintBatch (request_id batch_id : string) (jobs : list PrintJobInput).

Definition task_jobs (task : RemoteTask) : list PrintJobInput :=
  match task with RPrint _ job => [job] | RPrintBatch _ _ jobs => jobs end.

Inductive RemoteProtocolError :=
  | InvalidResponse (error : string)
  | RInvalidMessage (message : string).

Definition RemoteProtocolError_display (e : RemoteProtocolError) : string :=
  match e with
  | InvalidResponse _ => "invalid remote task response"
  | RInvalidMessage m => "invalid remote task: " +:+ m
  end.

(** serde_json on the values of a response: the generic value, its shape tests,
    and its conversions to one task and to a list of tasks. *)
Class TaskJson := {
  JsonValue : Type;
  jv_parse : string → result string JsonValue;
  jv_is_null : JsonValue → bool;
  jv_is_array : JsonValue → bool;
  jv_to_task : JsonValue → result string RemoteTask;
  jv_to_tasks : JsonValue → result string (list RemoteTask)
}.

Section protocol.
Context `{U : UrlOps, TJ : !TaskJson}.

(** The body of the inner loop of [validate_html_sources]. *)
Definition validate_html_source_remote (job : PrintJobInput) : result RemoteProtocolError unit :=
  if negb (bool_decide (ji_format job = Html)) then Ok tt
  else
    file_url ← ok_or (RInvalidMessage "html job requires file_url")
                 (opt_filter non_empty (ji_file_url job));
    map_err (λ e, RInvalidMessage (ProtocolError_display e))
      ((λ _, tt) <$> validate_html_file_url file_url).

Definition validate_html_sources (tasks : list RemoteTask) : result RemoteProtocolError unit :=
  try_for_each (λ task, try_for_each validate_html_source_remote (task_jobs task)) tasks.

Definition parse_remote_tasks (input : string)
  : result RemoteProtocolError (list RemoteTask) :=
  if is_empty (trim input) then Ok []
  else
    value ← map_err InvalidResponse (jv_parse input);
    if jv_is_null value then Ok []
    else if jv_is_array value then
      tasks ← map_err InvalidResponse (jv_to_tasks value);
      _ ← validate_html_sources tasks;
      Ok tasks
    else
      task ← map_err InvalidResponse (jv_to_task value);
      _ ← validate_html_sources [task];
      Ok [task].
End protocol.

(** ** Requests *)

Inductive Method := GET | POST.

(** [StatusReportBody] and [ConnectionTestBody]: serde_json leaves an absent
    optional field out. *)
Inductive RequestBody :=
  | StatusReportBody (event event_id request_id : string) (batch_id : option string)
      (job_id status : string) (message : option string) (occurred_at : string)
      (device_id device_name : option string)
  | ConnectionTestBody (event event_id status : string) (device_id device_name : option string).

Section client.
Context `{U : UrlOps, TJ : !TaskJson}.

Record HttpRequest := mkHttpRequest {
  hr_method : Method;
  hr_url : Url;
  hr_headers : list (string * string);
  hr_body : option RequestBody
}.
(** A response: its status code, and its body or the error of reading it. *)
Record ClientResponse := mkClientResponse {
  cr_status : N; cr_text : result string string
}.
(** [send]: the error is reqwest's. *)
Definition Network := HttpRequest → result string ClientResponse.

Inductive RemoteClientError :=
  | MissingEndpoint
  | InvalidEndpoint
  | HttpStatus (status : N)
  | RequestError (error : string)
  | ProtocolError_ (error : RemoteProtocolError).

Definition RemoteClientError_display (e : RemoteClientError) : string :=
  match e with
  | MissingEndpoint => "remote endpoint url is missing"
  | InvalidEndpoint => "invalid remote endpoint url"
  | HttpStatus n => "remote server returned HTTP " +:+ pretty n
  | RequestError e => e
  | ProtocolError_ e => RemoteProtocolError_display e
  end.

Definition is_configuration_status (e : RemoteClientError) : bool :=
  match e with
  | HttpStatus n => (n =? 401) || (n =? 403) || (n =? 404)
  | _ => false
  end.

(** [StatusCode::is_success] *)
Definition is_success (status : N) : bool := (200 <=? status) && (status <? 300).

Definition configured_value (value : option string) : option string :=
  opt_filter (λ v, negb (is_empty v)) (trim <$> value).

Definition endpoint_url (config : RemoteConfig) : result RemoteClientError Url :=
  value ← ok_or MissingEndpoint (configured_value (rc_endpoint_url config));
  ok_or InvalidEndpoint (Url_parse value).

Definition header_if (name : string) (value : option string) : list (string * string) :=
  match value with Some v => [(name, v)] | None => [] end.

(** [bearer_auth] sets [Authorization: Bearer <token>]. *)
Definition with_common_headers (request : HttpRequest) (config : RemoteConfig) (is_test : bool)
  : HttpRequest :=
  mkHttpRequest (hr_method request) (hr_url request)
    (hr_headers request ++
     header_if "Authorization" (String.append "Bearer " <$> configured_value (rc_bearer_token config)) ++
     header_if "X-PrintBridge-Device-Id" (configured_value (rc_device_id config)) ++
     header_if "X-PrintBridge-Device-Name" (configured_value (rc_device_name config)) ++
     header_if "X-PrintBridge-Test" (if is_test then Some "true" else None))
    (hr_body request).

Definition client_get (url : Url) : HttpRequest := mkHttpRequest GET url [] None.
Definition client_post (url : Url) : HttpRequest := mkHttpRequest POST url [] None.
Definition with_json (body : RequestBody) (r : HttpRequest) : HttpRequest :=
  mkHttpRequest (hr_method r) (hr_url r) (hr_headers r) (Some body).

Definition StatusReportBody_new (config : RemoteConfig) (event : RemoteStatusEvent)
  : RequestBody :=
  StatusReportBody "status" (rse_event_id event) (rse_request_id event) (rse_batch_id event)
    (rse_job_id event) (report_as_str (rse_status event)) (rse_message event)
    (rse_occurred_at event) (configured_value (rc_device_id config))
    (configured_value (rc_device_name config)).
Definition ConnectionTestBody_new (uuid : string) (config : RemoteConfig) : RequestBody :=
  ConnectionTestBody "connection_test" uuid "test" (configured_value (rc_device_id config))
    (configured_value (rc_device_name config)).

(** [fetch_tasks] *)
Definition fetch_request (config : RemoteConfig) (url : Url) : HttpRequest :=
  with_common_headers (client_get url) config false.
Definition fetch_tasks (send : Network) (config : RemoteConfig)
  : result RemoteClientError (list RemoteTask) :=
  url ← endpoint_url config;
  response ← map_err RequestError (send (fetch_request config url));
  let status := cr_status response in
  if status =? 204 then Ok []
  else if negb (is_success status) then Err (HttpStatus status)
  else
    text ← map_err RequestError (cr_text response);
    map_err ProtocolError_ (parse_remote_tasks text).

(** [report_status] *)
Definition report_request (config : RemoteConfig) (event : RemoteStatusEvent) (url : Url)
  : HttpRequest :=
  with_json (StatusReportBody_new config event)
    (with_common_headers (client_post url) config false).
Definition report_status (send : Network) (config : RemoteConfig) (event : RemoteStatusEvent)
  : result RemoteClientError unit :=
  url ← endpoint_url config;
  response ← map_err RequestError (send (report_request config event url));
  let status := cr_status response in
  if is_success status then Ok tt else Err (HttpStatus status).

(** [test_connection]; two requests, so two answers of the network. *)
Definition test_connection (send_get send_post : Network) (uuid : string)
    (config : RemoteConfig) : result RemoteClientError unit :=
  url ← endpoint_url config;
  get_response ← map_err RequestError
    (send_get (with_common_headers (client_get url) config true));
  if negb (is_success (cr_status get_response))
  then Err (HttpStatus (cr_status get_response))
  else
    post_response ← map_err RequestError
      (send_post (with_json (ConnectionTestBody_new uuid config)
                    (with_common_headers (client_post url) config true)));
    if is_success (cr_status post_response) then Ok tt
    else Err (HttpStatus (cr_status post_response)).
End client.

(** ** Properties *)

Section client_properties.
Context `{U : UrlOps, TJ : !TaskJson}.

Lemma validate_html_source_agree job :
  validate_html_source_remote job = Ok tt ↔ validate_html_source job = Ok tt.
Proof.
  unfold validate_html_source_remote, validate_html_source. destruct (negb _); [done|].
  destruct (opt_filter _ _) as [u|]; simpl; [|done]. by destruct (validate_html_file_url u).
Qed.

Lemma validate_html_sources_ok tasks :
  validate_html_sources tasks = Ok tt ↔
  Forall (λ task, Forall (λ job, validate_html_source job = Ok tt) (task_jobs task)) tasks.
Proof.
  unfold validate_html_sources. rewrite try_for_each_ok.
  apply Forall_iff. intros task. rewrite try_for_each_ok.
  apply Forall_iff. apply validate_html_source_agree.
Qed.

Lemma parse_remote_tasks_ok input tasks :
  parse_remote_tasks input = Ok tasks →
  Forall (λ task, Forall (λ job, validate_html_source job = Ok tt) (task_jobs task)) tasks.
Proof.
  unfold parse_remote_tasks. destruct (is_empty _); [by intros [= <-]|].
  intros (value&_&H)%result_bind_ok. destruct (jv_is_null value); [by injection H as <-|].
  destruct (jv_is_array value); apply result_bind_ok in H as (ts&_&([]&Hv&H)%result_bind_ok);
    injection H as <-; by apply validate_html_sources_ok.
Qed.

(** What a poll hands to the worker can always be loaded and queued: tasks
    come only from a successful answer to one GET request at the configured
    endpoint, an empty answer or [null] is no task, and in every task of an
    accepted answer each HTML job has a source the queue accepts. *)
Theorem fetched_tasks_loadable (send : Network) (config : RemoteConfig)
    (tasks : list RemoteTask) :
  fetch_tasks send config = Ok tasks →
  (∃ v url response, configured_value (rc_endpoint_url config) = Some v ∧
     Url_parse v = Some url ∧ send (fetch_request config url) = Ok response ∧
     is_success (cr_status response) = true) ∧
  Forall (λ task, Forall (λ job, validate_html_source job = Ok tt) (task_jobs task)) tasks.
Proof.
  unfold fetch_tasks, endpoint_url.
  intros (url&(v&Hv%ok_or_ok&Hu%ok_or_ok)%result_bind_ok&H)%result_bind_ok.
  apply result_bind_ok in H as (resp&Hs%map_err_ok&H).
  destruct (cr_status resp =? 204) eqn:H204.
  - injection H as <-. split; [|done]. exists v, url, resp. apply N.eqb_eq in H204.
    rewrite H204. by split_and!.
  - destruct (is_success _) eqn:Hok; simpl in H; [|done].
    apply result_bind_ok in H as (text&_&H%map_err_ok).
    split; [by exists v, url, resp|]. by eapply parse_remote_tasks_ok.
Qed.

(** An error that stops the worker until the configuration changes. *)
Definition configuration_answer (status : N) : Prop :=
  status = 401 ∨ status = 403 ∨ status = 404.

Lemma is_configuration_status_spec e :
  is_configuration_status e = true ↔ ∃ n, e = HttpStatus n ∧ configuration_answer n.
Proof.
  unfold configuration_answer. destruct e as [| |n|e|e]; simpl;
    try (split; [done|by intros (?&[=]&_)]).
  rewrite !orb_true_iff, !N.eqb_eq. split.
  - intros [[->| ->]| ->]; eexists; (split; [done|tauto]).
  - intros (?&[= <-]&?). tauto.
Qed.

Lemma configuration_not_success n : configuration_answer n → is_success n = false.
Proof. by intros [->|[->| ->]]. Qed.

(** The worker's configuration errors are exactly the answers 401, 403 and
    404 of the configured endpoint, to a poll and to a report alike; a missing
    or malformed endpoint, a network failure and an unreadable body are not. *)
Theorem configuration_errors (send : Network) (config : RemoteConfig) (ev : RemoteStatusEvent) :
  ((∃ e, fetch_tasks send config = Err e ∧ is_configuration_status e = true) ↔
   ∃ url r, endpoint_url config = Ok url ∧ send (fetch_request config url) = Ok r ∧
     configuration_answer (cr_status r)) ∧
  ((∃ e, report_status send config ev = Err e ∧ is_configuration_status e = true) ↔
   ∃ url r, endpoint_url config = Ok url ∧ send (report_request config ev url) = Ok r ∧
     configuration_answer (cr_status r)).
Proof.
  assert (∀ e, endpoint_url config = Err e → is_configuration_status e = false) as Hend.
  { intros e. unfold endpoint_url. destruct (configured_value _) as [v|]; simpl;
      [|by intros [= <-]]. destruct (Url_parse v); simpl; [done|by intros [= <-]]. }
  unfold fetch_tasks, report_status. destruct (endpoint_url config) as [url|e] eqn:He; simpl.
  2:{ specialize (Hend e eq_refl).
      split; (split; [intros (?&[= <-]&?); congruence|by intros (?&?&[=]&_)]). }
  split.
  - destruct (send (fetch_request config url)) as [r|e] eqn:Hr; simpl.
    2:{ split; [by intros (?&[= <-]&?)|]. intros (?&?&[= <-]&?&_). congruence. }
    destruct (cr_status r =? 204) eqn:H2.
    { split; [by intros (?&[=]&_)|]. intros (?&r'&[= <-]&Hr'&Hc).
      assert (r' = r) as -> by congruence. apply N.eqb_eq in H2. rewrite H2 in Hc.
      by destruct Hc as [|[|]]. }
    destruct (is_success (cr_status r)) eqn:Hs; simpl.
    + split.
      * intros (e&Hf&Hc). destruct (cr_text r) as [t|]; simpl in Hf; [|by injection Hf as <-].
        destruct (parse_remote_tasks t); simpl in Hf; [done|by injection Hf as <-].
      * intros (?&r'&[= <-]&Hr'&Hc%configuration_not_success). congruence.
    + split.
      * intros (?&[= <-]&(?&[= <-]&Hc)%is_configuration_status_spec). by exists url, r.
      * intros (?&r'&[= <-]&Hr'&Hc). assert (r' = r) as -> by congruence.
        eexists. split; [done|]. apply is_configuration_status_spec. by eexists.
  - destruct (send (report_request config ev url)) as [r|e] eqn:Hr; simpl.
    2:{ split; [by intros (?&[= <-]&?)|]. intros (?&?&[= <-]&?&_). congruence. }
    destruct (is_success (cr_status r)) eqn:Hs; simpl.
    + split; [by intros (?&[=]&_)|].
      intros (?&r'&[= <-]&Hr'&Hc%configuration_not_success). congruence.
    + split.
      * intros (?&[= <-]&(?&[= <-]&Hc)%is_configuration_status_spec). by exists url, r.
      * intros (?&r'&[= <-]&Hr'&Hc). assert (r' = r) as -> by congruence.
        eexists. split; [done|]. apply is_configuration_status_spec. by eexists.
Qed.
End client_properties.

(** ** A concrete service, for the witnesses *)

Definition toy_html_job (id url : string) : PrintJobInput :=
  mkPrintJobInput id Html (Some "office") (Some url) None None None None None.
(** A response is a list of job ids, each a task for a page of one site. *)
#[export] Instance toy_task_json : TaskJson := {|
  JsonValue := list string;
  jv_parse s := Ok (split_char ","%char s);
  jv_is_null v := bool_decide (v = ["null"]);
  jv_is_array _ := true;
  jv_to_task _ := Err "not a task";
  jv_to_tasks v := Ok (map (λ id, RPrint ("req-" +:+ id) (toy_html_job id "https://shop.example/p")) v)
|}.
Definition toy_remote_config : RemoteConfig :=
  mkRemoteConfig true (Some " https://tasks.example/poll ") (Some "secret") None None 5 3 30.
Definition toy_network : Network := λ _, Ok (mkClientResponse 200 (Ok "7,8")).

Lemma fetched_tasks_loadable_witness :
  ∃ tasks, fetch_tasks toy_network toy_remote_config = Ok tasks ∧ length tasks = 2%nat ∧
    Forall (λ task, Forall (λ job, validate_html_source job = Ok tt) (task_jobs task)) tasks.
Proof.
  eexists. split; [vm_compute; reflexivity|]. split; [reflexivity|].
  apply (fetched_tasks_loadable toy_network toy_remote_config). vm_compute. reflexivity.
Defined.
