(* ===== verification/RemoteWorker.v ===== *)
(** * The remote worker ([crates/runtime/src/remote_worker.rs])

    Polling the remote service, recording and queueing its jobs, and delivering
    the status reports, with the loop around them. *)

From S2P Require Import Prelude RustStr F64 NetAddr Externs Toy FileSys PrintTypes Protocol.
From S2P Require Import IpWhitelist Config JobQueue Document Office Activity Sqlite TaskHistory.
From S2P Require Import RemoteStore State RemoteClient.
Open Scope string_scope.
Open Scope N_scope.
Open Scope list_scope.

(** What the worker also meets: the network at each request, and the time crate's
    [now + seconds] in RFC 3339, which panics when the sum is out of its range. *)
Class RemoteEnv `{U : UrlOps} := {
  env_send : nat → Network;
  env_now_plus : nat → N → option string
}.

Section remote_worker.
Context `{U : UrlOps, B : Base64Ops, TJ : !TaskJson, R : !RuntimeEnv, RE : !RemoteEnv}.

Record PollOutcome := mkPollOutcome { received : N; enqueued : N; duplicated : N }.
Definition PollOutcome_default : PollOutcome := mkPollOutcome 0 0 0.
Record ReportOutcome := mkReportOutcome { delivered : N; will_retry : N; abandoned : N }.
Definition ReportOutcome_default : ReportOutcome := mkReportOutcome 0 0 0.

(** [RemoteWorkerError]; [WPanicked] is the panic of [retry_at_string]. *)
Inductive RemoteWorkerError :=
  | WClient (e : RemoteClientError)
  | WStore (e : SqlError)
  | WQueue (e : QueueError)
  | MissingStore
  | InvalidTask (message : string)
  | WPanicked.

Definition is_configuration_error {T} (r : result RemoteWorkerError T) : bool :=
  match r with Err (WClient e) => is_configuration_status e | _ => false end.

Definition is_panic {T} (r : result RemoteWorkerError T) : bool :=
  match r with Err WPanicked => true | _ => false end.

Definition now_string (n : nat) : string := env_now n.

Definition retry_at_string (n : nat) (config : RemoteConfig) : option string :=
  let seconds := N.min (N.max (rc_poll_interval_seconds config) 1) i64_max in
  env_now_plus n seconds.

(** [state.remote_store.as_ref().ok_or(MissingStore)?] *)
Definition require_store : Handler RemoteWorkerError unit :=
  store ← gets st_remote_store;
  match store with None => raise MissingStore | Some _ => mret tt end.

(** An operation on the store. *)
Definition on_store {A} (op : DbFault → RemoteStore → result SqlError A * RemoteStore)
  : Handler RemoteWorkerError A :=
  n ← tick;
  store ← gets st_remote_store;
  match store with
  | None => raise MissingStore
  | Some db =>
      let '(r, db') := op (env_db_fault n) db in
      _ ← modify (set_remote_store (Some db'));
      lift (map_err WStore r)
  end.

Definition validate_remote_job (job : PrintJobInput) : Handler RemoteWorkerError unit :=
  max_file_size_mb ← gets (λ s, lc_max_file_size_mb (cfg_limits (st_config s)));
  lift (map_err (λ e, InvalidTask (JobValidationError_display e))
          (validate_for_acceptance job max_file_size_mb)).

Definition record_remote_job (now request_id : string) (batch_id : option string)
    (job : PrintJobInput) : Handler RemoteWorkerError bool :=
  on_store (λ f, record_job_if_new f (mkNewRemoteJob request_id batch_id (ji_job_id job) now)).

(** A queue operation under its lock, waking the worker when it succeeds. *)
Definition accept_and_notify (op : QueueState → result QueueError unit * QueueState)
  : Handler RemoteWorkerError unit :=
  queue ← gets st_queue;
  let '(result, queue) := op queue in
  _ ← modify (set_queue queue);
  _ ← lift (map_err WQueue result);
  modify (set_permit true).

Definition enqueue_remote_job (now request_id : string) (batch_id : option string)
    (job : PrintJobInput) : Handler RemoteWorkerError bool :=
  is_new ← record_remote_job now request_id batch_id job;
  if negb is_new then mret false
  else
    _ ← accept_and_notify (λ queue, accept_remote_job queue request_id job);
    mret true.

(** ** Polling *)

(** The loop over the jobs of a batch: the new jobs and the duplicates so far. *)
Fixpoint record_batch (now request_id batch_id : string) (jobs new_jobs : list PrintJobInput)
    (duplicated : N) : Handler RemoteWorkerError (list PrintJobInput * N) :=
  match jobs with
  | [] => mret (new_jobs, duplicated)
  | job :: jobs' =>
      _ ← validate_remote_job job;
      is_new ← record_remote_job now request_id (Some batch_id) job;
      if is_new : bool
      then record_batch now request_id batch_id jobs' (new_jobs ++ [job]) duplicated
      else record_batch now request_id batch_id jobs' new_jobs (duplicated + 1)
  end.

(** The body of the loop over the tasks. *)
Definition poll_task (now : string) (task : RemoteTask) (outcome : PollOutcome)
  : Handler RemoteWorkerError PollOutcome :=
  match task with
  | RPrint request_id job =>
      _ ← validate_remote_job job;
      is_new ← enqueue_remote_job now request_id None job;
      if is_new : bool
      then mret (mkPollOutcome (received outcome) (enqueued outcome + 1) (duplicated outcome))
      else mret (mkPollOutcome (received outcome) (enqueued outcome) (duplicated outcome + 1))
  | RPrintBatch request_id batch_id jobs =>
      '(new_jobs, duplicated) ← record_batch now request_id batch_id jobs [] (duplicated outcome);
      if bool_decide (new_jobs = []) then
        mret (mkPollOutcome (received outcome) (enqueued outcome) duplicated)
      else
        let enqueued := enqueued outcome + N.of_nat (length new_jobs) in
        _ ← accept_and_notify (λ queue,
              accept_remote_batch queue request_id batch_id new_jobs);
        mret (mkPollOutcome (received outcome) enqueued duplicated)
  end.

Fixpoint poll_tasks (now : string) (tasks : list RemoteTask) (outcome : PollOutcome)
  : Handler RemoteWorkerError PollOutcome :=
  match tasks with
  | [] => mret outcome
  | task :: tasks' =>
      outcome ← poll_task now task outcome;
      poll_tasks now tasks' outcome
  end.

Definition poll_once : Handler RemoteWorkerError PollOutcome :=
  config ← gets (λ s, cfg_remote (st_config s));
  if negb (rc_enabled config) then mret PollOutcome_default
  else
    _ ← require_store;
    n ← tick;
    let now := now_string n in
    tasks ← lift (map_err WClient (fetch_tasks (env_send n) config));
    poll_tasks now tasks (mkPollOutcome (N.of_nat (length tasks)) 0 0).

(** ** Reporting *)

(** The body of the loop over the due events. *)
Definition report_event (config : RemoteConfig) (now : string) (event : RemoteStatusEvent)
    (outcome : ReportOutcome) : Handler RemoteWorkerError ReportOutcome :=
  n ← tick;
  match report_status (env_send n) config event with
  | Ok _ =>
      _ ← on_store (λ f, mark_delivered f (rse_event_id event) now);
      mret (mkReportOutcome (delivered outcome + 1) (will_retry outcome) (abandoned outcome))
  | Err error =>
      if is_configuration_status error then raise (WClient error)
      else
        retry_at ← lift (ok_or WPanicked (retry_at_string n config));
        o ← on_store (λ f, mark_delivery_failed f (rse_event_id event) retry_at
              (RemoteClientError_display error) (N.max (rc_max_report_retries config) 1));
        match o with
        | OWillRetry =>
            mret (mkReportOutcome (delivered outcome) (will_retry outcome + 1) (abandoned outcome))
        | OAbandoned =>
            mret (mkReportOutcome (delivered outcome) (will_retry outcome) (abandoned outcome + 1))
        end
  end.

Fixpoint report_events (config : RemoteConfig) (now : string) (events : list RemoteStatusEvent)
    (outcome : ReportOutcome) : Handler RemoteWorkerError ReportOutcome :=
  match events with
  | [] => mret outcome
  | event :: events' =>
      outcome ← report_event config now event outcome;
      report_events config now events' outcome
  end.

Definition report_pending_once : Handler RemoteWorkerError ReportOutcome :=
  config ← gets (λ s, cfg_remote (st_config s));
  if negb (rc_enabled config) then mret ReportOutcome_default
  else
    _ ← require_store;
    n ← tick;
    let now := now_string n in
    events ← on_store (λ f db, (pending_status_events f now 20 db, db));
    report_events config now events ReportOutcome_default.

(** ** The loop *)

(** What a round of [run_worker_until] ends in: the loop stops, waits for a
    change of the configuration, sleeps, or panicked. *)
Inductive RoundEnd := REnd | RWaitNotify | RSleep (seconds : N) | RPanicked.

Definition remote_round (cancelled : bool) (s : AgentState) : RoundEnd * AgentState :=
  if cancelled then (REnd, s)
  else
    let config := cfg_remote (st_config s) in
    if negb (rc_enabled config) then (RWaitNotify, s)
    else
      let '(poll_result, s) := poll_once s in
      let '(report_result, s) := report_pending_once s in
      if is_panic report_result then (RPanicked, s)
      else if is_configuration_error poll_result || is_configuration_error report_result
      then (RWaitNotify, s)
      else (RSleep (N.max (rc_poll_interval_seconds config) 1), s).
End remote_worker.

(** ** What a poll does *)

Section poll_lemmas.
Context `{U : UrlOps, B : Base64Ops, TJ : !TaskJson, R : !RuntimeEnv, RE : !RemoteEnv}.

(** Between the two states only the clock and the recorded jobs moved, and the
    recorded jobs grew. *)
Record recorded (s s' : AgentState) (db db' : RemoteStore) : Prop := {
  re_store : st_remote_store s' = Some db';
  re_mono : remote_jobs db ⊆ remote_jobs db';
  re_events : remote_status_events db' = remote_status_events db;
  re_queue : st_queue s' = st_queue s;
  re_config : st_config s' = st_config s;
  re_rest : st_logs s' = st_logs s ∧ st_sent s' = st_sent s ∧
            st_task_history s' = st_task_history s ∧ st_fs s' = st_fs s ∧
            st_calls s' = st_calls s
}.

Lemma recorded_refl s db : st_remote_store s = Some db → recorded s s db db.
Proof. by split. Qed.
Lemma recorded_trans s1 s2 s3 db1 db2 db3 :
  recorded s1 s2 db1 db2 → recorded s2 s3 db2 db3 → recorded s1 s3 db1 db3.
Proof.
  intros [A1 A2 A3 A4 A5 (A6&A7&A8&A9&A10)] [B1 B2 B3 B4 B5 (B6&B7&B8&B9&B10)].
  split; try congruence; [by etrans|]. split_and!; congruence.
Qed.

Lemma record_job_if_new_effect f nj db r db' :
  record_job_if_new f nj db = (r, db') →
  remote_jobs db ⊆ remote_jobs db' ∧ remote_status_events db' = remote_status_events db ∧
  match r with
  | Ok true => remote_jobs db !! nj_job_id nj = None ∧ is_Some (remote_jobs db' !! nj_job_id nj)
  | _ => db' = db
  end.
Proof.
  unfold record_job_if_new, execute. destruct (f 0%nat); [by intros [= <- <-]|].
  destruct (remote_jobs db !! nj_job_id nj) as [row|] eqn:Hj; intros [= <- <-]; [done|].
  simpl. split_and!; [by apply insert_subseteq|done|done|].
  rewrite lookup_insert, decide_True by done. by eexists.
Qed.

Lemma on_store_eq {A} (op : DbFault → RemoteStore → result SqlError A * RemoteStore) s db :
  st_remote_store s = Some db →
  on_store op s =
    let '(r, db') := op (env_db_fault (st_tick s)) db in
    (map_err WStore r, set_remote_store (Some db') (next_tick s)).
Proof.
  intros Hs. unfold on_store. rewrite M_bind_eq. unfold tick at 1. rewrite M_bind_eq.
  unfold gets at 1. change (st_remote_store (next_tick s)) with (st_remote_store s).
  rewrite Hs. by destruct (op _ db).
Qed.

Lemma record_remote_job_spec now r b job s db :
  st_remote_store s = Some db →
  ∃ db', recorded s (record_remote_job now r b job s).2 db db' ∧
    match (record_remote_job now r b job s).1 with
    | Ok true => remote_jobs db !! ji_job_id job = None ∧
        is_Some (remote_jobs db' !! ji_job_id job)
    | Ok false => True
    | Err _ => True
    end.
Proof.
  intros Hs. unfold record_remote_job. rewrite (on_store_eq _ _ _ Hs).
  destruct (record_job_if_new _ _ db) as [res db'] eqn:He.
  apply record_job_if_new_effect in He as (Hm&Hev&Hres). exists db'. split; [by split|].
  by destruct res as [[]|].
Qed.

Lemma validate_remote_job_spec job s :
  (validate_remote_job job s).2 = s ∧
  ((validate_remote_job job s).1 = Ok tt ↔
   validate_for_acceptance job (lc_max_file_size_mb (cfg_limits (st_config s))) = Ok tt).
Proof.
  unfold validate_remote_job. rewrite M_bind_eq. unfold gets at 1 2, lift. simpl.
  split; [done|]. by destruct (validate_for_acceptance _ _) as [[]|].
Qed.

(** The jobs a loop over a batch found to be new. *)
Definition new_among (db db' : RemoteStore) (js : list PrintJobInput) : Prop :=
  NoDup (map ji_job_id js) ∧
  ∀ j, j ∈ js → remote_jobs db !! ji_job_id j = None ∧ is_Some (remote_jobs db' !! ji_job_id j).

Lemma new_among_nil db db' : new_among db db' [].
Proof. split; [constructor|]. by intros j ?%not_elem_of_nil. Qed.

Lemma new_among_app db1 db2 db3 l k :
  remote_jobs db1 ⊆ remote_jobs db2 → remote_jobs db2 ⊆ remote_jobs db3 →
  new_among db1 db2 l → new_among db2 db3 k → new_among db1 db3 (l ++ k).
Proof.
  intros Hm1 Hm2 [Hn1 H1] [Hn2 H2]. split.
  - rewrite map_app. apply NoDup_app. split_and!; [done| |done].
    intros i (j&->&Hj)%list_elem_of_fmap (j'&Heq&Hj')%list_elem_of_fmap.
    destruct (H1 j Hj) as [_ [row Hrow]], (H2 j' Hj') as [Hnone _]. congruence.
  - intros j [Hj|Hj]%elem_of_app.
    + destruct (H1 j Hj) as [? [row Hrow]]. split; [done|]. exists row.
      by eapply lookup_weaken.
    + destruct (H2 j Hj) as [Hnone ?]. split; [|done]. by eapply lookup_weaken_None.
Qed.

Lemma record_batch_spec now r b jobs : ∀ news dup s db,
  st_remote_store s = Some db →
  ∃ db', recorded s (record_batch now r b jobs news dup s).2 db db' ∧
    match (record_batch now r b jobs news dup s).1 with
    | Ok (news', dup') => ∃ added, news' = news ++ added ∧ added `sublist_of` jobs ∧
        N.of_nat (length jobs) + dup = N.of_nat (length added) + dup' ∧
        new_among db db' added ∧
        Forall (λ j, validate_for_acceptance j
          (lc_max_file_size_mb (cfg_limits (st_config s))) = Ok tt) added
    | Err _ => True
    end.
Proof.
  induction jobs as [|j jobs IH]; intros news dup s db Hs.
  { exists db. split; [by apply recorded_refl|]. simpl. exists [].
    rewrite app_nil_r. split_and!; [done..|apply new_among_nil|constructor]. }
  cbn [record_batch]. rewrite M_bind_eq.
  destruct (validate_remote_job_spec j s) as [Hv1 Hv2].
  destruct (validate_remote_job j s) as [[[]|e] s0]; simpl in Hv1, Hv2; subst s0.
  2:{ exists db. by split; [apply recorded_refl|]. }
  rewrite M_bind_eq. destruct (record_remote_job_spec now r (Some b) j s db Hs) as (db1&Hr1&Hnew).
  destruct (record_remote_job now r (Some b) j s) as [[[]|e] s1]; simpl in Hr1, Hnew.
  - destruct (IH (news ++ [j]) dup s1 db1) as (db2&Hr2&Hres); [by apply Hr1|].
    exists db2. split; [by eapply recorded_trans|].
    destruct (record_batch now r b jobs (news ++ [j]) dup s1) as [[[news' dup']|e] s2];
      simpl in *; [|done].
    destruct Hres as (added&->&Hsub&Hlen&Hna&Hval). exists (j :: added).
    rewrite <-app_assoc. split_and!; [done|by apply sublist_skip|simpl; lia| |].
    + apply (new_among_app db db1 db2 [j] added); [by apply Hr1|by apply Hr2| |done].
      split; [apply NoDup_singleton|]. by intros ? ->%list_elem_of_singleton.
    + constructor; [by apply Hv2|]. by rewrite <-(re_config _ _ _ _ Hr1).
  - destruct (IH news (dup + 1) s1 db1) as (db2&Hr2&Hres); [by apply Hr1|].
    exists db2. split; [by eapply recorded_trans|].
    destruct (record_batch now r b jobs news (dup + 1) s1) as [[[news' dup']|e] s2];
      simpl in *; [|done].
    destruct Hres as (added&->&Hsub&Hlen&[Hn Hna]&Hval). exists added.
    split_and!; [done|by apply sublist_cons|lia| |by rewrite <-(re_config _ _ _ _ Hr1)].
    split; [done|]. intros j' Hj'. destruct (Hna j' Hj') as [??]. split; [|done].
    eapply lookup_weaken_None; [done|apply Hr1].
  - exists db1. by split.
Qed.

(** Between the two states exactly the jobs [js] were queued by a poll: they are
    remote, were not recorded before and are recorded now; nothing else of the
    state moved but the clock and the worker's permit. *)
Record polled (s s' : AgentState) (db db' : RemoteStore) (js : list QueuedJob) : Prop := {
  po_store : st_remote_store s' = Some db';
  po_mono : remote_jobs db ⊆ remote_jobs db';
  po_events : remote_status_events db' = remote_status_events db;
  po_queue : pending (st_queue s') = pending (st_queue s) ++ js;
  po_jobs : ∀ q, q ∈ js → qj_remote q = true ∧ remote_jobs db !! qj_id q = None ∧
    is_Some (remote_jobs db' !! qj_id q) ∧
    validate_for_acceptance (qj_job q)
      (lc_max_file_size_mb (cfg_limits (st_config s))) = Ok tt;
  po_nodup : NoDup (map (λ q, qj_id q) js);
  po_config : st_config s' = st_config s;
  po_rest : st_logs s' = st_logs s ∧ st_sent s' = st_sent s ∧
            st_task_history s' = st_task_history s ∧ st_fs s' = st_fs s ∧
            st_calls s' = st_calls s
}.

Lemma recorded_polled s s' db db' : recorded s s' db db' → polled s s' db db' [].
Proof.
  intros [? ? ? Hq ? ?]. split; try done.
  - by rewrite Hq, app_nil_r.
  - by intros q ?%not_elem_of_nil.
  - constructor.
Qed.

Lemma polled_trans s1 s2 s3 db1 db2 db3 l k :
  polled s1 s2 db1 db2 l → polled s2 s3 db2 db3 k → polled s1 s3 db1 db3 (l ++ k).
Proof.
  intros [A1 A2 A3 A4 A5 A6 A7 (A8&A9&A10&A11&A12)] [B1 B2 B3 B4 B5 B6 B7 (B8&B9&B10&B11&B12)].
  split; try congruence.
  - by etrans.
  - by rewrite B4, A4, app_assoc.
  - intros q [Hq|Hq]%elem_of_app.
    + destruct (A5 q Hq) as (?&?&[row ?]&?). split_and!; try done.
      exists row. by eapply lookup_weaken.
    + destruct (B5 q Hq) as (?&?&?&?). split_and!; try done.
      * by eapply lookup_weaken_None.
      * by rewrite <-A7.
  - rewrite map_app. apply NoDup_app. split_and!; [done| |done].
    intros i (q&->&Hq)%list_elem_of_fmap (q'&Heq&Hq')%list_elem_of_fmap.
    destruct (A5 q Hq) as (_&_&[row Hrow]&_), (B5 q' Hq') as (_&Hnone&_). congruence.
  - split_and!; congruence.
Qed.

(** The queue operation after the recording: all the new jobs or none. *)
Lemma accept_and_notify_spec f op s :
  (∀ st, queue_step st op =
    match f st with
    | (Ok _, st') => (EvAccepted (op_jobs op), st')
    | (Err e, st') => (EvRejected e, st')
    end) →
  (op_valid (st_queue s) op ∧
   accept_and_notify f s = (Ok tt, set_permit true (set_queue (enqueue (st_queue s) op) s))) ∨
  (¬ op_valid (st_queue s) op ∧ ∃ e, accept_and_notify f s = (Err (WQueue e), s)).
Proof.
  intros Hf. pose proof (queue_step_spec (st_queue s) op) as Hs. rewrite Hf in Hs.
  unfold accept_and_notify. rewrite M_bind_eq. unfold gets at 1 2.
  destruct (f (st_queue s)) as [[[]|e] q']; simpl in Hs.
  - left. by destruct Hs as (_&Hv&->).
  - right. destruct Hs as [-> Hn]. split; [done|]. exists e. rewrite M_bind_eq.
    unfold modify at 1. by destruct s.
Qed.

Lemma accept_after_record f op js s s1 db db1 :
  recorded s s1 db db1 → new_among db db1 js →
  Forall (λ j, validate_for_acceptance j
    (lc_max_file_size_mb (cfg_limits (st_config s))) = Ok tt) js →
  (∀ st, queue_step st op =
    match f st with
    | (Ok _, st') => (EvAccepted (op_jobs op), st')
    | (Err e, st') => (EvRejected e, st')
    end) →
  map qj_job (op_jobs op) = js → (∀ q, q ∈ op_jobs op → qj_remote q = true) →
  match (accept_and_notify f s1).1 with
  | Ok _ => polled s (accept_and_notify f s1).2 db db1 (op_jobs op)
  | Err _ => (accept_and_notify f s1).2 = s1
  end.
Proof.
  intros Hr [Hn Hna] Hv Hf Hjs Hrem.
  destruct (accept_and_notify_spec f op s1 Hf) as [[_ ->]|(_&e&->)]; simpl; [|done].
  destruct Hr as [R1 R2 R3 R4 R5 R6]. split; simpl; try done.
  - by rewrite R4.
  - intros q Hq. assert (qj_job q ∈ js) as Hj.
    { rewrite <-Hjs. apply list_elem_of_fmap. by exists q. }
    destruct (Hna _ Hj) as [??]. rewrite Forall_forall in Hv. split_and!; auto.
  - rewrite <-Hjs, map_map in Hn. exact Hn.
Qed.

(** The outcome [o'] counts the jobs of [task] on top of [o]. *)
Definition counted (task_jobs : list PrintJobInput) (js : list QueuedJob)
    (o o' : PollOutcome) : Prop :=
  map qj_job js `sublist_of` task_jobs ∧ received o' = received o ∧
  enqueued o' = enqueued o + N.of_nat (length js) ∧
  enqueued o' + duplicated o' = enqueued o + duplicated o + N.of_nat (length task_jobs).

(** What polling one task does: the jobs [js] were queued, and the outcome counts
    the task's jobs. *)
Definition task_polled now task o s db : Prop :=
  ∃ db' js, polled s (poll_task now task o s).2 db db' js ∧
    match (poll_task now task o s).1 with
    | Ok o' => counted (task_jobs task) js o o'
    | Err _ => True
    end.
Lemma poll_print_spec now r job o s db :
  st_remote_store s = Some db → task_polled now (RPrint r job) o s db.
Proof.
  intros Hs. unfold task_polled, poll_task.
  rewrite M_bind_eq. destruct (validate_remote_job_spec job s) as [Hv1 Hv2].
  destruct (validate_remote_job job s) as [[[]|e] s0]; simpl in Hv1, Hv2; subst s0.
  2:{ exists db, []. split; [|done]. by apply recorded_polled, recorded_refl. }
  rewrite M_bind_eq. unfold enqueue_remote_job. rewrite M_bind_eq.
  destruct (record_remote_job_spec now r None job s db Hs) as (db1&Hr&Hnew).
  destruct (record_remote_job now r None job s) as [[[]|e] s1]; simpl in Hr, Hnew;
    cbv beta iota delta [negb].
  + rewrite M_bind_eq.
    pose proof (accept_after_record (λ queue, accept_remote_job queue r job)
      (OpJob r job None true) [job] s s1 db db1) as Ha.
    destruct (accept_and_notify _ s1) as [[[]|e] s2]; simpl in Ha; simpl.
    * eexists db1, _. split; [apply Ha; try done|].
      -- split; [apply NoDup_singleton|]. by intros ? ->%list_elem_of_singleton.
      -- constructor; [by apply Hv2|constructor].
      -- intros st. unfold accept_remote_job. by rewrite html_local_origin_none.
      -- by intros q ->%list_elem_of_singleton.
      -- unfold counted. simpl. split_and!; try done; lia.
    * exists db1, []. split; [|done]. apply recorded_polled.
      assert (s2 = s1) as ->; [|done]. apply Ha; try done.
      -- split; [apply NoDup_singleton|]. by intros ? ->%list_elem_of_singleton.
      -- constructor; [by apply Hv2|constructor].
      -- intros st. unfold accept_remote_job. by rewrite html_local_origin_none.
      -- by intros q ->%list_elem_of_singleton.
  + exists db1, []. split; [by apply recorded_polled|].
    split_and!; simpl; [apply sublist_nil_l|done|lia..].
  + exists db1, []. split; [by apply recorded_polled|done].
Qed.
Lemma poll_batch_spec now r b jobs o s db :
  st_remote_store s = Some db → task_polled now (RPrintBatch r b jobs) o s db.
Proof.
  intros Hs. unfold task_polled, poll_task.
  rewrite M_bind_eq.
  destruct (record_batch_spec now r b jobs [] (duplicated o) s db Hs) as (db1&Hr&Hres).
  destruct (record_batch now r b jobs [] (duplicated o) s) as [[[news dup']|e] s1];
    simpl in Hr, Hres; cbv beta iota.
  2:{ exists db1, []. split; [by apply recorded_polled|done]. }
  destruct Hres as (added&->&Hsub&Hlen&Hna&Hval).
  simpl app. destruct (bool_decide (added = [])) eqn:Hnil.
  { apply bool_decide_eq_true in Hnil. subst added.
    exists db1, []. split; [by apply recorded_polled|].
    split_and!; simpl in *; [apply sublist_nil_l|done|lia..]. }
  clear Hnil. cbv zeta. rewrite M_bind_eq.
  pose proof (accept_after_record (λ queue, accept_remote_batch queue r b added)
    (OpBatch r b added None true) added s s1 db db1 Hr Hna Hval) as Ha.
  assert (map qj_job (op_jobs (OpBatch r b added None true)) = added) as Hjobs.
  { simpl. rewrite map_map. simpl. apply map_id. }
  destruct (accept_and_notify _ s1) as [[[]|e] s2]; simpl in Ha; cbn [fst snd].
  + exists db1, (op_jobs (OpBatch r b added None true)). split; [apply Ha; try done|].
    * by intros q (j&->&_)%list_elem_of_fmap.
    * assert (length (op_jobs (OpBatch r b added None true)) = length added) as Hl
        by apply length_map.
      unfold counted. rewrite Hjobs, Hl. split_and!; try done. simpl. lia.
  + exists db1, []. split; [|done]. apply recorded_polled.
    assert (s2 = s1) as ->; [|done]. apply Ha; try done.
    by intros q (j&->&_)%list_elem_of_fmap.
Qed.
Lemma poll_task_spec now task o s db :
  st_remote_store s = Some db → task_polled now task o s db.
Proof. destruct task; [apply poll_print_spec|apply poll_batch_spec]. Qed.

Lemma poll_tasks_spec now tasks : ∀ o s db,
  st_remote_store s = Some db →
  ∃ db' js, polled s (poll_tasks now tasks o s).2 db db' js ∧
    match (poll_tasks now tasks o s).1 with
    | Ok o' => counted (tasks ≫= task_jobs) js o o'
    | Err _ => True
    end.
Proof.
  induction tasks as [|task tasks IH]; intros o s db Hs.
  { exists db, []. split; [by apply recorded_polled, recorded_refl|].
    unfold counted. simpl. split_and!; [done..|lia|lia]. }
  cbn [poll_tasks]. rewrite M_bind_eq.
  destruct (poll_task_spec now task o s db Hs) as (db1&l&Hp1&Hc1).
  destruct (poll_task now task o s) as [[o1|e] s1]; simpl in Hp1, Hc1.
  2:{ by exists db1, l. }
  destruct (IH o1 s1 db1) as (db2&k&Hp2&Hc2); [apply Hp1|].
  exists db2, (l ++ k). split; [by eapply polled_trans|].
  destruct (poll_tasks now tasks o1 s1) as [[o2|e] s2]; simpl in *; [|done].
  destruct Hc1 as (A1&A2&A3&A4), Hc2 as (B1&B2&B3&B4). unfold counted.
  change (list_bind _ _ task_jobs tasks) with (tasks ≫= task_jobs). rewrite map_app, !length_app.
  split_and!; [by apply sublist_app|congruence|lia|lia].
Qed.

Lemma poll_once_spec s db :
  st_remote_store s = Some db →
  ∃ db' js, polled s (poll_once s).2 db db' js ∧
    match (poll_once s).1 with
    | Ok o => if rc_enabled (cfg_remote (st_config s)) then
        ∃ tasks, fetch_tasks (env_send (st_tick s)) (cfg_remote (st_config s)) = Ok tasks ∧
          counted (tasks ≫= task_jobs) js (mkPollOutcome (N.of_nat (length tasks)) 0 0) o
        else js = [] ∧ o = PollOutcome_default
    | Err _ => True
    end.
Proof.
  intros Hs. unfold poll_once. rewrite M_bind_eq. unfold gets at 1 2.
  destruct (rc_enabled (cfg_remote (st_config s))) eqn:Hen; cbv beta iota delta [negb].
  2:{ exists db, []. split; [by apply recorded_polled, recorded_refl|by split]. }
  assert (require_store s = (Ok tt, s)) as Hreq.
  { unfold require_store. rewrite M_bind_eq. unfold gets at 1. by rewrite Hs. }
  rewrite M_bind_eq, Hreq, M_bind_eq. unfold tick at 1 2.
  rewrite M_bind_eq. unfold lift at 1 2.
  assert (recorded s (next_tick s) db db) as Hr0 by (by split).
  destruct (fetch_tasks _ _) as [tasks|e] eqn:Hf; cbn [map_err].
  2:{ exists db, []. split; [by apply recorded_polled|done]. }
  destruct (poll_tasks_spec (now_string (st_tick s)) tasks
    (mkPollOutcome (N.of_nat (length tasks)) 0 0) (next_tick s) db) as (db'&js&Hp&Hc); [done|].
  exists db', js. split; [apply (polled_trans _ _ _ _ _ _ [] js (recorded_polled _ _ _ _ Hr0) Hp)|].
  destruct (poll_tasks _ _ _ _) as [[o|e] s2]; simpl in *; [|done]. by exists tasks.
Qed.
End poll_lemmas.

(** ** What a round of reports does *)

Section report_lemmas.
Context `{U : UrlOps, B : Base64Ops, TJ : !TaskJson, R : !RuntimeEnv, RE : !RemoteEnv}.

(** Only the store and the clock move while reporting. *)
Definition only_store (s s' : AgentState) : Prop :=
  st_queue s' = st_queue s ∧ st_config s' = st_config s ∧ st_logs s' = st_logs s ∧
  st_sent s' = st_sent s ∧ st_task_history s' = st_task_history s ∧ st_fs s' = st_fs s ∧
  st_calls s' = st_calls s.

(** What becomes of a due event. *)
Inductive Handling := HDelivered | HWillRetry | HAbandoned.
#[export] Instance Handling_eq_dec : EqDecision Handling.
Proof. solve_decision. Defined.
Definition count (k : Handling) (ks : list Handling) : N := N.of_nat (length (filter (λ k', k' = k) ks)).
Definition outcome_of (ks : list Handling) : ReportOutcome :=
  mkReportOutcome (count HDelivered ks) (count HWillRetry ks) (count HAbandoned ks).

(** A due event handled at tick [n], from one store to the next: the service's answer at
    that time decides.  A success marks its row delivered; any other answer, unless it
    asks for the configuration to be fixed, counts one more failed delivery, which
    abandons the report when the configured maximum (at least 1) is reached and else
    leaves it pending until [retry_at_string]. *)
Definition handled (config : RemoteConfig) (now : string) (n : nat) (ev : RemoteStatusEvent)
    (k : Handling) (db db' : RemoteStore) : Prop :=
  match report_status (env_send n) config ev with
  | Ok _ => k = HDelivered ∧ db' = update_event (rse_event_id ev) (set_delivered now) db
  | Err e => is_configuration_status e = false ∧ ∃ retry_at row,
      retry_at_string n config = Some retry_at ∧ find_row (rse_event_id ev) db = Some row ∧
      let failures := saturating_add_u32 (sr_retry_count row) 1 in
      let last := N.max (rc_max_report_retries config) 1 <=? failures in
      k = (if last then HAbandoned else HWillRetry) ∧
      db' = update_event (rse_event_id ev)
              (set_failed failures retry_at (RemoteClientError_display e)
                 (if last then Abandoned else Pending)) db
  end.
(** Events handled one after the other, from tick [n] on: one tick for each request, one
    for each update. *)
Inductive handles (config : RemoteConfig) (now : string)
  : nat → list RemoteStatusEvent → list Handling → RemoteStore → RemoteStore → Prop :=
  | handles_nil n db : handles config now n [] [] db db
  | handles_cons n ev evs k ks db db1 db2 :
      handled config now n ev k db db1 → handles config now (2 + n) evs ks db1 db2 →
      handles config now n (ev :: evs) (k :: ks) db db2.
(** Why an event handled at tick [n] ends the round. *)
Definition stopped (config : RemoteConfig) (n : nat) (ev : RemoteStatusEvent) (db : RemoteStore)
    (e : RemoteWorkerError) : Prop :=
  match e with
  | WClient e => report_status (env_send n) config ev = Err e ∧ is_configuration_status e = true
  | WPanicked => is_ok (report_status (env_send n) config ev) = false ∧ retry_at_string n config = None
  | WStore e => (∃ i, env_db_fault (S n) i = Some e) ∨ find_row (rse_event_id ev) db = None
  | _ => False
  end.

Lemma report_event_spec config now ev o s db :
  st_remote_store s = Some db →
  only_store s (report_event config now ev o s).2 ∧
  match (report_event config now ev o s).1 with
  | Ok o' => ∃ k db', handled config now (st_tick s) ev k db db' ∧
      st_tick (report_event config now ev o s).2 = (2 + st_tick s)%nat ∧
      st_remote_store (report_event config now ev o s).2 = Some db' ∧
      o' = mkReportOutcome (delivered o + count HDelivered [k]) (will_retry o + count HWillRetry [k])
             (abandoned o + count HAbandoned [k])
  | Err e => stopped config (st_tick s) ev db e ∧
      st_remote_store (report_event config now ev o s).2 = Some db
  end.
Proof.
  intros Hs. unfold report_event. rewrite M_bind_eq. unfold tick.
  set (n := st_tick s). set (s1 := next_tick s).
  assert (st_remote_store s1 = Some db) as Hs1 by done.
  unfold handled. destruct (report_status (env_send n) config ev) as [[]|e] eqn:Hr.
  - rewrite M_bind_eq, (on_store_eq _ _ _ Hs1). cbv beta. unfold mark_delivered, execute.
    change (st_tick s1) with (S n). destruct (env_db_fault (S n) 0%nat) as [e|] eqn:Hf; cbn [map_err].
    + split; [done|]. split; [|done]. left. by exists 0%nat.
    + split; [done|]. exists HDelivered. eexists. split_and!; [done..|].
      unfold count. cbn. by rewrite !N.add_0_r.
  - destruct (is_configuration_status e) eqn:Hc.
    { split; [done|]. split; [|done]. by split. }
    rewrite M_bind_eq. unfold lift.
    destruct (retry_at_string n config) as [retry_at|] eqn:Hretry; cbn [ok_or].
    2:{ split; [done|]. split; [|done]. split; [by rewrite Hr|done]. }
    rewrite M_bind_eq, (on_store_eq _ _ _ Hs1). cbv beta. unfold mark_delivery_failed, execute.
    change (st_tick s1) with (S n). destruct (env_db_fault (S n) 0%nat) as [e0|] eqn:Hf.
    { split; [done|]. split; [|done]. left. by exists 0%nat. }
    destruct (find_row (rse_event_id ev) db) as [row|] eqn:Hrow.
    2:{ split; [done|]. split; [|done]. by right. }
    cbv zeta. destruct (env_db_fault (S n) 1%nat) as [e0|] eqn:Hf1.
    { split; [done|]. split; [|done]. left. by exists 1%nat. }
    cbn [map_err]. destruct (_ <=? _) eqn:Hlast.
    + split; [done|]. exists HAbandoned. eexists. split_and!; [done| |done..|].
      * exists retry_at, row. by rewrite Hlast.
      * unfold count. cbn. by rewrite !N.add_0_r.
    + split; [done|]. exists HWillRetry. eexists. split_and!; [done| |done..|].
      * exists retry_at, row. by rewrite Hlast.
      * unfold count. cbn. by rewrite !N.add_0_r.
Qed.

Lemma only_store_trans s1 s2 s3 : only_store s1 s2 → only_store s2 s3 → only_store s1 s3.
Proof.
  intros (?&?&?&?&?&?&?) (?&?&?&?&?&?&?). split_and!; congruence.
Qed.

Lemma count_cons k k' ks : count k (k' :: ks) = count k [k'] + count k ks.
Proof. change (k' :: ks) with ([k'] ++ ks). unfold count. rewrite filter_app, length_app. lia. Qed.

Lemma report_events_spec config now evs : ∀ o s db,
  st_remote_store s = Some db →
  only_store s (report_events config now evs o s).2 ∧
  ∃ dn ks db', handles config now (st_tick s) dn ks db db' ∧
    st_remote_store (report_events config now evs o s).2 = Some db' ∧
    match (report_events config now evs o s).1 with
    | Ok o' => evs = dn ∧
        o' = mkReportOutcome (delivered o + count HDelivered ks) (will_retry o + count HWillRetry ks)
               (abandoned o + count HAbandoned ks)
    | Err e => ∃ ev rest, evs = dn ++ ev :: rest ∧ stopped config (2 * length dn + st_tick s) ev db' e
    end.
Proof.
  induction evs as [|ev evs IH]; intros o s db Hs.
  { split; [done|]. exists [], [], db. simpl. split_and!; [constructor|done|done|].
    unfold count. simpl. rewrite !N.add_0_r. by destruct o. }
  cbn [report_events]. rewrite M_bind_eq.
  destruct (report_event_spec config now ev o s db Hs) as [Ho1 H1].
  destruct (report_event config now ev o s) as [[o1|e] s1]; simpl in Ho1, H1.
  2:{ split; [done|]. exists [], [], db. destruct H1 as [??]. split_and!; [constructor|done|].
      by exists ev, evs. }
  destruct H1 as (k&db1&Hk&Ht&Hs1&->).
  match goal with |- context [report_events config now evs ?z s1] =>
    destruct (IH z s1 _ Hs1) as [Ho2 (dn&ks&db2&Hf&Hs2&Hres)] end.
  split; [by eapply only_store_trans|]. exists (ev :: dn), (k :: ks), db2. rewrite Ht in Hf.
  split_and!; [by econstructor|done|].
  destruct (report_events _ _ _ _ s1) as [[o2|e] s2]; simpl in *.
  - destruct Hres as [-> ->]. split; [done|].
    rewrite !(count_cons _ k ks). f_equal; lia.
  - destruct Hres as (ev'&rest&->&Hst). exists ev', rest. split; [done|].
    rewrite Ht in Hst. by replace (S (length dn + S (length dn + 0) + st_tick s)) with
      (length dn + (length dn + 0) + S (S (st_tick s)))%nat by lia.
Qed.
End report_lemmas.

(** ** Properties *)

Section remote_properties.
Context `{U : UrlOps, B : Base64Ops, TJ : !TaskJson, R : !RuntimeEnv, RE : !RemoteEnv}.

(** C38: A poll accounts for every job it receives.  Whatever the service answers
    and whatever fails, the only effects are recorded job ids and queued jobs:
    each queued job is remote, was never recorded before, is recorded now, and
    has valid fields.  When the poll succeeds, the jobs it queued are, in order,
    jobs of the fetched tasks; it reports how many tasks came, how many jobs it
    queued, and the duplicates, which together are all the jobs of the tasks.
    A disabled remote service is not contacted. *)
Theorem poll_once_accounts (s : AgentState) (db : RemoteStore) :
  st_remote_store s = Some db →
  let '(r, s') := poll_once s in
  ∃ db' js, polled s s' db db' js ∧
    ∀ o, r = Ok o →
      (rc_enabled (cfg_remote (st_config s)) = false → js = [] ∧ o = PollOutcome_default) ∧
      (rc_enabled (cfg_remote (st_config s)) = true →
         ∃ tasks, fetch_tasks (env_send (st_tick s)) (cfg_remote (st_config s)) = Ok tasks ∧
           map qj_job js `sublist_of` (tasks ≫= task_jobs) ∧
           received o = N.of_nat (length tasks) ∧ enqueued o = N.of_nat (length js) ∧
           enqueued o + duplicated o = N.of_nat (length (tasks ≫= task_jobs))).
Proof.
  intros Hs. destruct (poll_once_spec s db Hs) as (db'&js&Hp&Hr).
  destruct (poll_once s) as [r s']. simpl in *. exists db', js. split; [done|].
  intros o ->. revert Hr. destruct (rc_enabled (cfg_remote (st_config s))); intros Hr.
  - split; [done|]. intros _. destruct Hr as (tasks&Hf&H1&H2&H3&H4). exists tasks.
    simpl in *. by split_and!.
  - by split.
Qed.

(** A history of polls: between two of them the rest of the program runs, the
    worker empties the queue, or the agent restarts; [env] says how. *)
Fixpoint poll_history (s : AgentState) (envs : list (AgentState → AgentState))
  : list QueuedJob :=
  match envs with
  | [] => []
  | env :: envs' =>
      let s' := (poll_once s).2 in
      drop (length (pending (st_queue s))) (pending (st_queue s')) ++ poll_history (env s') envs'
  end.

(** The recorded jobs are never forgotten: no code deletes them. *)
Definition keeps_jobs (env : AgentState → AgentState) : Prop :=
  ∀ s db, st_remote_store s = Some db →
    ∃ db', st_remote_store (env s) = Some db' ∧ remote_jobs db ⊆ remote_jobs db'.

Lemma poll_history_fresh envs : ∀ s db,
  st_remote_store s = Some db → Forall keeps_jobs envs →
  ∀ q, q ∈ poll_history s envs → remote_jobs db !! qj_id q = None.
Proof.
  induction envs as [|env envs IH]; intros s db Hs Hk q; simpl; [by intros ?%not_elem_of_nil|].
  apply Forall_cons in Hk as [Hk Hks].
  destruct (poll_once_spec s db Hs) as (db1&js&Hp&_).
  rewrite (po_queue _ _ _ _ _ Hp), drop_app_length. intros [Hq|Hq]%elem_of_app.
  - by apply (po_jobs _ _ _ _ _ Hp).
  - destruct (Hk _ _ (po_store _ _ _ _ _ Hp)) as (db2&Hs2&Hsub).
    eapply lookup_weaken_None; [by apply (IH (env (poll_once s).2) db2)|].
    etrans; [apply (po_mono _ _ _ _ _ Hp)|done].
Qed.

(** C16: A remote job is printed at most once, ever: over any number of polls,
    with any answers of the service and any failures of the store, and with the
    queue drained or the agent restarted between them, the jobs that polls put
    into the queue have pairwise distinct ids. *)
Theorem remote_jobs_at_most_once (s : AgentState) (db : RemoteStore)
    (envs : list (AgentState → AgentState)) :
  st_remote_store s = Some db → Forall keeps_jobs envs →
  NoDup (map (λ q, qj_id q) (poll_history s envs)).
Proof.
  revert s db. induction envs as [|env envs IH]; intros s db Hs Hk; simpl; [constructor|].
  apply Forall_cons in Hk as [Hk Hks].
  destruct (poll_once_spec s db Hs) as (db1&js&Hp&_).
  destruct (Hk _ _ (po_store _ _ _ _ _ Hp)) as (db2&Hs2&Hsub).
  rewrite (po_queue _ _ _ _ _ Hp), drop_app_length, map_app.
  apply NoDup_app. split_and!; [apply (po_nodup _ _ _ _ _ Hp)| |by eapply IH].
  intros i (q&->&Hq)%list_elem_of_fmap (q'&Heq&Hq')%list_elem_of_fmap.
  destruct (po_jobs _ _ _ _ _ Hp q Hq) as (_&_&[row Hrow]&_).
  apply (poll_history_fresh envs _ _ Hs2 Hks) in Hq'.
  rewrite Heq in Hrow. eapply lookup_weaken in Hrow; [|exact Hsub]. congruence.
Qed.

(** C39: A bad job takes its good siblings down: when a batch holds a valid new
    job before an invalid one, the poll fails after recording the valid job but
    before queueing it; no later poll ever queues it, in any future that keeps
    the store, so it is never printed and nothing is reported for it. *)
Theorem invalid_sibling_loses_job (s : AgentState) (db : RemoteStore)
    (r b : string) (good bad : PrintJobInput) (msg : JobValidationError)
    (env : AgentState → AgentState) (envs : list (AgentState → AgentState)) :
  let limit := lc_max_file_size_mb (cfg_limits (st_config s)) in
  st_remote_store s = Some db → rc_enabled (cfg_remote (st_config s)) = true →
  fetch_tasks (env_send (st_tick s)) (cfg_remote (st_config s)) =
    Ok [RPrintBatch r b [good; bad]] →
  remote_jobs db !! ji_job_id good = None → env_db_fault (S (st_tick s)) = no_fault →
  validate_for_acceptance good limit = Ok tt → validate_for_acceptance bad limit = Err msg →
  Forall keeps_jobs (env :: envs) →
  (poll_once s).1 = Err (InvalidTask (JobValidationError_display msg)) ∧
  st_queue (poll_once s).2 = st_queue s ∧
  ∀ q, q ∈ poll_history (env (poll_once s).2) envs → qj_id q ≠ ji_job_id good.
Proof.
  intros limit Hs Hen Hf Hnew Hfault Hgood Hbad [Hk Hks]%Forall_cons.
  set (rows := <[ji_job_id good := mkRemoteJobRow r (Some b) "queued"
    (now_string (st_tick s)) (now_string (st_tick s))]> (remote_jobs db)).
  set (s2 := set_remote_store (Some (mkRemoteStore rows (remote_status_events db)))
    (next_tick (next_tick s))).
  assert (poll_once s = (Err (InvalidTask (JobValidationError_display msg)), s2)) as Hpoll.
  { unfold poll_once. rewrite M_bind_eq. unfold gets at 1. rewrite Hen. cbv beta iota delta [negb].
    assert (require_store s = (Ok tt, s)) as Hreq.
    { unfold require_store. rewrite M_bind_eq. unfold gets at 1. by rewrite Hs. }
    rewrite M_bind_eq, Hreq, M_bind_eq. unfold tick at 1. rewrite M_bind_eq. unfold lift at 1.
    rewrite Hf. cbn [map_err poll_tasks]. rewrite M_bind_eq. unfold poll_task. rewrite M_bind_eq.
    cbn [record_batch].
    assert (∀ t j v, st_config t = st_config s → validate_for_acceptance j limit = v →
      validate_remote_job j t =
        (map_err (λ e, InvalidTask (JobValidationError_display e)) v, t)) as Hval.
    { intros t j v Ht <-. unfold validate_remote_job. rewrite M_bind_eq. unfold gets at 1.
      rewrite Ht. done. }
    rewrite M_bind_eq, (Hval _ good (Ok tt)) by done. cbn [map_err]. rewrite M_bind_eq.
    unfold record_remote_job. rewrite (on_store_eq _ _ db) by done. cbv beta.
    change (st_tick (next_tick s)) with (S (st_tick s)). rewrite Hfault.
    unfold record_job_if_new, execute, no_fault. cbn [nj_job_id]. rewrite Hnew. cbn [map_err].
    rewrite M_bind_eq, (Hval _ bad (Err msg)) by done. done. }
  rewrite Hpoll. simpl fst. simpl snd. split_and!; [done..|].
  intros q Hq Heq.
  destruct (Hk s2 (mkRemoteStore rows (remote_status_events db)) eq_refl) as (db3&Hs3&Hsub).
  apply (poll_history_fresh _ _ _ Hs3 Hks) in Hq. rewrite Heq in Hq.
  assert (rows !! ji_job_id good = Some (mkRemoteJobRow r (Some b) "queued"
    (now_string (st_tick s)) (now_string (st_tick s)))) as Hrow.
  { unfold rows. by rewrite lookup_insert, decide_True. }
  eapply lookup_weaken in Hrow; [|exact Hsub]. congruence.
Qed.

(** C22: A round of reports handles the due events in order, at most 20 of them, each by
    one request whose answer decides its row ([handled]): a success marks it delivered
    now, any other answer counts a failed delivery, which abandons the report at the
    configured maximum (at least 1) and else leaves it pending until the next retry.  A
    round that succeeds handled all due events, and tells how many of them were
    delivered, will be retried and were abandoned.  It ends early only at an event whose
    row the store refused to update or does not have, whose retry time overflows the
    clock, or whose answer asks for the configuration to be fixed; then the events before
    it were handled and the others are untouched.  Nothing but the reports changes. *)
Theorem report_pending_outcome (s : AgentState) (db : RemoteStore) :
  st_remote_store s = Some db → rc_enabled (cfg_remote (st_config s)) = true →
  let config := cfg_remote (st_config s) in
  let now := env_now (st_tick s) in
  let due := pending_status_events (env_db_fault (S (st_tick s))) now 20 db in
  let '(r, s') := report_pending_once s in
  only_store s s' ∧
  ∃ dn ks db', handles config now (2 + st_tick s) dn ks db db' ∧ (length dn ≤ 20)%nat ∧
    st_remote_store s' = Some db' ∧
    match r with
    | Ok o => due = Ok dn ∧ o = outcome_of ks
    | Err e =>
        (∃ ev rest, due = Ok (dn ++ ev :: rest) ∧
           stopped config (2 * length dn + (2 + st_tick s)) ev db' e) ∨
        (dn = [] ∧ ∃ e', due = Err e' ∧ e = WStore e')
    end.
Proof.
  intros Hs Hen config now due. unfold report_pending_once. rewrite M_bind_eq. unfold gets at 1.
  fold config. fold config in Hen. rewrite Hen. cbv beta iota delta [negb].
  assert (require_store s = (Ok tt, s)) as Hreq.
  { unfold require_store. rewrite M_bind_eq. unfold gets at 1. by rewrite Hs. }
  rewrite M_bind_eq, Hreq, M_bind_eq. unfold tick at 1. cbv zeta.
  rewrite M_bind_eq, (on_store_eq _ (next_tick s) db) by done. cbv beta zeta.
  change (st_tick (next_tick s)) with (S (st_tick s)).
  change (now_string (st_tick s)) with now. fold due.
  destruct due as [evs|e] eqn:Hdue; cbn [map_err].
  2:{ split; [done|]. exists [], [], db. split_and!; simpl; [constructor|lia|done|].
      right. split; [done|]. by eexists. }
  set (s1 := set_remote_store (Some db) (next_tick (next_tick s))).
  destruct (report_events_spec config now evs ReportOutcome_default s1 db)
    as (Ho&dn&ks&db'&Hf&Hs2&Hr); [done|].
  destruct (report_events config _ _ _ s1) as [r s2]. cbn [fst snd] in *.
  assert (length evs ≤ 20)%nat as Hlen.
  { unfold due, pending_status_events in Hdue. destruct (env_db_fault _ 0%nat); [done|].
    apply collect_rows_ok, Forall2_length in Hdue. rewrite <-Hdue, length_take. lia. }
  split; [exact Ho|]. exists dn, ks, db'. destruct r as [o|e].
  - destruct Hr as [-> ->]. by split_and!.
  - destruct Hr as (ev&rest&->&Hst). rewrite length_app in Hlen. split_and!; [done|lia|done|].
    left. by exists ev, rest.
Qed.
End remote_properties.

(** ** Witnesses *)

#[export] Instance toy_remote_env : @RemoteEnv toy_url := {|
  env_send _ := toy_network;
  env_now_plus _ _ := Some "2024-01-01T01:00:00Z"
|}.
Definition toy_agent_config : AgentConfig :=
  mkAgentConfig (cfg_service AgentConfig_default) (cfg_security AgentConfig_default)
    (cfg_printing AgentConfig_default) (cfg_limits AgentConfig_default)
    (cfg_app AgentConfig_default) toy_remote_config.
Definition toy_remote_state : AgentState :=
  with_remote_store
    (with_printing_and_config_path toy_agent_config None (mkFs ∅ ∅ 0 (λ _, None)))
    RemoteStore_new.
(** The worker drains the queue. *)
Definition drain (s : AgentState) : AgentState :=
  set_queue (mkQueueState [] (seen_job_ids (st_queue s)) (seen_batch_ids (st_queue s))) s.
(** The agent restarts: everything but the databases and the files is new. *)
Definition restart (s : AgentState) : AgentState :=
  match st_remote_store s with
  | Some db => with_remote_store (with_printing_and_config_path toy_agent_config None (st_fs s)) db
  | None => s
  end.
Lemma drain_keeps : keeps_jobs drain.
Proof. intros s db Hs. by exists db. Qed.
Lemma restart_keeps : keeps_jobs restart.
Proof. intros s db Hs. exists db. unfold restart. by rewrite Hs. Qed.

Lemma poll_once_accounts_witness :
  let '(r, s') := poll_once toy_remote_state in
  r = Ok (mkPollOutcome 2 2 0) ∧
  ∃ db' js, polled toy_remote_state s' RemoteStore_new db' js.
Proof.
  pose proof (poll_once_accounts toy_remote_state RemoteStore_new eq_refl) as H.
  assert ((poll_once toy_remote_state).1 = Ok (mkPollOutcome 2 2 0)) as Hr by (vm_compute; reflexivity).
  destruct (poll_once toy_remote_state) as [r s']. simpl in Hr. destruct H as (db'&js&Hp&_).
  split; [exact Hr|]. exists db', js. exact Hp.
Defined.

Lemma remote_jobs_at_most_once_witness :
  NoDup (map (λ q, qj_id q) (poll_history toy_remote_state [drain; restart; id])) ∧
  map (λ q, qj_id q) (poll_history toy_remote_state [drain; restart; id]) = ["7"; "8"].
Proof.
  split; [|vm_compute; reflexivity].
  apply (remote_jobs_at_most_once toy_remote_state RemoteStore_new); [reflexivity|].
  repeat constructor; [apply drain_keeps|apply restart_keeps|]. intros s db Hs. by exists db.
Defined.

Definition toy_raw_job (id : string) : PrintJobInput :=
  mkPrintJobInput id Raw None None None None None None None.
Definition sibling_json : TaskJson := {|
  JsonValue := unit; jv_parse _ := Ok tt; jv_is_null _ := false; jv_is_array _ := false;
  jv_to_task _ := Ok (RPrintBatch "r" "b"
    [toy_html_job "good" "https://shop.example/p"; toy_raw_job "bad"]);
  jv_to_tasks _ := Err "not a list"
|}.

Lemma invalid_sibling_loses_job_witness :
  let good := toy_html_job "good" "https://shop.example/p" in
  (poll_once (TJ := sibling_json) toy_remote_state).1 =
    Err (InvalidTask "raw job requires data_base64") ∧
  st_queue (poll_once (TJ := sibling_json) toy_remote_state).2 = st_queue toy_remote_state ∧
  ∀ q, q ∈ poll_history (TJ := sibling_json)
         (restart (poll_once (TJ := sibling_json) toy_remote_state).2) [drain; id] →
    qj_id q ≠ ji_job_id good.
Proof.
  apply (invalid_sibling_loses_job (TJ := sibling_json) toy_remote_state RemoteStore_new "r" "b"
    (toy_html_job "good" "https://shop.example/p") (toy_raw_job "bad") MissingRawData
    restart [drain; id]); try reflexivity.
  repeat constructor; [apply restart_keeps|apply drain_keeps|]. intros s db Hs. by exists db.
Defined.

(** Two reports are due; the service takes the first and fails at the second. *)
Definition flaky_env : @RemoteEnv toy_url := {|
  env_send n := λ _, Ok (mkClientResponse (if (n =? 2)%nat then 200 else 500) (Ok ""));
  env_now_plus _ _ := Some "2024-01-01T01:00:00Z"
|}.
Definition toy_report (job_id : string) (status : RemoteReportStatus) : NewRemoteStatusEvent :=
  mkNewRemoteStatusEvent job_id "r" None status None "2024-01-01T00:00:00Z" "2024-01-01T00:00:00Z".
Definition toy_reporting : RemoteStore :=
  remote_run RemoteStore_new
    [RInsert no_fault "e1" (toy_report "7" Accepted); RInsert no_fault "e2" (toy_report "7" Success)].
Lemma report_pending_outcome_witness :
  let s := with_remote_store toy_remote_state toy_reporting in
  let '(r, s') := report_pending_once (RE := flaky_env) s in
  r = Ok (mkReportOutcome 1 1 0) ∧
  ∃ dn ks db', handles (RE := flaky_env) toy_remote_config "2024-01-01T00:00:10Z" 2 dn ks toy_reporting db' ∧
    st_remote_store s' = Some db' ∧ outcome_of ks = mkReportOutcome 1 1 0 ∧
    map sr_delivery_state (remote_status_events db') = ["delivered"; "pending"].
Proof.
  intros s. pose proof (report_pending_outcome (RE := flaky_env) s toy_reporting eq_refl eq_refl) as H.
  assert ((report_pending_once (RE := flaky_env) s).1 = Ok (mkReportOutcome 1 1 0)) as Hr
    by (vm_compute; reflexivity).
  assert ((λ db, map sr_delivery_state (remote_status_events db)) <$>
    st_remote_store (report_pending_once (RE := flaky_env) s).2 = Some ["delivered"; "pending"]) as Hrows
    by (vm_compute; reflexivity).
  destruct (report_pending_once (RE := flaky_env) s) as [r s']. cbn [fst snd] in Hr, Hrows. subst r.
  destruct H as (_&dn&ks&db'&Hh&_&Hdb&_&Ho). rewrite Hdb in Hrows. injection Hrows as Hrows.
  split; [reflexivity|]. exists dn, ks, db'. split; [exact Hh|]. split; [exact Hdb|].
  split; [exact (eq_sym Ho)|exact Hrows].
Defined.
