(* ===== verification/Commands.v ===== *)
(** * Commands ([crates/cli/src/command.rs], [policy.rs], [output.rs], [service.rs])

    The commands the command line, the desktop application and the local IPC
    send to an agent, their results and errors, and the service that decides
    whether a command runs in the running agent or offline. *)

From S2P Require Import Prelude RustStr F64 NetAddr Externs Toy FileSys PrintTypes Printing.
From S2P Require Import Protocol IpWhitelist Config JobQueue Activity TaskHistory ConfigTransfer.
Open Scope string_scope.
Open Scope N_scope.
Open Scope list_scope.

(** ** Errors *)

Inductive CommandErrorKind :=
  | KInvalidInput | KNotRunning | KPermissionDenied | KConflict | KRuntime | KUnsupported.
#[export] Instance CommandErrorKind_eq_dec : EqDecision CommandErrorKind.
Proof. solve_decision. Defined.
Record CommandError := mkCommandError { ce_kind : CommandErrorKind; ce_message : string }.
#[export] Instance CommandError_eq_dec : EqDecision CommandError.
Proof. solve_decision. Defined.

Definition exit_code (e : CommandError) : N :=
  match ce_kind e with
  | KInvalidInput => 2
  | KNotRunning => 3
  | KPermissionDenied => 4
  | KConflict => 5
  | KRuntime | KUnsupported => 1
  end.
Definition not_running_error : CommandError := mkCommandError KNotRunning "agent is not running".

(** ** Doctor reports *)

Inductive ProductKind := Desktop | Headless.
#[export] Instance ProductKind_eq_dec : EqDecision ProductKind.
Proof. solve_decision. Defined.
Inductive DoctorStatus := DPass | DWarn | DFail.
#[export] Instance DoctorStatus_eq_dec : EqDecision DoctorStatus.
Proof. solve_decision. Defined.
Record DoctorCheck := mkDoctorCheck {
  dc_code : string; dc_status : DoctorStatus; dc_message : string; dc_suggestion : option string
}.
Record DoctorSummary := mkDoctorSummary { ds_pass : N; ds_warn : N; ds_fail : N }.
Record DoctorReport := mkDoctorReport { dr_checks : list DoctorCheck; dr_summary : DoctorSummary }.

(** One iteration of the counting loop of [DoctorReport::new]. *)
Definition count_check (summary : DoctorSummary) (check : DoctorCheck) : DoctorSummary :=
  match dc_status check with
  | DPass => mkDoctorSummary (ds_pass summary + 1) (ds_warn summary) (ds_fail summary)
  | DWarn => mkDoctorSummary (ds_pass summary) (ds_warn summary + 1) (ds_fail summary)
  | DFail => mkDoctorSummary (ds_pass summary) (ds_warn summary) (ds_fail summary + 1)
  end.
Definition DoctorReport_new (checks : list DoctorCheck) : DoctorReport :=
  mkDoctorReport checks (fold_left count_check checks (mkDoctorSummary 0 0 0)).

(** ** Commands and results *)

Inductive Command :=
  | GetConfig
  | SaveConfig (config : AgentConfig)
  | ListPrinters
  | ListPapers (printer_name : string)
  | GetLogs
  | GetTaskHistory
  | GetTaskHistoryEvents (job_id : string)
  | ClearTaskHistory
  | ExportConfig (path password : string) (options : ExportConfigOptions)
  | PreviewConfigImport (path password : string)
  | ImportConfig (path password expected_file_hash : string)
  | TestRemoteConnection (config : AgentConfig)
  | TestPrint (config : AgentConfig)
  | ValidateConfig (path : option string)
  | Doctor (product : ProductKind)
  | Status.

Record AgentStatus := mkAgentStatus { as_running : bool; as_listen_addr : option SocketAddr }.

Inductive CommandResult :=
  | REmpty
  | RConfig (config : AgentConfig)
  | RPrinters (printers : list PrinterInfo)
  | RPapers (papers : list PaperInfo)
  | RLogs (entries : list TaskLogEntry)
  | RTaskHistory (jobs : list TaskHistoryJob)
  | RTaskHistoryEvents (events : list TaskHistoryEvent)
  | RImportPreview (preview : ImportPreview)
  | RDoctor (report : DoctorReport)
  | RStatus (status : AgentStatus).

(** The result each command is answered with, which every client relies on. *)
Definition answers (command : Command) (r : CommandResult) : bool :=
  match command, r with
  | (GetConfig | SaveConfig _ | ImportConfig _ _ _), RConfig _
  | ListPrinters, RPrinters _
  | ListPapers _, RPapers _
  | GetLogs, RLogs _
  | GetTaskHistory, RTaskHistory _
  | GetTaskHistoryEvents _, RTaskHistoryEvents _
  | (ClearTaskHistory | ExportConfig _ _ _ | TestRemoteConnection _ | TestPrint _
    | ValidateConfig _), REmpty
  | PreviewConfigImport _ _, RImportPreview _
  | Doctor _, RDoctor _
  | Status, RStatus _ => true
  | _, _ => false
  end.

Inductive CommandPolicy := OnlineOnly | OnlinePreferred | OfflineAllowed.
#[export] Instance CommandPolicy_eq_dec : EqDecision CommandPolicy.
Proof. solve_decision. Defined.

(** [Command::policy] *)
Definition policy (command : Command) : CommandPolicy :=
  match command with
  | GetLogs | TestRemoteConnection _ | TestPrint _ | Status => OnlineOnly
  | GetConfig | SaveConfig _ | ListPrinters | ListPapers _ | GetTaskHistory
  | GetTaskHistoryEvents _ | ClearTaskHistory | ExportConfig _ _ _ | PreviewConfigImport _ _
  | ImportConfig _ _ _ | Doctor _ => OnlinePreferred
  | ValidateConfig _ => OfflineAllowed
  end.

(** ** The service *)

Section service.
(** What executors act on: the running agent, the files, the terminal. *)
Context {W : Type}.

(** The trait [CommandExecutor]. *)
Definition CommandExecutor : Type := Command → M W CommandError CommandResult.

Record CommandService := mkCommandService {
  cs_online : option CommandExecutor;
  cs_offline : CommandExecutor
}.

Definition service_execute (service : CommandService) (command : Command)
  : M W CommandError CommandResult :=
  match policy command with
  | OfflineAllowed => cs_offline service command
  | OnlineOnly =>
      online ← lift (ok_or not_running_error (cs_online service));
      online command
  | OnlinePreferred =>
      match cs_online service with
      | None => cs_offline service command
      | Some online =>
          result ← attempt (online command);
          match result with
          | Err error =>
              if bool_decide (ce_kind error = KNotRunning) then cs_offline service command
              else raise error
          | Ok result => mret result
          end
      end
  end.
End service.
Arguments CommandExecutor : clear implicits.
Arguments CommandService : clear implicits.

(** ** Properties *)

(** The summary counts the checks. *)
Lemma DoctorReport_counts checks :
  dr_summary (DoctorReport_new checks) =
  mkDoctorSummary (N.of_nat (length (filter (λ c, dc_status c = DPass) checks)))
    (N.of_nat (length (filter (λ c, dc_status c = DWarn) checks)))
    (N.of_nat (length (filter (λ c, dc_status c = DFail) checks))).
Proof.
  simpl. assert (∀ a b c, fold_left count_check checks (mkDoctorSummary a b c) =
    mkDoctorSummary (a + N.of_nat (length (filter (λ c, dc_status c = DPass) checks)))
    (b + N.of_nat (length (filter (λ c, dc_status c = DWarn) checks)))
    (c + N.of_nat (length (filter (λ c, dc_status c = DFail) checks)))) as Hgo; [|by rewrite Hgo].
  induction checks as [|x l IH]; intros a b c; [simpl; f_equal; lia|].
  cbn [fold_left]. rewrite !filter_cons. unfold count_check at 2.
  destruct (dc_status x); simpl; rewrite IH; f_equal; lia.
Qed.

Section service_properties.
Context {W : Type}.
Implicit Types (service : CommandService W) (world : W).

(** An executor that says it is not running has done nothing. *)
Definition honest (online : CommandExecutor W) : Prop :=
  ∀ command world error world', online command world = (Err error, world') →
    ce_kind error = KNotRunning → world' = world.

(** Which executor runs a command in a world: none, the online or the offline
    one.  The offline executor runs exactly for the commands that allow it when
    no agent answers, and for the commands that are always offline. *)
Inductive Ran := RanNothing | RanOnline | RanOffline.
Definition chosen service (command : Command) world : Ran :=
  match policy command, cs_online service with
  | OfflineAllowed, _ => RanOffline
  | OnlineOnly, Some _ => RanOnline
  | OnlineOnly, None => RanNothing
  | OnlinePreferred, None => RanOffline
  | OnlinePreferred, Some online =>
      match (online command world).1 with
      | Err error => if bool_decide (ce_kind error = KNotRunning) then RanOffline else RanOnline
      | Ok _ => RanOnline
      end
  end.

(** An executor whose results have the kind of their command, and a service of
    such executors. *)
Definition typed (executor : CommandExecutor W) : Prop :=
  ∀ command, yields (executor command) (λ r, answers command r = true).
Lemma service_typed service :
  typed (cs_offline service) → (∀ online, cs_online service = Some online → typed online) →
  typed (service_execute service).
Proof.
  intros Hoff Hon command w r. unfold service_execute.
  destruct (policy command), (cs_online service) as [online|] eqn:Ho;
    try apply Hoff.
  - rewrite lift_bind. by apply (Hon online).
  - done.
  - specialize (Hon online eq_refl). rewrite attempt_bind. pose proof (Hon command w) as Hr.
    destruct (online command w) as [[a|e] w']; simpl in *; [intros [= <-]; by apply Hr|].
    case_bool_decide; [apply Hoff|done].
Qed.

(** The service runs a command once.  With an online executor that does
    nothing when it reports that no agent is running, the outcome is exactly
    that of one executor run in the world as it was, or the error that no
    agent is running: never both executors, and the offline one only when no
    agent answered or the command needs none. *)
Theorem service_executes_once service (command : Command) world :
  (∀ online, cs_online service = Some online → honest online) →
  service_execute service command world =
    match chosen service command world with
    | RanNothing => (Err not_running_error, world)
    | RanOnline => match cs_online service with
                   | Some online => online command world
                   | None => (Err not_running_error, world)
                   end
    | RanOffline => cs_offline service command world
    end ∧
  (chosen service command world = RanOffline →
   policy command ≠ OnlineOnly ∧
   (policy command = OnlinePreferred → ∀ online, cs_online service = Some online →
     ∃ error, online command world = (Err error, world) ∧ ce_kind error = KNotRunning)).
Proof.
  intros Hh. unfold service_execute, chosen.
  destruct (policy command); [|destruct (cs_online service) as [online|] eqn:Ho|].
  - rewrite M_bind_eq. unfold lift. destruct (cs_online service); (split; [done|]);
      by intros [=].
  - specialize (Hh online eq_refl). rewrite M_bind_eq. unfold attempt.
    destruct (online command world) as [[r|error] world'] eqn:Hr; simpl; [by split|].
    case_bool_decide as Hk; [|by split].
    pose proof (Hh _ _ _ _ Hr Hk) as ->. split; [done|]. intros _. split; [done|].
    intros _ ? [= <-]. rewrite Hr. by exists error.
  - by split.
  - by split.
Qed.
End service_properties.

(** ** Witness *)

Lemma service_executes_once_witness :
  let offline : CommandExecutor nat := λ _ n, (Ok REmpty, S n) in
  let online : CommandExecutor nat := λ _ n, (Err not_running_error, n) in
  service_execute (mkCommandService (Some online) offline) GetConfig 0%nat =
    (Ok REmpty, 1%nat) ∧
  (RanOffline = RanOffline → policy GetConfig ≠ OnlineOnly ∧
   (policy GetConfig = OnlinePreferred → ∀ o, Some online = Some o →
     ∃ error, o GetConfig 0%nat = (Err error, 0%nat) ∧ ce_kind error = KNotRunning)).
Proof.
  intros offline online.
  apply (service_executes_once (mkCommandService (Some online) offline) GetConfig 0%nat).
  intros o [= <-] c w e w' [= _ <-] _. reflexivity.
Defined.
