(* ===== verification/Doctor.v ===== *)
(** * Diagnosis ([crates/runtime/src/doctor.rs])

    The checks of the [doctor] command, in their order, over the state of an
    agent (running or made for the command line). *)

From S2P Require Import Prelude RustStr F64 NetAddr Externs Toy FileSys PrintTypes Printing.
From S2P Require Import Protocol IpWhitelist Config JobQueue Download Document Office Converters.
From S2P Require Import Activity Sqlite TaskHistory RemoteStore State ResourcePolicy Proxy Browser.
From S2P Require Import ConfigTransfer Commands.
Open Scope string_scope.
Open Scope N_scope.
Open Scope list_scope.

(** What the checks ask of the machine, by the number of the question: whether a
    path is a directory and read-only, whether a port can be bound, the browsers
    there are; and whether [INVOCATION_ID] is set. *)
Class DoctorEnv := {
  dx_metadata : nat → string → result IoError (bool * bool);
  dx_bind : nat → N → bool;
  dx_browser : nat → BrowserEnv;
  dx_invocation_id : bool
}.

Section doctor.
Context `{U : UrlOps, I : IpNetOps, J : !JsonCodec AgentConfig, P : !ProxyEnv, R : !RuntimeEnv,
          V : !ConverterEnv, D : !DoctorEnv}.

(** [check] is [mkDoctorCheck]. *)
Definition config_check {E} (path : option string) : Handler E DoctorCheck :=
  match path with
  | Some path =>
      loaded ← on_fs (attempt (load path));
      mret (match loaded with
            | Ok _ => mkDoctorCheck "config.valid" DPass "Configuration is readable and valid." None
            | Err error =>
                mkDoctorCheck "config.valid" DFail
                  ("Configuration is invalid: " +:+ io_message error)
                  (Some "Fix the configuration file and run doctor again.")
            end)
  | None =>
      mret (mkDoctorCheck "config.valid" DWarn "No persistent configuration path is configured." None)
  end.

Definition directory_check {E} (path : option string) : Handler E DoctorCheck :=
  match path ≫= path_parent with
  | None => mret (mkDoctorCheck "data.directory" DWarn "Data directory is unknown." None)
  | Some directory =>
      n ← tick;
      mret (match dx_metadata n directory with
            | Ok (true, false) =>
                mkDoctorCheck "data.directory" DPass "Data directory is accessible." None
            | Ok _ =>
                mkDoctorCheck "data.directory" DFail "Data directory is not writable."
                  (Some "Grant the PrintBridge process write permission.")
            | Err error =>
                mkDoctorCheck "data.directory" DFail
                  ("Data directory is inaccessible: " +:+ io_message error)
                  (Some "Create the directory and grant the PrintBridge process access.")
            end)
  end.

Definition agent_check (addr : SocketAddr) : DoctorCheck :=
  if sa_port addr =? 0 then
    mkDoctorCheck "agent.ipc" DWarn "The Agent is not running or local IPC is unavailable."
      (Some "Start the PrintBridge Agent when online-only commands are needed.")
  else
    mkDoctorCheck "agent.ipc" DPass
      ("The Agent is reachable at " +:+ display_socket_addr addr +:+ ".") None.

Definition port_check {E} (config : AgentConfig) (addr : SocketAddr) : Handler E DoctorCheck :=
  let port := sv_port (cfg_service config) in
  if sa_port addr =? port then
    mret (mkDoctorCheck "service.port" DPass ("Service port " +:+ pretty port +:+ " is active.") None)
  else
    n ← tick;
    mret (if dx_bind n port
          then mkDoctorCheck "service.port" DPass
                 ("Service port " +:+ pretty port +:+ " is available.") None
          else mkDoctorCheck "service.port" DWarn
                 ("Service port " +:+ pretty port +:+ " is occupied while this Agent is offline.")
                 (Some "Check which process owns the configured port.")).

Definition printer_check {E} : Handler E DoctorCheck :=
  n ← tick;
  mret (match list_printers (env_backend n) with
        | Ok [] =>
            mkDoctorCheck "printing.printers" DWarn "No printers were found."
              (Some "Install a printer and verify the platform print service.")
        | Ok printers =>
            mkDoctorCheck "printing.printers" DPass
              (pretty (N.of_nat (length printers)) +:+ " printer(s) found.") None
        | Err error =>
            mkDoctorCheck "printing.printers" DFail
              ("Printer enumeration failed: " +:+ PrintError_display error)
              (Some "Verify the platform printing service and permissions.")
        end).

Definition browser_check (found : result HtmlRenderError BrowserExecutable) : DoctorCheck :=
  match found with
  | Ok browser =>
      mkDoctorCheck "browser.available" DPass
        ("Executable found at " +:+ be_path browser +:+ ".") None
  | Err error =>
      mkDoctorCheck "browser.available" DWarn (HtmlRenderError_display error)
        (Some "Install Chrome or Chromium for HTML printing.")
  end.

Definition office_check (code : string) (candidates : list OfficeCandidateStatus) : DoctorCheck :=
  let chain := join " -> " (map (λ candidate,
    oc_name candidate +:+ " (" +:+
    (if oc_available candidate then "detected" else "not detected") +:+ ")") candidates) in
  match iter_find oc_available candidates with
  | Some selected =>
      mkDoctorCheck code DPass
        ("Selected " +:+ oc_name selected +:+ ". Candidates: " +:+ chain +:+
         ". Runtime activation is verified when an Office print job runs.") None
  | None =>
      mkDoctorCheck code DWarn
        ("No Office converter was detected. Candidates: " +:+ chain +:+ ".")
        (Some "Install a supported Office converter for this document format.")
  end.
Definition office_checks : list DoctorCheck :=
  map (λ '(code, format), office_check code (office_candidate_statuses format))
    [("office.docx", ODocx); ("office.xlsx", OXlsx); ("office.pptx", OPptx)].

Definition systemd_check (path : option string) : DoctorCheck :=
  if dx_invocation_id && is_some path then
    mkDoctorCheck "headless.systemd" DPass
      "Headless Agent is running under systemd with persistent paths." None
  else
    mkDoctorCheck "headless.systemd" DWarn "systemd invocation metadata was not detected."
      (Some "Run the packaged print-bridge system service for production use.").

Definition remote_check (config : AgentConfig) : DoctorCheck :=
  let remote := cfg_remote config in
  if negb (rc_enabled remote) then
    mkDoctorCheck "remote.configuration" DPass "Remote tasks are disabled." None
  else
    let complete := is_some (rc_endpoint_url remote) && is_some (rc_bearer_token remote) &&
                    is_some (rc_device_id remote) in
    if complete then
      mkDoctorCheck "remote.configuration" DPass
        "Remote task configuration is complete; no network request was made." None
    else
      mkDoctorCheck "remote.configuration" DWarn
        "Remote tasks are enabled but required settings are incomplete."
        (Some "Configure the URL, bearer token, and device ID.").

(** The browser check runs with a clock and a profile of its own. *)
Definition find_usable_browser {E} : Handler E (result HtmlRenderError BrowserExecutable) :=
  n ← tick;
  fs ← gets st_fs;
  mret (check_browser_launch (BE := dx_browser n)
          (mkBrowserWorld 0 0 false fs tracker_new [])).1.

Definition run_doctor {E} (listen_addr : SocketAddr) (product : ProductKind)
  : Handler E DoctorReport :=
  config ← gets st_config;
  path ← gets st_config_path;
  config_valid ← config_check path;
  directory ← directory_check path;
  port ← port_check config listen_addr;
  printers ← printer_check;
  browser ← find_usable_browser;
  let checks := [config_valid; directory; agent_check listen_addr; port; printers;
                 browser_check browser] ++ office_checks ++
                (if bool_decide (product = Headless) then [systemd_check path] else []) ++
                [remote_check config] in
  mret (DoctorReport_new checks).

(** ** Properties *)

(** Nothing but the clocks of the state and of its files has moved on. *)
Definition looked_only (s s' : AgentState) : Prop :=
  ∃ fs_tick' tick', s' = mkAgentState (st_config s) (st_config_path s) (st_logs s) (st_sent s)
    (st_queue s) (st_permit s) (st_remote_store s) (st_task_history s)
    (mkFs (fs_files (st_fs s)) (fs_dirs (st_fs s)) fs_tick' (fs_fault (st_fs s)))
    (st_calls s) tick'.
#[export] Instance looked_only_preorder : PreOrder looked_only.
Proof.
  split.
  - intros s. exists (fs_tick (st_fs s)), (st_tick s). by destruct s as [? ? ? ? ? ? ? ? [] ? ?].
  - intros s1 s2 s3 (?&?&->) (f&t&->). by exists f, t.
Qed.
Lemma tick_looked {E} : respects looked_only (tick (E := E)).
Proof. intros s. exists (fs_tick (st_fs s)), (S (st_tick s)). by destruct s as [? ? ? ? ? ? ? ? [] ? ?]. Qed.

Lemma load_looked {E} path : respects looked_only (on_fs (E := E) (attempt (load path))).
Proof.
  intros s. unfold on_fs, zoom.
  assert (∃ t, (attempt (E := E) (load path) (st_fs s)).2 =
    mkFs (fs_files (st_fs s)) (fs_dirs (st_fs s)) t (fs_fault (st_fs s))) as [t Ht].
  { unfold attempt, load. rewrite M_bind_eq. unfold fs_exists.
    destruct (fault_now (st_fs s)); simpl; [by eexists|].
    destruct (is_some _); simpl; [|by eexists]. rewrite M_bind_eq. unfold fs_read.
    destruct (fault_now _) as [[]|]; simpl; [by eexists|]. destruct (ok_or _ _); by eexists. }
  destruct (attempt (load path) (st_fs s)) as [r fs']. simpl in Ht. subst fs'.
  exists t, (st_tick s). reflexivity.
Qed.

Definition doctor_codes (product : ProductKind) : list string :=
  ["config.valid"; "data.directory"; "agent.ipc"; "service.port"; "printing.printers";
   "browser.available"; "office.docx"; "office.xlsx"; "office.pptx"] ++
  (match product with Headless => ["headless.systemd"] | Desktop => [] end) ++
  ["remote.configuration"].

Ltac solve_check := intros; repeat case_match; reflexivity.
Lemma agent_check_code addr : dc_code (agent_check addr) = "agent.ipc".
Proof. unfold agent_check. solve_check. Qed.
Lemma browser_check_code found : dc_code (browser_check found) = "browser.available".
Proof. unfold browser_check. solve_check. Qed.
Lemma remote_check_code config : dc_code (remote_check config) = "remote.configuration".
Proof. unfold remote_check. solve_check. Qed.
Lemma systemd_check_code path : dc_code (systemd_check path) = "headless.systemd".
Proof. unfold systemd_check. solve_check. Qed.
Lemma office_checks_codes : map dc_code office_checks = ["office.docx"; "office.xlsx"; "office.pptx"].
Proof. unfold office_checks, office_check. cbn [map]. solve_check. Qed.

Lemma tick_returns {E} : returns (tick (E := E)) (λ _, True).
Proof. intros s. by eexists _, _. Qed.
Lemma config_check_returns {E} path :
  returns (config_check (E := E) path) (λ c, dc_code c = "config.valid").
Proof.
  unfold config_check. destruct path as [path|]; [|by apply returns_ret].
  apply (returns_bind _ _ (λ _, True)); [|intros r _; apply returns_ret; by destruct r].
  intros s. unfold on_fs, zoom. destruct (returns_attempt (E := E) (load path) (st_fs s)) as (r&fs&->&_).
  by eexists _, _.
Qed.
Lemma directory_check_returns {E} path :
  returns (directory_check (E := E) path) (λ c, dc_code c = "data.directory").
Proof.
  unfold directory_check. destruct (path ≫= path_parent); [|by apply returns_ret].
  eapply returns_bind; [apply tick_returns|]. intros n _. apply returns_ret. solve_check.
Qed.
Lemma port_check_returns {E} config addr :
  returns (port_check (E := E) config addr) (λ c, dc_code c = "service.port").
Proof.
  unfold port_check. destruct (_ =? _); [by apply returns_ret|].
  eapply returns_bind; [apply tick_returns|]. intros n _. apply returns_ret. solve_check.
Qed.
Lemma printer_check_returns {E} :
  returns (printer_check (E := E)) (λ c, dc_code c = "printing.printers").
Proof.
  unfold printer_check. eapply returns_bind; [apply tick_returns|]. intros n _.
  apply returns_ret. solve_check.
Qed.
Lemma find_browser_returns {E} : returns (find_usable_browser (E := E)) (λ _, True).
Proof.
  unfold find_usable_browser. eapply returns_bind; [apply tick_returns|]. intros n _.
  eapply returns_bind; [apply returns_gets|]. intros fs _. by apply returns_ret.
Qed.

Lemma doctor_counts (checks : list DoctorCheck) :
  let count status := N.of_nat (length (filter (λ c, dc_status c = status) checks)) in
  count DPass + count DWarn + count DFail = N.of_nat (length checks) ∧
  (count DFail = 0 ↔ Forall (λ c, dc_status c ≠ DFail) checks).
Proof.
  cbv zeta. induction checks as [|c checks [IH1 IH2]]; [by split|].
  rewrite !filter_cons, Forall_cons. destruct (dc_status c) eqn:Hs;
    rewrite ?(decide_True _ _ eq_refl), ?decide_False by (rewrite ?Hs; done).
  all: repeat case_decide; try done; simpl; split; [lia|]; rewrite <-?IH2; intuition (lia || congruence).
Qed.

Lemma doctor_only_looks_ok {E} listen_addr product s :
  ∃ report s', run_doctor (E := E) listen_addr product s = (Ok report, s') ∧
    looked_only s s' ∧ map dc_code (dr_checks report) = doctor_codes product ∧
    ∃ checks, report = DoctorReport_new checks.
Proof.
  assert (respects looked_only (run_doctor (E := E) listen_addr product)) as Hl.
  { unfold run_doctor, config_check, directory_check, port_check, printer_check,
      find_usable_browser. solve_respects; auto using tick_looked, load_looked. }
  assert (returns (run_doctor (E := E) listen_addr product) (λ report,
    map dc_code (dr_checks report) = doctor_codes product ∧
    ∃ checks, report = DoctorReport_new checks)) as Hr.
  { unfold run_doctor. eapply returns_bind; [apply returns_gets|intros config _].
    eapply returns_bind; [apply returns_gets|intros path _].
    eapply returns_bind; [apply config_check_returns|intros c1 H1].
    eapply returns_bind; [apply directory_check_returns|intros c2 H2].
    eapply returns_bind; [apply port_check_returns|intros c3 H3].
    eapply returns_bind; [apply printer_check_returns|intros c4 H4].
    eapply returns_bind; [apply find_browser_returns|intros browser _].
    apply returns_ret. split; [|by eexists].
    cbn [DoctorReport_new dr_checks]. rewrite !map_app. cbn [map]. rewrite H1, H2, H3, H4.
    rewrite agent_check_code, browser_check_code, remote_check_code, office_checks_codes.
    unfold doctor_codes. case_bool_decide as Hp; destruct product; try done.
    cbn [map app]. by rewrite systemd_check_code. }
  destruct (Hr s) as (report&s'&Hrun&Hc). specialize (Hl s). rewrite Hrun in Hl.
  by exists report, s'.
Qed.

(** A diagnosis only looks.  Whatever it finds, it ends with a report that has
    one check for each of the documented codes, in their order, and a summary
    that counts every one of them once; the configuration, the queue, the log,
    the history, the files and the print jobs are what they were. *)
Theorem doctor_only_looks {E} (listen_addr : SocketAddr) (product : ProductKind) (s : AgentState) :
  ∃ report s', run_doctor (E := E) listen_addr product s = (Ok report, s') ∧
    looked_only s s' ∧
    map dc_code (dr_checks report) = doctor_codes product ∧
    ds_pass (dr_summary report) + ds_warn (dr_summary report) + ds_fail (dr_summary report) =
      N.of_nat (length (doctor_codes product)) ∧
    (ds_fail (dr_summary report) = 0 ↔ Forall (λ c, dc_status c ≠ DFail) (dr_checks report)).
Proof.
  destruct (doctor_only_looks_ok (E := E) listen_addr product s) as (r&s'&Hrun&Hl&Hc&checks&->).
  eexists _, s'. split; [done|]. split; [done|]. split; [done|].
  rewrite DoctorReport_counts, <-Hc, length_map. apply doctor_counts.
Qed.
End doctor.
