(* ===== verification/Executor.v ===== *)
(** * Executing commands in an agent ([crates/runtime/src/command_executor.rs])

    The executor behind the local IPC and the offline command line: every
    command on the state of an agent. *)

From S2P Require Import Prelude RustStr F64 NetAddr Externs Toy FileSys PrintTypes Printing.
From S2P Require Import Protocol IpWhitelist Config JobQueue Download Document Office Converters.
From S2P Require Import Activity Sqlite TaskHistory RemoteStore State TestPrint ResourcePolicy.
From S2P Require Import Proxy Browser Renderer ConfigTransfer RemoteClient RemoteWorker Commands Doctor.
Open Scope string_scope.
Open Scope N_scope.
Open Scope list_scope.

(** [Display] of [ConfigTransferError] *)
Definition ConfigTransferError_display (e : ConfigTransferError) : string :=
  match e with
  | InvalidFile => "不是有效的 PrintBridge 配置文件"
  | InvalidPasswordOrPayload => "密码错误或文件损坏"
  | Serialize => "配置导出失败"
  | InvalidField message => message
  end.

(** The random bytes of an export, and rusqlite's error texts. *)
Class ExecutorEnv := {
  xe_salt : nat → string;
  xe_nonce : nat → string;
  xe_sql_display : SqlError → string
}.

Section executor.
Context `{U : UrlOps, B : Base64Ops, I : IpNetOps, J : !JsonCodec AgentConfig,
          IM : !ImageOps, P : !ProxyEnv, R : !RuntimeEnv, TJ : !TaskJson, RE : !RemoteEnv,
          V : !ConverterEnv, D : !DoctorEnv, C : !TransferCrypto,
          JP : !JsonCodec ConfigTransferPayload, JF : !JsonCodec EncryptedConfigFile,
          X : !ExecutorEnv}.
Abbreviation Exec := (Handler CommandError).

(** [runtime_error] of an error with its text. *)
Definition runtime_error (message : string) : CommandError := mkCommandError KRuntime message.
Definition or_runtime {E A} (display : E → string) (r : result E A) : result CommandError A :=
  map_err (λ e, runtime_error (display e)) r.

(** A query on the history, if there is one. *)
Definition query_history {A} (query : bool → DbFault → TaskHistoryStore → result SqlError (list A))
  : Exec (list A) :=
  n ← tick;
  store ← gets st_task_history;
  match store with
  | None => mret []
  | Some store => lift (or_runtime xe_sql_display (query (env_db_poisoned n) (env_db_fault n) store))
  end.

Definition export_config (path password : string) (options : ExportConfigOptions)
  : Exec CommandResult :=
  current ← gets st_config;
  let payload := build_transfer_payload current options in
  n ← tick;
  encrypted ← lift (or_runtime ConfigTransferError_display
                      (encrypt_payload (xe_salt n) (xe_nonce n) payload password));
  _ ← mapping_err (λ e, runtime_error (ConfigTransferError_display e))
        (on_fs (write_encrypted_file path encrypted));
  mret REmpty.

(** The file of both import commands, with its hash. *)
Definition read_transfer_file (path : string) : Exec (EncryptedConfigFile * string) :=
  mapping_err (λ e, runtime_error (ConfigTransferError_display e))
    (on_fs (read_encrypted_file_with_hash path)).

Definition preview_config_import (path password : string) : Exec CommandResult :=
  current ← gets st_config;
  '(encrypted, file_hash) ← read_transfer_file path;
  payload ← lift (or_runtime ConfigTransferError_display (decrypt_payload encrypted password));
  preview ← lift (or_runtime ConfigTransferError_display (preview_payload current payload));
  mret (RImportPreview (mkImportPreview file_hash (ip_items preview))).

Definition import_config (path password expected_file_hash : string) : Exec CommandResult :=
  current ← gets st_config;
  '(encrypted, file_hash) ← read_transfer_file path;
  if negb (bool_decide (file_hash = expected_file_hash)) then
    raise (mkCommandError KConflict "配置文件已变化，请重新预览后导入")
  else
    payload ← lift (or_runtime ConfigTransferError_display (decrypt_payload encrypted password));
    merged ← lift (or_runtime ConfigTransferError_display (merge_payload current payload));
    config ← mapping_err (λ e, runtime_error (io_message e)) (save_config merged);
    mret (RConfig config).

Definition clear_task_history : Exec CommandResult :=
  _ ← modify (λ s, set_logs (log_clear (st_logs s)) s);
  n ← tick;
  store ← gets st_task_history;
  match store with
  | None => mret REmpty
  | Some store =>
      let '(r, store') := history_clear (env_db_poisoned n) (env_db_fault n) store in
      _ ← modify (set_task_history (Some store'));
      _ ← lift (or_runtime xe_sql_display r);
      mret REmpty
  end.

Definition test_remote_connection (config : AgentConfig) : Exec CommandResult :=
  if rc_enabled (cfg_remote config) then
    n ← tick;
    m ← tick;
    _ ← lift (or_runtime RemoteClientError_display
                (test_connection (env_send n) (env_send m) (env_uuid n) (cfg_remote config)));
    mret REmpty
  else mret REmpty.

Definition validate_config_file (path : option string) : Exec CommandResult :=
  config_path ← gets st_config_path;
  path ← lift (ok_or (mkCommandError KInvalidInput "config path is required")
                 (opt_or path config_path));
  _ ← mapping_err (λ e, runtime_error (io_message e)) (on_fs (load path));
  mret REmpty.

(** [RuntimeCommandExecutor::execute] *)
Definition runtime_execute (listen_addr : SocketAddr) (command : Command) : Exec CommandResult :=
  match command with
  | GetConfig => config ← gets st_config; mret (RConfig config)
  | SaveConfig config =>
      config ← mapping_err (λ e, runtime_error (io_message e)) (save_config config);
      mret (RConfig config)
  | ListPrinters =>
      n ← tick;
      printers ← lift (or_runtime PrintError_display (list_printers (env_backend n)));
      mret (RPrinters printers)
  | ListPapers printer_name =>
      n ← tick;
      papers ← lift (or_runtime PrintError_display (list_papers (env_backend n) printer_name));
      mret (RPapers papers)
  | GetLogs => logs ← gets st_logs; mret (RLogs (log_recent logs))
  | GetTaskHistory =>
      jobs ← query_history (λ p f store, recent_jobs p f 500 store);
      mret (RTaskHistory jobs)
  | GetTaskHistoryEvents job_id =>
      events ← query_history (λ p f store, events_for_job p f job_id store);
      mret (RTaskHistoryEvents events)
  | ClearTaskHistory => clear_task_history
  | ExportConfig path password options => export_config path password options
  | PreviewConfigImport path password => preview_config_import path password
  | ImportConfig path password expected_file_hash => import_config path password expected_file_hash
  | TestRemoteConnection config => test_remote_connection config
  | TestPrint config =>
      _ ← mapping_err (λ e, runtime_error (TestPrintError_display e))
            (print_calibration_page_with_config config);
      mret REmpty
  | ValidateConfig path => validate_config_file path
  | Doctor product =>
      report ← run_doctor listen_addr product;
      mret (RDoctor report)
  | Status => mret (RStatus (mkAgentStatus true (Some listen_addr)))
  end.

(** ** Properties *)

Implicit Types (s : AgentState).

Lemma tick_raises {E} (φ : E → Prop) : raises tick φ.
Proof. by intros s e. Qed.
Lemma run_doctor_raises (φ : CommandError → Prop) addr product : raises (run_doctor addr product) φ.
Proof.
  intros s e. destruct (doctor_only_looks_ok (E := CommandError) addr product s) as (?&?&->&_). done.
Qed.

(** Every command is answered with a result of its kind. *)
Lemma executor_typed addr : typed (runtime_execute addr).
Proof.
  intros command. destruct command; simpl; unfold export_config, preview_config_import, import_config,
    clear_task_history, test_remote_connection, validate_config_file; by repeat yields_step.
Qed.

(** The kinds of error an executor reports. *)
Definition executor_kind (e : CommandError) : Prop :=
  ce_kind e = KRuntime ∨ ce_kind e = KConflict ∨ ce_kind e = KInvalidInput.
Lemma or_runtime_kind {E A} (display : E → string) (r : result E A) e :
  or_runtime display r = Err e → executor_kind e.
Proof. destruct r; [done|]. intros [= <-]. by left. Qed.

Lemma executor_kinds addr command : raises (runtime_execute addr command) executor_kind.
Proof.
  destruct command; simpl;
    unfold query_history, export_config, preview_config_import, import_config, clear_task_history,
      test_remote_connection, validate_config_file, read_transfer_file;
    repeat raises_step; try apply tick_raises; try apply run_doctor_raises;
    try (intros err Herr; by apply or_runtime_kind in Herr); try (by left).
  all: try (right; by left).
  all: intros err Herr; destruct (opt_or _ _); [done|]; injection Herr as <-; by right; right.
Qed.

(** ** What a command may change *)

(** The parts no command touches, with the print jobs submitted so far. *)
Definition undisturbed s s' : Prop :=
  st_config_path s' = st_config_path s ∧ st_sent s' = st_sent s ∧ st_queue s' = st_queue s ∧
  st_permit s' = st_permit s ∧ st_remote_store s' = st_remote_store s.
Definition unprinted s s' : Prop := undisturbed s s' ∧ st_calls s' = st_calls s.
Definition quiet s s' : Prop := unprinted s s' ∧ st_config s' = st_config s.
#[local] Instance undisturbed_preorder : PreOrder undisturbed.
Proof. split; [by intros s|]. intros s1 s2 s3 (?&?&?&?&?) (?&?&?&?&?). split_and!; congruence. Qed.
#[local] Instance unprinted_preorder : PreOrder unprinted.
Proof. split; [by intros s|]. intros s1 s2 s3 [??] [??]. split; [by etrans|congruence]. Qed.
#[local] Instance quiet_preorder : PreOrder quiet.
Proof. split; [by intros s|]. intros s1 s2 s3 [??] [??]. split; [by etrans|congruence]. Qed.

Lemma tick_quiet {E} : respects quiet (tick (E := E)).
Proof. by intros s. Qed.
Lemma on_fs_respects (Q : AgentState → AgentState → Prop) {E A} (m : M Fs E A) :
  (∀ s fs, Q s (set_fs fs s)) → respects Q (on_fs m).
Proof. intros H s. unfold on_fs, zoom. destruct (m (st_fs s)) as [r fs]. apply H. Qed.
Lemma save_config_unprinted config : respects unprinted (save_config config).
Proof.
  unfold save_config. solve_respects.
  - by apply on_fs_respects.
  - by apply respects_modify.
Qed.
Lemma run_doctor_quiet {E} addr product : respects quiet (run_doctor (E := E) addr product).
Proof.
  intros s. destruct (doctor_only_looks_ok (E := E) addr product s) as (?&s'&->&(?&?&->)&_). done.
Qed.

Definition saves (command : Command) : bool :=
  match command with SaveConfig _ | ImportConfig _ _ _ => true | _ => false end.
Definition prints (command : Command) : bool :=
  match command with TestPrint _ => true | _ => false end.

Lemma quiet_commands addr command :
  saves command = false → prints command = false → respects quiet (runtime_execute addr command).
Proof.
  intros Hs Hp. destruct command; try discriminate; simpl;
    unfold query_history, export_config, preview_config_import, clear_task_history,
      test_remote_connection, validate_config_file, read_transfer_file; solve_respects;
    first [apply tick_quiet | by apply on_fs_respects | by apply respects_modify
          | apply run_doctor_quiet].
Qed.
Lemma saving_commands addr command :
  saves command = true → respects unprinted (runtime_execute addr command).
Proof.
  intros Hs. destruct command; try discriminate; simpl; unfold import_config, read_transfer_file;
    solve_respects; first [apply save_config_unprinted | by apply on_fs_respects].
Qed.

(** The configuration a saving command leaves is valid. *)
Lemma save_keeps_ok config s : config_ok (st_config s) → config_ok (st_config (save_config config s).2).
Proof.
  intros H. pose proof (save_config_outcome config s) as Hs.
  destruct (save_config config s) as [[c|e] s'].
  - destruct Hs as (_&Hc&Hok&_). simpl. by rewrite Hc.
  - destruct Hs as [Hc _]. simpl. by rewrite Hc.
Qed.

Lemma import_keeps_ok path password hash s :
  config_ok (st_config s) → config_ok (st_config (import_config path password hash s).2).
Proof.
  intros H. unfold import_config. rewrite gets_bind, M_bind_eq.
  unfold read_transfer_file, mapping_err at 1, on_fs at 1, zoom at 1.
  destruct (read_encrypted_file_with_hash path (st_fs s)) as [[[file h]|e] fs]; simpl; [|done].
  destruct (negb _); [done|]. rewrite lift_bind. destruct (or_runtime _ _) as [payload|e]; [|done].
  rewrite lift_bind. destruct (or_runtime _ _) as [merged|e]; [|done].
  rewrite M_bind_eq. unfold mapping_err.
  pose proof (save_keeps_ok merged (set_fs fs s) H) as Hs.
  by destruct (save_config merged (set_fs fs s)) as [[c|e] s'].
Qed.

(** What any command changes. *)
Lemma executor_changes (addr : SocketAddr) (command : Command) (s : AgentState) :
  let '(r, s') := runtime_execute addr command s in
  undisturbed s s' ∧
  (config_ok (st_config s) → config_ok (st_config s')) ∧
  (saves command = false → st_config s' = st_config s) ∧
  (st_calls s' = st_calls s ∨ prints command = true ∧ ∃ c, st_calls s' = st_calls s ++ [c]) ∧
  ∀ e, r = Err e → executor_kind e.
Proof.
  pose proof (executor_kinds addr command s) as Hk.
  pose proof (quiet_commands addr command) as Hq. pose proof (saving_commands addr command) as Hw.
  assert (saves command = true →
    config_ok (st_config s) → config_ok (st_config (runtime_execute addr command s).2)) as Hok.
  { destruct command; try discriminate; intros _ H; simpl; [|by apply import_keeps_ok].
    rewrite M_bind_eq. unfold mapping_err. pose proof (save_keeps_ok config s H) as Hs.
    by destruct (save_config config s) as [[c|e] s']. }
  assert (prints command = true → let s' := (runtime_execute addr command s).2 in
    same_but_print s s' ∧ (st_calls s' = st_calls s ∨ ∃ c, st_calls s' = st_calls s ++ [c])) as Hp.
  { destruct command; try discriminate; intros _. simpl. rewrite M_bind_eq. unfold mapping_err.
    pose proof (test_print_outcome config s) as Ht.
    destruct (print_calibration_page_with_config config s) as [r s1].
    destruct Ht as (Hsame&_&Ht). assert (st_calls s1 = st_calls s ∨ ∃ c, st_calls s1 = st_calls s ++ [c])
      as Hc by (repeat case_match; naive_solver). by destruct r. }
  destruct (runtime_execute addr command s) as [r s'] eqn:Hr. simpl in *.
  destruct (saves command) eqn:Hs.
  { specialize (Hw eq_refl s). rewrite Hr in Hw. destruct Hw as [Hu Hc].
    split_and!; [done|by apply Hok|done|by left|]. intros e ->. by apply Hk. }
  destruct (prints command) eqn:Hpr.
  { destruct (Hp eq_refl) as [(?&?&?&?&?&?&?&?) Hc].
    assert (st_config s' = st_config s) as Hcfg by done.
    split_and!; [done|by rewrite Hcfg|done| |intros e ->; by apply Hk].
    destruct Hc; [by left|by right]. }
  specialize (Hq eq_refl eq_refl s). rewrite Hr in Hq. destruct Hq as [[Hu Hc] Hcfg]. simpl in Hcfg.
  split_and!; [done|by rewrite Hcfg|done|by left|]. intros e ->. by apply Hk.
Qed.

(** *** The files, the log and the task history *)

(** The file a command may write: the configuration's when it saves one, the one it
    exports to, and the temporary document of a test print. *)
Definition writes (command : Command) s (p : string) : Prop :=
  match command with
  | SaveConfig _ | ImportConfig _ _ _ => st_config_path s = Some p
  | ExportConfig path _ _ => p = path
  | TestPrint _ => p = calibration_temp_path (env_uuid (st_tick s))
  | _ => False
  end.
(** The log, the task history and the files are kept, but for the file of the
    configuration with [cfg] and the files of [extra]. *)
Record kept_but (cfg : bool) (extra : list string) s s' : Prop := {
  kb_path : st_config_path s' = st_config_path s;
  kb_logs : st_logs s' = st_logs s;
  kb_history : st_task_history s' = st_task_history s;
  kb_files p : (cfg = true → st_config_path s ≠ Some p) → p ∉ extra →
    fs_files (st_fs s') !! p = fs_files (st_fs s) !! p
}.
#[local] Instance kept_but_preorder cfg extra : PreOrder (kept_but cfg extra).
Proof.
  split; [by split|]. intros s1 s2 s3 [P1 ? ? F1] [P2 ? ? F2]. split; [congruence..|].
  intros p Hp Hx. rewrite F2 by (by rewrite ?P1). by apply F1.
Qed.
Lemma on_fs_kept cfg extra {E A} (m : M Fs E A) :
  (∀ fs p, p ∉ extra → fs_files (m fs).2 !! p = fs_files fs !! p) →
  respects (kept_but cfg extra) (on_fs m).
Proof.
  intros H s. unfold on_fs, zoom. specialize (H (st_fs s)).
  destruct (m (st_fs s)) as [r fs]. split; try done. intros p _. apply H.
Qed.
Lemma read_files path fs : fs_files (read_encrypted_file_with_hash path fs).2 = fs_files fs.
Proof.
  unfold read_encrypted_file_with_hash, mapping_err, fs_read. rewrite M_bind_eq. cbn beta iota.
  destruct (map_err _ _) as [c|e]; [|done]. cbv zeta. rewrite lift_bind. by destruct (map_err _ _).
Qed.
Lemma load_files path fs : fs_files (load path fs).2 = fs_files fs.
Proof. pose proof (load_cases path fs) as H. destruct (load path fs). by destruct H. Qed.
Lemma save_files c path fs p : p ≠ path → fs_files (save c path fs).2 !! p = fs_files fs !! p.
Proof.
  intros Hp. unfold save. rewrite M_bind_eq.
  assert (∀ fs1, fs_files (fs_write path (to_json (normalized c)) fs1).2 !! p = fs_files fs1 !! p) as H.
  { intros fs1. by apply fs_write_only. }
  destruct (path_parent path); [|apply H]. unfold fs_create_dir_all.
  destruct (fault_now fs) as [[]|]; [done|]. cbn. apply (H (fs_step fs)).
Qed.
Lemma save_config_kept config : respects (kept_but true []) (save_config config).
Proof.
  intros s. unfold save_config. rewrite lift_bind. destruct (try_for_each _ _); [|reflexivity].
  rewrite lift_bind. destruct (try_for_each _ _); [|reflexivity]. cbv zeta.
  do 2 (case_match; [reflexivity|]). rewrite gets_bind, M_bind_eq.
  destruct (st_config_path s) as [path|] eqn:Hpath; [|split; cbn; auto].
  unfold on_fs, zoom. pose proof (save_files (normalized config) path (st_fs s)) as Hf.
  destruct (save _ path (st_fs s)) as [[[]|e] fs]; cbn in Hf |- *; split; cbn; try done;
    intros p Hp _; apply Hf; intros ->; by apply Hp.
Qed.
Definition forgets (command : Command) : bool :=
  match command with ClearTaskHistory => true | _ => false end.

(** Which part of the stores a command may change, but for the test print. *)
Definition may_write (command : Command) : bool * list string :=
  match command with
  | SaveConfig _ | ImportConfig _ _ _ => (true, [])
  | ExportConfig path _ _ => (false, [path])
  | _ => (false, [])
  end.
Lemma commands_kept addr command :
  prints command = false → forgets command = false →
  respects (kept_but (may_write command).1 (may_write command).2) (runtime_execute addr command).
Proof.
  intros Hp Hf. destruct command; try discriminate; cbn [may_write fst snd runtime_execute];
    unfold query_history, export_config, preview_config_import, import_config,
      test_remote_connection, validate_config_file, read_transfer_file; solve_respects;
    first
      [ by split | apply save_config_kept
      | apply on_fs_kept; intros fs p Hx; first
          [by rewrite read_files | by rewrite load_files]
      | idtac ].
  - apply on_fs_kept. intros fs p [Hx _]%not_elem_of_cons. unfold write_encrypted_file, mapping_err.
    pose proof (fs_write_only path (to_json a1) fs) as [Hw _].
    destruct (fs_write path (to_json a1) fs) as [w fs']. by apply Hw.
  - intros s. destruct (doctor_only_looks_ok (E := CommandError) addr product s) as (?&s'&->&(?&?&->)&_).
    by split.
Qed.

(** What any command does to the files, the log and the task history. *)
Lemma executor_stores (addr : SocketAddr) (command : Command) (s : AgentState) :
  let s' := (runtime_execute addr command s).2 in
  (∀ p, ¬ writes command s p → fs_files (st_fs s') !! p = fs_files (st_fs s) !! p) ∧
  if forgets command
  then st_logs s' = log_clear (st_logs s) ∧
    st_task_history s' = (λ h, (history_clear (env_db_poisoned (st_tick s)) (env_db_fault (st_tick s)) h).2) <$>
      st_task_history s
  else st_logs s' = st_logs s ∧ st_task_history s' = st_task_history s.
Proof.
  destruct (prints command) eqn:Hp; [|destruct (forgets command) eqn:Hf].
  - destruct command; try discriminate. cbn [runtime_execute writes forgets].
    rewrite M_bind_eq. unfold mapping_err. pose proof (test_print_outcome config s) as Ht. cbv zeta in Ht.
    destruct (print_calibration_page_with_config config s) as [r s1].
    destruct Ht as ((_&_&Hl&_&_&_&_&Hh)&[Ho _]&_). destruct r as [[]|e]; split; (exact Ho || by split).
  - destruct command; try discriminate. cbn [runtime_execute]. unfold clear_task_history.
    rewrite modify_bind, M_bind_eq. cbn [tick]. rewrite gets_bind. cbn.
    destruct (st_task_history s) as [h|] eqn:Hh; [|done].
    cbn [fmap option_fmap option_map]. destruct (history_clear _ _ h) as [[[]|e] h']; done.
  - destruct (commands_kept addr command Hp Hf s) as [_ H1 H2 H3]. split; [|done]. intros p Hw.
    apply H3; destruct command; try discriminate; cbn in *; try done;
      try (by intros _); try apply not_elem_of_nil. by apply not_elem_of_cons; split; [|apply not_elem_of_nil].
Qed.

(** C21: A command does to the agent what its name says and nothing more.  No
    command touches the queue, the statuses sent, the remote tasks or the place
    of the configuration; only saving and importing change the configuration in
    force, and a valid one stays valid; only a test print submits anything, at most
    one job; only clearing the history changes the log and the task history: the log is
    emptied, and the history as far as its database lets it; and no file changes but the configuration's when one is saved or
    imported, the one exported to, and the temporary document of a test print.  An
    error is a runtime error, a conflict or an invalid input, never the report that
    no agent is running, after which a command would be run a second time offline. *)
Theorem executor_effects (addr : SocketAddr) (command : Command) (s : AgentState) :
  let '(r, s') := runtime_execute addr command s in
  undisturbed s s' ∧
  (config_ok (st_config s) → config_ok (st_config s')) ∧
  (saves command = false → st_config s' = st_config s) ∧
  (st_calls s' = st_calls s ∨ prints command = true ∧ ∃ c, st_calls s' = st_calls s ++ [c]) ∧
  (∀ p, ¬ writes command s p → fs_files (st_fs s') !! p = fs_files (st_fs s) !! p) ∧
  (if forgets command
   then st_logs s' = log_clear (st_logs s) ∧
     st_task_history s' =
       (λ h, (history_clear (env_db_poisoned (st_tick s)) (env_db_fault (st_tick s)) h).2) <$> st_task_history s
   else st_logs s' = st_logs s ∧ st_task_history s' = st_task_history s) ∧
  ∀ e, r = Err e → executor_kind e.
Proof.
  pose proof (executor_changes addr command s) as Hc. pose proof (executor_stores addr command s) as Hs.
  destruct (runtime_execute addr command s) as [r s']. by destruct Hc as (?&?&?&?&?), Hs as [??].
Qed.

(** ** Previewing and importing *)

(** The file a transfer command reads, and the payload its password opens. *)
Definition opens (content password : string) (payload : ConfigTransferPayload) : Prop :=
  ∃ file, from_json content = Ok file ∧ decrypt_payload file password = Ok payload.

Lemma read_transfer_ok path s file hash s' :
  read_transfer_file path s = (Ok (file, hash), s') →
  ∃ content fs, fs_files (st_fs s) !! path = Some content ∧ hash = sha256_hex content ∧
    from_json content = Ok file ∧ s' = set_fs fs s.
Proof.
  unfold read_transfer_file, mapping_err, on_fs, zoom, read_encrypted_file_with_hash.
  rewrite M_bind_eq. unfold mapping_err. destruct (fs_read_spec path (st_fs s)) as (_&_&_&Hc).
  destruct (fs_read path (st_fs s)) as [[c|e] fs] eqn:Hr; simpl in Hc |- *; [|done].
  specialize (Hc c eq_refl). cbv zeta. rewrite lift_bind.
  destruct (from_json c) as [f|e] eqn:Hf; simpl; [|done]. intros [= <- <- <-].
  by exists c, fs.
Qed.
Lemma or_runtime_ok {E A} (display : E → string) (r : result E A) a :
  or_runtime display r = Ok a ↔ r = Ok a.
Proof. apply map_err_ok. Qed.

Lemma preview_import_ok path password s p s' :
  preview_config_import path password s = (Ok (RImportPreview p), s') →
  ∃ content payload preview, fs_files (st_fs s) !! path = Some content ∧
    ip_file_hash p = sha256_hex content ∧ opens content password payload ∧
    preview_payload (st_config s) payload = Ok preview ∧ ip_items p = ip_items preview.
Proof.
  unfold preview_config_import. intros H.
  apply M_bind_ok in H as (current&s1&[= <- <-]&H). apply M_bind_ok in H as ([file hash]&s2&Hr&H).
  apply read_transfer_ok in Hr as (content&fs&Hc&->&Hf&->).
  apply M_bind_ok in H as (payload&s3&[= Hp _]&H). apply or_runtime_ok in Hp.
  apply M_bind_ok in H as (preview&s4&[= Hv _]&[= <- _]). apply or_runtime_ok in Hv.
  exists content, payload, preview. split_and!; try done. by exists file.
Qed.

Lemma import_ok path password hash s r s' :
  import_config path password hash s = (Ok r, s') →
  ∃ content payload merged, fs_files (st_fs s) !! path = Some content ∧
    hash = sha256_hex content ∧ opens content password payload ∧
    merge_payload (st_config s) payload = Ok merged ∧
    st_config s' = normalized merged ∧ config_ok (st_config s') ∧ r = RConfig (st_config s').
Proof.
  unfold import_config. intros H.
  apply M_bind_ok in H as (current&s1&[= <- <-]&H). apply M_bind_ok in H as ([file h]&s2&Hr&H).
  apply read_transfer_ok in Hr as (content&fs&Hc&->&Hf&->).
  destruct (bool_decide _) eqn:Hh; simpl in H; [|done]. apply bool_decide_eq_true in Hh as <-.
  apply M_bind_ok in H as (payload&s3&[= Hp <-]&H). apply or_runtime_ok in Hp.
  apply M_bind_ok in H as (merged&s4&[= Hm <-]&H). apply or_runtime_ok in Hm.
  apply M_bind_ok in H as (config&s5&Hs&[= <- <-]). unfold mapping_err in Hs.
  pose proof (save_config_outcome merged (set_fs fs s)) as Ho.
  destruct (save_config merged (set_fs fs s)) as [[c|e] s6]; [|done]. injection Hs as -> ->.
  destruct Ho as (Hc'&Hst&Hok&_). exists content, payload, merged. rewrite Hst.
  split_and!; try done. by exists file.
Qed.

(** C26: What is imported is what was previewed.  When a preview of a file succeeded
    and an import with the hash of that preview succeeds, whatever happened in
    between to the file, the configuration and the agent, both read contents with
    the same SHA-256; and if these contents are equal, both opened the same
    payload, the preview showed this payload against the configuration of its
    time, and the import puts exactly this payload merged into the present
    configuration in force, which is valid. *)
Theorem import_is_previewed (addr : SocketAddr) (path password : string) (p : ImportPreview)
    (r : CommandResult) (s1 s1' s2 s2' : AgentState)
    (Hpreview : runtime_execute addr (PreviewConfigImport path password) s1 =
      (Ok (RImportPreview p), s1'))
    (Himport : runtime_execute addr (ImportConfig path password (ip_file_hash p)) s2 =
      (Ok r, s2')) :
  ∃ c1 c2, fs_files (st_fs s1) !! path = Some c1 ∧ fs_files (st_fs s2) !! path = Some c2 ∧
    sha256_hex c1 = sha256_hex c2 ∧
    config_ok (st_config s2') ∧ r = RConfig (st_config s2') ∧
    (c1 = c2 → ∃ payload preview merged, opens c1 password payload ∧
       preview_payload (st_config s1) payload = Ok preview ∧ ip_items p = ip_items preview ∧
       merge_payload (st_config s2) payload = Ok merged ∧ st_config s2' = normalized merged).
Proof.
  apply preview_import_ok in Hpreview as (c1&payload1&preview&Hc1&Hh1&(f1&Hj1&Hd1)&Hv&Hi).
  apply import_ok in Himport as (c2&payload2&merged&Hc2&Hh2&(f2&Hj2&Hd2)&Hm&Hst&Hok&Hr).
  exists c1, c2. split_and!; try done; [congruence|]. intros <-.
  rewrite Hj1 in Hj2. injection Hj2 as <-. rewrite Hd1 in Hd2. injection Hd2 as <-.
  exists payload1, preview, merged. split_and!; try done. by exists f1.
Qed.
End executor.

(** ** Witness *)

#[export] Instance toy_image_ops : ImageOps := {|
  DynamicImage := unit;
  image_decode _ _ := Err "not an image";
  image_dimensions _ := (1, 1);
  image_to_rgba8 _ := [];
  mm_into_pt a := a;
  pdf_save _ := "%PDF-1.7 toy"
|}.
#[export] Instance toy_doctor_env : DoctorEnv := {|
  dx_metadata _ _ := Ok (true, false);
  dx_bind _ _ := true;
  dx_browser _ := toy_browser_env;
  dx_invocation_id := false
|}.
#[export] Instance toy_executor_env : ExecutorEnv := {|
  xe_salt _ := "0123456789abcdef";
  xe_nonce _ := "0123456789ab";
  xe_sql_display _ := "database error"
|}.
(** One configuration and one payload, each with one text. *)
Definition toy_config_codec : JsonCodec AgentConfig :=
  {| to_json _ := "config"; from_json _ := Ok AgentConfig_default |}.
Definition toy_payload_codec : JsonCodec ConfigTransferPayload :=
  {| to_json _ := "payload"; from_json _ := Ok toy_payload |}.
Definition toy_file : EncryptedConfigFile :=
  mkEncryptedConfigFile ENCRYPTED_FORMAT TRANSFER_VERSION
    (mkCryptoMetadata "argon2id13" ARGON2_MEMORY_KIB ARGON2_ITERATIONS ARGON2_PARALLELISM
       "aes-256-gcm" GCM_TAG_BYTES (b64_encode "0123456789abcdef") (b64_encode "0123456789ab"))
    (b64_encode "payload").
Definition toy_file_codec : JsonCodec EncryptedConfigFile :=
  {| to_json _ := "file"; from_json _ := Ok toy_file |}.
Definition toy_execute (command : Command) : AgentState → result CommandError CommandResult * AgentState :=
  runtime_execute (J := toy_config_codec) (V := toy_converters) (JP := toy_payload_codec)
    (JF := toy_file_codec) (mkSocketAddr (v4 127 0 0 1) 17890) command.
Definition toy_transfer_state : AgentState :=
  with_printing_and_config_path AgentConfig_default None
    (mkFs {["a.pbe" := "file"]} ∅ 0 (λ _, None)).

Lemma import_is_previewed_witness :
  ∃ p r, (toy_execute (PreviewConfigImport "a.pbe" "secret") toy_transfer_state).1 =
      Ok (RImportPreview p) ∧ length (ip_items p) = 5%nat ∧
    (toy_execute (ImportConfig "a.pbe" "secret" (ip_file_hash p)) toy_transfer_state).1 = Ok r ∧
    r = RConfig (st_config
          (toy_execute (ImportConfig "a.pbe" "secret" (ip_file_hash p)) toy_transfer_state).2).
Proof.
  destruct (toy_execute (PreviewConfigImport "a.pbe" "secret") toy_transfer_state)
    as [pr s1'] eqn:Hp.
  assert (∃ p, pr = Ok (RImportPreview p) ∧ length (ip_items p) = 5%nat ∧ ip_file_hash p = "file")
    as (p&->&Hl&Hh).
  { change pr with (fst (pr, s1')). rewrite <-Hp. eexists. split; [vm_compute; reflexivity|].
    split; reflexivity. }
  destruct (toy_execute (ImportConfig "a.pbe" "secret" "file") toy_transfer_state)
    as [ir s2'] eqn:Hi.
  assert (∃ r, ir = Ok r) as (r&->).
  { change ir with (fst (ir, s2')). rewrite <-Hi. eexists. vm_compute. reflexivity. }
  exists p, r. rewrite Hh, Hi. rewrite <-Hh in Hi.
  destruct (import_is_previewed (J := toy_config_codec) (V := toy_converters)
    (JP := toy_payload_codec) (JF := toy_file_codec) (mkSocketAddr (v4 127 0 0 1) 17890)
    "a.pbe" "secret" p r toy_transfer_state s1' toy_transfer_state s2' Hp Hi)
    as (c1&c2&_&_&_&_&Hr&_). split; [reflexivity|]. split; [exact Hl|]. split; [reflexivity|exact Hr].
Defined.
