(* ===== verification/Cli.v ===== *)
(** * The command line ([crates/cli/src/parser.rs], [interaction.rs], [product.rs])

    The commands of the terminal: what each asks of the user, which commands it
    runs through the command service and in which order, and what it prints.
    Clap's parsing of the arguments and serde's JSON are the environment's. *)

From S2P Require Import Prelude RustStr F64 NetAddr Externs Toy FileSys PrintTypes Printing.
From S2P Require Import Protocol IpWhitelist Config JobQueue Activity TaskHistory ConfigTransfer.
From S2P Require Import State Commands.
From Stdlib Require Import Ascii.
Open Scope string_scope.
Open Scope N_scope.
Open Scope list_scope.

(** ** The arguments *)

Inductive ExportField :=
  | ServicePort | AllowedOrigins | AllowedIps | RemoteEnabled | RemoteUrl | RemoteToken
  | RemoteInterval | RemoteMaxRetries.
#[export] Instance ExportField_eq_dec : EqDecision ExportField.
Proof. solve_decision. Defined.

Inductive ConfigCommand :=
  | CfgExport (path : string) (only : list ExportField) (password_file : option string)
      (allow_empty_password : bool)
  | CfgImport (path : string) (password_file : option string)
      (preview yes allow_empty_password : bool)
  | CfgValidate (path : option string).
Inductive ServiceCommand := SetPort (port : N).
Inductive IpCommand := IpAdd (entry : string) | IpDelete (entry : string).
Inductive AutostartCommand := AutostartEnable | AutostartDisable.
Inductive AppCommand := Language (language : string).
Inductive PrinterCommand := SetDefault (printer_name : string).
Inductive PaperCommand := PaperSet (width height : f64).
Inductive OriginCommand := OriginAdd (origin : string) | OriginDelete (origin : string).
Inductive RemoteCommand :=
  | REnable | RDisable | RSetUrl (url : string) | RSetToken (token : string)
  | RSetDeviceId (device_id : string) | RSetDeviceName (device_name : string)
  | RSetInterval (seconds : N) | RSetMaxRetries (retries : N) | RGenerateDeviceId.
Inductive TaskCommand := TaskClear.

(** The commands, with the arguments of their [Args] structs. *)
Inductive CliCommand :=
  | CliStatus
  | CliConfig (command : option ConfigCommand)
  | CliPrinter (command : option PrinterCommand) (printer_name : option string)
  | CliPaper (command : option PaperCommand)
  | CliOrigin (command : option OriginCommand)
  | CliRemote (command : option RemoteCommand)
  | CliTask (command : option TaskCommand) (job_id : option string)
  | CliLogs
  | CliTestRemote
  | CliTestPrint
  | CliAutostart (command : option AutostartCommand)
  | CliApp (command : AppCommand)
  | CliService (command : option ServiceCommand)
  | CliIp (command : option IpCommand)
  | CliDoctor (json : bool).

Definition export_options (fields : list ExportField) : ExportConfigOptions :=
  if bool_decide (fields = []) then export_all
  else
    let has field := existsb (λ f, bool_decide (f = field)) fields in
    mkExportConfigOptions (has ServicePort) (has AllowedOrigins) (has AllowedIps)
      (has RemoteEnabled) (has RemoteUrl) (has RemoteToken) (has RemoteInterval)
      (has RemoteMaxRetries).

Record CliOutput := mkCliOutput { co_stdout : string; co_stderr : string; co_exit_code : N }.

(** What clap makes of the arguments: commands, the help or version text, or an
    error text. *)
Inductive Parsed := ParsedCommand (command : option CliCommand) | Display (text : string)
  | ParseFailed (text : string).

(** The values printed as JSON. *)
Inductive CliJson :=
  | JResult (r : CommandResult) | JService (c : ServiceConfig) | JStrings (l : list string)
  | JRemote (c : RemoteConfig) | JPrinter (p : PrinterInfo) | JPrinters (l : list PrinterInfo)
  | JPreview (p : ImportPreview) | JDoctor (r : DoctorReport) | JAutostart (enabled : bool).

(** The trait [CliInteraction] and the trait [ProductCommandAdapter]; the answers
    are numbered, and the product acts on the world [W]. *)
Record CliInteraction := mkCliInteraction {
  read_password : nat → string → result CommandError string;
  confirm : nat → string → result CommandError bool;
  is_interactive : bool
}.
Record ProductCommandAdapter (W : Type) := mkProduct {
  product_kind : ProductKind;
  autostart_status : M W CommandError bool;
  set_autostart : bool → M W CommandError unit;
  set_language : string → M W CommandError unit
}.
Arguments mkProduct {W}.
Arguments product_kind {W}.
Arguments autostart_status {W}.
Arguments set_autostart {W}.
Arguments set_language {W}.

(** [UnsupportedProductCommandAdapter] *)
Definition unsupported_product {W} (kind : ProductKind) (reason : string)
  : ProductCommandAdapter W :=
  let error := mkCommandError KUnsupported reason in
  mkProduct kind (raise error) (λ _, raise error) (λ _, raise error).

(** [TerminalInteraction] over a terminal: the password prompt, writing to standard
    error, and reading a line. *)
Record Terminal := mkTerminal {
  tm_password : nat → string → result string string;
  tm_flush : nat → result string unit;
  tm_read_line : nat → result string string;
  tm_stdin : bool;
  tm_stderr : bool
}.
Definition interaction_error (message : string) : CommandError := mkCommandError KRuntime message.
Definition terminal_interaction (t : Terminal) : CliInteraction :=
  mkCliInteraction
    (λ n prompt, map_err interaction_error (tm_password t n prompt))
    (λ n _,
       _ ← map_err interaction_error (tm_flush t n);
       answer ← map_err interaction_error (tm_read_line t n);
       let answer := to_ascii_lowercase (trim answer) in
       Ok (bool_decide (answer = "y") || bool_decide (answer = "yes")))
    (tm_stdin t && tm_stderr t).

(** Clap, JSON, files, ports and random ids. *)
Class CliEnv := {
  ci_parse : list string → Parsed;
  ci_long_help : string;
  ci_json : CliJson → result string string;
  ci_read_file : nat → string → result IoError string;
  ci_bind : nat → N → bool;
  ci_uuid : nat → string;
  (** The text of the url crate's error. *)
  ci_url_error : string → string
}.

(** ** The configuration edits *)

Section edits.
Context `{U : UrlOps, I : IpNetOps, CE : !CliEnv}.

Definition invalid_input {A} (message : string) : result CommandError A :=
  Err (mkCommandError KInvalidInput message).

Definition with_service (c : AgentConfig) (v : ServiceConfig) : AgentConfig :=
  mkAgentConfig v (cfg_security c) (cfg_printing c) (cfg_limits c) (cfg_app c) (cfg_remote c).
Definition with_security (c : AgentConfig) (v : SecurityConfig) : AgentConfig :=
  mkAgentConfig (cfg_service c) v (cfg_printing c) (cfg_limits c) (cfg_app c) (cfg_remote c).
Definition with_printing (c : AgentConfig) (v : PrintingConfig) : AgentConfig :=
  mkAgentConfig (cfg_service c) (cfg_security c) v (cfg_limits c) (cfg_app c) (cfg_remote c).
Definition with_app (c : AgentConfig) (v : AppConfig) : AgentConfig :=
  mkAgentConfig (cfg_service c) (cfg_security c) (cfg_printing c) (cfg_limits c) v (cfg_remote c).
Definition with_remote (c : AgentConfig) (v : RemoteConfig) : AgentConfig :=
  mkAgentConfig (cfg_service c) (cfg_security c) (cfg_printing c) (cfg_limits c) (cfg_app c) v.

(** The body of [ip] between reading and saving. *)
Definition edit_ips (command : IpCommand) (config : AgentConfig) : result CommandError AgentConfig :=
  let security := cfg_security config in
  let put entries :=
    with_security config (mkSecurityConfig (se_allowed_origins security)
                            (normalize_allowed_ips entries)) in
  match command with
  | IpAdd entry =>
      _ ← map_err (mkCommandError KInvalidInput) (validate_allowed_ip_entry entry);
      Ok (put (se_allowed_ips security ++ [entry]))
  | IpDelete entry =>
      if bool_decide (trim entry = REQUIRED_LOOPBACK_IP) then
        invalid_input (REQUIRED_LOOPBACK_IP +:+ " is required and cannot be deleted")
      else Ok (put (filter (λ item, item ≠ trim entry) (se_allowed_ips security)))
  end.

(** The body of [origin]. *)
Definition edit_origins (command : OriginCommand) (config : AgentConfig)
  : result CommandError AgentConfig :=
  let security := cfg_security config in
  let put origins := with_security config (mkSecurityConfig origins (se_allowed_ips security)) in
  match command with
  | OriginAdd origin =>
      _ ← map_err (λ error, mkCommandError KInvalidInput (ProtocolError_display error))
            (validate_origin origin);
      Ok (if bool_decide (origin ∈ se_allowed_origins security) then config
          else put (se_allowed_origins security ++ [origin]))
  | OriginDelete origin => Ok (put (filter (λ item, item ≠ origin) (se_allowed_origins security)))
  end.

(** The body of [remote]; a generated id is an argument. *)
Definition edit_remote (uuid : string) (command : RemoteCommand) (config : AgentConfig)
  : result CommandError AgentConfig :=
  let r := cfg_remote config in
  let put enabled url token id name seconds retries :=
    with_remote config (mkRemoteConfig enabled url token id name seconds retries
                          (rc_history_retention_days r)) in
  let e := rc_enabled r in let u := rc_endpoint_url r in let t := rc_bearer_token r in
  let d := rc_device_id r in let n := rc_device_name r in
  let s := rc_poll_interval_seconds r in let m := rc_max_report_retries r in
  match command with
  | REnable => Ok (put true u t d n s m)
  | RDisable => Ok (put false u t d n s m)
  | RSetUrl url =>
      parsed ← ok_or (mkCommandError KInvalidInput (ci_url_error url)) (Url_parse url);
      if bool_decide (url_scheme parsed = "http") || bool_decide (url_scheme parsed = "https")
      then Ok (put e (Some url) t d n s m)
      else invalid_input "remote URL must use http or https"
  | RSetToken token => Ok (put e u (Some token) d n s m)
  | RSetDeviceId device_id => Ok (put e u t (Some device_id) n s m)
  | RSetDeviceName device_name => Ok (put e u t d (Some device_name) s m)
  | RSetInterval seconds => Ok (put e u t d n seconds m)
  | RSetMaxRetries retries =>
      if retries <? MIN_REMOTE_MAX_REPORT_RETRIES
      then invalid_input ("max retries must be at least " +:+ pretty MIN_REMOTE_MAX_REPORT_RETRIES)
      else Ok (put e u t d n s retries)
  | RGenerateDeviceId => Ok (put e u t (Some uuid) n s m)
  end.

(** The body of [service_config]; whether the port can be bound is an argument. *)
Definition edit_service (can_bind : bool) (command : ServiceCommand) (config : AgentConfig)
  : result CommandError AgentConfig :=
  let '(SetPort port) := command in
  if negb ((MIN_SERVICE_PORT <=? port) && (port <=? MAX_SERVICE_PORT)) then
    invalid_input ("service port must be between " +:+ pretty MIN_SERVICE_PORT +:+ " and " +:+
                   pretty MAX_SERVICE_PORT)
  else if negb (port =? sv_port (cfg_service config)) && negb can_bind then
    Err (mkCommandError KConflict ("service port " +:+ pretty port +:+ " is already occupied"))
  else Ok (with_service config (mkServiceConfig (sv_host (cfg_service config)) port)).

Definition edit_printer (command : PrinterCommand) (config : AgentConfig)
  : result CommandError AgentConfig :=
  let '(SetDefault printer_name) := command in
  let p := cfg_printing config in
  Ok (with_printing config (mkPrintingConfig (Some printer_name) (pc_default_paper p)
                              (pc_default_copies p))).
(** The check of [paper], made before the configuration is read, and its edit. *)
Definition check_paper (command : PaperCommand) : result CommandError unit :=
  let '(PaperSet width height) := command in
  if negb (is_finite width) || negb (is_finite height) || f64_leb width f64_zero ||
     f64_leb height f64_zero
  then invalid_input "paper dimensions must be positive finite numbers"
  else Ok tt.
Definition edit_paper (command : PaperCommand) (config : AgentConfig)
  : result CommandError AgentConfig :=
  let '(PaperSet width height) := command in
  let p := cfg_printing config in
  Ok (with_printing config (mkPrintingConfig (pc_default_printer p)
                              (Some (mkEffectivePaper width height)) (pc_default_copies p))).
End edits.

(** ** Running commands *)

(** The world the executors and the product act on, the number of questions asked
    of the environment, and the commands run so far with their results. *)
Definition Transcript : Type := list (Command * result CommandError CommandResult).
Record CliWorld (W : Type) := mkCliWorld {
  cl_world : W; cl_tick : nat; cl_ran : Transcript
}.
Arguments mkCliWorld {W}.
Arguments cl_world {W}.
Arguments cl_tick {W}.
Arguments cl_ran {W}.

Section cli.
Context `{U : UrlOps, I : IpNetOps, CE : !CliEnv} {W : Type}.
Context (service : CommandService W) (product : ProductCommandAdapter W)
        (interaction : CliInteraction).
Abbreviation CliM := (M (CliWorld W) CommandError).

Definition cli_tick {E} : M (CliWorld W) E nat := λ w,
  (Ok (cl_tick w), mkCliWorld (cl_world w) (S (cl_tick w)) (cl_ran w)).
Definition on_world {A} (m : M W CommandError A) : CliM A :=
  zoom cl_world (λ v w, mkCliWorld v (cl_tick w) (cl_ran w)) m.
Definition run (command : Command) : CliM CommandResult :=
  result ← attempt (on_world (service_execute service command));
  _ ← modify (λ w, mkCliWorld (cl_world w) (cl_tick w) (cl_ran w ++ [(command, result)]));
  lift result.
(** A question: the answer has the number of the question. *)
Definition ask {A} (question : nat → result CommandError A) : CliM A :=
  n ← cli_tick; lift (question n).

Definition unexpected {A} : CliM A :=
  raise (mkCommandError KRuntime "command returned an unexpected result").
Definition json (value : CliJson) : CliM string :=
  lift (match ci_json value with
        | Ok text => Ok (text +:+ String "010" "")
        | Err error => Err (mkCommandError KRuntime error)
        end).
Definition run_json (command : Command) : CliM string :=
  r ← run command; json (JResult r).

Definition get_config : CliM AgentConfig :=
  r ← run GetConfig;
  match r with RConfig config => mret config | _ => unexpected end.
Definition cli_save_config (config : AgentConfig) : CliM unit :=
  r ← run (SaveConfig config);
  match r with RConfig _ => mret tt | _ => unexpected end.

(** Reading, editing and saving the configuration, as every editing command does;
    [None] prints a part of it instead. *)
Definition edit_config (edit : option (AgentConfig → result CommandError AgentConfig))
    (view : AgentConfig → CliJson) (done : string) : CliM string :=
  config ← get_config;
  match edit with
  | None => json (view config)
  | Some edit =>
      config ← lift (edit config);
      _ ← cli_save_config config;
      mret done
  end.

Definition newline (s : string) : string := s +:+ String "010" "".

Definition cli_service (command : option ServiceCommand) : CliM string :=
  n ← cli_tick;
  let can_bind := match command with Some (SetPort port) => ci_bind n port | None => true end in
  edit_config (edit_service can_bind <$> command) (λ c, JService (cfg_service c))
    (newline "service port updated; restart the agent to apply it").
Definition cli_ip (command : option IpCommand) : CliM string :=
  edit_config (edit_ips <$> command) (λ c, JStrings (se_allowed_ips (cfg_security c)))
    (newline "allowed IPs updated").
Definition cli_origin (command : option OriginCommand) : CliM string :=
  edit_config (edit_origins <$> command) (λ c, JStrings (se_allowed_origins (cfg_security c)))
    (newline "allowed origins updated").
Definition cli_remote (command : option RemoteCommand) : CliM string :=
  n ← cli_tick;
  edit_config (edit_remote (ci_uuid n) <$> command) (λ c, JRemote (cfg_remote c))
    (newline "remote configuration updated").

Definition cli_printer (command : option PrinterCommand) (printer_name : option string)
  : CliM string :=
  match command, printer_name with
  | Some command, None =>
      edit_config (Some (edit_printer command)) (λ c, JResult (RConfig c))
        (newline "default printer updated")
  | None, name =>
      r ← run ListPrinters;
      match r with
      | RPrinters printers =>
          match name with
          | Some name =>
              printer ← lift (ok_or (mkCommandError KInvalidInput "printer not found")
                                (iter_find (λ item, bool_decide (pi_name item = name)) printers));
              json (JPrinter printer)
          | None => json (JPrinters printers)
          end
      | _ => unexpected
      end
  | Some _, Some _ => raise (mkCommandError KInvalidInput "invalid printer command")
  end.

Definition cli_paper (command : option PaperCommand) : CliM string :=
  match command with
  | Some command =>
      _ ← lift (check_paper command);
      edit_config (Some (edit_paper command)) (λ c, JResult (RConfig c))
        (newline "default paper updated")
  | None =>
      config ← get_config;
      printer_name ← lift (ok_or (mkCommandError KInvalidInput "default printer is not configured")
                             (pc_default_printer (cfg_printing config)));
      run_json (ListPapers printer_name)
  end.

Definition cli_task (command : option TaskCommand) (job_id : option string) : CliM string :=
  match command with
  | Some TaskClear => _ ← run ClearTaskHistory; mret (newline "task history cleared")
  | None =>
      match job_id with
      | Some job_id => run_json (GetTaskHistoryEvents job_id)
      | None => run_json GetTaskHistory
      end
  end.

(** ** Exporting and importing *)

(** [read_password_file]: one line ending is removed. *)
Definition strip_line_end (bytes : string) : string :=
  match strip_suffix (String "013" (String "010" "")) bytes with
  | Some password => password
  | None => unwrap_or (strip_suffix (String "010" "") bytes) bytes
  end.
Definition read_password_file (path : string) : CliM string :=
  n ← cli_tick;
  bytes ← lift (map_err (λ error,
    mkCommandError KRuntime ("cannot read password file: " +:+ io_message error))
    (ci_read_file n path));
  let password := strip_line_end bytes in
  if utf8_valid (to_bytes password) then mret password
  else raise (mkCommandError KInvalidInput "password file must contain valid UTF-8").

Definition export_password (password_file : option string) : CliM string :=
  match password_file with
  | Some path => read_password_file path
  | None =>
      if negb (is_interactive interaction) then
        raise (mkCommandError KInvalidInput "non-interactive export requires --password-file")
      else
        password ← ask (λ n, read_password interaction n "Password: ");
        confirmation ← ask (λ n, read_password interaction n "Confirm password: ");
        if bool_decide (password = confirmation) then mret password
        else raise (mkCommandError KInvalidInput "passwords do not match")
  end.
Definition import_password (password_file : option string) : CliM string :=
  match password_file with
  | Some path => read_password_file path
  | None =>
      if is_interactive interaction then ask (λ n, read_password interaction n "Password: ")
      else raise (mkCommandError KInvalidInput "non-interactive import requires --password-file")
  end.

Definition approve_empty_password (explicitly_allowed : bool) : CliM unit :=
  let refused := raise (mkCommandError KInvalidInput
    "empty password with bearer token requires explicit confirmation or --allow-empty-password") in
  if explicitly_allowed then mret tt
  else if is_interactive interaction then
    yes ← ask (λ n, confirm interaction n
      "The export contains a bearer token and uses an empty password. Continue?");
    if yes : bool then mret tt else refused
  else refused.

Definition cli_export (path : string) (only : list ExportField) (password_file : option string)
    (allow_empty_password : bool) : CliM string :=
  password ← export_password password_file;
  config ← get_config;
  let options := export_options only in
  _ ← (if is_empty password && eo_remote_bearer_token options &&
          is_some (rc_bearer_token (cfg_remote config))
       then approve_empty_password allow_empty_password else mret tt);
  _ ← run (ExportConfig path password options);
  mret (newline "configuration exported").

Definition cli_import (path : string) (password_file : option string)
    (preview yes allow_empty_password : bool) : CliM string :=
  let interactive := is_interactive interaction in
  if negb interactive && (is_none password_file || (negb preview && negb yes)) then
    raise (mkCommandError KInvalidInput "non-interactive import requires --password-file and --yes")
  else
    password ← import_password password_file;
    if is_empty password && negb interactive && negb allow_empty_password then
      raise (mkCommandError KInvalidInput "empty password requires --allow-empty-password")
    else
      r ← run (PreviewConfigImport path password);
      import_preview ← match r with RImportPreview p => mret p | _ => unexpected end;
      rendered ← json (JPreview import_preview);
      if preview : bool then mret rendered
      else
        confirmed ← (if yes : bool then mret true
                     else ask (λ n, confirm interaction n "Apply these configuration changes?"));
        if negb confirmed then mret (rendered +:+ newline "import cancelled")
        else
          _ ← run (ImportConfig path password (ip_file_hash import_preview));
          mret (rendered +:+ newline "configuration imported").

Definition cli_config (command : option ConfigCommand) : CliM string :=
  match command with
  | None => run_json GetConfig
  | Some (CfgValidate path) =>
      _ ← run (ValidateConfig path);
      mret (newline "configuration is valid")
  | Some (CfgExport path only password_file allow_empty_password) =>
      cli_export path only password_file allow_empty_password
  | Some (CfgImport path password_file preview yes allow_empty_password) =>
      cli_import path password_file preview yes allow_empty_password
  end.

(** ** The whole command line *)

Definition cli_autostart (command : option AutostartCommand) : CliM string :=
  match command with
  | None => enabled ← on_world (autostart_status product); json (JAutostart enabled)
  | Some AutostartEnable =>
      _ ← on_world (set_autostart product true); mret (newline "autostart enabled")
  | Some AutostartDisable =>
      _ ← on_world (set_autostart product false); mret (newline "autostart disabled")
  end.
Definition cli_app (command : AppCommand) : CliM string :=
  let '(Language language) := command in
  if negb (bool_decide (language = "zh-CN") || bool_decide (language = "en")) then
    raise (mkCommandError KInvalidInput "language must be zh-CN or en")
  else
    _ ← on_world (set_language product language);
    mret (newline "application language updated; restart the GUI if it is currently open").

(** [execute]; [doctor] is handled before it ([unreachable!] in the source). *)
Definition cli_execute (command : CliCommand) : CliM string :=
  match command with
  | CliStatus => run_json Status
  | CliConfig command => cli_config command
  | CliPrinter command printer_name => cli_printer command printer_name
  | CliPaper command => cli_paper command
  | CliOrigin command => cli_origin command
  | CliRemote command => cli_remote command
  | CliTask command job_id => cli_task command job_id
  | CliLogs => run_json GetLogs
  | CliTestRemote =>
      config ← get_config;
      _ ← run (TestRemoteConnection config);
      mret (newline "remote connection succeeded")
  | CliTestPrint =>
      config ← get_config;
      _ ← run (TestPrint config);
      mret (newline "test page submitted")
  | CliAutostart command => cli_autostart command
  | CliApp command => cli_app command
  | CliService command => cli_service command
  | CliIp command => cli_ip command
  | CliDoctor _ => unexpected
  end.

Definition doctor_line (check : DoctorCheck) : string :=
  let status := match dc_status check with DPass => "PASS" | DWarn => "WARN" | DFail => "FAIL" end in
  newline ("[" +:+ status +:+ "] " +:+ dc_code check +:+ ": " +:+ dc_message check) +:+
  match dc_suggestion check with
  | Some suggestion => newline ("  suggestion: " +:+ suggestion)
  | None => ""
  end.
Definition doctor_text (report : DoctorReport) : string :=
  let s := dr_summary report in
  fold_left (λ output check, output +:+ doctor_line check) (dr_checks report) "" +:+
  newline ("summary: " +:+ pretty (ds_pass s) +:+ " pass, " +:+ pretty (ds_warn s) +:+ " warn, " +:+
           pretty (ds_fail s) +:+ " fail").

Definition cli_display_output_from (args : list string) : option CliOutput :=
  match ci_parse args with
  | Display text => Some (mkCliOutput text "" 0)
  | _ => None
  end.

Definition run_cli_from (args : list string) : CliM CliOutput :=
  match ci_parse args with
  | Display text => mret (mkCliOutput text "" 0)
  | ParseFailed error => raise (mkCommandError KInvalidInput error)
  | ParsedCommand None => mret (mkCliOutput ci_long_help "" 0)
  | ParsedCommand (Some (CliDoctor as_json)) =>
      r ← run (Doctor (product_kind product));
      match r with
      | RDoctor report =>
          output ← (if as_json : bool then json (JDoctor report) else mret (doctor_text report));
          mret (mkCliOutput output "" (if 0 <? ds_fail (dr_summary report) then 1 else 0))
      | _ => unexpected
      end
  | ParsedCommand (Some command) =>
      output ← cli_execute command;
      mret (mkCliOutput output "" 0)
  end.
End cli.

(** ** What a command line runs *)

Section story.
Context `{U : UrlOps, I : IpNetOps, CE : !CliEnv} {W : Type}.
Context (service : CommandService W) (product : ProductCommandAdapter W)
        (interaction : CliInteraction).
Implicit Types (tr : Transcript) (w : CliWorld W).

(** [wp m tr Q]: from any world with the transcript [tr], [m] ends in a result and
    a transcript that satisfy [Q]. *)
Definition wp {A} (m : M (CliWorld W) CommandError A) tr
    (Q : result CommandError A → Transcript → Prop) : Prop :=
  ∀ w, cl_ran w = tr → Q (m w).1 (cl_ran (m w).2).

Lemma wp_bind {A B} (m : M (CliWorld W) CommandError A) (k : A → M (CliWorld W) CommandError B) tr Q :
  wp m tr (λ r tr', match r with Ok a => wp (k a) tr' Q | Err e => Q (Err e) tr' end) →
  wp (m ≫= k) tr Q.
Proof.
  intros H w Hw. specialize (H w Hw). rewrite M_bind_eq. destruct (m w) as [[a|e] w']; simpl in *.
  - by apply H.
  - done.
Qed.
Lemma wp_lift {A} (r : result CommandError A) tr Q : Q r tr → wp (lift r) tr Q.
Proof. by intros H w <-. Qed.
Lemma wp_ret {A} (a : A) tr Q : Q (Ok a) tr → wp (mret a) tr Q.
Proof. by intros H w <-. Qed.
Lemma wp_raise {A} (e : CommandError) tr Q : Q (Err e) tr → wp (raise e : M _ _ A) tr Q.
Proof. by intros H w <-. Qed.
Lemma wp_tick tr Q : (∀ n, Q (Ok n) tr) → wp cli_tick tr Q.
Proof. intros H w <-. apply H. Qed.
Lemma wp_ask {A} (question : nat → result CommandError A) tr Q :
  (∀ n, Q (question n) tr) → wp (ask question) tr Q.
Proof. intros H w <-. apply H. Qed.
Lemma wp_world {A} (m : M W CommandError A) tr Q : (∀ r, Q r tr) → wp (on_world m) tr Q.
Proof. intros H w <-. unfold on_world, zoom. destruct (m (cl_world w)). apply H. Qed.
Lemma wp_run command tr Q : (∀ r, Q r (tr ++ [(command, r)])) → wp (run service command) tr Q.
Proof.
  intros H w <-. unfold run. rewrite attempt_bind. unfold on_world, zoom.
  destruct (service_execute service command (cl_world w)) as [r v]. apply H.
Qed.
Lemma wp_mono {A} (m : M (CliWorld W) CommandError A) tr Q Q' :
  wp m tr Q → (∀ r tr', Q r tr' → Q' r tr') → wp m tr Q'.
Proof. intros Hm H w Hw. apply H, Hm, Hw. Qed.
Lemma wp_json value tr (Q : result CommandError string → Transcript → Prop) :
  (∀ r, Q r tr) → wp (json value) tr Q.
Proof. intros H. apply wp_lift, H. Qed.

End story.

#[global] Opaque json run on_world ask cli_tick.

(** Walks through a command, one step at a time. *)
Ltac wp_step :=
  cbv beta iota zeta;
  match goal with
  | |- wp (_ ≫= _) _ _ => apply wp_bind
  | |- wp (lift _) _ _ => apply wp_lift
  | |- wp (mret _) _ _ => apply wp_ret
  | |- wp (raise _) _ _ => apply wp_raise
  | |- wp unexpected _ _ => apply wp_raise
  | |- wp cli_tick _ _ => apply wp_tick; intros ?
  | |- wp (ask _) _ _ => apply wp_ask; intros ?
  | |- wp (on_world _) _ _ => apply wp_world; intros [?|?]
  | |- wp (run _ _) _ _ => apply wp_run; intros [[]|?]
  | |- wp (json _) _ _ => apply wp_json; intros [?|?]
  | |- wp (if ?b then _ else _) _ _ => destruct b eqn:?
  | |- wp (match ?x with _ => _ end) _ _ => destruct x eqn:?
  | |- match ?x with Ok _ => _ | Err _ => _ end => destruct x eqn:?
  end.
Ltac solve_wp := repeat wp_step; simpl.

(** ** The stories of the commands *)

Section stories.
Context `{U : UrlOps, I : IpNetOps, CE : !CliEnv} {W : Type}.
Context (service : CommandService W) (product : ProductCommandAdapter W)
        (interaction : CliInteraction).
Implicit Types (tr : Transcript) (w : CliWorld W) (r : result CommandError string).

(** Reading the configuration, and running a command that depends on it. *)
Inductive config_story (next : AgentConfig → result CommandError Command)
  : result CommandError string → Transcript → Prop :=
  | config_unread a e :
      (∀ config, a ≠ Ok (RConfig config)) → config_story next (Err e) [(GetConfig, a)]
  | config_refused config e :
      next config = Err e → config_story next (Err e) [(GetConfig, Ok (RConfig config))]
  | config_used config command a r :
      next config = Ok command →
      config_story next r [(GetConfig, Ok (RConfig config)); (command, a)].
Definition saving (edit : AgentConfig → result CommandError AgentConfig) (config : AgentConfig)
  : result CommandError Command := config ← edit config; Ok (SaveConfig config).

Definition APPROVAL : string :=
  "The export contains a bearer token and uses an empty password. Continue?".
Definition export_story (path : string) (only : list ExportField) (allowed : bool) r tr : Prop :=
  ((∃ e, r = Err e) ∧ (tr = [] ∨ ∃ a, tr = [(GetConfig, a)])) ∨
  ∃ config password a,
    tr = [(GetConfig, Ok (RConfig config)); (ExportConfig path password (export_options only), a)] ∧
    (password = "" → eo_remote_bearer_token (export_options only) = true →
     is_some (rc_bearer_token (cfg_remote config)) = true →
     allowed = true ∨ ∃ n, confirm interaction n APPROVAL = Ok true).

Definition import_story (path : string) (preview yes allowed : bool) r tr : Prop :=
  ((∃ e, r = Err e) ∧ tr = []) ∨
  ∃ password a, (password = "" → is_interactive interaction = true ∨ allowed = true) ∧
    (tr = [(PreviewConfigImport path password, a)] ∨
     ∃ p b, a = Ok (RImportPreview p) ∧ preview = false ∧
       (yes = true ∨ ∃ n, confirm interaction n "Apply these configuration changes?" = Ok true) ∧
       tr = [(PreviewConfigImport path password, a);
             (ImportConfig path password (ip_file_hash p), b)]).

Definition story (command : CliCommand) r tr : Prop :=
  let one question := ∃ a, tr = [(question, a)] in
  let edits edit := config_story (saving edit) r tr in
  match command with
  | CliStatus => one Status
  | CliLogs => one GetLogs
  | CliConfig None => one GetConfig
  | CliConfig (Some (CfgValidate path)) => one (ValidateConfig path)
  | CliConfig (Some (CfgExport path only _ allowed)) => export_story path only allowed r tr
  | CliConfig (Some (CfgImport path _ preview yes allowed)) =>
      import_story path preview yes allowed r tr
  | CliPrinter None _ => one ListPrinters
  | CliPrinter (Some command) None => edits (edit_printer command)
  | CliPrinter (Some _) (Some _) => (∃ e, r = Err e) ∧ tr = []
  | CliPaper (Some command) =>
      match check_paper command with
      | Err e => r = Err e ∧ tr = []
      | Ok _ => edits (edit_paper command)
      end
  | CliPaper None =>
      config_story (λ config,
        ok_or (mkCommandError KInvalidInput "default printer is not configured")
          (ListPapers <$> pc_default_printer (cfg_printing config))) r tr
  | CliOrigin (Some command) => edits (edit_origins command)
  | CliRemote (Some command) => ∃ n, edits (edit_remote (ci_uuid n) command)
  | CliService (Some (SetPort port)) =>
      ∃ n, edits (edit_service (ci_bind n port) (SetPort port))
  | CliIp (Some command) => edits (edit_ips command)
  | CliOrigin None | CliRemote None | CliService None | CliIp None => one GetConfig
  | CliTask (Some TaskClear) _ => one ClearTaskHistory
  | CliTask None (Some job_id) => one (GetTaskHistoryEvents job_id)
  | CliTask None None => one GetTaskHistory
  | CliTestRemote => config_story (λ config, Ok (TestRemoteConnection config)) r tr
  | CliTestPrint => config_story (λ config, Ok (TestPrint config)) r tr
  | CliAutostart _ | CliApp _ | CliDoctor _ => tr = []
  end.

(** A failing command ends the command line with its error. *)
Definition faithful {A} (r : result CommandError A) tr : Prop :=
  ∀ command e, (command, Err e) ∈ tr → r = Err e.

(** From the transcript [tr0] on, the story [φ] is told. *)
Definition tells {A} tr0 (φ : result CommandError A → Transcript → Prop)
    (r : result CommandError A) tr : Prop :=
  ∃ new, tr = tr0 ++ new ∧ φ r new ∧ faithful r new.
Lemma tells_nil {A} tr0 φ (r : result CommandError A) : φ r [] → tells tr0 φ r tr0.
Proof. intros H. exists []. rewrite app_nil_r. split_and!; try done. intros c e He. by apply elem_of_nil in He. Qed.
Lemma tells_one {A} tr0 φ (r : result CommandError A) c a :
  φ r [(c, a)] → (∀ e, a = Err e → r = Err e) → tells tr0 φ r (tr0 ++ [(c, a)]).
Proof.
  intros H Ha. exists [(c, a)]. split_and!; try done.
  intros c' e He. apply list_elem_of_singleton in He. injection He as _ <-. by apply Ha.
Qed.
Lemma tells_two {A} tr0 φ (r : result CommandError A) c x d a :
  φ r [(c, Ok x); (d, a)] → (∀ e, a = Err e → r = Err e) →
  tells tr0 φ r ((tr0 ++ [(c, Ok x)]) ++ [(d, a)]).
Proof.
  intros H Ha. exists [(c, Ok x); (d, a)]. rewrite <-app_assoc. split_and!; try done.
  intros c' e He. apply elem_of_cons in He as [He|He]; [done|].
  apply list_elem_of_singleton in He. injection He as _ <-. by apply Ha.
Qed.
End stories.

Lemma saving_ok edit config config' :
  edit config = Ok config' → saving edit config = Ok (SaveConfig config').
Proof. unfold saving. by intros ->. Qed.
Lemma saving_err edit config e : edit config = Err e → saving edit config = Err e.
Proof. unfold saving. by intros ->. Qed.

Create HintDb cli.
#[export] Hint Constructors config_story : cli.
#[export] Hint Extern 1 (∀ config, _ ≠ Ok (RConfig config)) => congruence : cli.
#[export] Hint Resolve saving_ok saving_err : cli.
Ltac tells := simpl;
  first [apply tells_nil | apply tells_one; [|congruence] | apply tells_two; [|congruence]].

Ltac solve_story := solve_wp; tells; simpl; eauto with cli.

Section command_stories.
Context `{U : UrlOps, I : IpNetOps, CE : !CliEnv} {W : Type}.
Context (service : CommandService W) (product : ProductCommandAdapter W)
        (interaction : CliInteraction).

Lemma wp_get_config tr Q :
  (∀ a e, (∀ e', a = Err e' → Err e = Err e' :> result CommandError AgentConfig) →
     Q (Err e) (tr ++ [(GetConfig, a)])) →
  (∀ config, Q (Ok config) (tr ++ [(GetConfig, Ok (RConfig config))])) →
  wp (W := W) (get_config service) tr Q.
Proof. intros He Hok. unfold get_config. solve_wp; first [by apply Hok | apply He; congruence]. Qed.

Lemma edit_config_story edit view done tr0 :
  wp (edit_config (W := W) service (Some edit) view done) tr0 (tells tr0 (config_story (saving edit))).
Proof.
  unfold edit_config, get_config, cli_save_config. solve_wp; tells; eauto with cli.
Qed.

Lemma wp_read_password_file path tr Q :
  (∀ r, Q r tr) → wp (W := W) (read_password_file path) tr Q.
Proof. intros H. unfold read_password_file. solve_wp; apply H. Qed.
Lemma wp_export_password password_file tr Q :
  (∀ r, Q r tr) → wp (W := W) (export_password interaction password_file) tr Q.
Proof.
  intros H. unfold export_password. destruct password_file; [by apply wp_read_password_file|].
  solve_wp; apply H.
Qed.
Lemma wp_import_password password_file tr Q :
  (∀ r, Q r tr) → wp (W := W) (import_password interaction password_file) tr Q.
Proof.
  intros H. unfold import_password. destruct password_file; [by apply wp_read_password_file|].
  solve_wp; apply H.
Qed.
Lemma wp_approve (needed : bool) allowed tr Q :
  (∀ e, Q (Err e) tr) →
  ((needed = true → allowed = true ∨ ∃ n, confirm interaction n APPROVAL = Ok true) → Q (Ok tt) tr) →
  wp (W := W) (if needed then approve_empty_password interaction allowed else mret tt) tr Q.
Proof.
  intros He Hok. unfold approve_empty_password. solve_wp; try apply He; apply Hok; try done; eauto.
Qed.

Lemma cli_export_story path only password_file allowed tr0 :
  wp (W := W) (cli_export service interaction path only password_file allowed) tr0
    (tells tr0 (export_story interaction path only allowed)).
Proof.
  unfold cli_export, get_config. apply wp_bind, wp_export_password.
  intros [password|e]; [|tells; left; eauto].
  apply wp_bind, wp_get_config; [intros a e Ha; apply tells_one; [left; eauto|intros e' He; by injection (Ha e' He) as ->]|intros config].
  apply wp_bind, wp_approve; [intros e; tells; left; eauto|]. intros Hok. apply wp_bind, wp_run.
  intros [x|e]; try apply wp_ret; tells; right; exists config, password; eexists;
    (split; [reflexivity|]); intros -> Hb Ht; apply Hok; by rewrite Hb, Ht.
Qed.

Lemma cli_import_story path password_file preview yes allowed tr0 :
  wp (W := W) (cli_import service interaction path password_file preview yes allowed) tr0
    (tells tr0 (import_story interaction path preview yes allowed)).
Proof.
  unfold cli_import. solve_wp; [tells; left; eauto|].
  apply wp_import_password. intros [password|e]; [|tells; left; eauto].
  destruct (is_empty password && _ && _) eqn:Hempty; [apply wp_raise; tells; left; eauto|].
  assert (password = "" → is_interactive interaction = true ∨ allowed = true) as Hok.
  { intros ->. simpl in Hempty. destruct (is_interactive interaction), allowed; auto; done. }
  solve_wp; try match goal with H : negb ?b = false |- _ => apply negb_false_iff in H; subst b end;
    tells; right; exists password; eexists; (split; [exact Hok|]);
    first [by left | right; do 2 eexists; split_and!; eauto].
Qed.

Lemma tells_mono {A} (m : M (CliWorld W) CommandError A) tr0 tr
    (φ ψ : result CommandError A → Transcript → Prop) :
  wp m tr (tells tr0 φ) → (∀ r new, φ r new → ψ r new) → wp m tr (tells tr0 ψ).
Proof.
  intros Hm H. eapply wp_mono; [exact Hm|]. intros r tr' (new&->&Hs&Hf). exists new.
  split_and!; [done|by apply H|done].
Qed.

Lemma cli_config_story command tr0 :
  wp (W := W) (cli_config service interaction command) tr0
    (tells tr0 (story interaction (CliConfig command))).
Proof.
  destruct command as [[path only file allowed|path file preview yes allowed|path]|]; simpl.
  - apply cli_export_story.
  - apply cli_import_story.
  - solve_story.
  - unfold run_json. solve_story.
Qed.

Lemma viewed_story view done tr0 :
  wp (W := W) (edit_config service None view done) tr0
    (tells tr0 (λ _ tr, ∃ a, tr = [(GetConfig, a)])).
Proof. unfold edit_config, get_config. solve_story. Qed.

Lemma cli_execute_story command tr0 :
  wp (W := W) (cli_execute service product interaction command) tr0
    (tells tr0 (story interaction command)).
Proof.
  destruct command; cbn [cli_execute].
  - unfold run_json. solve_story.
  - apply cli_config_story.
  - destruct command as [command|], printer_name as [name|]; cbn [cli_printer].
    + solve_story.
    + apply edit_config_story.
    + solve_story.
    + solve_story.
  - destruct command as [command|]; cbn [cli_paper].
    + apply wp_bind, wp_lift. destruct (check_paper command) as [[]|e] eqn:Hp.
      * eapply tells_mono; [apply edit_config_story|]. intros r new Hs. simpl. by rewrite Hp.
      * apply tells_nil. simpl. by rewrite Hp.
    + unfold get_config, run_json. solve_wp; tells; simpl; eauto with cli.
      all: constructor; simpl; destruct (pc_default_printer _); simpl in *; congruence.
  - destruct command as [command|]; [apply edit_config_story|apply viewed_story].
  - unfold cli_remote. apply wp_bind, wp_tick. intros n.
    destruct command as [command|]; [|apply viewed_story].
    eapply tells_mono; [apply edit_config_story|]. intros r new Hs. by exists n.
  - destruct command as [[]|]; [|destruct job_id]; cbn [cli_task]; unfold run_json;
      solve_story.
  - unfold run_json. solve_story.
  - unfold get_config. solve_story.
  - unfold get_config. solve_story.
  - unfold cli_autostart. solve_story.
  - destruct command. unfold cli_app. solve_story.
  - unfold cli_service. apply wp_bind, wp_tick. intros n.
    destruct command as [[port]|]; [|apply viewed_story].
    eapply tells_mono; [apply edit_config_story|]. intros r new Hs. by exists n.
  - destruct command as [command|]; [apply edit_config_story|apply viewed_story].
  - solve_story.
Qed.

(** The story of a whole invocation. *)
Definition cli_story (args : list string) (r : result CommandError CliOutput) tr : Prop :=
  match ci_parse args with
  | Display text => r = Ok (mkCliOutput text "" 0) ∧ tr = []
  | ParseFailed error => r = Err (mkCommandError KInvalidInput error) ∧ tr = []
  | ParsedCommand None => r = Ok (mkCliOutput ci_long_help "" 0) ∧ tr = []
  | ParsedCommand (Some (CliDoctor _)) =>
      ∃ a, tr = [(Doctor (product_kind product), a)] ∧
        ∀ output, r = Ok output → ∃ report, a = Ok (RDoctor report) ∧ co_stderr output = "" ∧
          co_exit_code output = (if 0 <? ds_fail (dr_summary report) then 1 else 0)
  | ParsedCommand (Some command) =>
      ∃ r', story interaction command r' tr ∧
        r = (output ← r'; Ok (mkCliOutput output "" 0))
  end.

Lemma run_cli_outcome (args : list string) (w : CliWorld W) :
  let '(r, w') := run_cli_from service product interaction args w in
  ∃ new, cl_ran w' = cl_ran w ++ new ∧ cli_story args r new ∧ faithful r new.
Proof.
  enough (wp (run_cli_from service product interaction args) (cl_ran w)
            (tells (cl_ran w) (cli_story args))) as H.
  { specialize (H w eq_refl). by destruct (run_cli_from _ _ _ args w). }
  unfold run_cli_from, cli_story. destruct (ci_parse args) as [[command|]|text|error].
  - destruct command; try (apply wp_bind; eapply wp_mono; [apply cli_execute_story|];
      intros [output|e] tr (new&->&Hs&Hf); try apply wp_ret; exists new;
      (split_and!; [done|by eexists; split; [exact Hs|]
                   |intros c e' He; specialize (Hf c e' He); congruence])).
    solve_wp; tells; simpl; eexists; (split; [reflexivity|]); intros output [=<-]; eauto.
  - apply wp_ret. by tells.
  - apply wp_ret. by tells.
  - apply wp_raise. by tells.
Qed.

(** C20: What an invocation runs.  Parsing decides: help, a version or an error run
    nothing; a command runs exactly the commands of its story, in this order.  In
    particular a configuration is saved only by an editing command, after it was
    read, and it is the edit of what was read; an export that puts a bearer token
    under an empty password was allowed by option or confirmed; an import applies
    the very file that was previewed, only when asked to and approved; the first
    command that fails is the last, and its error is the result; and the doctor's
    exit code is 1 exactly when the report it shows has a failed check. *)
Theorem run_cli_story (args : list string) (w : CliWorld W) :
  let '(r, w') := run_cli_from service product interaction args w in
  ∃ new, cl_ran w' = cl_ran w ++ new ∧ cli_story args r new ∧ faithful r new.
Proof. apply run_cli_outcome. Qed.
End command_stories.

(** ** What the edits do *)

Section edit_properties.
Context `{U : UrlOps, I : IpNetOps, CE : !CliEnv}.

(** The editing commands, with the port's and the random id's answers. *)
Inductive Edit := EditIps (c : IpCommand) | EditOrigins (c : OriginCommand)
  | EditRemote (uuid : string) (c : RemoteCommand) | EditService (can_bind : bool) (c : ServiceCommand)
  | EditPrinter (c : PrinterCommand) | EditPaper (c : PaperCommand).
Definition apply_edit (edit : Edit) : AgentConfig → result CommandError AgentConfig :=
  match edit with
  | EditIps c => edit_ips c
  | EditOrigins c => edit_origins c
  | EditRemote uuid c => edit_remote uuid c
  | EditService can_bind c => edit_service can_bind c
  | EditPrinter c => edit_printer c
  | EditPaper c => edit_paper c
  end.

(** The configurations that differ from [c] in the section of [edit] only. *)
Definition in_section (edit : Edit) (c : AgentConfig) : AgentConfig → Prop := λ c',
  match edit with
  | EditIps _ => ∃ ips, c' = with_security c (mkSecurityConfig (se_allowed_origins (cfg_security c)) ips)
  | EditOrigins _ =>
      ∃ origins, c' = with_security c (mkSecurityConfig origins (se_allowed_ips (cfg_security c)))
  | EditRemote _ _ => ∃ remote, c' = with_remote c remote
  | EditService _ _ => ∃ port, c' = with_service c (mkServiceConfig (sv_host (cfg_service c)) port) ∧
      MIN_SERVICE_PORT ≤ port ≤ MAX_SERVICE_PORT
  | EditPrinter _ | EditPaper _ => ∃ printing, c' = with_printing c printing
  end.

Lemma edit_section edit c c' : apply_edit edit c = Ok c' → in_section edit c c'.
Proof.
  destruct edit as [[]|[]|uuid []|can_bind [port]|[]|[]]; simpl; intros Hc;
    repeat (apply result_bind_ok in Hc as (?&_&Hc)).
  all: repeat match type of Hc with
       | context [if ?b then _ else _] => destruct b eqn:?; try discriminate Hc
       end; injection Hc as <-; eauto.
  - exists (se_allowed_origins (cfg_security c)). by destruct c as [? [] ? ? ? ?].
  - exists port. split; [done|]. apply negb_false_iff, andb_true_iff in Heqb as [?%N.leb_le ?%N.leb_le].
    done.
Qed.

Lemma normalized_iff c :
  normalized c = c ↔ sv_host (cfg_service c) = "127.0.0.1" ∧
    normalize_allowed_ips (se_allowed_ips (cfg_security c)) = se_allowed_ips (cfg_security c).
Proof.
  destruct c as [[host port] [origins ips] printing limits app remote]. unfold normalized. simpl. split.
  - by intros [= -> ->].
  - by intros [-> ->].
Qed.

(** Allowed addresses that were valid stay so when they are normalised. *)
Definition entry_ok (e : string) : Prop :=
  e = REQUIRED_LOOPBACK_IP ∨ ∃ e', e = trim e' ∧ validate_allowed_ip_entry e' = Ok tt.
Lemma normalize_entries_ok entries :
  (∀ e, e ∈ entries → entry_ok e ∨ validate_allowed_ip_entry e = Ok tt) →
  Forall entry_ok (normalize_allowed_ips entries).
Proof.
  intros H. apply Forall_forall. intros x [->|[(e&He&->) _]]%normalize_elem; [by left|].
  destruct (H e He) as [[->|(e'&->&Hv)]|Hv]; [by left| |right; by exists e].
  right. exists e'. by rewrite trim_idemp.
Qed.

Lemma ips_edit_ok c entries :
  config_ok c → (∀ e, e ∈ entries → e ∈ se_allowed_ips (cfg_security c) ∨
                      validate_allowed_ip_entry e = Ok tt) →
  config_ok (with_security c (mkSecurityConfig (se_allowed_origins (cfg_security c))
                                (normalize_allowed_ips entries))).
Proof.
  intros (Ho&Hn&Hp&Hr&Hi) He. apply normalized_iff in Hn as [Hh _].
  split_and!; try done.
  - apply normalized_iff. simpl. split; [done|]. apply normalize_idemp.
  - simpl. apply normalize_entries_ok. intros e [Hin|?]%He; [left|by right].
    rewrite Forall_forall in Hi. by apply Hi.
Qed.
Lemma origins_edit_ok c origins :
  config_ok c → Forall (λ o, validate_origin o = Ok tt) origins →
  config_ok (with_security c (mkSecurityConfig origins (se_allowed_ips (cfg_security c)))).
Proof.
  intros (Ho&Hn&Hp&Hr&Hi) Hnew. apply normalized_iff in Hn. split_and!; try done.
  by apply normalized_iff.
Qed.
Lemma remote_edit_ok c remote :
  config_ok c →
  MIN_REMOTE_POLL_INTERVAL_SECONDS ≤ rc_poll_interval_seconds remote →
  MIN_REMOTE_MAX_REPORT_RETRIES ≤ rc_max_report_retries remote →
  config_ok (with_remote c remote).
Proof.
  intros (Ho&Hn&Hp&Hr&Hi) Hs Hm. apply normalized_iff in Hn. split_and!; try done.
  by apply normalized_iff.
Qed.
Lemma service_edit_ok c port :
  config_ok c → config_ok (with_service c (mkServiceConfig (sv_host (cfg_service c)) port)).
Proof.
  intros (Ho&Hn&Hp&Hr&Hi). apply normalized_iff in Hn. split_and!; try done.
  by apply normalized_iff.
Qed.
Lemma printing_edit_ok c printing : config_ok c → config_ok (with_printing c printing).
Proof.
  intros (Ho&Hn&Hp&Hr&Hi). apply normalized_iff in Hn. split_and!; try done.
  by apply normalized_iff.
Qed.

(** The edit that can leave an unacceptable configuration, which saving refuses. *)
Definition short_interval (edit : Edit) : Prop :=
  match edit with
  | EditRemote _ (RSetInterval seconds) => seconds < MIN_REMOTE_POLL_INTERVAL_SECONDS
  | _ => False
  end.

Lemma edit_ok edit c c' :
  config_ok c → ¬ short_interval edit → apply_edit edit c = Ok c' → config_ok c'.
Proof.
  intros Hok Hshort. pose proof Hok as (Ho&Hn&Hp&Hr&Hi).
  destruct edit as [[]|[]|uuid []|can_bind [port]|[]|[]]; simpl; intros Hc;
    repeat (let Hv := fresh "Hv" in apply result_bind_ok in Hc as (?&Hv&Hc));
    repeat match type of Hc with
       | context [if ?b then _ else _] => destruct b eqn:?; try discriminate Hc
       end; injection Hc as <-;
    try (by apply remote_edit_ok); try (by apply service_edit_ok);
    try (by apply printing_edit_ok); try done.
  - apply ips_edit_ok; [done|]. intros e [|He%list_elem_of_singleton]%elem_of_app; [by left|right].
    subst e. destruct x. by apply map_err_ok in Hv.
  - apply ips_edit_ok; [done|]. intros e [_ ?]%list_elem_of_filter. by left.
  - apply origins_edit_ok; [done|]. apply Forall_app. split; [done|].
    apply Forall_singleton. destruct x. by apply map_err_ok in Hv.
  - apply origins_edit_ok; [done|]. apply Forall_forall. intros o [_ ?]%list_elem_of_filter.
    rewrite Forall_forall in Ho. by apply Ho.
  - apply remote_edit_ok; [done| |done]. simpl in *. lia.
  - apply remote_edit_ok; [done|done|]. by apply N.ltb_ge in Heqb.
Qed.

(** The editing commands keep a configuration valid.  An edit changes its own
    section only, a new port lies within the user range, the loopback address
    stays allowed, and a valid configuration stays one that saving accepts, but
    for a poll interval below the minimum, which only saving refuses. *)
Theorem edits_keep_config (edit : Edit) (c c' : AgentConfig)
    (Hedit : apply_edit edit c = Ok c') (Hok : config_ok c) :
  in_section edit c c' ∧ REQUIRED_LOOPBACK_IP ∈ se_allowed_ips (cfg_security c') ∧
  (¬ short_interval edit → config_ok c').
Proof.
  split_and!; [by eapply edit_section| |intros ?; by eapply edit_ok].
  assert (∀ ips, normalize_allowed_ips ips = ips → REQUIRED_LOOPBACK_IP ∈ ips) as Hin.
  { intros ips <-. destruct (normalize_head ips) as [k ->]. by left. }
  destruct edit as [| |uuid c0| | |];
    try (apply edit_ok in Hedit as (_&Hn%normalized_iff&_); [|done|intros []]; apply Hin, Hn).
  apply edit_section in Hedit as [remote ->]. destruct Hok as (_&Hn%normalized_iff&_). apply Hin, Hn.
Qed.
End edit_properties.

(** ** Witness *)

#[export] Instance toy_cli_env : CliEnv := {|
  ci_parse args := match args with
                   | [_; "doctor"] => ParsedCommand (Some (CliDoctor false))
                   | _ => ParsedCommand None
                   end;
  ci_long_help := "help";
  ci_json _ := Ok "{}";
  ci_read_file _ _ := Ok "secret";
  ci_bind _ _ := true;
  ci_uuid _ := "00000000-0000-4000-8000-000000000000";
  ci_url_error _ := "invalid URL"
|}.

Lemma edits_keep_config_witness :
  ∃ c', apply_edit (EditIps (IpAdd " 10.0.0.0/8 ")) AgentConfig_default = Ok c' ∧
    se_allowed_ips (cfg_security c') = [REQUIRED_LOOPBACK_IP; "10.0.0.0/8"] ∧ config_ok c'.
Proof.
  eexists. split; [vm_compute; reflexivity|]. split; [reflexivity|].
  eapply (edits_keep_config (EditIps (IpAdd " 10.0.0.0/8 ")) AgentConfig_default);
    [vm_compute; reflexivity|apply default_config_ok|intros []].
Defined.
