(* ===== verification/Ipc.v ===== *)
(** * The local IPC ([crates/cli/src/client.rs], [crates/runtime/src/ipc/unix.rs])

    The frames of the protocol, the client that sends one command over a local
    socket, and the connection handler of the agent.  The socket is a transport
    that may refuse the connection, lose the end of what is written in either
    direction, or take too long. *)

From S2P Require Import Prelude RustStr F64 NetAddr Externs Toy FileSys Protocol Config Commands.
From Stdlib Require Import Ascii.
Open Scope string_scope.
Open Scope N_scope.
Open Scope list_scope.

Definition IPC_PROTOCOL_VERSION : N := 1.
Definition MAX_IPC_FRAME_BYTES : N := 8 * 1024 * 1024.

Record CommandRequest := mkCommandRequest {
  cq_protocol_version : N; cq_request_id : string; cq_command : Command
}.
Record CommandResponse := mkCommandResponse {
  cp_protocol_version : N; cp_request_id : string; cp_result : result CommandError CommandResult
}.

(** ** Frames *)

(** [write_u32] and [read_u32]: four bytes, the most significant first. *)
Definition u32_be (n : N) : bytes :=
  [ascii_of_N (n / 2 ^ 24); ascii_of_N (n / 2 ^ 16 mod 256); ascii_of_N (n / 2 ^ 8 mod 256);
   ascii_of_N (n mod 256)].
Definition be_u32 (a b c d : ascii) : N :=
  ((N_of_ascii a * 256 + N_of_ascii b) * 256 + N_of_ascii c) * 256 + N_of_ascii d.

(** The error of a read at the end of the stream. *)
Definition early_eof : CommandError := mkCommandError KRuntime "early eof".
Definition frame_too_large : CommandError := mkCommandError KInvalidInput "IPC frame is too large".

(** [write_frame]: the bytes it writes. *)
Definition write_frame (payload : string) : result CommandError string :=
  if MAX_IPC_FRAME_BYTES <? str_len payload then Err frame_too_large
  else Ok (of_bytes (u32_be (str_len payload)) +:+ payload).

(** [read_frame], on the bytes the stream will deliver before it ends. *)
Definition read_frame (input : string) : result CommandError string :=
  match to_bytes input with
  | a :: b :: c :: d :: rest =>
      let len := be_u32 a b c d in
      if MAX_IPC_FRAME_BYTES <? len then Err frame_too_large
      else if N.of_nat (length rest) <? len then Err early_eof
      else Ok (of_bytes (take (N.to_nat len) rest))
  | _ => Err early_eof
  end.

(** ** The two ends *)

Section ipc.
Context `{JQ : !JsonCodec CommandRequest, JR : !JsonCodec CommandResponse}.
Context {W : Type}.

Definition runtime_error (message : string) : CommandError := mkCommandError KRuntime message.

(** [handle_connection]: the bytes it answers with.  What reaches it is [input]. *)
Definition handle_connection (executor : CommandExecutor W) (input : string)
  : M W CommandError string :=
  payload ← lift (read_frame input);
  request ← lift (map_err (mkCommandError KInvalidInput) (from_json payload));
  result ← attempt
    (if cq_protocol_version request =? IPC_PROTOCOL_VERSION
     then executor (cq_command request)
     else raise (mkCommandError KInvalidInput "unsupported IPC protocol version"));
  let response := mkCommandResponse IPC_PROTOCOL_VERSION (cq_request_id request) result in
  lift (write_frame (to_json response)).

(** One connection: its failure to open, the error of the client's write, what
    arrives of the bytes written in either direction, and whether the client's
    ten seconds pass before the answer. *)
Record Transport := mkTransport {
  tr_connect : option IoError;
  tr_write_error : option string;
  tr_to_agent : string → string;
  tr_to_client : string → string;
  tr_timed_out : bool
}.
Definition reliable : Transport := mkTransport None None id id false.

Definition connect_error (error : IoError) : CommandError :=
  match io_kind error with
  | NotFound => mkCommandError KNotRunning "agent is not running"
  | PermissionDenied => mkCommandError KPermissionDenied (io_message error)
  | _ => runtime_error (io_message error)
  end.

(** [exchange], and at the other end the handler of the connection: its answer
    is dropped when it fails. *)
Definition exchange (executor : CommandExecutor W) (t : Transport) (request_id : string)
    (command : Command) : M W CommandError CommandResult :=
  let request := mkCommandRequest IPC_PROTOCOL_VERSION request_id command in
  let payload := to_json request in
  frame ← lift (write_frame payload);
  answer ← attempt (handle_connection executor (tr_to_agent t frame));
  match tr_write_error t with
  | Some error => raise (runtime_error error)
  | None =>
      if tr_timed_out t then raise (runtime_error "IPC request timed out")
      else
        response_payload ← lift (read_frame
          (match answer with Ok bytes => tr_to_client t bytes | Err _ => "" end));
        response ← lift (map_err runtime_error (from_json response_payload));
        if negb (cp_protocol_version response =? IPC_PROTOCOL_VERSION) ||
           negb (bool_decide (cp_request_id response = request_id))
        then raise (runtime_error "invalid IPC response envelope")
        else lift (cp_result response)
  end.

(** [LocalCommandClient::execute] and [LocalClientExecutor]. *)
Definition client_execute (executor : CommandExecutor W) (t : Transport) (request_id : string)
  : CommandExecutor W := λ command,
  match tr_connect t with
  | Some error => raise (connect_error error)
  | None => exchange executor t request_id command
  end.
End ipc.

(** ** Frames, there and back *)

Lemma u32_be_inv n a b c d :
  n < 2 ^ 32 → u32_be n = [a; b; c; d] → be_u32 a b c d = n.
Proof.
  intros Hn [= <- <- <- <-]. unfold be_u32.
  rewrite !N_ascii_embedding; [|try apply N.mod_lt; done..|].
  - assert (n / 2 ^ 24 = n / 256 / 256 / 256) as -> by by rewrite !N.Div0.div_div.
    assert (n / 2 ^ 16 = n / 256 / 256) as -> by by rewrite !N.Div0.div_div.
    change (n / 2 ^ 8) with (n / 256).
    pose proof (N.div_mod n 256). pose proof (N.div_mod (n / 256) 256).
    pose proof (N.div_mod (n / 256 / 256) 256). lia.
  - apply N.Div0.div_lt_upper_bound. done.
Qed.

(** What a reader accepts is the payload of one frame. *)
Lemma write_frame_ok payload frame :
  write_frame payload = Ok frame ↔
  str_len payload ≤ MAX_IPC_FRAME_BYTES ∧ frame = of_bytes (u32_be (str_len payload)) +:+ payload.
Proof.
  unfold write_frame. destruct (_ <? _) eqn:Hl; [apply N.ltb_lt in Hl|apply N.ltb_ge in Hl].
  - split; [done|]. intros [? _]. lia.
  - split; [intros H; split; [done|congruence]|by intros [_ ->]].
Qed.
Lemma read_write_frame payload frame rest :
  write_frame payload = Ok frame → read_frame (frame +:+ rest) = Ok payload.
Proof.
  intros [Hl ->]%write_frame_ok.
  unfold read_frame. rewrite !to_bytes_app, to_of_bytes.
  destruct (u32_be (str_len payload)) as [|a [|b [|c [|d [|]]]]] eqn:Hu; try done.
  apply u32_be_inv in Hu; [|unfold MAX_IPC_FRAME_BYTES in Hl; lia]. simpl. rewrite Hu.
  rewrite (proj2 (N.ltb_ge MAX_IPC_FRAME_BYTES _) Hl), length_app, to_bytes_length.
  rewrite (proj2 (N.ltb_ge _ _)) by (unfold str_len; lia).
  unfold str_len. rewrite Nat2N.id, <-to_bytes_length, take_app_length. by rewrite of_to_bytes.
Qed.

(** A frame cut short is no frame. *)
Lemma read_cut_frame payload frame cut rest :
  write_frame payload = Ok frame → frame = cut +:+ rest → rest ≠ "" →
  ∃ e, read_frame cut = Err e ∧ ce_kind e = KRuntime.
Proof.
  intros [Hl ->]%write_frame_ok Heq Hr. apply (f_equal to_bytes) in Heq.
  rewrite !to_bytes_app, to_of_bytes in Heq.
  destruct (u32_be (str_len payload)) as [|a [|b [|c [|d [|]]]]] eqn:Hu; try done.
  apply u32_be_inv in Hu; [|unfold MAX_IPC_FRAME_BYTES in Hl; lia].
  unfold read_frame. destruct (to_bytes cut) as [|a' [|b' [|c' [|d' l]]]]; try by eexists.
  simpl in Heq. injection Heq as -> -> -> -> Heq. rewrite Hu.
  rewrite (proj2 (N.ltb_ge MAX_IPC_FRAME_BYTES _) Hl).
  assert (length l < length (to_bytes payload))%nat as Hlen.
  { rewrite Heq, length_app. destruct rest; [done|]. simpl. lia. }
  rewrite to_bytes_length in Hlen. rewrite (proj2 (N.ltb_lt _ _)) by (unfold str_len; lia).
  by eexists.
Qed.

(** No reader allocates more than the limit. *)
Lemma read_frame_bounded input payload :
  read_frame input = Ok payload → str_len payload ≤ MAX_IPC_FRAME_BYTES.
Proof.
  unfold read_frame. destruct (to_bytes input) as [|a [|b [|c [|d l]]]]; try done.
  destruct (MAX_IPC_FRAME_BYTES <? be_u32 a b c d) eqn:Hl; [done|].
  destruct (N.of_nat (length l) <? _); [done|].
  intros Hp. assert (payload = of_bytes (take (N.to_nat (be_u32 a b c d)) l)) as -> by congruence.
  apply N.ltb_ge in Hl. unfold str_len.
  rewrite <-to_bytes_length, to_of_bytes, length_take. lia.
Qed.

(** ** The client and the agent *)

Section ipc_properties.
Context `{JQ : !JsonCodec CommandRequest, JR : !JsonCodec CommandResponse}.
Context (ok_request : CommandRequest → Prop) (ok_response : CommandResponse → Prop).
Context `{!JsonLaws CommandRequest ok_request, !JsonLaws CommandResponse ok_response}.
Context {W : Type}.
Implicit Types (executor : CommandExecutor W) (w : W).

(** A transport only loses the end of what is sent. *)
Definition truncates (t : Transport) : Prop :=
  (∀ s, ∃ r, s = tr_to_agent t s +:+ r) ∧ (∀ s, ∃ r, s = tr_to_client t s +:+ r).

Lemma str_app_nil_inv (s : string) : s = s +:+ "" .
Proof. by rewrite str_app_nil_r. Qed.

(** What the agent does with the bytes of a request, complete or cut. *)
Lemma handle_connection_spec executor request frame cut rest w :
  ok_request request → cq_protocol_version request = IPC_PROTOCOL_VERSION →
  write_frame (to_json request) = Ok frame → frame = cut +:+ rest →
  (∃ e, handle_connection executor cut w = (Err e, w)) ∨
  (rest = "" ∧ handle_connection executor cut w =
     (write_frame (to_json (mkCommandResponse IPC_PROTOCOL_VERSION (cq_request_id request)
        (executor (cq_command request) w).1)), (executor (cq_command request) w).2)).
Proof.
  intros Hok Hv Hw Hc. unfold handle_connection. m_step.
  destruct (decide (rest = "")) as [->|Hr].
  - right. split; [done|]. rewrite str_app_nil_r in Hc. subst cut.
    rewrite (str_app_nil_inv frame), (read_write_frame _ _ _ Hw).
    m_step. rewrite from_to_json by done. cbn [map_err].
    cbv beta iota. m_step. rewrite Hv.
    change (IPC_PROTOCOL_VERSION =? IPC_PROTOCOL_VERSION) with true. cbv iota. destruct (executor _ w) as [r w']. done.
  - left. destruct (read_cut_frame _ _ _ _ Hw Hc Hr) as (e&->&_). by exists e.
Qed.

(** C25: A command sent over the local socket is executed at most once, whatever
    the transport does.  Either nothing happened and the client gets an error
    (that no agent is running exactly when there is no socket), or the agent
    executed exactly this command, and the client gets its result or a runtime
    error. *)
Theorem ipc_at_most_once executor (t : Transport) (request_id : string) (command : Command) w :
  truncates t →
  ok_request (mkCommandRequest IPC_PROTOCOL_VERSION request_id command) →
  (∀ w, ok_response (mkCommandResponse IPC_PROTOCOL_VERSION request_id (executor command w).1)) →
  let '(r, w') := client_execute executor t request_id command w in
  (w' = w ∧ ∃ e, r = Err e ∧
     (ce_kind e = KNotRunning ↔ ∃ m, tr_connect t = Some (mkIoError NotFound m))) ∨
  (w' = (executor command w).2 ∧ tr_connect t = None ∧
     (r = (executor command w).1 ∨ ∃ e, r = Err e ∧ ce_kind e = KRuntime)).
Proof.
  intros [Hta Htc] Hq Hp. unfold client_execute.
  destruct (tr_connect t) as [[k m]|] eqn:Hconn.
  { left. split; [done|]. eexists. split; [done|]. destruct k; simpl; split; try done;
      try (by intros [? [=]]). intros _. by exists m. }
  unfold exchange. cbv zeta. m_step.
  destruct (write_frame _) as [frame|e] eqn:Hw.
  2: { left. split; [done|]. exists e. split; [done|]. unfold write_frame in Hw.
       destruct (_ <? _); [injection Hw as <-|done]. split; [done|by intros [? [=]]]. }
  m_step. destruct (Hta frame) as [rest Hrest].
  assert (∀ m, ce_kind (runtime_error m) = KNotRunning ↔
    ∃ m', @None IoError = Some (mkIoError NotFound m')) as Hk by (split; [done|by intros [? [=]]]).
  destruct (handle_connection_spec executor _ _ _ _ w Hq eq_refl Hw Hrest)
    as [[e ->]|[_ ->]]; cbn [cq_command cq_request_id].
  - destruct (tr_write_error t); [left; split; [done|by eexists]|].
    destruct (tr_timed_out t); [left; split; [done|by eexists]|]. m_step.
    left. split; [done|]. exists early_eof. split; [done|]. apply (Hk "early eof").
  - destruct (executor command w) as [res w'] eqn:Hex. cbn [fst snd].
    destruct (tr_write_error t); [right; split_and!; [done..|right; by eexists]|].
    destruct (tr_timed_out t); [right; split_and!; [done..|right; by eexists]|].
    specialize (Hp w). rewrite Hex in Hp. cbn [fst] in Hp.
    destruct (write_frame (to_json (mkCommandResponse _ _ _))) as [reply|e] eqn:Hwr.
    2: { m_step.
      right. split_and!; [done..|right; by eexists]. }
    m_step.
    destruct (Htc reply) as [rest2 Hrest2]. destruct (decide (rest2 = "")) as [->|Hne].
    + rewrite str_app_nil_r in Hrest2. rewrite <-Hrest2.
      rewrite (str_app_nil_inv reply), (read_write_frame _ _ _ Hwr).
      m_step. rewrite from_to_json by done.
      cbn [map_err cp_protocol_version cp_request_id cp_result].
      rewrite bool_decide_eq_true_2 by done. right. by split_and!; [..|left].
    + destruct (read_cut_frame _ _ _ _ Hwr Hrest2 Hne) as (e&->&He).
      right. split_and!; [done..|right; by exists e].
Qed.

(** Over a socket that works, sending a command is executing it: the client
    returns what the agent's executor returns, provided request and response
    fit in a frame. *)
Theorem ipc_transparent executor (request_id : string) (command : Command) w :
  ok_request (mkCommandRequest IPC_PROTOCOL_VERSION request_id command) →
  let response := mkCommandResponse IPC_PROTOCOL_VERSION request_id (executor command w).1 in
  ok_response response →
  str_len (to_json (mkCommandRequest IPC_PROTOCOL_VERSION request_id command)) ≤ MAX_IPC_FRAME_BYTES →
  str_len (to_json response) ≤ MAX_IPC_FRAME_BYTES →
  client_execute executor reliable request_id command w = executor command w.
Proof.
  intros Hq response Hp Hlq Hlp. unfold client_execute, exchange. cbn [reliable tr_connect].
  cbv zeta. m_step.
  assert (∀ s, str_len s ≤ MAX_IPC_FRAME_BYTES → ∃ f, write_frame s = Ok f) as Hwf.
  { intros s Hs. eexists. by apply write_frame_ok. }
  destruct (Hwf _ Hlq) as [frame Hf]. rewrite Hf. m_step.
  change (tr_to_agent reliable frame) with frame.
  destruct (handle_connection_spec executor _ _ frame "" w Hq eq_refl Hf (str_app_nil_inv frame)) as [[e He]|[_ ->]].
  { exfalso. unfold handle_connection in He. m_step_in He.
    rewrite (str_app_nil_inv frame), (read_write_frame _ _ _ Hf) in He.
    m_step_in He. rewrite from_to_json in He by done. cbn [map_err] in He.
    cbv beta iota in He.
    m_step_in He.
    cbn [cq_protocol_version cq_command cq_request_id] in He.
    change (IPC_PROTOCOL_VERSION =? IPC_PROTOCOL_VERSION) with true in He. cbv iota in He.
    subst response. destruct (executor command w) as [r w']. unfold lift in He. cbn [fst] in Hlp.
    destruct (Hwf _ Hlp) as [g Hg]. rewrite Hg in He. done. }
  cbn [cq_command cq_request_id]. fold response. destruct (Hwf _ Hlp) as [reply Hr]. rewrite Hr.
  cbn [reliable tr_write_error tr_timed_out]. m_step.
  change (tr_to_client reliable reply) with reply.
  rewrite (str_app_nil_inv reply), (read_write_frame _ _ _ Hr). m_step.
  rewrite from_to_json by done. subst response. destruct (executor command w) as [r w'].
  cbn [map_err cp_protocol_version cp_request_id cp_result].
  by rewrite bool_decide_eq_true_2.
Qed.
End ipc_properties.

(** ** The named pipe of Windows ([crates/runtime/src/ipc/windows.rs])

    Frames and handler are those above; each connection takes an instance of the
    pipe.  What happens at the pipe until the shutdown: a client connects or the
    wait for one fails, and the creation of the next instance. *)

Definition pipe_name : string := "\\.\pipe\print-bridge-agent".
Fixpoint serve_named_pipe (events : list (result IoError string * result IoError unit))
  : list string * result IoError unit :=
  match events with
  | [] => ([], Ok tt)
  | (Err error, _) :: _ => ([], Err error)
  | (Ok _, Err error) :: _ => ([], Err error)
  | (Ok connection, Ok _) :: events =>
      let '(handled, r) := serve_named_pipe events in (connection :: handled, r)
  end.
(** [bind_and_spawn]: the first instance is created at once, and fails while another
    agent has one ([create] is told whether the instance is the first); the pipe is
    served by a task of its own. *)
Definition pipe_bind_and_spawn (create : string → bool → result IoError unit)
    (events : list (result IoError string * result IoError unit))
  : result IoError (list string * result IoError unit) :=
  _ ← create pipe_name true;
  Ok (serve_named_pipe events).
(** [serve_until] *)
Definition pipe_serve_until (first : result IoError unit)
    (events : list (result IoError string * result IoError unit)) : list string * result IoError unit :=
  match first with
  | Err error => ([], Err error)
  | Ok _ => serve_named_pipe events
  end.

(** Every client is handled, in order, as long as nothing fails; the client whose
    successor instance cannot be created is connected but never handled, and the
    server ends. *)
Lemma pipe_handles clients rest :
  serve_named_pipe (map (λ c, (Ok c, Ok tt)) clients ++ rest) =
  (clients ++ (serve_named_pipe rest).1, (serve_named_pipe rest).2).
Proof.
  induction clients as [|c clients IH]; simpl; [by destruct (serve_named_pipe rest)|].
  by rewrite IH.
Qed.
Lemma pipe_drops_client clients client error rest :
  pipe_serve_until (Ok tt) (map (λ c, (Ok c, Ok tt)) clients ++ (Ok client, Err error) :: rest) =
  (clients, Err error).
Proof. simpl. rewrite pipe_handles. simpl. by rewrite app_nil_r. Qed.

(** ** Witnesses *)

(** A codec for status requests and empty answers. *)
#[export] Instance toy_request_codec : JsonCodec CommandRequest := {|
  to_json r := cq_request_id r;
  from_json s := Ok (mkCommandRequest IPC_PROTOCOL_VERSION s Status)
|}.
#[export] Instance toy_response_codec : JsonCodec CommandResponse := {|
  to_json r := cp_request_id r;
  from_json s := Ok (mkCommandResponse IPC_PROTOCOL_VERSION s (Ok REmpty))
|}.
Definition toy_ok_request (r : CommandRequest) : Prop :=
  r = mkCommandRequest IPC_PROTOCOL_VERSION (cq_request_id r) Status.
Definition toy_ok_response (r : CommandResponse) : Prop :=
  r = mkCommandResponse IPC_PROTOCOL_VERSION (cp_request_id r) (Ok REmpty).
Lemma toy_request_laws : JsonLaws CommandRequest toy_ok_request.
Proof. intros r ->. done. Qed.
Lemma toy_response_laws : JsonLaws CommandResponse toy_ok_response.
Proof. intros r ->. done. Qed.
(** An agent that counts the commands it runs. *)
Definition toy_executor : CommandExecutor nat := λ _ n, (Ok REmpty, S n).
(** A connection that loses the last part of every answer. *)
Definition lossy : Transport :=
  mkTransport None None id (λ s, of_bytes (take 5 (to_bytes s))) false.

Lemma ipc_at_most_once_witness :
  let '(r, w') := client_execute toy_executor lossy "request-1" Status 0%nat in
  (w' = 0%nat ∧ ∃ e, r = Err e ∧
     (ce_kind e = KNotRunning ↔ ∃ m, tr_connect lossy = Some (mkIoError NotFound m))) ∨
  (w' = 1%nat ∧ tr_connect lossy = None ∧
     (r = Ok REmpty ∨ ∃ e, r = Err e ∧ ce_kind e = KRuntime)).
Proof.
  apply (@ipc_at_most_once _ _ toy_ok_request toy_ok_response toy_request_laws
    toy_response_laws nat toy_executor lossy "request-1" Status 0%nat).
  - split; intros s; [exists ""; by rewrite str_app_nil_r|].
    exists (of_bytes (drop 5 (to_bytes s))).
    change (tr_to_client lossy s) with (of_bytes (take 5 (to_bytes s))). apply to_bytes_inj.
    by rewrite to_bytes_app, !to_of_bytes, take_drop.
  - reflexivity.
  - intros w. reflexivity.
Defined.

Lemma ipc_transparent_witness :
  client_execute toy_executor reliable "request-1" Status 0%nat = (Ok REmpty, 1%nat).
Proof.
  apply (@ipc_transparent _ _ toy_ok_request toy_ok_response toy_request_laws
    toy_response_laws nat toy_executor "request-1" Status 0%nat); by vm_compute.
Defined.
