(* ===== verification/Agent.v ===== *)
(** * The life of an agent ([crates/runtime/src/builder.rs], [agent.rs],
    [agent_guard.rs], [ipc/unix.rs])

    Assembling the state from the files, starting the listener, the local IPC and
    the workers, and stopping them. *)

From S2P Require Import Prelude RustStr F64 NetAddr Externs Toy FileSys PrintTypes Printing.
From S2P Require Import Protocol IpWhitelist Config JobQueue Activity Sqlite TaskHistory RemoteStore.
From S2P Require Import State Server Ipc.
Open Scope string_scope.
Open Scope N_scope.
Open Scope list_scope.

(** ** The port *)

Inductive AgentPortStatus :=
  | Available
  | PrintBridge (agent : SocketAddr)
  | OccupiedByOther (addr : SocketAddr).

Definition probe_addr (config : AgentConfig) : SocketAddr :=
  mkSocketAddr (v4 127 0 0 1) (sv_port (cfg_service config)).
(** [connect] tells whether a connection to the address is accepted in time. *)
Definition check_agent_port (connect : SocketAddr → bool) (config : AgentConfig)
  : AgentPortStatus :=
  let addr := probe_addr config in
  if connect addr then OccupiedByOther addr else Available.
Definition already_running_message (agent : SocketAddr) : string :=
  "PrintBridge Agent is already running at " +:+ display_socket_addr agent.

(** ** Errors *)

Inductive RuntimeError :=
  | ReIo (e : IoError)
  | ReStore (e : SqlError)
  | ReServer (e : ServerError)
  | ReAlreadyRunning (agent : SocketAddr)
  | RePortOccupied (addr : SocketAddr)
  | ReTaskJoin (message : string).

(** [ServerError] and [RuntimeError] as texts; [sql_display] is rusqlite's. *)
Definition ServerError_display (e : ServerError) : string :=
  match e with
  | SBind e => "server bind failed: " +:+ io_message e
  | SInvalidAddress => "invalid server address: invalid socket address syntax"
  end.
Definition RuntimeError_display (sql_display : SqlError → string) (e : RuntimeError) : string :=
  match e with
  | ReIo e => io_message e
  | ReStore e => sql_display e
  | ReServer e => ServerError_display e
  | ReAlreadyRunning agent => already_running_message agent
  | RePortOccupied addr =>
      "local service port is already occupied at " +:+ display_socket_addr addr
  | ReTaskJoin message => "runtime task failed: " +:+ message
  end.

(** ** Assembling *)

Record RuntimePaths := mkRuntimePaths {
  rp_config_path : string; rp_data_dir : string; rp_runtime_dir : string
}.
Definition remote_store_path (pf : Platform) (paths : RuntimePaths) : string :=
  path_join pf (rp_data_dir paths) "remote.sqlite3".
Definition task_history_path (pf : Platform) (paths : RuntimePaths) : string :=
  path_join pf (rp_data_dir paths) "task_history.sqlite3".
(** [socket_path] on Unix. *)
Definition socket_path (pf : Platform) (paths : RuntimePaths) : string :=
  path_join pf (rp_runtime_dir paths) "agent.sock".

(** The databases that open, the ports that answer and can be bound. *)
Class LaunchEnv := {
  ln_open_remote : string → result SqlError RemoteStore;
  ln_open_history : string → result SqlError TaskHistoryStore;
  ln_probe : SocketAddr → bool;
  ln_bind : SocketAddr → result IoError SocketAddr
}.

Section agent.
Context (pf : Platform) `{J : !JsonCodec AgentConfig, L : !LaunchEnv}.

(** [RuntimeBuilder::build] with the default backends. *)
Definition build (paths : RuntimePaths) : M Fs RuntimeError AgentState :=
  config ← mapping_err ReIo
    (_ ← fs_create_dir_all (rp_data_dir paths);
     _ ← fs_create_dir_all (rp_runtime_dir paths);
     _ ← match path_parent (rp_config_path paths) with
         | Some parent => fs_create_dir_all parent
         | None => mret tt
         end;
     load (rp_config_path paths));
  remote_store ← lift (map_err ReStore (ln_open_remote (remote_store_path pf paths)));
  task_history ← lift (map_err ReStore (ln_open_history (task_history_path pf paths)));
  fs ← gets id;
  mret (with_task_history_store
          (with_remote_store
             (with_printing_and_config_path config (Some (rp_config_path paths)) fs) remote_store)
          task_history).

(** ** The local socket *)

(** [UnixListener::bind]: the socket is a file that must not exist yet. *)
Definition address_in_use : IoError := mkIoError OtherKind "Address already in use (os error 98)".
Definition fs_bind_socket (path : string) : IO unit := λ fs,
  match fault_now fs with
  | Some (e, _) => (Err e, fs_step fs)
  | None =>
      match fs_files fs !! path with
      | Some _ => (Err address_in_use, fs_step fs)
      | None => (Ok tt, fs_step (fs_with_files <[path := ""]> fs))
      end
  end.

(** [bind_and_spawn]; setting the permissions can only fail. *)
Definition ipc_bind (path : string) : IO unit :=
  present ← fs_exists path;
  _ ← (if present : bool then fs_remove_file path else mret tt);
  _ ← fs_bind_socket path;
  fs_flush.

(** The connections accepted until the shutdown, and the error that ends the loop
    before it. *)
Fixpoint accept_until (events : list (result IoError string)) : list string * option IoError :=
  match events with
  | [] => ([], None)
  | Err error :: _ => ([], Some error)
  | Ok connection :: events =>
      let '(served, error) := accept_until events in (connection :: served, error)
  end.
(** [serve_listener_until] of the socket: the connections it served. *)
Definition ipc_serve_until (path : string) (events : list (result IoError string))
  : IO (list string) :=
  let '(served, error) := accept_until events in
  match error with
  | Some error => raise error
  | None =>
      r ← attempt (fs_remove_file path);
      match r with
      | Ok _ => mret served
      | Err error => if bool_decide (io_kind error = NotFound) then mret served else raise error
      end
  end.

(** [serve_until]: binding and serving in one. *)
Definition ipc_serve (path : string) (events : list (result IoError string)) : IO (list string) :=
  _ ← ipc_bind path;
  ipc_serve_until path events.

(** ** Running *)

Inductive TaskName := QueueTask | RemoteTask | IpcTask | ServerTask.
(** How the tasks will end once they are told to: an [Err] of the outer result is a
    task that panicked.  For the socket, what it will have accepted. *)
Record RuntimeTasks := mkRuntimeTasks {
  rt_server : result string (result ServerError unit);
  rt_queue : result string unit;
  rt_remote : result string unit;
  rt_ipc : result string (list (result IoError string))
}.
Record AgentHandle := mkAgentHandle {
  ah_state : AgentState;
  ah_listen_addr : SocketAddr;
  ah_socket : string;
  ah_shutdown : bool;
  ah_tasks : option RuntimeTasks;
  (** The tasks that were waited for. *)
  ah_joined : list TaskName
}.

(** [AgentRuntime::start]: the address bound; the tasks are spawned at its end. *)
Definition start (paths : RuntimePaths) : Handler RuntimeError SocketAddr :=
  config ← gets st_config;
  _ ← match check_agent_port ln_probe config with
      | Available => mret tt
      | PrintBridge agent => raise (ReAlreadyRunning agent)
      | OccupiedByOther addr => raise (RePortOccupied addr)
      end;
  listen_addr ← lift (map_err ReServer (bind_listener ln_bind config));
  _ ← mapping_err ReIo (on_fs (ipc_bind (socket_path pf paths)));
  mret listen_addr.
Definition spawn (paths : RuntimePaths) (listen_addr : SocketAddr) (tasks : RuntimeTasks)
    (s : AgentState) : AgentHandle :=
  mkAgentHandle s listen_addr (socket_path pf paths) false (Some tasks) [].

(** [handle.await?] *)
Definition join {A} (name : TaskName) (outcome : result string A) : M AgentHandle RuntimeError A :=
  _ ← modify (λ h, mkAgentHandle (ah_state h) (ah_listen_addr h) (ah_socket h) (ah_shutdown h)
                     (ah_tasks h) (ah_joined h ++ [name]));
  lift (map_err ReTaskJoin outcome).
Definition on_agent_fs {A} (m : IO A) : M AgentHandle RuntimeError A :=
  mapping_err ReIo (zoom (λ h, st_fs (ah_state h))
    (λ fs h, mkAgentHandle (set_fs fs (ah_state h)) (ah_listen_addr h) (ah_socket h)
               (ah_shutdown h) (ah_tasks h) (ah_joined h)) m).

(** [AgentHandle::shutdown] *)
Definition shutdown : M AgentHandle RuntimeError unit :=
  tasks ← gets ah_tasks;
  _ ← modify (λ h, mkAgentHandle (ah_state h) (ah_listen_addr h) (ah_socket h) true None
                     (ah_joined h));
  match tasks with
  | None => mret tt
  | Some tasks =>
      _ ← join QueueTask (rt_queue tasks);
      _ ← join RemoteTask (rt_remote tasks);
      events ← join IpcTask (rt_ipc tasks);
      socket ← gets ah_socket;
      _ ← on_agent_fs (ipc_serve_until socket events);
      outcome ← join ServerTask (rt_server tasks);
      lift (map_err ReServer outcome)
  end.
End agent.

(** ** Properties *)

(** All files but the one at [path] are the same. *)
Definition only_at (path : string) (fs fs' : Fs) : Prop :=
  ∀ p, p ≠ path → fs_files fs' !! p = fs_files fs !! p.
#[export] Instance only_at_preorder path : PreOrder (only_at path).
Proof. split; [by intros fs p|]. intros f1 f2 f3 H1 H2 p Hp. by rewrite H2, H1. Qed.

Lemma remove_only_at path : respects (only_at path) (fs_remove_file path).
Proof.
  intros fs p Hp. unfold fs_remove_file. repeat case_match; simpl; try done.
  by rewrite lookup_delete_ne.
Qed.
Lemma bind_only_at path : respects (only_at path) (fs_bind_socket path).
Proof.
  intros fs p Hp. unfold fs_bind_socket. repeat case_match; simpl; try done.
  by rewrite lookup_insert_ne.
Qed.
Lemma ipc_bind_only_at path : respects (only_at path) (ipc_bind path).
Proof.
  unfold ipc_bind. solve_respects; first [apply remove_only_at | apply bind_only_at | by intros fs p].
Qed.
Lemma bind_socket_quiet path fs :
  no_faults fs → fs_files fs !! path = None →
  is_ok ((_ ← fs_bind_socket path; fs_flush) fs).1 = true.
Proof.
  intros H Hp. rewrite M_bind_eq. unfold fs_bind_socket, fs_flush. rewrite (no_faults_now _ H), Hp.
  simpl. change (fault_now (fs_step (fs_with_files <[path := ""]> fs))) with (fault_now (fs_step fs)).
  by rewrite (no_faults_now _ (no_faults_step _ H)).
Qed.
Lemma ipc_bind_quiet path fs : no_faults fs → is_ok (ipc_bind path fs).1 = true.
Proof.
  intros H. unfold ipc_bind, fs_exists. rewrite M_bind_eq, (no_faults_now _ H). cbn beta iota.
  apply no_faults_step in H. rewrite M_bind_eq. unfold fs_remove_file, mret, M_ret.
  destruct (fs_files fs !! path) as [t|] eqn:Hp; cbn [is_some].
  - rewrite (no_faults_now _ H). simpl fs_files. rewrite Hp. cbn beta iota.
    apply bind_socket_quiet; [by apply (no_faults_step (fs_step fs))|apply lookup_delete_eq].
  - by apply bind_socket_quiet.
Qed.
Lemma ipc_bind_ok path fs fs' :
  ipc_bind path fs = (Ok tt, fs') → fs_files fs' !! path = Some "".
Proof.
  unfold ipc_bind. intros H.
  apply M_bind_ok in H as (present&f1&_&H). apply M_bind_ok in H as ([]&f2&_&H).
  apply M_bind_ok in H as ([]&f3&Hb&H). unfold fs_flush in H. injection H as _ <-.
  unfold fs_bind_socket in Hb. destruct (fault_now f2) as [[? ?]|]; [done|].
  destruct (fs_files f2 !! path); [done|]. injection Hb as <-. simpl. by rewrite lookup_insert_eq.
Qed.
Lemma ipc_serve_only_at path events : respects (only_at path) (ipc_serve_until path events).
Proof. unfold ipc_serve_until. solve_respects. apply remove_only_at. Qed.
Lemma ipc_serve_ok path events fs served fs' :
  ipc_serve_until path events fs = (Ok served, fs') →
  fs_files fs' !! path = None ∧ Ok <$> served = events ∨
  ∃ e x, fault_now fs = Some (e, x) ∧ io_kind e = NotFound.
Proof.
  unfold ipc_serve_until. assert (∀ l e, accept_until events = (l, e) → e = None →
    Ok <$> l = events) as Hall.
  { induction events as [|[c|e] rest IH]; simpl; intros l e' H ->; try (by injection H as <-); try done.
    destruct (accept_until rest) as [l' e'] eqn:Hr. injection H as <- ->. simpl. f_equal.
    by eapply IH. }
  destruct (accept_until events) as [l [e|]] eqn:Ha; [done|]. specialize (Hall l None eq_refl eq_refl).
  rewrite attempt_bind. unfold fs_remove_file.
  destruct (fault_now fs) as [[e x]|] eqn:Hf; simpl.
  { case_bool_decide; [|done]. intros _. right. by exists e, x. }
  destruct (fs_files fs !! path) eqn:Hp; simpl; intros [= <- <-]; left; simpl; [|done].
  by rewrite lookup_delete_eq.
Qed.

(** Serving leaves every other file alone, and after a shutdown the socket is gone and
    every connection accepted was served, whatever was there before, unless removing
    the socket reports that it is not there. *)
Lemma ipc_serve_outcome path events fs :
  let '(r, fs') := ipc_serve path events fs in
  only_at path fs fs' ∧ ∀ served, r = Ok served →
    fs_files fs' !! path = None ∧ Ok <$> served = events ∨
    ∃ fs1 e x, fault_now fs1 = Some (e, x) ∧ io_kind e = NotFound.
Proof.
  assert (respects (only_at path) (ipc_serve path events)) as H.
  { unfold ipc_serve. solve_respects; [apply ipc_bind_only_at|apply ipc_serve_only_at]. }
  specialize (H fs). destruct (ipc_serve path events fs) as [r fs'] eqn:Hs. split; [exact H|].
  intros served ->. unfold ipc_serve in Hs. apply M_bind_ok in Hs as (_&fs1&_&Hs).
  apply ipc_serve_ok in Hs as [Hs|(e&x&Hs)]; [by left|right]. by exists fs1, e, x.
Qed.

Section agent_properties.
Context (pf : Platform) `{J : !JsonCodec AgentConfig, L : !LaunchEnv}.

(** Everything of the state but the files. *)
Definition same_but_fs (s s' : AgentState) : Prop := ∃ fs, s' = set_fs fs s.

(** Starting an agent.  An agent starts only when nothing answers at its port on
    the loopback interface, and then it is bound to the configured port of every
    interface and its local socket is in place of whatever was there.  A start
    that fails has changed no file but the socket and nothing of the agent; it is
    refused because something answers at the port, because the address cannot be
    bound, or because the socket cannot be made, and never because another
    PrintBridge was recognised. *)
Theorem start_outcome (paths : RuntimePaths) (s : AgentState) :
  let '(r, s') := start pf paths s in
  let addr := probe_addr (st_config s) in
  same_but_fs s s' ∧ only_at (socket_path pf paths) (st_fs s) (st_fs s') ∧
  match r with
  | Ok listen_addr => ln_probe addr = false ∧
      fs_files (st_fs s') !! socket_path pf paths = Some "" ∧
      ∃ a, configured_addr (st_config s) = Some a ∧ ln_bind a = Ok listen_addr
  | Err (RePortOccupied a) => a = addr ∧ ln_probe addr = true ∧ s' = s
  | Err (ReServer e) => ln_probe addr = false ∧ s' = s ∧ bind_listener ln_bind (st_config s) = Err e
  | Err (ReIo e) => ln_probe addr = false ∧ ∃ a, bind_listener ln_bind (st_config s) = Ok a
  | Err (ReStore _ | ReAlreadyRunning _ | ReTaskJoin _) => False
  end.
Proof.
  assert (same_but_fs s s) as Hsame by (exists (st_fs s); by destruct s).
  unfold start, check_agent_port. rewrite gets_bind.
  destruct (ln_probe (probe_addr (st_config s))) eqn:Hp; [done|].
  rewrite M_bind_eq. cbn [mret M_ret]. rewrite lift_bind.
  destruct (bind_listener ln_bind (st_config s)) as [a|e] eqn:Hb; simpl; [|done].
  rewrite M_bind_eq. unfold mapping_err, on_fs, zoom.
  pose proof (ipc_bind_only_at (socket_path pf paths) (st_fs s)) as Ho.
  destruct (ipc_bind (socket_path pf paths) (st_fs s)) as [[[]|e] fs] eqn:Hi; simpl in Ho |- *.
  - split_and!; try done; [by exists fs|by eapply ipc_bind_ok|].
    unfold bind_listener in Hb. apply result_bind_ok in Hb as (x&Hx%ok_or_ok&Hb%map_err_ok).
    by exists x.
  - split_and!; try done; [by exists fs|by exists a].
Qed.

Lemma join_bind {A B} name (outcome : result string A) (k : A → M AgentHandle RuntimeError B)
    s addr socket down t joined :
  (join name outcome ≫= k) (mkAgentHandle s addr socket down t joined) =
  let h := mkAgentHandle s addr socket down t (joined ++ [name]) in
  match outcome with Ok a => k a h | Err m => (Err (ReTaskJoin m), h) end.
Proof. by destruct outcome. Qed.
Lemma on_agent_fs_bind {A B} (m : IO A) (k : A → M AgentHandle RuntimeError B)
    s addr socket down t joined :
  (on_agent_fs m ≫= k) (mkAgentHandle s addr socket down t joined) =
  let '(r, fs) := m (st_fs s) in
  let h := mkAgentHandle (set_fs fs s) addr socket down t joined in
  match r with Ok a => k a h | Err e => (Err (ReIo e), h) end.
Proof.
  rewrite M_bind_eq. unfold on_agent_fs, mapping_err, zoom. simpl.
  by destruct (m (st_fs s)) as [[a|e] fs].
Qed.

(** The outcome of the tasks, in the order they are waited for. *)
Definition waited (name : TaskName) : list TaskName :=
  match name with
  | QueueTask => [QueueTask]
  | RemoteTask => [QueueTask; RemoteTask]
  | IpcTask => [QueueTask; RemoteTask; IpcTask]
  | ServerTask => [QueueTask; RemoteTask; IpcTask; ServerTask]
  end.

(** Stopping an agent.  Whatever happens every task is told to stop and the
    tasks are taken, so that stopping again does nothing and succeeds.  A stop
    that succeeds has waited for all four tasks, every one of them ended well,
    every connection the local socket accepted was served, and the socket is
    gone; a stop that fails has waited for a prefix of them only, and the later
    stops do not wait for the others. *)
Theorem shutdown_outcome (h : AgentHandle) (tasks : RuntimeTasks)
    (Htasks : ah_tasks h = Some tasks)
    (Hfs : ∀ e x, fault_now (st_fs (ah_state h)) = Some (e, x) → io_kind e ≠ NotFound) :
  let '(r, h') := shutdown h in
  ah_shutdown h' = true ∧ shutdown h' = (Ok tt, h') ∧
  only_at (ah_socket h) (st_fs (ah_state h)) (st_fs (ah_state h')) ∧
  (∃ name, ah_joined h' = ah_joined h ++ waited name ∧ (r = Ok tt → name = ServerTask)) ∧
  (r = Ok tt → rt_queue tasks = Ok tt ∧ rt_remote tasks = Ok tt ∧
     rt_server tasks = Ok (Ok tt) ∧ fs_files (st_fs (ah_state h')) !! ah_socket h = None ∧
     ∃ served, rt_ipc tasks = Ok (Ok <$> served)).
Proof.
  destruct h as [s addr socket down t joined]. simpl in Htasks. subst t.
  unfold shutdown at 1. rewrite gets_bind, modify_bind. cbn [ah_tasks].
  destruct tasks as [server queue remote ipc]. cbn [rt_server rt_queue rt_remote rt_ipc ah_state ah_socket].
  rewrite join_bind. cbv zeta. destruct queue as [[]|qe]; [|split_and!; try done; by exists QueueTask].
  rewrite join_bind. cbv zeta.
  destruct remote as [[]|re]; rewrite <-?app_assoc; [|split_and!; try done; by exists RemoteTask].
  rewrite join_bind. cbv zeta.
  destruct ipc as [events|ie]; rewrite <-?app_assoc; [|split_and!; try done; by exists IpcTask].
  rewrite gets_bind. cbn [ah_socket]. rewrite on_agent_fs_bind.
  pose proof (ipc_serve_only_at socket events (st_fs s)) as Ho.
  destruct (ipc_serve_until socket events (st_fs s)) as [[served|e] fs] eqn:Hs; simpl in Ho; cbv zeta;
    [|split_and!; try done; by exists IpcTask].
  rewrite join_bind. cbv zeta. apply ipc_serve_ok in Hs as [[Hg Hev]|(e&x&Hf&Hk)];
    [|by destruct (Hfs e x Hf)].
  rewrite <-?app_assoc. destruct server as [[[]|se]|je]; simpl; split_and!; try done;
    try (by exists ServerTask). intros _. split_and!; try done. exists served. by rewrite Hev.
Qed.
End agent_properties.

(** ** Witness *)

Definition toy_handle : AgentHandle :=
  mkAgentHandle (set_fs (mkFs {["run/agent.sock" := ""]} ∅ 0 (λ _, None)) toy_state)
    (mkSocketAddr (v4 0 0 0 0) 17890) "run/agent.sock" false
    (Some (mkRuntimeTasks (Ok (Ok tt)) (Ok tt) (Ok tt) (Ok [Ok "status"]))) [].
Lemma shutdown_outcome_witness :
  (shutdown toy_handle).1 = Ok tt ∧
  fs_files (st_fs (ah_state (shutdown toy_handle).2)) !! "run/agent.sock" = None ∧
  ah_joined (shutdown toy_handle).2 = waited ServerTask.
Proof.
  pose proof (shutdown_outcome toy_handle
    (mkRuntimeTasks (Ok (Ok tt)) (Ok tt) (Ok tt) (Ok [Ok "status"])) eq_refl) as H.
  assert (∀ e x, fault_now (st_fs (ah_state toy_handle)) = Some (e, x) → io_kind e ≠ NotFound) as Hf.
  { intros e x. unfold fault_now. simpl. intros Hx. discriminate Hx. }
  specialize (H Hf). destruct (shutdown toy_handle) as [r h'] eqn:Hr.
  assert (r = Ok tt) as ->.
  { change r with (fst (r, h')). rewrite <-Hr. vm_compute. reflexivity. }
  destruct H as (_&_&_&_&H). destruct (H eq_refl) as (_&_&_&Hg&_).
  split; [reflexivity|]. split; [exact Hg|].
  change h' with (snd (@Ok RuntimeError unit tt, h')). rewrite <-Hr. vm_compute. reflexivity.
Defined.
