(* ===== verification/Desktop.v ===== *)
(** * The desktop application ([apps/desktop/src-tauri/src/commands.rs], [tray.rs],
    [product_cli.rs])

    The handlers the window and the tray call, and what the command line changes
    of the desktop product.  The handlers run in the process of the agent: their
    service is its executor, online and offline.  [Session] wires them together. *)

From S2P Require Import Prelude RustStr F64 NetAddr Externs Toy FileSys PrintTypes Printing.
From S2P Require Import Protocol IpWhitelist Config JobQueue Activity TaskHistory RemoteClient.
From S2P Require Import State Document Converters TestPrint Proxy ConfigTransfer Commands Doctor.
From S2P Require Import RemoteWorker Executor Cli.
From Stdlib Require Import Ascii.
Open Scope string_scope.
Open Scope N_scope.
Open Scope list_scope.

(** ** The application *)

(** The agent's state, the autostart entry of the operating system, and the
    language of the tray menu. *)
Record Gui := mkGui {
  gu_state : AgentState; gu_autostart : bool; gu_tray : UiLanguage; gu_tick : nat
}.
Definition gu_set_state (s : AgentState) (g : Gui) : Gui :=
  mkGui s (gu_autostart g) (gu_tray g) (gu_tick g).
Definition gu_set_autostart (enabled : bool) (g : Gui) : Gui :=
  mkGui (gu_state g) enabled (gu_tray g) (gu_tick g).
Definition gu_set_tray (language : UiLanguage) (g : Gui) : Gui :=
  mkGui (gu_state g) (gu_autostart g) language (gu_tick g).

(** The failures of the autostart entry and of the tray menu, and the ports that can
    be bound, at the [n]-th question. *)
Class GuiEnv := {
  gx_read_autostart : nat → option string;
  gx_write_autostart : nat → option string;
  gx_tray : nat → option string;
  gx_bind : nat → N → bool
}.

(** How a handler fails: with an error for the window, or by [unreachable!]. *)
Inductive HandlerError := HError (e : CommandError) | HUnreachable (message : string).

(** ** The tray *)

Record TrayLabels := mkTrayLabels {
  tl_open_settings : string; tl_test_print : string; tl_view_logs : string;
  tl_restart_app : string; tl_autostart : string; tl_quit : string
}.
Definition tray_labels (language : UiLanguage) : TrayLabels :=
  match language with
  | ZhCn => mkTrayLabels "打开设置" "测试打印" "查看日志" "重启应用" "开机自启" "退出"
  | En => mkTrayLabels "Open Settings" "Test Print" "View Logs" "Restart App" "Launch at Startup" "Quit"
  end.

Section desktop.
Context `{U : UrlOps, B : Base64Ops, I : IpNetOps, J : !JsonCodec AgentConfig,
          IM : !ImageOps, P : !ProxyEnv, R : !RuntimeEnv, TJ : !TaskJson, RE : !RemoteEnv,
          V : !ConverterEnv, D : !DoctorEnv, C : !TransferCrypto,
          JP : !JsonCodec ConfigTransferPayload, JF : !JsonCodec EncryptedConfigFile,
          X : !ExecutorEnv, G : !GuiEnv}.
Context (listen_addr : SocketAddr).

Definition gui_tick {E} : M Gui E nat := λ g,
  (Ok (gu_tick g), mkGui (gu_state g) (gu_autostart g) (gu_tray g) (S (gu_tick g))).
Definition on_state {E A} (m : Handler E A) : M Gui E A := zoom gu_state gu_set_state m.

(** The service of [lib.rs]: one executor, online and offline. *)
Definition gui_executor : CommandExecutor Gui := λ command, on_state (runtime_execute listen_addr command).
Definition gui_service : CommandService Gui := mkCommandService (Some gui_executor) gui_executor.

(** ** The autostart entry *)

Definition autostart_is_enabled : M Gui string bool :=
  n ← gui_tick;
  match gx_read_autostart n with
  | Some error => raise error
  | None => gets gu_autostart
  end.
(** [enable] and [disable] *)
Definition autostart_set (enabled : bool) : M Gui string unit :=
  n ← gui_tick;
  match gx_write_autostart n with
  | Some error => raise error
  | None => modify (gu_set_autostart enabled)
  end.

Definition apply_autostart (enabled : bool) : M Gui string unit :=
  is_enabled ← autostart_is_enabled;
  if Bool.eqb enabled is_enabled then mret tt else autostart_set enabled.

(** [apply_tray_language], after the menu was created. *)
Definition apply_tray_language (language : UiLanguage) : M Gui string unit :=
  n ← gui_tick;
  match gx_tray n with
  | Some error => raise error
  | None => modify (gu_set_tray language)
  end.

(** ** The handlers of [commands.rs] *)

(** Running a command and taking its result apart. *)
Definition call {A} (command : Command) (unexpected : string)
    (project : CommandResult → option A) : M Gui HandlerError A :=
  r ← mapping_err HError (service_execute gui_service command);
  match project r with Some a => mret a | None => raise (HUnreachable unexpected) end.
(** Running a command whose result is not looked at. *)
Definition call_unit (command : Command) : M Gui HandlerError unit :=
  _ ← mapping_err HError (service_execute gui_service command); mret tt.

Definition config_of (r : CommandResult) : option AgentConfig :=
  match r with RConfig config => Some config | _ => None end.
Definition h_get_config : M Gui HandlerError AgentConfig :=
  call GetConfig "GetConfig returned an unexpected result" config_of.
Definition h_run_doctor : M Gui HandlerError DoctorReport :=
  call (Doctor Desktop) "Doctor returned an unexpected result"
    (λ r, match r with RDoctor report => Some report | _ => None end).
Definition h_export_config_file (path password : string) (options : ExportConfigOptions)
  : M Gui HandlerError unit := call_unit (ExportConfig path password options).
Definition h_preview_config_import (path password : string) : M Gui HandlerError ImportPreview :=
  call (PreviewConfigImport path password) "PreviewConfigImport returned an unexpected result"
    (λ r, match r with RImportPreview preview => Some preview | _ => None end).
Definition h_import_config_file (path password expected_file_hash : string)
  : M Gui HandlerError AgentConfig :=
  call (ImportConfig path password expected_file_hash) "ImportConfig returned an unexpected result"
    config_of.
Definition h_test_remote_connection (config : AgentConfig) : M Gui HandlerError unit :=
  call_unit (TestRemoteConnection config).
Definition h_get_logs : M Gui HandlerError (list TaskLogEntry) :=
  call GetLogs "GetLogs returned an unexpected result"
    (λ r, match r with RLogs logs => Some logs | _ => None end).
Definition h_get_task_history : M Gui HandlerError (list TaskHistoryJob) :=
  call GetTaskHistory "GetTaskHistory returned an unexpected result"
    (λ r, match r with RTaskHistory jobs => Some jobs | _ => None end).
Definition h_get_task_history_events (job_id : string) : M Gui HandlerError (list TaskHistoryEvent) :=
  call (GetTaskHistoryEvents job_id) "GetTaskHistoryEvents returned an unexpected result"
    (λ r, match r with RTaskHistoryEvents events => Some events | _ => None end).
Definition h_clear_task_history : M Gui HandlerError unit := call_unit ClearTaskHistory.
Definition h_print_test (config : AgentConfig) : M Gui HandlerError unit :=
  call_unit (TestPrint config).
Definition h_list_printers : M Gui HandlerError (list PrinterInfo) :=
  call ListPrinters "ListPrinters returned an unexpected result"
    (λ r, match r with RPrinters printers => Some printers | _ => None end).
Definition h_list_papers (printer_name : string) : M Gui HandlerError (list PaperInfo) :=
  call (ListPapers printer_name) "ListPapers returned an unexpected result"
    (λ r, match r with RPapers papers => Some papers | _ => None end).

(** [check_service_port_available_for_host] *)
Definition check_service_port_available (port : N) : M Gui string unit :=
  if negb ((MIN_SERVICE_PORT <=? port) && (port <=? MAX_SERVICE_PORT)) then
    raise ("本地端口必须在 " +:+ pretty MIN_SERVICE_PORT +:+ " 到 " +:+ pretty MAX_SERVICE_PORT +:+ " 之间")
  else
    n ← gui_tick;
    if gx_bind n port then mret tt
    else raise ("本地端口 " +:+ pretty port +:+ " 已被占用，请换一个端口").

Definition handler_error {A} (kind : CommandErrorKind) (m : M Gui string A) : M Gui HandlerError A :=
  mapping_err (λ message, HError (mkCommandError kind message)) m.

(** The handler [save_config]. *)
Definition h_save_config (config : AgentConfig) : M Gui HandlerError AgentConfig :=
  current ← gets (λ g, st_config (gu_state g));
  _ ← (if negb (sv_port (cfg_service config) =? sv_port (cfg_service current))
       then handler_error KInvalidInput (check_service_port_available (sv_port (cfg_service config)))
       else mret tt);
  _ ← handler_error KRuntime (apply_autostart (ap_autostart (cfg_app config)));
  result ← attempt (service_execute gui_service (SaveConfig config));
  match result with
  | Ok (RConfig saved) =>
      _ ← attempt (apply_tray_language (ap_language (cfg_app saved)));
      mret saved
  | Ok _ => raise (HUnreachable "SaveConfig returned an unexpected result")
  | Err error =>
      restored ← attempt (apply_autostart (ap_autostart (cfg_app current)));
      match restored with
      | Err rollback_error =>
          raise (HError (mkCommandError KRuntime
            (ce_message error +:+ "; failed to restore the previous autostart setting: " +:+
             rollback_error)))
      | Ok _ => raise (HError error)
      end
  end.

(** ** The tray and the command line *)

(** The menu of the tray: what a click does to the application. *)
Inductive TrayAction := ShowWindow | RunTestPrint | RestartApp | ToggleAutostart | Quit | NoAction.
Definition menu_event (id : string) : TrayAction :=
  if bool_decide (id = "open_settings") || bool_decide (id = "view_logs") then ShowWindow
  else if bool_decide (id = "test_print") then RunTestPrint
  else if bool_decide (id = "restart_app") then RestartApp
  else if bool_decide (id = "autostart") then ToggleAutostart
  else if bool_decide (id = "quit") then Quit
  else NoAction.

Definition with_autostart (enabled : bool) (config : AgentConfig) : AgentConfig :=
  with_app config (mkAppConfig enabled (ap_language (cfg_app config))).

(** [toggle_autostart] up to the task it spawns: what the entry became. *)
Definition toggle_entry : M Gui string bool :=
  enabled ← mapping_err (λ e, "failed to read autostart state: " +:+ e) autostart_is_enabled;
  let next_enabled := negb enabled in
  _ ← mapping_err (λ e, "failed to update autostart state: " +:+ e) (autostart_set next_enabled);
  mret next_enabled.
(** [toggle_autostart] when its task runs at once: its errors are logged. *)
Definition toggle_autostart : M Gui string unit :=
  next_enabled ← toggle_entry;
  config ← gets (λ g, st_config (gu_state g));
  _ ← mapping_err (λ e, "failed to persist autostart config: " +:+ io_message e)
        (on_state (save_config (with_autostart next_enabled config)));
  mret tt.
(** [test_print] of the tray. *)
Definition tray_test_print : M Gui string unit :=
  mapping_err TestPrintError_display (on_state print_calibration_page).

(** [DesktopProductCommandAdapter], over a service of the command line: the world
    of the commands and the autostart entry. *)
Section product.
Context {W : Type} (service : CommandService W)
        (is_enabled : M W string bool) (set_entry : bool → M W string unit).

Definition product_error (message : string) : CommandError := mkCommandError KRuntime message.
Definition product_config : M W CommandError AgentConfig :=
  r ← service_execute service GetConfig;
  match r with
  | RConfig config => mret config
  | _ => raise (mkCommandError KRuntime "GetConfig returned an unexpected result")
  end.
Definition product_save (config : AgentConfig) : M W CommandError unit :=
  _ ← service_execute service (SaveConfig config); mret tt.
Definition product_set_autostart (enabled : bool) : M W CommandError unit :=
  _ ← mapping_err product_error (set_entry enabled);
  config ← product_config;
  product_save (with_autostart enabled config).
Definition product_set_language (language : string) : M W CommandError unit :=
  language ← lift
    (if bool_decide (language = "zh-CN") then Ok ZhCn
     else if bool_decide (language = "en") then Ok En
     else Err (mkCommandError KInvalidInput "language must be zh-CN or en"));
  config ← product_config;
  product_save (with_app config (mkAppConfig (ap_autostart (cfg_app config)) language)).
Definition desktop_product : ProductCommandAdapter W :=
  mkProduct Desktop (mapping_err product_error is_enabled) product_set_autostart
    product_set_language.
End product.
End desktop.

(** ** Properties *)

Section desktop_properties.
Context `{U : UrlOps, B : Base64Ops, I : IpNetOps, J : !JsonCodec AgentConfig,
          IM : !ImageOps, P : !ProxyEnv, R : !RuntimeEnv, TJ : !TaskJson, RE : !RemoteEnv,
          V : !ConverterEnv, D : !DoctorEnv, C : !TransferCrypto,
          JP : !JsonCodec ConfigTransferPayload, JF : !JsonCodec EncryptedConfigFile,
          X : !ExecutorEnv, G : !GuiEnv}.
Context (listen_addr : SocketAddr).
Implicit Types (g : Gui).

(** The calls the window can make. *)
Inductive GuiCall :=
  | GGetConfig | GRunDoctor | GSaveConfig (config : AgentConfig)
  | GExport (path password : string) (options : ExportConfigOptions)
  | GPreview (path password : string) | GImport (path password expected_file_hash : string)
  | GTestRemote (config : AgentConfig) | GLogs | GHistory | GHistoryEvents (job_id : string)
  | GClearHistory | GPrintTest (config : AgentConfig) | GPrinters | GPapers (printer_name : string).
Definition drop_result {A} (m : M Gui HandlerError A) : M Gui HandlerError unit := _ ← m; mret tt.
Definition gui_run (c : GuiCall) : M Gui HandlerError unit :=
  match c with
  | GGetConfig => drop_result (h_get_config listen_addr)
  | GRunDoctor => drop_result (h_run_doctor listen_addr)
  | GSaveConfig config => drop_result (h_save_config listen_addr config)
  | GExport path password options => h_export_config_file listen_addr path password options
  | GPreview path password => drop_result (h_preview_config_import listen_addr path password)
  | GImport path password hash => drop_result (h_import_config_file listen_addr path password hash)
  | GTestRemote config => h_test_remote_connection listen_addr config
  | GLogs => drop_result (h_get_logs listen_addr)
  | GHistory => drop_result (h_get_task_history listen_addr)
  | GHistoryEvents job_id => drop_result (h_get_task_history_events listen_addr job_id)
  | GClearHistory => h_clear_task_history listen_addr
  | GPrintTest config => h_print_test listen_addr config
  | GPrinters => drop_result (h_list_printers listen_addr)
  | GPapers printer_name => drop_result (h_list_papers listen_addr printer_name)
  end.

(** A failure that is not [unreachable!]. *)
Definition handled (e : HandlerError) : Prop := ∃ error, e = HError error.

Lemma gui_executor_typed : typed (gui_executor listen_addr).
Proof.
  intros command g r. unfold gui_executor, on_state, zoom.
  pose proof (executor_typed listen_addr command (gu_state g)) as H.
  destruct (runtime_execute listen_addr command (gu_state g)) as [[a|e] s]; [|done].
  intros [= <-]. by apply H.
Qed.
Lemma gui_service_typed : typed (service_execute (gui_service listen_addr)).
Proof.
  apply service_typed; [apply gui_executor_typed|]. intros online [= <-]. apply gui_executor_typed.
Qed.

Lemma call_handled {A} command unexpected (project : CommandResult → option A) :
  (∀ r, answers command r = true → is_some (project r) = true) →
  raises (call listen_addr command unexpected project) handled.
Proof.
  intros Hp g e. unfold call. rewrite M_bind_eq. unfold mapping_err.
  pose proof (gui_service_typed command g) as Ht.
  destruct (service_execute _ command g) as [[r|error] g']; simpl.
  - specialize (Hp r (Ht r eq_refl)). by destruct (project r).
  - intros [= <-]. by exists error.
Qed.
Lemma call_unit_handled command : raises (call_unit listen_addr command) handled.
Proof. unfold call_unit. repeat raises_step. by eexists. Qed.
Lemma drop_handled {A} (m : M Gui HandlerError A) : raises m handled → raises (drop_result m) handled.
Proof. intros H. unfold drop_result. repeat raises_step. done. Qed.

Lemma save_handled config : raises (h_save_config listen_addr config) handled.
Proof.
  intros g e. unfold h_save_config. rewrite gets_bind, M_bind_eq.
  match goal with |- context [(if ?b then ?m else ?k) g] =>
    destruct ((if b then m else k) g) as [[[]|error] g1] eqn:H1 end; simpl.
  2: { intros [= <-]. destruct (negb _); [|done]. unfold handler_error, mapping_err in H1.
       destruct (check_service_port_available _ g) as [[]]; [done|]. injection H1 as <- _. by eexists. }
  rewrite M_bind_eq. unfold handler_error at 1, mapping_err at 1.
  destruct (apply_autostart _ g1) as [[[]|error] g2]; simpl; [|intros [= <-]; by eexists].
  rewrite attempt_bind. pose proof (gui_service_typed (SaveConfig config) g2) as Ht.
  destruct (service_execute _ _ g2) as [[r|error] g3]; simpl.
  - specialize (Ht r eq_refl). destruct r; try discriminate Ht. rewrite attempt_bind.
    by destruct (apply_tray_language _ g3).
  - rewrite attempt_bind. destruct (apply_autostart _ g3) as [[]]; intros [= <-]; by eexists.
Qed.

(** C32: No call of the window panics.  The executor answers every command with a
    result of the kind the command has, and the service hands it on, so none of the
    [unreachable!] of the handlers is reached, whatever the state of the agent and
    whatever fails. *)
Theorem handlers_never_panic (c : GuiCall) (g : Gui) (message : string) :
  (gui_run c g).1 ≠ Err (HUnreachable message).
Proof.
  enough (raises (gui_run c) handled) as H by (intros Hr; by destruct (H g _ Hr)).
  destruct c; simpl; try apply call_unit_handled; apply drop_handled;
    try apply save_handled; apply call_handled; by intros [].
Qed.

Lemma apply_autostart_outcome enabled g :
  let '(r, g') := apply_autostart enabled g in
  gu_state g' = gu_state g ∧
  match r with Ok _ => gu_autostart g' = enabled | Err _ => gu_autostart g' = gu_autostart g end.
Proof.
  unfold apply_autostart, autostart_is_enabled, autostart_set, gui_tick. cbv [mbind M_bind].
  destruct (gx_read_autostart _); simpl; [done|].
  destruct (Bool.eqb enabled (gu_autostart g)) eqn:He; simpl.
  - split; [done|]. by apply Bool.eqb_prop in He.
  - by destruct (gx_write_autostart _).
Qed.

Lemma gui_save_outcome config g :
  let '(r, g') := service_execute (gui_service listen_addr) (SaveConfig config) g in
  gu_autostart g' = gu_autostart g ∧
  match r with
  | Ok x => ∃ c, x = RConfig c ∧ c = normalized config ∧ st_config (gu_state g') = c ∧ config_ok c
  | Err _ => st_config (gu_state g') = st_config (gu_state g)
  end.
Proof.
  unfold service_execute, gui_service, gui_executor. simpl. rewrite attempt_bind.
  unfold on_state, zoom. rewrite M_bind_eq. unfold mapping_err.
  pose proof (save_config_outcome config (gu_state g)) as Ho.
  destruct (save_config config (gu_state g)) as [[c|e] s]; simpl.
  - destruct Ho as (Hc&Hst&Hok&_). split; [done|]. by exists c.
  - by destruct Ho as [Hst _].
Qed.

(** C33: Saving from the window keeps the autostart entry and the configuration in
    step.  A save that succeeds has put the normal form of the given configuration,
    which is valid, in force, and the entry of the operating system is what it
    says; the port changed only to a free one of the user range.  A save that fails
    leaves the configuration in force alone, and then the entry is untouched, or set
    back to what the configuration in force says, or the error tells that setting it
    back failed. *)
Theorem save_config_rolls_back (config : AgentConfig) (g : Gui) :
  let current := st_config (gu_state g) in
  let '(r, g') := h_save_config listen_addr config g in
  match r with
  | Ok saved => saved = normalized config ∧ config_ok saved ∧ st_config (gu_state g') = saved ∧
      gu_autostart g' = ap_autostart (cfg_app saved) ∧
      (sv_port (cfg_service saved) ≠ sv_port (cfg_service current) →
       MIN_SERVICE_PORT ≤ sv_port (cfg_service saved) ≤ MAX_SERVICE_PORT ∧
       ∃ n, gx_bind n (sv_port (cfg_service saved)) = true)
  | Err e => st_config (gu_state g') = current ∧
      (gu_autostart g' = gu_autostart g ∨ gu_autostart g' = ap_autostart (cfg_app current) ∨
       ∃ first second, e = HError (mkCommandError KRuntime
         (first +:+ "; failed to restore the previous autostart setting: " +:+ second)))
  end.
Proof.
  cbv zeta. unfold h_save_config. rewrite gets_bind, M_bind_eq.
  match goal with |- context [(if ?b then ?m else ?k) g] =>
    destruct ((if b then m else k) g) as [r1 g1] eqn:H1 end.
  assert (gu_state g1 = gu_state g ∧ gu_autostart g1 = gu_autostart g ∧ (r1 = Ok tt →
    sv_port (cfg_service config) ≠ sv_port (cfg_service (st_config (gu_state g))) →
    MIN_SERVICE_PORT ≤ sv_port (cfg_service config) ≤ MAX_SERVICE_PORT ∧
    ∃ n, gx_bind n (sv_port (cfg_service config)) = true)) as (Hs1&Ha1&Hport).
  { destruct (_ =? _) eqn:Hp; simpl in H1.
    { injection H1 as <- <-. apply N.eqb_eq in Hp. split_and!; try done. }
    unfold handler_error, mapping_err, check_service_port_available in H1.
    destruct (negb _) eqn:Hr; simpl in H1; [by injection H1 as <- <-|].
    apply negb_false_iff, andb_true_iff in Hr as [?%N.leb_le ?%N.leb_le].
    unfold gui_tick in H1. cbv [mbind M_bind] in H1.
    destruct (gx_bind _ _) eqn:Hb; injection H1 as <- <-; split_and!; try done; eauto. }
  destruct r1 as [[]|e1]; [|simpl; rewrite Hs1; auto].
  rewrite M_bind_eq. unfold handler_error, mapping_err.
  pose proof (apply_autostart_outcome (ap_autostart (cfg_app config)) g1) as Hap.
  destruct (apply_autostart _ g1) as [[[]|e] g2]; destruct Hap as [Hs2 Ha2];
    [|simpl; rewrite Hs2, Hs1; split; [done|left; congruence]].
  rewrite attempt_bind. pose proof (gui_save_outcome config g2) as Hsave.
  destruct (service_execute _ _ g2) as [[x|e] g3]; destruct Hsave as [Ha3 Hsave].
  - destruct Hsave as (c&->&->&Hst&Hok). rewrite attempt_bind.
    assert (∀ l, let '(_, g4) := apply_tray_language l g3 in
      gu_state g4 = gu_state g3 ∧ gu_autostart g4 = gu_autostart g3) as Htray.
    { intros l. unfold apply_tray_language, gui_tick. cbv [mbind M_bind]. by destruct (gx_tray _). }
    specialize (Htray (ap_language (cfg_app (normalized config)))).
    destruct (apply_tray_language _ g3) as [r4 g4]. destruct Htray as [Hs4 Ha4]. simpl.
    split_and!; try done; [congruence|simpl; congruence|]. by apply Hport.
  - rewrite attempt_bind.
    pose proof (apply_autostart_outcome (ap_autostart (cfg_app (st_config (gu_state g)))) g3) as Hback.
    destruct (apply_autostart _ g3) as [[[]|e'] g4]; destruct Hback as [Hs4 Ha4]; simpl;
      (split; [congruence|]); right; [by left|right]. by exists (ce_message e), e'.
Qed.

(** A toggle from the tray that cannot be saved is not undone.  When the entry of
    the operating system is changed and saving then fails, the entry keeps its new
    value and the configuration its old one: they disagree if they agreed before. *)
Theorem failed_toggle_diverges (g : Gui) (e : IoError)
    (Hread : gx_read_autostart (gu_tick g) = None)
    (Hwrite : gx_write_autostart (S (gu_tick g)) = None)
    (Hsave : (save_config (with_autostart (negb (gu_autostart g)) (st_config (gu_state g)))
                (gu_state g)).1 = Err e) :
  let '(r, g') := toggle_autostart g in
  r = Err ("failed to persist autostart config: " +:+ io_message e) ∧ gu_autostart g' = negb (gu_autostart g) ∧
  st_config (gu_state g') = st_config (gu_state g) ∧
  (gu_autostart g = ap_autostart (cfg_app (st_config (gu_state g))) →
   gu_autostart g' ≠ ap_autostart (cfg_app (st_config (gu_state g')))).
Proof.
  unfold toggle_autostart, toggle_entry, autostart_is_enabled, autostart_set, gui_tick, mapping_err.
  cbv [mbind M_bind gets modify]. rewrite Hread. simpl. rewrite Hwrite. simpl.
  unfold on_state, zoom. simpl.
  pose proof (save_config_outcome (with_autostart (negb (gu_autostart g)) (st_config (gu_state g)))
    (gu_state g)) as Ho.
  destruct (save_config _ (gu_state g)) as [r s]. simpl in Hsave. subst r. simpl.
  destruct Ho as [Hst _]. split_and!; try done. rewrite Hst. intros <-. by destruct (gu_autostart g).
Qed.
End desktop_properties.

(** ** Witness *)

#[export] Instance toy_gui_env : GuiEnv := {|
  gx_read_autostart _ := None; gx_write_autostart _ := None; gx_tray _ := None; gx_bind _ _ := true
|}.
(** A configuration file that cannot be written. *)
Definition toy_gui : Gui :=
  mkGui (with_printing_and_config_path AgentConfig_default (Some "config.json")
           (mkFs ∅ ∅ 0 (λ _, Some (mkIoError OtherKind "No space left on device", None))))
    false ZhCn 0.
Lemma failed_toggle_diverges_witness :
  gu_autostart toy_gui = ap_autostart (cfg_app (st_config (gu_state toy_gui))) ∧
  let '(r, g') := toggle_autostart (J := toy_config_codec) toy_gui in
  r = Err "failed to persist autostart config: No space left on device" ∧ gu_autostart g' = true ∧
  ap_autostart (cfg_app (st_config (gu_state g'))) = false.
Proof.
  split; [reflexivity|].
  pose proof (failed_toggle_diverges (J := toy_config_codec) toy_gui
    (mkIoError OtherKind "No space left on device") eq_refl eq_refl) as H.
  specialize (H ltac:(vm_compute; reflexivity)).
  destruct (toggle_autostart (J := toy_config_codec) toy_gui) as [r g'].
  destruct H as (Hr&Ha&Hc&_). split; [exact Hr|]. split; [exact Ha|]. rewrite Hc. reflexivity.
Defined.
