(* ===== verification/Apps.v ===== *)
(** * The executables ([apps/server/src/main.rs], [parser.rs], [dependencies.rs],
    [paths.rs], [readiness.rs], [signals.rs], [apps/desktop/src-tauri/src/main.rs], [cli.rs],
    [product_cli.rs])

    The two programs: how their arguments choose between serving, the window and the
    command line, what they assemble for it, and the exit code of the process. *)

From S2P Require Import Prelude RustStr F64 NetAddr Externs Toy FileSys PrintTypes Printing.
From S2P Require Import Protocol IpWhitelist Config JobQueue Activity Sqlite TaskHistory RemoteStore.
From S2P Require Import RemoteClient State Document Converters TestPrint Proxy ConfigTransfer.
From S2P Require Import Server RemoteWorker Commands Doctor Executor Cli Ipc Agent Desktop.
From Stdlib Require Import Ascii.
Open Scope string_scope.
Open Scope N_scope.
Open Scope list_scope.

(** What a process leaves: its output and its exit code. *)
Record ProcessExit := mkExit { px_stdout : string; px_stderr : string; px_code : N }.

(** [Box<dyn Error>]: the error of a command, or another error's text. *)
Inductive BoxError := BoxCommand (e : CommandError) | BoxOther (message : string).
Definition box_message (e : BoxError) : string :=
  match e with BoxCommand e => ce_message e | BoxOther message => message end.
(** The [downcast_ref] of [main]. *)
Definition box_exit_code (e : BoxError) : N :=
  match e with BoxCommand e => exit_code e | BoxOther _ => 1 end.

(** ** Dependencies of the headless agent *)

(** [find_on_path]: [is_file] tells the files, [path_dirs] are the directories of
    PATH, if it is set. *)
Definition find_on_path (is_file : string → bool) (path_dirs : option (list string))
    (program : string) : option string :=
  if starts_with "/" program && is_file program then Some program
  else
    dirs ← path_dirs;
    iter_find is_file (map (λ dir, path_join OtherUnix dir program) dirs).
Definition require_any (is_file : string → bool) (path_dirs : option (list string))
    (candidates : list string) (label suggestion : string) : result string string :=
  ok_or ("missing " +:+ label +:+ "; " +:+ suggestion)
    (iter_find_map (find_on_path is_file path_dirs) candidates).
Definition preflight (is_file : string → bool) (path_dirs : option (list string))
  : result string unit :=
  let require := require_any is_file path_dirs in
  _ ← try_for_each (λ program,
        _ ← require [program] program "install cups-client"; Ok tt) ["lp"; "lpstat"; "lpoptions"];
  _ ← require ["soffice"; "libreoffice"] "LibreOffice" "install libreoffice";
  _ ← require ["google-chrome"; "google-chrome-stable"; "chromium"; "chromium-browser"]
        "Chrome/Chromium" "install Google Chrome or Chromium system-wide";
  Ok tt.

(** [system_paths] *)
Definition system_paths (env : Env) : RuntimePaths :=
  let env_path name fallback := default fallback (env name) in
  mkRuntimePaths (env_path "PRINT_BRIDGE_CONFIG_PATH" "/etc/print-bridge/config.json")
    (env_path "PRINT_BRIDGE_DATA_DIR" "/var/lib/print-bridge")
    (env_path "PRINT_BRIDGE_RUNTIME_DIR" "/run/print-bridge").

(** ** Where the desktop program was called from *)

(** The components of a Unix path, and its last one when it is a name. *)
Definition path_components (path : string) : list string :=
  filter (λ c, c ≠ "" ∧ c ≠ ".") (split_char "/"%char path).
Definition path_file_name (path : string) : option string :=
  name ← last (path_components path);
  if bool_decide (name = "..") then None else Some name.
(** Some ancestor has the extension [app]. *)
Definition is_macos_app_bundle_executable (program : option string) : bool :=
  match program with
  | None => false
  | Some value =>
      existsb (λ c, negb (bool_decide (c = "..")) && bool_decide ((stem_ext c).2 = Some "app"))
        (path_components value)
  end.
Definition should_run_cli (program command : option string) : bool :=
  is_some command ||
  (bool_decide ((program ≫= path_file_name) = Some "print-bridge") &&
   negb (is_macos_app_bundle_executable program)).

(** [windows_gui_executable_path]: the directory is the text up to the last backslash
    or slash. *)
Definition is_separator (c : ascii) : bool := bool_decide (c = "\"%char) || bool_decide (c = "/"%char).
Definition windows_gui_executable_path (executable : string) : string :=
  let '(_, rest) := Bytes.span (λ c, negb (is_separator c)) (reverse (to_bytes executable)) in
  if bool_decide (rest = []) then "PrintBridge.exe"
  else of_bytes (reverse rest) +:+ "PrintBridge.exe".

(** [desktop_executable_path]; [canonical] resolves a path. *)
Definition desktop_executable_path (pf : Platform) (env : Env)
    (current_exe : result string string) (canonical : string → result string string)
  : result string string :=
  match pf, env "APPIMAGE" with
  | OtherUnix, Some path => Ok path
  | OtherUnix, None => current_exe
  | Windows, _ => executable ← current_exe; Ok (windows_gui_executable_path executable)
  | MacOs, _ =>
      executable ← current_exe;
      executable ← canonical executable;
      Ok (match split_once ".app/" executable with
          | Some (bundle, _) => bundle +:+ ".app"
          | None => executable
          end)
  end.

(** ** The machine a process runs on *)

(** Its files, the world of a running agent, the commands run, and the messages
    sent to systemd. *)
Record Machine (V : Type) := mkMachine {
  mc_fs : Fs; mc_agent : V; mc_ran : Transcript; mc_notified : list string
}.
Arguments mkMachine {V}.
Arguments mc_fs {V}.
Arguments mc_agent {V}.
Arguments mc_ran {V}.
Arguments mc_notified {V}.

(** [ServerCommand] and [ServerArgs] ([parser.rs]). *)
Inductive ServerCommand := Serve.
Record ServerArgs := mkServerArgs { sa_command : option ServerCommand }.

(** What clap makes of the arguments of the headless program, and of its help (what
    [exit] prints and returns), the failures of the notification socket, of
    registering for SIGTERM and of waiting for [ctrl_c], whether SIGTERM comes first,
    how the tasks of the agent end, and the programs installed. *)
Class MainEnv := {
  mx_env : Env;
  mx_is_file : string → bool;
  mx_path_dirs : option (list string);
  mx_clap : list string → result ProcessExit ServerArgs;
  mx_display_help : ProcessExit;
  mx_notify : string → option IoError;
  mx_unix : bool;
  mx_register_terminate : result IoError unit;
  mx_ctrl_c : result IoError unit;
  mx_terminated : bool;
  mx_tasks : RuntimeTasks
}.

Section mains.
Context (pf : Platform) `{U : UrlOps, B : Base64Ops, I : IpNetOps, J : !JsonCodec AgentConfig,
          IM : !ImageOps, P : !ProxyEnv, R : !RuntimeEnv, TJ : !TaskJson, RE : !RemoteEnv,
          V : !ConverterEnv, D : !DoctorEnv, C : !TransferCrypto,
          JP : !JsonCodec ConfigTransferPayload, JF : !JsonCodec EncryptedConfigFile,
          X : !ExecutorEnv, CE : !CliEnv, L : !LaunchEnv, ME : !MainEnv}.
Context {A : Type} (online : CommandExecutor A) (interaction : CliInteraction).

(** ** The shared command line *)

Abbreviation Both := (prod AgentState A).
Definition both_offline : CommandExecutor Both := λ command,
  zoom fst (λ s w, (s, snd w)) (runtime_execute (mkSocketAddr (v4 127 0 0 1) 0) command).
Definition both_online : CommandExecutor Both := λ command,
  zoom snd (λ a w, (fst w, a)) (online command).
(** The service of [run_shared_cli] and of [build_service]. *)
Definition shared_service : CommandService Both := mkCommandService (Some both_online) both_offline.

Definition runtime_error_text (e : RuntimeError) : string := RuntimeError_display xe_sql_display e.
Definition second_is (command : string) (argv : list string) : bool :=
  bool_decide (nth_error argv 1 = Some command).

(** The state of an offline command: [doctor] only reads the configuration. *)
Definition cli_state (read_only : bool) (paths : RuntimePaths) : M Fs RuntimeError AgentState :=
  if read_only then
    config ← mapping_err ReIo (load (rp_config_path paths));
    fs ← gets id;
    mret (with_printing_and_config_path config (Some (rp_config_path paths)) fs)
  else build pf paths.

Definition run_shared (product : ProductCommandAdapter Both) (paths : RuntimePaths)
    (argv : list string) : M (Machine A) BoxError CliOutput := λ m,
  match cli_state (second_is "doctor" argv) paths (mc_fs m) with
  | (Err e, fs) =>
      (Err (BoxOther (runtime_error_text e)), mkMachine fs (mc_agent m) (mc_ran m) (mc_notified m))
  | (Ok state, _) =>
      let '(r, w) := run_cli_from shared_service product interaction argv
                       (mkCliWorld (state, mc_agent m) 0 (mc_ran m)) in
      (map_err BoxCommand r,
       mkMachine (st_fs (fst (cl_world w))) (snd (cl_world w)) (cl_ran w) (mc_notified m))
  end.

(** ** The headless program *)

(** [notify]: nothing is sent when the socket is not named. *)
Definition notify (message : string) : M (Machine A) BoxError unit :=
  match mx_env "NOTIFY_SOCKET" with
  | None => mret tt
  | Some _ =>
      match mx_notify message with
      | Some error => raise (BoxOther (io_message error))
      | None => modify (λ m, mkMachine (mc_fs m) (mc_agent m) (mc_ran m) (mc_notified m ++ [message]))
      end
  end.

Definition serve_with (paths : RuntimePaths) : M (Machine A) BoxError AgentHandle := λ m,
  let machine fs := mkMachine fs (mc_agent m) (mc_ran m) (mc_notified m) in
  match build pf paths (mc_fs m) with
  | (Err e, fs) => (Err (BoxOther (runtime_error_text e)), machine fs)
  | (Ok state, _) =>
      match start pf paths state with
      | (Err e, s) => (Err (BoxOther (runtime_error_text e)), machine (st_fs s))
      | (Ok addr, s) => (Ok (spawn pf paths addr mx_tasks s), machine (st_fs s))
      end
  end.
Definition stop_agent (handle : AgentHandle) : M (Machine A) BoxError unit := λ m,
  let '(r, h) := shutdown handle in
  (map_err (λ e, BoxOther (runtime_error_text e)) r,
   mkMachine (st_fs (ah_state h)) (mc_agent m) (mc_ran m) (mc_notified m)).

(** [shutdown_signal] ([signals.rs]); elsewhere than on Unix only [ctrl_c] is waited for. *)
Definition shutdown_signal : result IoError unit :=
  if mx_unix then
    _ ← mx_register_terminate;
    if mx_terminated then Ok tt else mx_ctrl_c
  else mx_ctrl_c.

Definition serve : M (Machine A) BoxError unit :=
  _ ← lift (map_err BoxOther (preflight mx_is_file mx_path_dirs));
  handle ← serve_with (system_paths mx_env);
  _ ← notify "READY=1";
  _ ← lift (map_err (λ error, BoxOther (io_message error)) shutdown_signal);
  _ ← notify "STOPPING=1";
  stop_agent handle.

(** The product of the headless program. *)
Definition headless_product : ProductCommandAdapter Both :=
  unsupported_product Headless
    "headless autostart is managed by systemd and application language is fixed to English".
(** [run_shared_cli]: what it prints is all that is kept of the output. *)
Definition run_shared_cli (argv : list string) : M (Machine A) BoxError ProcessExit :=
  output ← run_shared headless_product (system_paths mx_env) argv;
  mret (mkExit (co_stdout output) (co_stderr output) 0).

(** [try_parse_product_from]: the help instead of a missing subcommand. *)
Definition try_parse_product_from (args : list string) : result ProcessExit ServerArgs :=
  match mx_clap args with
  | Ok parsed => if is_none (sa_command parsed) then Err mx_display_help else Ok parsed
  | Err error => Err error
  end.

(** [main] of the server.  The [unreachable!] would end it like any panic. *)
Definition panicked : ProcessExit := mkExit "" (newline "internal error: entered unreachable code") 101.
Definition server_main (argv : list string) (m : Machine A) : ProcessExit * Machine A :=
  if bool_decide (length argv = 1%nat) then (mkExit ci_long_help "" 0, m)
  else
    match cli_display_output_from argv with
    | Some output => (mkExit (co_stdout output) "" 0, m)
    | None =>
        let '(r, m') :=
          if second_is "serve" argv then
            match try_parse_product_from argv with
            | Ok args =>
                match sa_command args with
                | Some Serve => (_ ← serve; mret (mkExit "" "" 0)) m
                | None => (Ok panicked, m)
                end
            | Err exit => (Ok exit, m)
            end
          else run_shared_cli argv m in
        (match r with
         | Ok exit => exit
         | Err error => mkExit "" (newline (box_message error)) (box_exit_code error)
         end, m')
    end.

(** ** The desktop program *)

(** [run_cli_from_env]; the product may fail to be made. *)
Definition desktop_main (product : result CommandError (ProductCommandAdapter Both))
    (argv : list string) (m : Machine A) : ProcessExit * Machine A :=
  match cli_display_output_from argv with
  | Some output => (mkExit (co_stdout output) "" (co_exit_code output), m)
  | None =>
      match (config_path ← cli_config_path pf mx_env; data_dir ← cli_data_dir pf mx_env;
             Ok (mkRuntimePaths config_path data_dir (path_join pf data_dir "run"))), product with
      | Err error, _ => (mkExit "" (newline (io_message error)) 1, m)
      | Ok paths, Err error =>
          let '(r, fs) := cli_state (second_is "doctor" argv) paths (mc_fs m) in
          (mkExit "" (newline match r with
                              | Err e => runtime_error_text e
                              | Ok _ => ce_message error
                              end) 1,
           mkMachine fs (mc_agent m) (mc_ran m) (mc_notified m))
      | Ok paths, Ok product =>
          let '(r, m') := run_shared product paths argv m in
          (match r with
           | Ok output => mkExit (co_stdout output) (co_stderr output) (co_exit_code output)
           | Err error => mkExit "" (newline (box_message error)) (box_exit_code error)
           end, m')
      end
  end.
End mains.

(** ** Properties *)

Section main_properties.
Context (pf : Platform) `{U : UrlOps, B : Base64Ops, I : IpNetOps, J : !JsonCodec AgentConfig,
          IM : !ImageOps, P : !ProxyEnv, R : !RuntimeEnv, TJ : !TaskJson, RE : !RemoteEnv,
          V : !ConverterEnv, D : !DoctorEnv, C : !TransferCrypto,
          JP : !JsonCodec ConfigTransferPayload, JF : !JsonCodec EncryptedConfigFile,
          X : !ExecutorEnv, CE : !CliEnv, L : !LaunchEnv, ME : !MainEnv}.
Context {A : Type} (online : CommandExecutor A) (interaction : CliInteraction).
Implicit Types (m : Machine A).

(** The machine after a run differs only in what the commands of the run did. *)
Lemma run_shared_story product paths argv m :
  let '(r, m') := run_shared pf online interaction product paths argv m in
  ∃ new, mc_ran m' = mc_ran m ++ new ∧ mc_notified m' = mc_notified m ∧
    match r with
    | Err (BoxOther _) => new = []
    | Err (BoxCommand e) => cli_story product interaction argv (Err e) new
    | Ok output => cli_story product interaction argv (Ok output) new
    end.
Proof.
  unfold run_shared. destruct (cli_state _ _ _ (mc_fs m)) as [[state|e] fs].
  - pose proof (run_cli_outcome (shared_service online) product interaction argv
      (mkCliWorld (state, mc_agent m) 0 (mc_ran m))) as H.
    destruct (run_cli_from _ _ _ _ _) as [r w]. destruct H as (new&Hran&Hs&_).
    exists new. by destruct r.
  - exists []. by rewrite app_nil_r.
Qed.

(** [doctor] as text, run to its end. *)
Lemma run_doctor_text {W} (service : CommandService W) product argv (w : CliWorld W) report :
  ci_parse argv = ParsedCommand (Some (CliDoctor false)) →
  let '(r, w') := run_cli_from service product interaction argv w in
  cl_ran w' = cl_ran w ++ [(Doctor (product_kind product), Ok (RDoctor report))] →
  r = Ok (mkCliOutput (doctor_text report) "" (if 0 <? ds_fail (dr_summary report) then 1 else 0)).
Proof.
  intros Hp. unfold run_cli_from. rewrite Hp, M_bind_eq.
  pose proof (wp_run service (Doctor (product_kind product)) (cl_ran w)
    (λ r tr, tr = cl_ran w ++ [(Doctor (product_kind product), r)]) (λ r, eq_refl) w eq_refl) as Hr.
  destruct (run service (Doctor (product_kind product)) w) as [r w']. simpl in Hr.
  destruct r as [x|e]; simpl.
  - destruct x; simpl; rewrite Hr; intros Heq%app_inj_2; try done; by destruct Heq as [_ [= ->]].
  - rewrite Hr. intros Heq%app_inj_2; [|done]. by destruct Heq as [_ [=]].
Qed.

Lemma run_shared_doctor product paths argv m report :
  ci_parse argv = ParsedCommand (Some (CliDoctor false)) →
  let '(r, m') := run_shared pf online interaction product paths argv m in
  mc_ran m' = mc_ran m ++ [(Doctor (product_kind product), Ok (RDoctor report))] →
  r = Ok (mkCliOutput (doctor_text report) "" (if 0 <? ds_fail (dr_summary report) then 1 else 0)).
Proof.
  intros Hp. unfold run_shared. destruct (cli_state _ _ _ (mc_fs m)) as [[state|e] fs].
  - pose proof (run_doctor_text (shared_service online) product argv
      (mkCliWorld (state, mc_agent m) 0 (mc_ran m)) report Hp) as H.
    destruct (run_cli_from _ _ _ _ _) as [r w]. simpl. intros Hran. by rewrite (H Hran).
  - simpl. intros Hran. rewrite <-(app_nil_r (mc_ran m)) in Hran at 1.
    by apply app_inv_head in Hran.
Qed.

(** The exit code of [doctor].  Both programs print the same report of the
    checks; the desktop program then exits with 1 when a check failed and with 0
    otherwise, as documented, but the headless program always exits with 0. *)
Theorem doctor_exit_codes (product : ProductCommandAdapter (AgentState * A))
    (argv : list string) (m : Machine A) (report : DoctorReport)
    (Hparse : ci_parse argv = ParsedCommand (Some (CliDoctor false)))
    (Hserve : second_is "serve" argv = false) (Hlength : length argv ≠ 1%nat) :
  (let '(exit, m') := server_main pf online interaction argv m in
   mc_ran m' = mc_ran m ++ [(Doctor Headless, Ok (RDoctor report))] →
   exit = mkExit (doctor_text report) "" 0) ∧
  (let '(exit, m') := desktop_main pf online interaction (Ok product) argv m in
   mc_ran m' = mc_ran m ++ [(Doctor (product_kind product), Ok (RDoctor report))] →
   exit = mkExit (doctor_text report) "" (if 0 <? ds_fail (dr_summary report) then 1 else 0)).
Proof.
  assert (cli_display_output_from argv = None) as Hdisplay
    by (unfold cli_display_output_from; by rewrite Hparse).
  split.
  - unfold server_main. rewrite bool_decide_eq_false_2, Hdisplay, Hserve by done.
    unfold run_shared_cli. rewrite M_bind_eq.
    pose proof (run_shared_doctor headless_product (system_paths mx_env) argv m report Hparse) as H.
    destruct (run_shared _ _ _ _ _ _ m) as [r m'].
    destruct r as [output|e]; simpl; intros Hran; specialize (H Hran); [|done].
    by injection H as ->.
  - unfold desktop_main. rewrite Hdisplay.
    destruct (_ ≫= _) as [paths|e]; [|simpl; intros Hran].
    + pose proof (run_shared_doctor product paths argv m report Hparse) as H.
      destruct (run_shared _ _ _ _ _ _ m) as [r m']. intros Hran. by rewrite (H Hran).
    + rewrite <-(app_nil_r (mc_ran m)) in Hran at 1. by apply app_inv_head in Hran.
Qed.
End main_properties.

(** ** Witness *)

#[export] Instance toy_launch_env : LaunchEnv := {|
  ln_open_remote _ := Ok RemoteStore_new;
  ln_open_history _ := Ok TaskHistoryStore_new;
  ln_probe _ := false;
  ln_bind addr := Ok addr
|}.
#[export] Instance toy_main_env : MainEnv := {|
  mx_env name := if bool_decide (name = "HOME") then Some "/home/user" else None;
  mx_is_file _ := true;
  mx_path_dirs := Some ["/usr/bin"];
  mx_clap _ := Ok (mkServerArgs (Some Serve));
  mx_display_help := mkExit "" "help" 2;
  mx_notify _ := None;
  mx_unix := true;
  mx_register_terminate := Ok tt;
  mx_ctrl_c := Ok tt;
  mx_terminated := true;
  mx_tasks := mkRuntimeTasks (Ok (Ok tt)) (Ok tt) (Ok tt) (Ok [])
|}.
(** An agent whose doctor finds a failed check. *)
Definition toy_report : DoctorReport :=
  DoctorReport_new [mkDoctorCheck "printers.list" DFail "No printer." None].
Definition toy_online : CommandExecutor unit := λ _, mret (RDoctor toy_report).
Definition toy_interaction : CliInteraction := mkCliInteraction (λ _ _, Ok "") (λ _ _, Ok true) false.
Definition toy_machine : Machine unit := mkMachine (mkFs ∅ ∅ 0 (λ _, None)) tt [] [].
Definition toy_server : ProcessExit * Machine unit :=
  server_main OtherUnix (J := toy_config_codec) (V := toy_converters) (JP := toy_payload_codec)
    (JF := toy_file_codec) toy_online toy_interaction ["print-bridge"; "doctor"] toy_machine.
Definition toy_desktop : ProcessExit * Machine unit :=
  desktop_main OtherUnix (J := toy_config_codec) (V := toy_converters) (JP := toy_payload_codec)
    (JF := toy_file_codec) toy_online toy_interaction
    (Ok (unsupported_product Desktop "")) ["print-bridge"; "doctor"] toy_machine.
Lemma doctor_exit_codes_witness :
  toy_server.1 = mkExit (doctor_text toy_report) "" 0 ∧
  toy_desktop.1 = mkExit (doctor_text toy_report) "" 1.
Proof.
  pose proof (doctor_exit_codes OtherUnix (J := toy_config_codec) (V := toy_converters)
    (JP := toy_payload_codec) (JF := toy_file_codec) toy_online toy_interaction
    (unsupported_product Desktop "") ["print-bridge"; "doctor"] toy_machine toy_report
    eq_refl eq_refl ltac:(done)) as [Hs Hd].
  split.
  - change (server_main OtherUnix toy_online toy_interaction _ _) with toy_server in Hs.
    destruct toy_server as [exit m'] eqn:He. apply Hs.
    change m' with (snd (exit, m')). rewrite <-He. vm_compute. reflexivity.
  - change (desktop_main OtherUnix toy_online toy_interaction _ _ _) with toy_desktop in Hd.
    destruct toy_desktop as [exit m'] eqn:He.
    replace 1 with (if 0 <? ds_fail (dr_summary toy_report) then 1 else 0) by reflexivity.
    apply Hd. change m' with (snd (exit, m')). rewrite <-He. vm_compute. reflexivity.
Defined.
