(* ===== verification/System.v ===== *)
(** * The running agent ([crates/runtime/src/agent.rs], [AgentRuntime::start])

    The tasks the agent spawns, running concurrently on one state: the
    connections of the WebSocket server, the print worker, the remote worker, and
    the commands of the local IPC and the window.  A step is one round of a task, or
    one end of its waiting: the print worker sleeps until [notify_one] leaves a
    permit, the remote worker until [notify_waiters] finds it waiting or its pause is
    over.  The steps of different tasks interleave in any order ([system_step], with
    [perform] as its executable form), and the theorems hold of every interleaving.
    [system_inv] is the invariant they rest on.  [Interleave] makes the steps finer. *)

From S2P Require Import Prelude RustStr F64 NetAddr Externs Toy FileSys PrintTypes Printing.
From S2P Require Import Protocol IpWhitelist Config JobQueue Download Document Office Converters.
From S2P Require Import Activity Sqlite TaskHistory RemoteStore State TestPrint ResourcePolicy.
From S2P Require Import Proxy Browser Renderer ConfigTransfer Worker WorkerSpec Server RemoteClient.
From S2P Require Import RemoteWorker Commands Doctor Executor.
Open Scope string_scope.
Open Scope N_scope.
Open Scope list_scope.

(** ** What a task does to the queue and the channel *)

Abbreviation ids_of qs := (map (λ q : QueuedJob, qj_id q) qs).

(** Exactly the jobs [js], all new, were appended to the queue. *)
Definition feeds (js : list QueuedJob) (q q' : QueueState) : Prop :=
  pending q' = pending q ++ js ∧ seen_job_ids q' = list_to_set (ids_of js) ∪ seen_job_ids q ∧
  NoDup (ids_of js) ∧ ∀ i, i ∈ ids_of js → i ∉ seen_job_ids q.

Lemma feeds_nil q : feeds [] q q.
Proof.
  split_and!; simpl; [by rewrite app_nil_r|set_solver|constructor|by intros i ?%not_elem_of_nil].
Qed.
Lemma feeds_app js1 js2 q1 q2 q3 :
  feeds js1 q1 q2 → feeds js2 q2 q3 → feeds (js1 ++ js2) q1 q3.
Proof.
  intros (A1&A2&A3&A4) (B1&B2&B3&B4). split_and!.
  - by rewrite B1, A1, app_assoc.
  - rewrite B2, A2, map_app, list_to_set_app_L. set_solver.
  - rewrite map_app. apply NoDup_app. split_and!; [done| |done].
    intros i Hi1 Hi2. apply B4 in Hi2. rewrite A2 in Hi2. set_solver.
  - intros i. rewrite map_app, elem_of_app. intros [Hi|Hi]; [by apply A4|].
    apply B4 in Hi. rewrite A2 in Hi. set_solver.
Qed.
Lemma feeds_enqueue `{U : UrlOps} q op :
  op_valid q op → feeds (op_jobs op) q (enqueue q op).
Proof.
  intros Hv. split_and!; [done|done|by eapply op_jobs_nodup|].
  intros i (j&->&Hj)%list_elem_of_fmap. by eapply op_jobs_props in Hj as (_&?&_).
Qed.

(** Nothing was sent, configured or printed. *)
Definition still (s s' : AgentState) : Prop :=
  st_sent s' = st_sent s ∧ st_config s' = st_config s ∧ st_calls s' = st_calls s.
(** The print worker's permit is kept, and given when jobs were queued. *)
Definition rings (js : list QueuedJob) (s s' : AgentState) : Prop :=
  st_permit s = true ∨ js ≠ [] → st_permit s' = true.
(** Jobs were queued and announced, and that was all. *)
Definition queued_only (s s' : AgentState) : Prop :=
  (∃ js, feeds js (st_queue s) (st_queue s') ∧ rings js s s') ∧ still s s'.
Lemma rings_same s s' : st_permit s' = st_permit s → rings [] s s'.
Proof. intros H [Hp|[]]; congruence. Qed.
Lemma rings_app js1 js2 s1 s2 s3 : rings js1 s1 s2 → rings js2 s2 s3 → rings (js1 ++ js2) s1 s3.
Proof.
  intros H1 H2 H. destruct js1 as [|j js1]; [destruct H as [H|H]|].
  - apply H2. left. apply H1. by left.
  - apply H2. by right.
  - apply H2. left. apply H1. by right.
Qed.
#[export] Instance queued_only_preorder : PreOrder queued_only.
Proof.
  split.
  - intros s. split; [exists []; split; [apply feeds_nil|by apply rings_same]|done].
  - intros s1 s2 s3 ((js1&H1&R1)&H2&H3&H7) ((js2&H4&R2)&H5&H6&H8). split; [|split_and!; congruence].
    exists (js1 ++ js2). split; [by eapply feeds_app|by eapply rings_app].
Qed.

Section effects.
Context `{U : UrlOps, B : Base64Ops, TJ : !TaskJson, R : !RuntimeEnv, RE : !RemoteEnv}.

Lemma queued_same s s' :
  st_queue s' = st_queue s → st_permit s' = st_permit s → still s s' → queued_only s s'.
Proof.
  intros Hq Hp Hs. split; [|done]. exists []. rewrite Hq. split; [apply feeds_nil|by apply rings_same].
Qed.

Lemma accept_and_notify_queued f op :
  (∀ st, queue_step st op =
    match f st with
    | (Ok _, st') => (EvAccepted (op_jobs op), st')
    | (Err e, st') => (EvRejected e, st')
    end) →
  respects queued_only (accept_and_notify f).
Proof.
  intros Hf s. destruct (accept_and_notify_spec f op s Hf) as [[Hv ->]|(_&e&->)]; [|done].
  split; [|done]. exists (op_jobs op). split; [by apply feeds_enqueue|done].
Qed.
Lemma accept_remote_job_queued r job :
  respects queued_only (accept_and_notify (λ queue, accept_remote_job queue r job)).
Proof.
  apply (accept_and_notify_queued _ (OpJob r job None true)). intros st.
  unfold accept_remote_job. simpl. by rewrite html_local_origin_none.
Qed.
Lemma accept_remote_batch_queued r b jobs :
  respects queued_only (accept_and_notify (λ queue, accept_remote_batch queue r b jobs)).
Proof. by apply (accept_and_notify_queued _ (OpBatch r b jobs None true)). Qed.
Lemma tick_queued {E} : respects queued_only (tick (E := E)).
Proof. intros s. by apply queued_same. Qed.
Hint Resolve tick_queued accept_remote_job_queued accept_remote_batch_queued : respects.

Lemma on_store_queued {A} op : respects queued_only (on_store (A := A) op).
Proof.
  unfold on_store. solve_respects. apply respects_modify. intros s. by apply queued_same.
Qed.
Hint Resolve on_store_queued : respects.
Lemma record_batch_queued now r b jobs news dup :
  respects queued_only (record_batch now r b jobs news dup).
Proof.
  revert news dup. induction jobs as [|job jobs IH]; intros news dup; cbn [record_batch];
    unfold validate_remote_job, record_remote_job; solve_respects.
Qed.
Hint Resolve record_batch_queued : respects.
Lemma poll_tasks_queued now tasks o : respects queued_only (poll_tasks now tasks o).
Proof.
  revert o. induction tasks as [|task tasks IH]; intros o; cbn [poll_tasks];
    unfold poll_task, enqueue_remote_job, validate_remote_job, record_remote_job; solve_respects.
Qed.
Lemma poll_once_queued : respects queued_only poll_once.
Proof.
  unfold poll_once, require_store. solve_respects. apply poll_tasks_queued.
Qed.
Lemma report_events_queued config now evs o : respects queued_only (report_events config now evs o).
Proof.
  revert o. induction evs as [|ev evs IH]; intros o; cbn [report_events];
    unfold report_event; solve_respects.
Qed.
Lemma report_pending_queued : respects queued_only report_pending_once.
Proof.
  unfold report_pending_once, require_store. solve_respects. apply report_events_queued.
Qed.
Lemma remote_round_queued cancelled s : queued_only s (remote_round cancelled s).2.
Proof.
  unfold remote_round. destruct cancelled; [done|]. destruct (negb _); [done|].
  pose proof (poll_once_queued s) as Hp. destruct (poll_once s) as [pr s1].
  pose proof (report_pending_queued s1) as Hr. destruct (report_pending_once s1) as [rr s2].
  assert (queued_only s s2) by (by etrans). by repeat case_match.
Qed.
End effects.

(** A client's text: the jobs it queued are the ids bound to its connection. *)
Lemma client_text_feeds `{U : UrlOps, B : Base64Ops, I : IpNetOps, R : !RuntimeEnv}
    from_str s text origin :
  let '(out, s') := handle_client_text from_str s text origin in
  (∃ js, feeds js (st_queue s) (st_queue s') ∧ rings js s s' ∧ co_accepted_job_ids out = ids_of js) ∧ still s s'.
Proof.
  assert (∀ m, submission_result s m origin (handle_client_text from_str s text origin) →
    let '(out, s') := handle_client_text from_str s text origin in
    (∃ js, feeds js (st_queue s) (st_queue s') ∧ rings js s s' ∧ co_accepted_job_ids out = ids_of js) ∧
    still s s') as Hsub.
  { intros m. destruct (handle_client_text from_str s text origin) as [out s'].
    unfold submission_result. cbn [fst snd].
    intros [(op&(_&_&o&_&_&Hv)&->&Hids&_)|(_&->&Hids&_)]; simpl in *; (split; [|done]).
    - exists (op_jobs op). split_and!; [by apply feeds_enqueue|done|done].
    - exists []. split_and!; [by apply feeds_nil|by apply rings_same|done]. }
  pose proof (query_message_outcome from_str s text origin) as Hq.
  unfold handle_client_text in *. destruct (from_str text) as [m|e] eqn:Hm.
  2:{ split; [|done]. exists []. split_and!; [apply feeds_nil|by apply rings_same|done]. }
  destruct (message_op m None) as [op|] eqn:Hop.
  - apply (Hsub m). destruct m; try done; [apply answer_print|apply answer_print_batch].
  - destruct (answer _ s) as [out s'].
    destruct Hq as (Hids&[n ->]&_); [by intros ? [= <-]|]. clear Hsub.
    assert (∀ n, st_queue (Nat.iter n next_tick s) = st_queue s ∧
      rings [] s (Nat.iter n next_tick s) ∧ still s (Nat.iter n next_tick s)) as Hn.
    { intros k. induction k as [|k IH]; [by split_and!; [|apply rings_same|]|]. exact IH. }
    destruct (Hn n) as (H1&H2&H3). rewrite H1. split; [|done].
    exists []. split_and!; [apply feeds_nil|done|done].
Qed.

(** ** The system *)

(** A connection: its Origin, the ids bound to it, and where in the channel it
    reads next; for the record, the entries it was told, and whether it ever fell
    behind. *)
Record Connection := mkConnection {
  cn_origin : option string;
  cn_accepted : gset string;
  cn_next : nat;
  cn_told : list TaskLogEntry;
  cn_lagged : bool
}.

(** The print worker: about to look at the queue, waiting for a permit, or with a
    job in its hands. *)
Inductive WorkerState := Polling | Asleep | Working (q : QueuedJob).
Definition in_hands (w : WorkerState) : list QueuedJob :=
  match w with Working q => [q] | _ => [] end.

(** The remote worker: about to run a round, about to wait for a change of the
    configuration, waiting for one, asleep until its next poll, or ended. *)
Inductive RemoteState := RReady | RBeforeWait | RWaiting | RAsleep | REnded.
Definition after_round (e : RoundEnd) : RemoteState :=
  match e with RWaitNotify => RBeforeWait | RSleep _ => RAsleep | REnd | RPanicked => REnded end.
(** [notify_waiters] wakes who is waiting, and leaves nothing for later. *)
Definition notify_waiters (saved : bool) (r : RemoteState) : RemoteState :=
  match r with RWaiting => if saved then RReady else RWaiting | _ => r end.

(** The shared state, the open connections, the print worker, and for the record the jobs it finished and the commands executed. *)
Record System := mkSystem {
  sy_state : AgentState;
  sy_connections : gmap nat Connection;
  sy_worker : WorkerState;
  sy_done : list QueuedJob;
  sy_commands : list Command;
  sy_remote : RemoteState
}.

Definition with_state (s : AgentState) (y : System) : System :=
  mkSystem s (sy_connections y) (sy_worker y) (sy_done y) (sy_commands y) (sy_remote y).
(** After a turn of its loop a connection is kept, or dropped. *)
Definition after_turn (i : nat) (go : bool) (c : Connection) (s : AgentState) (y : System)
  : System :=
  mkSystem s (if go then <[i := c]> (sy_connections y) else delete i (sy_connections y))
    (sy_worker y) (sy_done y) (sy_commands y) (sy_remote y).

(** All jobs ever accepted, in order. *)
Definition accepted (y : System) : list QueuedJob :=
  sy_done y ++ in_hands (sy_worker y) ++ pending (st_queue (sy_state y)).

Section system.
Context `{U : UrlOps, HT : !HttpOps, B : Base64Ops, I : IpNetOps, J : !JsonCodec AgentConfig,
          IM : !ImageOps, ZI : !ZipOps, P : !ProxyEnv, R : !RuntimeEnv, TJ : !TaskJson,
          RE : !RemoteEnv, V : !ConverterEnv, D : !DoctorEnv, C : !TransferCrypto,
          JP : !JsonCodec ConfigTransferPayload, JF : !JsonCodec EncryptedConfigFile,
          X : !ExecutorEnv}.
Context (io : SocketIo) (to_str : string → option string) (listen_addr : SocketAddr).

(** One step: a round of one of the tasks. *)
Inductive system_step (y : System) : System → Prop :=
  (** A client is admitted: its connection subscribes to the channel. *)
  | step_upgrade i addr header origin :
      sy_connections y !! i = None →
      ws_route to_str (sy_state y) addr header = Upgraded origin →
      system_step y (after_turn i true
        (mkConnection origin ∅ (length (st_sent (sy_state y))) [] false) (sy_state y) y)
  (** A connection receives a frame of its client, or its end. *)
  | step_frame i c frame can_send frames accepted' s' go :
      sy_connections y !! i = Some c →
      socket_step io (cn_origin c) can_send (cn_accepted c) (sy_state y) (Received frame) =
        (frames, accepted', s', go) →
      system_step y (after_turn i go
        (mkConnection (cn_origin c) accepted' (cn_next c) (cn_told c) (cn_lagged c)) s' y)
  (** A connection reads the next entry of the channel. *)
  | step_status i c entry can_send frames accepted' s' go :
      sy_connections y !! i = Some c →
      st_sent (sy_state y) !! cn_next c = Some entry →
      socket_step io (cn_origin c) can_send (cn_accepted c) (sy_state y) (StatusEvent (Ok entry)) =
        (frames, accepted', s', go) →
      system_step y (after_turn i go
        (mkConnection (cn_origin c) accepted' (S (cn_next c))
           (cn_told c ++ if bool_decide (frames = []) then [] else [entry]) (cn_lagged c)) s' y)
  (** A connection that fell behind the channel loses the entries it did not read. *)
  | step_lagged i c skipped can_send frames accepted' s' go :
      sy_connections y !! i = Some c →
      (0 < skipped)%nat → (cn_next c + skipped ≤ length (st_sent (sy_state y)))%nat →
      socket_step io (cn_origin c) can_send (cn_accepted c) (sy_state y)
        (StatusEvent (Err (Lagged (N.of_nat skipped)))) = (frames, accepted', s', go) →
      system_step y (after_turn i go
        (mkConnection (cn_origin c) accepted' (cn_next c + skipped) (cn_told c) true) s' y)
  (** The print worker takes a job. *)
  | step_take q queue :
      sy_worker y = Polling → pop_next (st_queue (sy_state y)) = (Some q, queue) →
      system_step y (mkSystem (set_queue queue (sy_state y)) (sy_connections y) (Working q)
        (sy_done y) (sy_commands y) (sy_remote y))
  (** It finds nothing and waits for a permit; a permit given meanwhile is kept. *)
  | step_sleep queue :
      sy_worker y = Polling → pop_next (st_queue (sy_state y)) = (None, queue) →
      system_step y (mkSystem (set_queue queue (sy_state y)) (sy_connections y) Asleep
        (sy_done y) (sy_commands y) (sy_remote y))
  (** A permit wakes it, and is used up. *)
  | step_wake :
      sy_worker y = Asleep → st_permit (sy_state y) = true →
      system_step y (mkSystem (set_permit false (sy_state y)) (sy_connections y) Polling
        (sy_done y) (sy_commands y) (sy_remote y))
  (** The print worker processes the job it took. *)
  | step_process q :
      sy_worker y = Working q →
      system_step y (mkSystem (process_job q (sy_state y)).2 (sy_connections y) Polling
        (sy_done y ++ [q]) (sy_commands y) (sy_remote y))
  (** The remote worker polls and reports. *)
  | step_remote e s' :
      sy_remote y = RReady → remote_round false (sy_state y) = (e, s') →
      system_step y (mkSystem s' (sy_connections y) (sy_worker y) (sy_done y) (sy_commands y)
        (after_round e))
  (** It starts to wait, or its pause is over. *)
  | step_remote_waits :
      sy_remote y = RBeforeWait →
      system_step y (mkSystem (sy_state y) (sy_connections y) (sy_worker y) (sy_done y)
        (sy_commands y) RWaiting)
  | step_remote_timer :
      sy_remote y = RAsleep →
      system_step y (mkSystem (sy_state y) (sy_connections y) (sy_worker y) (sy_done y)
        (sy_commands y) RReady)
  (** A command is executed, for the local IPC or for the window; saving the
      configuration wakes the remote worker. *)
  | step_command command r s' :
      runtime_execute listen_addr command (sy_state y) = (r, s') →
      system_step y (mkSystem s' (sy_connections y) (sy_worker y) (sy_done y)
        (sy_commands y ++ [command]) (notify_waiters (saves command && is_ok r) (sy_remote y))).

(** The steps, executable: one turn of a task, if it can take one. *)
Inductive Turn :=
  | Upgrade (i : nat) (addr : option SocketAddr) (header : option string)
  | Frame (i : nat) (frame : option (result string WsMessage))
  | Status (i : nat)
  | Look
  | Wake
  | Process
  | Remote
  | RemoteWaits
  | RemoteTimer
  | Execute (command : Command).
Definition perform (y : System) (t : Turn) : System :=
  let s := sy_state y in
  match t with
  | Upgrade i addr header =>
      match sy_connections y !! i, ws_route to_str s addr header with
      | None, Upgraded origin =>
          after_turn i true (mkConnection origin ∅ (length (st_sent s)) [] false) s y
      | _, _ => y
      end
  | Frame i frame =>
      match sy_connections y !! i with
      | Some c =>
          let '(_, accepted', s', go) :=
            socket_step io (cn_origin c) true (cn_accepted c) s (Received frame) in
          after_turn i go
            (mkConnection (cn_origin c) accepted' (cn_next c) (cn_told c) (cn_lagged c)) s' y
      | None => y
      end
  | Status i =>
      match sy_connections y !! i with
      | Some c =>
          match st_sent s !! cn_next c with
          | Some entry =>
              let '(frames, accepted', s', go) :=
                socket_step io (cn_origin c) true (cn_accepted c) s (StatusEvent (Ok entry)) in
              after_turn i go
                (mkConnection (cn_origin c) accepted' (S (cn_next c))
                   (cn_told c ++ if bool_decide (frames = []) then [] else [entry])
                   (cn_lagged c)) s' y
          | None => y
          end
      | None => y
      end
  | Look =>
      match sy_worker y, pop_next (st_queue s) with
      | Polling, (Some q, queue) =>
          mkSystem (set_queue queue s) (sy_connections y) (Working q) (sy_done y) (sy_commands y)
            (sy_remote y)
      | Polling, (None, queue) =>
          mkSystem (set_queue queue s) (sy_connections y) Asleep (sy_done y) (sy_commands y)
            (sy_remote y)
      | _, _ => y
      end
  | Wake =>
      match sy_worker y, st_permit s with
      | Asleep, true =>
          mkSystem (set_permit false s) (sy_connections y) Polling (sy_done y) (sy_commands y)
            (sy_remote y)
      | _, _ => y
      end
  | Process =>
      match sy_worker y with
      | Working q =>
          mkSystem (process_job q s).2 (sy_connections y) Polling (sy_done y ++ [q]) (sy_commands y)
            (sy_remote y)
      | _ => y
      end
  | Remote =>
      match sy_remote y with
      | RReady =>
          let '(e, s') := remote_round false s in
          mkSystem s' (sy_connections y) (sy_worker y) (sy_done y) (sy_commands y) (after_round e)
      | _ => y
      end
  | RemoteWaits =>
      match sy_remote y with
      | RBeforeWait =>
          mkSystem s (sy_connections y) (sy_worker y) (sy_done y) (sy_commands y) RWaiting
      | _ => y
      end
  | RemoteTimer =>
      match sy_remote y with
      | RAsleep => mkSystem s (sy_connections y) (sy_worker y) (sy_done y) (sy_commands y) RReady
      | _ => y
      end
  | Execute command =>
      let '(r, s') := runtime_execute listen_addr command s in
      mkSystem s' (sy_connections y) (sy_worker y) (sy_done y) (sy_commands y ++ [command])
        (notify_waiters (saves command && is_ok r) (sy_remote y))
  end.
Definition performs (y : System) (ts : list Turn) : System := foldl perform y ts.

Lemma perform_steps t y : rtc system_step y (perform y t).
Proof.
  destruct t as [i addr header|i frame|i| | | | | | |command]; cbn [perform].
  - destruct (sy_connections y !! i) eqn:Hi; [done|].
    destruct (ws_route to_str _ addr header) eqn:Hu; try done.
    apply rtc_once. by eapply step_upgrade.
  - destruct (sy_connections y !! i) as [c|] eqn:Hi; [|done].
    destruct (socket_step _ _ _ _ _ _) as [[[fs acc'] s'] go] eqn:Hs.
    apply rtc_once. by eapply step_frame.
  - destruct (sy_connections y !! i) as [c|] eqn:Hi; [|done].
    destruct (_ !! cn_next c) as [e|] eqn:He; [|done].
    destruct (socket_step _ _ _ _ _ _) as [[[fs acc'] s'] go] eqn:Hs.
    apply rtc_once. by eapply step_status.
  - destruct (sy_worker y) eqn:Hw; [|done..]. destruct (pop_next _) as [[q|] queue] eqn:Hp;
      apply rtc_once; [by eapply step_take|by eapply step_sleep].
  - destruct (sy_worker y) eqn:Hw; [done| |done]. destruct (st_permit _) eqn:Hp; [|done].
    apply rtc_once. by eapply step_wake.
  - destruct (sy_worker y) eqn:Hw; [done..|]. apply rtc_once. by eapply step_process.
  - destruct (sy_remote y) eqn:Hr; try done. destruct (remote_round false _) as [e s'] eqn:He.
    apply rtc_once. by apply step_remote.
  - destruct (sy_remote y) eqn:Hr; try done. by apply rtc_once, step_remote_waits.
  - destruct (sy_remote y) eqn:Hr; try done. by apply rtc_once, step_remote_timer.
  - destruct (runtime_execute listen_addr command _) as [r s'] eqn:Hr. by apply rtc_once, step_command.
Qed.
Lemma performs_steps ts y : rtc system_step y (performs y ts).
Proof.
  revert y. induction ts as [|t ts IH]; intros y; [done|].
  etrans; [apply perform_steps|apply IH].
Qed.

(** The agent as it starts: nothing queued, sent or printed, nobody connected. *)
Definition starting (y : System) : Prop :=
  st_queue (sy_state y) = QueueState_default ∧ st_sent (sy_state y) = [] ∧
  st_calls (sy_state y) = [] ∧
  sy_connections y = ∅ ∧ sy_worker y = Polling ∧ sy_done y = [] ∧ sy_commands y = [] ∧
  sy_remote y = RReady ∧
  config_ok (st_config (sy_state y)).

(** The steps of the print worker are the rounds of its loop. *)
Lemma worker_round_steps y q s' :
  sy_worker y = Polling → worker_round false (sy_state y) = (Processed q, s') →
  rtc system_step y (mkSystem s' (sy_connections y) Polling (sy_done y ++ [q]) (sy_commands y) (sy_remote y)).
Proof.
  intros Hw. unfold worker_round. destruct (pop_next (st_queue (sy_state y))) as [[q'|] queue] eqn:Hp;
    [|done]. intros [= <- <-].
  eapply rtc_l; [by eapply step_take|]. apply rtc_once.
  by apply (step_process (mkSystem (set_queue queue (sy_state y)) (sy_connections y) (Working q')
    (sy_done y) (sy_commands y) (sy_remote y))).
Qed.
Lemma worker_round_sleeps y s' :
  sy_worker y = Polling → worker_round false (sy_state y) = (Waiting, s') →
  system_step y (mkSystem s' (sy_connections y) Asleep (sy_done y) (sy_commands y) (sy_remote y)).
Proof.
  intros Hw. unfold worker_round. destruct (pop_next (st_queue (sy_state y))) as [[q'|] queue] eqn:Hp;
    [done|]. intros [= <-]. by eapply step_sleep.
Qed.
End system.

(** ** The invariant *)

Section agent_invariant.
Context `{U : UrlOps, I : IpNetOps, B : Base64Ops}.

(** What the channel is told of a job, from the moment it is taken to its end. *)
Definition story (q : QueuedJob) (es : list TaskLogEntry) : Prop :=
  Forall (entry_of q) es ∧
  ∃ mid, Forall before_submit mid ∧
    (map tl_status es = Queued :: mid ++ [Failed] ∨
     ∃ tail, map tl_status es = Queued :: mid ++ Submitted :: tail ∧
       (tail = [] ∨ ∃ x, tail = [x] ∧ tracked x)).

Definition about (i : string) (e : TaskLogEntry) : Prop := tl_job_id e = Some i.
#[export] Instance about_dec i e : Decision (about i e).
Proof. unfold about. apply _. Defined.

(** What reached the print queue: of each finished job at most one submission, within
    a valid configuration, and of each command at most one when it prints. *)
Inductive printed : list QueuedJob → list Command → list BackendCall → Prop :=
  | printed_nothing : printed [] [] []
  | printed_job finished commands calls q config cs :
      printed finished commands calls → config_ok config →
      (length cs ≤ 1)%nat → Forall (submission_within config q) cs →
      printed (finished ++ [q]) commands (calls ++ cs)
  | printed_command finished commands calls command cs :
      printed finished commands calls →
      (length cs ≤ if prints command then 1 else 0)%nat →
      printed finished (commands ++ [command]) (calls ++ cs).

Lemma printed_bounded finished commands calls :
  printed finished commands calls →
  (length calls ≤ length finished + length (filter (λ command, prints command) commands))%nat.
Proof.
  induction 1 as [|finished commands calls q config cs _ IH _ Hl _|finished commands calls command cs _ IH Hl];
    [done|rewrite !length_app; simpl; lia|].
  rewrite filter_app, !length_app. destruct (prints command) eqn:Hp.
  - rewrite (filter_cons_True _ command) by by rewrite Hp. simpl. lia.
  - lia.
Qed.

(** The shared state, given the jobs accepted, those finished and the commands. *)
Record shared_inv (s : AgentState) (jobs finished : list QueuedJob) (commands : list Command)
  : Prop := {
  sh_nodup : NoDup (ids_of jobs);
  sh_seen : seen_job_ids (st_queue s) = list_to_set (ids_of jobs);
  sh_finished : finished `prefix_of` jobs;
  sh_story : ∃ chunks, st_sent s = mjoin chunks ∧ Forall2 story finished chunks;
  sh_printed : printed finished commands (st_calls s);
  sh_config : config_ok (st_config s)
}.

(** One connection: its ids are accepted ones, it was told about them only, and
    unless it fell behind it was told all that was sent about them so far. *)
Record connection_inv (s : AgentState) (c : Connection) : Prop := {
  ci_accepted : cn_accepted c ⊆ seen_job_ids (st_queue s);
  ci_next : (cn_next c ≤ length (st_sent s))%nat;
  ci_told : Forall (λ e, ∃ i, about i e ∧ i ∈ cn_accepted c) (cn_told c);
  ci_order : cn_told c `sublist_of` take (cn_next c) (st_sent s);
  ci_complete : cn_lagged c = false → ∀ i, i ∈ cn_accepted c →
    filter (about i) (cn_told c) = filter (about i) (take (cn_next c) (st_sent s))
}.
Definition connections_inv (s : AgentState) (cs : gmap nat Connection) : Prop :=
  (∀ i c, cs !! i = Some c → connection_inv s c) ∧
  (∀ i j c d, i ≠ j → cs !! i = Some c → cs !! j = Some d → cn_accepted c ## cn_accepted d).
(** The print worker never sleeps while jobs wait, unless a permit will wake it. *)
Definition awake (y : System) : Prop :=
  sy_worker y = Asleep → pending (st_queue (sy_state y)) ≠ [] → st_permit (sy_state y) = true.
Definition system_inv (y : System) : Prop :=
  shared_inv (sy_state y) (accepted y) (sy_done y) (sy_commands y) ∧
  connections_inv (sy_state y) (sy_connections y) ∧ awake y.

Lemma shared_feeds s s' js jobs finished commands :
  shared_inv s jobs finished commands → feeds js (st_queue s) (st_queue s') → still s s' →
  shared_inv s' (jobs ++ js) finished commands.
Proof.
  intros [H1 H2 H3 H4 Hp H5] (F1&F2&F3&F4) (Hs&Hc&Hcalls). split; [| | | | |by rewrite Hc].
  - rewrite map_app. apply NoDup_app. split_and!; [done| |done].
    intros i Hi Hj. apply F4 in Hj. rewrite H2 in Hj. set_solver.
  - rewrite F2, H2, map_app, list_to_set_app_L. set_solver.
  - etrans; [done|]. by eexists.
  - by rewrite Hs.
  - by rewrite Hcalls.
Qed.
(** A command that queues and sends nothing. *)
Lemma shared_command s s' jobs finished commands command :
  shared_inv s jobs finished commands → st_queue s' = st_queue s → st_sent s' = st_sent s →
  config_ok (st_config s') →
  (st_calls s' = st_calls s ∨ prints command = true ∧ ∃ c, st_calls s' = st_calls s ++ [c]) →
  shared_inv s' jobs finished (commands ++ [command]).
Proof.
  intros [H1 H2 H3 H4 Hp H5] Hq Hs Hc Hcalls. split; [done|by rewrite Hq|done|by rewrite Hs| |done].
  destruct Hcalls as [->|[Hpr [c ->]]].
  - rewrite <-(app_nil_r (st_calls s)). apply printed_command; [done|simpl; lia].
  - apply printed_command; [done|]. by rewrite Hpr.
Qed.

(** An entry of the stories belongs to the story of one of the jobs. *)
Lemma stories_entry qs chunks e :
  Forall2 story qs chunks → e ∈ mjoin chunks → ∃ q, q ∈ qs ∧ entry_of q e ∧ about (qj_id q) e.
Proof.
  intros Hf (es&He&Hes)%list_elem_of_join. apply list_elem_of_lookup in Hes as [k Hk].
  destruct (Forall2_lookup_r _ _ _ _ _ Hf Hk) as (q&Hq&[Hall _]).
  rewrite Forall_forall in Hall. pose proof (Hall e He) as Hent. exists q.
  split_and!; [by eapply list_elem_of_lookup_2|done|by destruct Hent].
Qed.

(** Everything sent is about a job that was finished. *)
Lemma sent_about s jobs finished commands e :
  shared_inv s jobs finished commands → e ∈ st_sent s →
  ∃ i, about i e ∧ i ∈ seen_job_ids (st_queue s).
Proof.
  intros [_ Hseen Hpre (chunks&Hc&Hf) _ _] He. rewrite Hc in He.
  destruct (stories_entry _ _ _ Hf He) as (q&Hq&_&Ha). exists (qj_id q).
  split; [done|]. rewrite Hseen. apply elem_of_list_to_set, list_elem_of_fmap.
  exists q. split; [done|]. destruct Hpre as [k' ->]. apply elem_of_app. by left.
Qed.

Lemma sublist_take_add {A} (l : list A) n k : take n l `sublist_of` take (n + k) l.
Proof.
  replace (take n l) with (take n (take (n + k) l)); [apply sublist_take|].
  rewrite take_take. f_equal. lia.
Qed.
Lemma connection_mono s s' c :
  connection_inv s c → seen_job_ids (st_queue s) ⊆ seen_job_ids (st_queue s') →
  st_sent s `prefix_of` st_sent s' → connection_inv s' c.
Proof.
  intros [H1 H2 H3 Ho H4] Hq [es Hs]. split; [set_solver| |done| |].
  - rewrite Hs, length_app. lia.
  - by rewrite Hs, take_app_le by done.
  - intros Hl i Hi. rewrite H4 by done. by rewrite Hs, take_app_le by done.
Qed.
Lemma connections_mono s s' cs :
  connections_inv s cs → seen_job_ids (st_queue s) ⊆ seen_job_ids (st_queue s') →
  st_sent s `prefix_of` st_sent s' → connections_inv s' cs.
Proof. intros [H1 H2] Hq Hs. split; [|done]. intros i c Hc. eapply connection_mono; eauto. Qed.
Lemma connections_update s cs i go c :
  connections_inv s cs → (go = true → connection_inv s c) →
  (∀ j d, j ≠ i → cs !! j = Some d → cn_accepted c ## cn_accepted d) →
  connections_inv s (if go : bool then <[i := c]> cs else delete i cs).
Proof.
  intros [H1 H2] Hc Hd. destruct go; split.
  - intros j d. destruct (decide (j = i)) as [->|Hne].
    + rewrite lookup_insert_eq. intros [= <-]. by apply Hc.
    + rewrite lookup_insert_ne by done. apply H1.
  - intros j k d e Hne. destruct (decide (j = i)) as [->|Hj], (decide (k = i)) as [->|Hk]; [done| | |].
    + rewrite lookup_insert_eq, lookup_insert_ne by done. intros [= <-] He. by eapply Hd.
    + rewrite lookup_insert_eq, lookup_insert_ne by done. intros Hd' [= <-].
      symmetry. by eapply Hd.
    + rewrite !lookup_insert_ne by done. by apply H2.
  - intros j d [_ Hj]%lookup_delete_Some. by eapply H1.
  - intros j k d e Hne [_ Hj]%lookup_delete_Some [_ Hk]%lookup_delete_Some. by eapply H2.
Qed.
End agent_invariant.

Section invariant.
Context `{U : UrlOps, HT : !HttpOps, B : Base64Ops, I : IpNetOps, J : !JsonCodec AgentConfig,
          IM : !ImageOps, ZI : !ZipOps, P : !ProxyEnv, R : !RuntimeEnv, TJ : !TaskJson,
          RE : !RemoteEnv, V : !ConverterEnv, D : !DoctorEnv, C : !TransferCrypto,
          JP : !JsonCodec ConfigTransferPayload, JF : !JsonCodec EncryptedConfigFile,
          X : !ExecutorEnv}.
Context (io : SocketIo) (to_str : string → option string) (listen_addr : SocketAddr).
Abbreviation step := (system_step io to_str listen_addr).

(** Processing a job adds its story and its submission. *)
Lemma process_job_shared q s jobs finished commands :
  shared_inv s jobs finished commands → (finished ++ [q]) `prefix_of` jobs →
  shared_inv (process_job q s).2 jobs (finished ++ [q]) commands ∧
  st_queue (process_job q s).2 = st_queue s ∧
  st_sent s `prefix_of` st_sent (process_job q s).2.
Proof.
  intros [H1 H2 H3 (chunks&H4&H5) Hpr H6] Hp.
  destruct (spec_process_job (st_config s) q s eq_refl) as (t&Ht&_&Hk).
  destruct Ht as [(es&Hs&_&Hst&Hall&_) _ Hcalls Hq Hcfg].
  split; [|split; [done|rewrite Hs; by eexists]].
  split; [done|by rewrite Hq|done| | |by rewrite Hcfg].
  - exists (chunks ++ [es]). split.
    { rewrite Hs, H4, join_app. simpl. by rewrite app_nil_r. }
    apply Forall2_app; [done|]. constructor; [|constructor]. split; [done|]. rewrite Hst.
    destruct Hk as [(mid&tail&c&sub&Hm&Hb&_&_&_&_&Htail)|(mid&Hm&Hb&_)]; exists mid;
      (split; [done|]).
    + right. exists tail. split; [done|]. destruct (su_tracking_supported sub); [by right|by left].
    + by left.
  - rewrite Hcalls. apply (printed_job _ _ _ _ (st_config s)); [done|done|..];
      destruct Hk as [(mid&tail&c&sub&_&_&->&Hc&_)|(mid&_&_&_&[->|(c&e&->&Hc&_)])]; simpl;
      try lia; repeat constructor; by apply call_ok_within.
Qed.

(** A command neither queues nor sends anything, and keeps the configuration valid. *)
Lemma command_effect command s :
  let s' := (runtime_execute listen_addr command s).2 in
  st_queue s' = st_queue s ∧ st_sent s' = st_sent s ∧ st_permit s' = st_permit s ∧
  (config_ok (st_config s) → config_ok (st_config s')) ∧
  (st_calls s' = st_calls s ∨ prints command = true ∧ ∃ c, st_calls s' = st_calls s ++ [c]).
Proof.
  pose proof (executor_changes listen_addr command s) as H.
  destruct (runtime_execute listen_addr command s) as [r s'].
  destruct H as ((_&Hs&Hq&Hp&_)&Hc&_&Hcalls&_). done.
Qed.

(** A frame of the client queues exactly the jobs it binds to the connection. *)
Lemma socket_frame_feeds origin can_send acc s frame frames acc' s' go :
  socket_step io origin can_send acc s (Received frame) = (frames, acc', s', go) →
  (∃ js, feeds js (st_queue s) (st_queue s') ∧ rings js s s' ∧ acc' = list_to_set (ids_of js) ∪ acc) ∧ still s s'.
Proof.
  assert (acc' = acc → s' = s →
    (∃ js, feeds js (st_queue s) (st_queue s') ∧ rings js s s' ∧ acc' = list_to_set (ids_of js) ∪ acc) ∧
    still s s') as Hsame.
  { intros -> ->. split; [|done]. exists [].
    split_and!; [apply feeds_nil|by apply rings_same|set_solver]. }
  destruct frame as [[[text|payload| |]|e]|]; simpl.
  - pose proof (client_text_feeds (io_parse io) s text origin) as Hc.
    destruct (handle_client_text _ s text origin) as [out s1].
    destruct (send_message io can_send _) as [fs g]. intros [= _ <- <- _].
    destruct Hc as ((js&Hf&Hr&->)&Hs). split; [|done]. by exists js.
  - destruct can_send; intros [= _ <- <- _]; by apply Hsame.
  - intros [= _ <- <- _]. by apply Hsame.
  - intros [= _ <- <- _]. by apply Hsame.
  - intros [= _ <- <- _]. by apply Hsame.
  - intros [= _ <- <- _]. by apply Hsame.
Qed.

(** A status event changes nothing but what is sent: it is forwarded exactly when
    its job is bound to the connection, unless the connection ends. *)
Lemma socket_status_sends origin can_send acc s e frames acc' s' go :
  socket_step io origin can_send acc s (StatusEvent (Ok e)) = (frames, acc', s', go) →
  acc' = acc ∧ s' = s ∧
  (frames ≠ [] → ∃ i, about i e ∧ i ∈ acc) ∧
  (go = true → frames = [] → ∀ i, about i e → i ∉ acc).
Proof.
  intros H. pose proof (socket_step_status _ _ _ _ _ _ _ _ _ _ H) as [H1 H2].
  assert (acc' = acc ∧ s' = s) as [-> ->].
  { revert H. simpl. destruct (status_message_for_connection e acc); [|by intros [= _ <- <- _]].
    destruct (send_message io can_send s0). by intros [= _ <- <- _]. }
  split_and!; [done..| |].
  - intros Hne. destruct frames as [|f fs]; [done|].
    destruct (H1 f) as (i&json&Hi&Hacc&_); [by left|]. by exists i.
  - intros Hgo -> i Hi Hacc. by destruct (H2 Hgo i Hi Hacc).
Qed.

(** What a step does to the jobs of the agent: more may be accepted and finished. *)
Definition moves_on (y y' : System) : Prop :=
  accepted y `prefix_of` accepted y' ∧ sy_done y `prefix_of` sy_done y' ∧
  st_sent (sy_state y) `prefix_of` st_sent (sy_state y').
#[export] Instance moves_on_preorder : PreOrder moves_on.
Proof. split; [by intros y|]. intros y1 y2 y3 (?&?&?) (?&?&?). split_and!; by etrans. Qed.

(** A step that queues jobs and sends nothing, and changes no connection. *)
Lemma feeding_step y s' js :
  system_inv y → feeds js (st_queue (sy_state y)) (st_queue s') → rings js (sy_state y) s' →
  still (sy_state y) s' →
  shared_inv s' (accepted y ++ js) (sy_done y) (sy_commands y) ∧
  connections_inv s' (sy_connections y) ∧ accepted (with_state s' y) = accepted y ++ js ∧
  awake (with_state s' y).
Proof.
  intros (Hs&Hc&Ha) Hf Hr He. split_and!.
  - exact (shared_feeds _ _ _ _ _ _ Hs Hf He).
  - eapply connections_mono; [done| |by rewrite (proj1 He)]. destruct Hf as (_&->&_). set_solver.
  - unfold accepted, with_state. simpl. destruct Hf as (->&_). by rewrite <-!app_assoc.
  - intros Hw. cbn [with_state sy_state sy_worker] in *. destruct Hf as (->&_). intros Hne.
    apply Hr. destruct js; [|by right]. left. rewrite app_nil_r in Hne. by apply Ha.
Qed.

(** The ids a client's frame binds to its connection are new everywhere. *)
Lemma connection_binds s s' c js jobs finished commands :
  shared_inv s jobs finished commands → connection_inv s c → connection_inv s' c →
  feeds js (st_queue s) (st_queue s') → st_sent s' = st_sent s →
  connection_inv s' (mkConnection (cn_origin c) (list_to_set (ids_of js) ∪ cn_accepted c)
    (cn_next c) (cn_told c) (cn_lagged c)).
Proof.
  intros Hsh Hold [H1 H2 H3 Ho H4] (_&Hseen&_&Hnew) Hs. split; simpl; [set_solver|done| |done|].
  - eapply Forall_impl; [exact H3|]. intros e (i&?&?). exists i. set_solver.
  - intros Hl i [Hi|Hi]%elem_of_union; [|by apply H4].
    apply elem_of_list_to_set, Hnew in Hi. rewrite !filter_none; [done| |].
    + intros e He He'. rewrite Hs in He. apply elem_of_take in He as (k&He&_).
      apply list_elem_of_lookup_2 in He. eapply sent_about in He as (j&Hj&Hin); [|done].
      unfold about in *. congruence.
    + intros e He He'. rewrite Forall_forall in H3. destruct (H3 e He) as (j&Hj&Hin).
      assert (i = j) as -> by (unfold about in *; congruence). by apply Hold in Hin.
Qed.

(** A status event at a connection that did not fall behind. *)
Lemma connection_told s c e (frames : list WsFrame) :
  connection_inv s c → st_sent s !! cn_next c = Some e →
  (frames ≠ [] → ∃ i, about i e ∧ i ∈ cn_accepted c) →
  (frames = [] → ∀ i, about i e → i ∉ cn_accepted c) →
  connection_inv s (mkConnection (cn_origin c) (cn_accepted c) (S (cn_next c))
    (cn_told c ++ if bool_decide (frames = []) then [] else [e]) (cn_lagged c)).
Proof.
  intros [H1 H2 H3 Ho H4] He Hf Hn. split; simpl; [done|by apply lookup_lt_Some in He| | |].
  - apply Forall_app. split; [done|]. case_bool_decide as Hd; [constructor|].
    apply Forall_singleton. by apply Hf.
  - rewrite (take_S_r _ _ _ He). apply sublist_app; [done|].
    case_bool_decide; [apply sublist_nil_l|done].
  - intros Hl i Hi. rewrite (take_S_r _ _ _ He), !filter_app, H4 by done. f_equal.
    destruct (decide (about i e)) as [Ha|Ha].
    + rewrite bool_decide_eq_false_2; [done|]. intros Hnil. by apply (Hn Hnil i Ha).
    + rewrite (filter_cons_False _ e) by done. case_bool_decide; [done|].
      by rewrite filter_cons_False.
Qed.

Lemma other_disjoint cs s i c : connections_inv s cs → cs !! i = Some c →
  ∀ j d, j ≠ i → cs !! j = Some d → cn_accepted c ## cn_accepted d.
Proof. intros [_ H] Hc j d Hne Hd. by eapply (H i j). Qed.

(** A step leads from a state with the invariant to another, and the agent moved on. *)
Definition advances (y z : System) : Prop := system_inv z ∧ moves_on y z.

(** Steps that accept and finish nothing: what was sent, printed and configured stays. *)
Lemma advance_same y z :
  system_inv y → accepted z = accepted y → sy_done z = sy_done y → sy_commands z = sy_commands y →
  seen_job_ids (st_queue (sy_state z)) = seen_job_ids (st_queue (sy_state y)) →
  still (sy_state y) (sy_state z) →
  connections_inv (sy_state z) (sy_connections z) → awake z → advances y z.
Proof.
  intros (Hs&_&_) Ha Hd Hcm Hseen (Hse&Hcf&Hca) Hc Haw.
  split; [split_and!; [|done|done]|unfold moves_on; by rewrite Ha, Hd, Hse].
  rewrite Ha, Hd, Hcm. destruct Hs as [S1 S2 S3 S4 S5 S6].
  split; [done|by rewrite Hseen|done|by rewrite Hse|by rewrite Hca|by rewrite Hcf].
Qed.
(** Those that leave the connections alone, too. *)
Lemma advance_quietly y z :
  system_inv y → accepted z = accepted y → sy_done z = sy_done y → sy_commands z = sy_commands y →
  seen_job_ids (st_queue (sy_state z)) = seen_job_ids (st_queue (sy_state y)) →
  still (sy_state y) (sy_state z) → sy_connections z = sy_connections y → awake z → advances y z.
Proof.
  intros H Ha Hd Hcm Hseen Hst Hcn Haw. apply advance_same; try done. rewrite Hcn.
  eapply connections_mono; [by apply H|by rewrite Hseen|by rewrite (proj1 Hst)].
Qed.
(** Steps that accept jobs and send nothing. *)
Lemma advance_feeding y z js :
  system_inv y → feeds js (st_queue (sy_state y)) (st_queue (sy_state z)) →
  rings js (sy_state y) (sy_state z) → still (sy_state y) (sy_state z) →
  sy_worker z = sy_worker y → sy_done z = sy_done y → sy_commands z = sy_commands y →
  (connections_inv (sy_state z) (sy_connections y) →
   connections_inv (sy_state z) (sy_connections z)) → advances y z.
Proof.
  intros Hinv Hf Hr Hst Hw Hd Hcm Hc.
  destruct (feeding_step y (sy_state z) js Hinv Hf Hr Hst) as (H1&H2&H3&H4).
  assert (accepted z = accepted y ++ js) as Ha.
  { rewrite <-H3. unfold accepted, with_state. simpl. by rewrite Hw, Hd. }
  split; [split_and!; [by rewrite Ha, Hd, Hcm|by apply Hc|]|].
  - unfold awake in *. cbn in H4. by rewrite Hw.
  - unfold moves_on. rewrite Ha, Hd, (proj1 Hst). split_and!; [by eexists|done|done].
Qed.

Lemma upgrade_advances y i origin :
  system_inv y →
  advances y (after_turn i true
    (mkConnection origin ∅ (length (st_sent (sy_state y))) [] false) (sy_state y) y).
Proof.
  intros Hinv. pose proof Hinv as (_&Hc&Haw). apply advance_same; try done. simpl.
  apply (connections_update _ _ i true); [done| |intros; simpl; set_solver].
  intros _. split; simpl; [set_solver|lia|constructor|apply sublist_nil_l|].
  intros _ j Hj. set_solver.
Qed.
Lemma frame_advances y i c frame can_send frames acc' s' go :
  system_inv y → sy_connections y !! i = Some c →
  socket_step io (cn_origin c) can_send (cn_accepted c) (sy_state y) (Received frame) =
    (frames, acc', s', go) →
  advances y (after_turn i go
    (mkConnection (cn_origin c) acc' (cn_next c) (cn_told c) (cn_lagged c)) s' y).
Proof.
  intros Hinv Hi Hss. pose proof Hinv as (Hs&Hc&_).
  pose proof (socket_frame_feeds _ _ _ _ _ _ _ _ _ Hss) as ((js&Hf&Hr&->)&Hst).
  apply (advance_feeding _ _ js); try done. cbn [after_turn sy_state sy_connections].
  intros H2. apply connections_update; [done| |].
  - intros _.
    exact (connection_binds _ _ _ _ _ _ _ Hs (proj1 Hc i c Hi) (proj1 H2 i c Hi) Hf (proj1 Hst)).
  - intros j d Hne Hd. simpl. destruct Hf as (_&_&_&Hnew). apply disjoint_union_l.
    split; [|by eapply (other_disjoint _ _ i c)].
    assert (connection_inv (sy_state y) d) as Hdi by (by eapply Hc).
    intros x Hx%elem_of_list_to_set%Hnew Hxd. by apply Hdi in Hxd.
Qed.
Lemma status_advances y i c e can_send frames acc' s' go :
  system_inv y → sy_connections y !! i = Some c → st_sent (sy_state y) !! cn_next c = Some e →
  socket_step io (cn_origin c) can_send (cn_accepted c) (sy_state y) (StatusEvent (Ok e)) =
    (frames, acc', s', go) →
  advances y (after_turn i go
    (mkConnection (cn_origin c) acc' (S (cn_next c))
       (cn_told c ++ if bool_decide (frames = []) then [] else [e]) (cn_lagged c)) s' y).
Proof.
  intros Hinv Hi He Hss. pose proof Hinv as (_&Hc&Haw).
  pose proof (socket_status_sends _ _ _ _ _ _ _ _ _ Hss) as (->&->&Hfw&Hnf).
  apply advance_same; try done. simpl.
  apply connections_update; [done| |intros j d Hne Hd; simpl; by eapply (other_disjoint _ _ i c)].
  intros Hgo. apply connection_told; [by apply (proj1 Hc i)|done|done|by apply Hnf].
Qed.
Lemma lagged_advances y i c k go :
  system_inv y → sy_connections y !! i = Some c →
  (cn_next c + k ≤ length (st_sent (sy_state y)))%nat →
  advances y (after_turn i go
    (mkConnection (cn_origin c) (cn_accepted c) (cn_next c + k) (cn_told c) true) (sy_state y) y).
Proof.
  intros Hinv Hi Hn. pose proof Hinv as (_&Hc&Haw). apply advance_same; try done. simpl.
  apply connections_update; [done| |intros j d Hne Hd; simpl; by eapply (other_disjoint _ _ i c)].
  intros _. destruct (proj1 Hc i c Hi) as [C1 C2 C3 C4 C5]. split; simpl; [done..| |done].
  etrans; [exact C4|]. apply sublist_take_add.
Qed.

Lemma process_advances y q :
  system_inv y → sy_worker y = Working q →
  advances y (mkSystem (process_job q (sy_state y)).2 (sy_connections y) Polling
    (sy_done y ++ [q]) (sy_commands y) (sy_remote y)).
Proof.
  intros (Hs&Hc&_) Hw.
  assert (accepted y = (sy_done y ++ [q]) ++ pending (st_queue (sy_state y))) as Ha.
  { unfold accepted. rewrite Hw. simpl. by rewrite <-app_assoc. }
  destruct (process_job_shared q (sy_state y) (accepted y) (sy_done y) (sy_commands y))
    as (H1&H2&H3); [done|rewrite Ha; by eexists|].
  match goal with |- advances y ?z => assert (accepted z = accepted y) as Ha' end.
  { unfold accepted at 1. simpl. by rewrite H2, Ha. }
  split; [split_and!; [by rewrite Ha'| |done]|split_and!; [by rewrite Ha'|by eexists|done]].
  eapply connections_mono; [done|by simpl; rewrite H2|done].
Qed.
Lemma command_advances y command r s' remote :
  system_inv y → runtime_execute listen_addr command (sy_state y) = (r, s') →
  advances y (mkSystem s' (sy_connections y) (sy_worker y) (sy_done y)
    (sy_commands y ++ [command]) remote).
Proof.
  intros (Hs&Hc&Haw) He. pose proof (command_effect command (sy_state y)) as Hce.
  rewrite He in Hce. destruct Hce as (Hq&Hse&Hpm&Hok&Hcalls). cbn [snd] in *.
  match goal with |- advances y ?z => assert (accepted z = accepted y) as Ha end.
  { unfold accepted. simpl. by rewrite Hq. }
  split; [split_and!; [| |intros Hw; cbn in *; by rewrite Hq, Hpm; apply Haw]
         |split_and!; [by rewrite Ha|done|by simpl; rewrite Hse]].
  - rewrite Ha. apply (shared_command (sy_state y)); [done|done|done|by eapply Hok, sh_config|done].
  - eapply connections_mono; [done|by simpl; rewrite Hq|by simpl; rewrite Hse].
Qed.

Lemma system_step_inv y y' : step y y' → system_inv y → advances y y'.
Proof.
  intros Hstep Hinv. pose proof Hinv as (Hs&Hc&Haw).
  destruct Hstep as [i addr header origin Hi Hup|i c frame can_send frames acc' s' go Hi Hss
    |i c e can_send frames acc' s' go Hi He Hss|i c k can_send frames acc' s' go Hi Hk Hn Hss
    |q queue Hw Hp|queue Hw Hp|Hw Hp|q Hw|e s' Hrm He|Hrm|Hrm|command r s' He].
  - by apply upgrade_advances.
  - by eapply frame_advances.
  - by eapply status_advances.
  - simpl in Hss. injection Hss as <- <- <- <-. by apply lagged_advances.
  - unfold pop_next in Hp. destruct (pending (st_queue (sy_state y))) as [|q' rest] eqn:Hq; [done|].
    injection Hp as -> <-. apply advance_quietly; try done. unfold accepted. simpl. by rewrite Hw, Hq.
  - unfold pop_next in Hp. destruct (pending (st_queue (sy_state y))) as [|q' rest] eqn:Hq; [|done].
    injection Hp as <-. apply advance_quietly; try done; [unfold accepted; simpl; by rewrite Hw, Hq|].
    intros _. cbn. by rewrite Hq.
  - apply advance_quietly; try done. unfold accepted. simpl. by rewrite Hw.
  - by apply process_advances.
  - pose proof (remote_round_queued false (sy_state y)) as Hrq. rewrite He in Hrq. cbn [snd] in Hrq.
    destruct Hrq as ((js&Hf&Hr)&Hst). by apply (advance_feeding _ _ js).
  - by apply advance_quietly.
  - by apply advance_quietly.
  - by eapply command_advances.
Qed.

Lemma starting_inv y : starting y → system_inv y.
Proof.
  intros (Hq&Hs&Hp&Hc&Hw&Hd&Hcm&_&Hcfg). unfold system_inv, accepted. rewrite Hq, Hc, Hw, Hd, Hcm. split_and!.
  - split; simpl; [constructor|by rewrite Hq|done| |rewrite Hp; constructor|done].
    exists []. split; [by rewrite Hs|constructor].
  - split; [intros i c|intros i j c d _]; by rewrite lookup_empty.
  - intros Hw'. by rewrite Hw in Hw'.
Qed.
Lemma run_inv y y' : rtc step y y' → system_inv y → system_inv y' ∧ moves_on y y'.
Proof.
  induction 1 as [|y1 y2 y3 Hstep _ IH]; [done|]. intros H.
  apply system_step_inv in Hstep as [H2 Hm]; [|done]. destruct (IH H2) as [H3 Hm'].
  split; [done|by etrans].
Qed.
Lemma reached_inv y0 y : starting y0 → rtc step y0 y → system_inv y.
Proof. intros H0 Hr. by apply (run_inv _ _ Hr), starting_inv. Qed.

(** Of the stories of distinct jobs, the part about one of them is its story. *)
Lemma stories_of qs chunks q :
  Forall2 story qs chunks → NoDup (ids_of qs) → q ∈ qs →
  story q (filter (about (qj_id q)) (mjoin chunks)).
Proof.
  assert (∀ i qs chunks, Forall2 story qs chunks → i ∉ ids_of qs →
    filter (about i) (mjoin chunks) = []) as Hnone.
  { intros i qs' chunks' Hf Hi. apply filter_none. intros e He Ha.
    destruct (stories_entry _ _ _ Hf He) as (q'&Hq'&_&Ha'). apply Hi.
    apply list_elem_of_fmap. exists q'. split; [unfold about in *; congruence|done]. }
  intros Hf. induction Hf as [|q' es qs' chunks' Hst Hf IH]; [by intros _ ?%not_elem_of_nil|].
  simpl. intros [Hnew Hnd]%NoDup_cons Hq. rewrite filter_app.
  assert (filter (about (qj_id q')) es = es) as Hself.
  { apply filter_all. apply Forall_forall. destruct Hst as [Hall _]. eapply Forall_impl; [exact Hall|].
    by intros e (Hid&_). }
  apply elem_of_cons in Hq as [->|Hq].
  - by rewrite Hself, (Hnone _ qs'), app_nil_r.
  - assert (filter (about (qj_id q)) es = []) as ->; [|by apply IH].
    apply filter_none. intros e He Ha. rewrite <-Hself in He.
    apply list_elem_of_filter in He as [Ha' _]. apply Hnew, list_elem_of_fmap.
    exists q. split; [unfold about in *; congruence|done].
Qed.

(** C4: Whatever the clients, the remote worker and the commands do while the agent
    runs, and however their steps interleave, no job id is ever accepted twice, the
    accepted jobs only grow at their end, the print worker finishes a prefix of them,
    the broadcast channel is told exactly the stories of the finished jobs, one after the
    other in that order, and the configuration in use stays valid. *)
Theorem system_jobs_in_order y0 y1 y2 :
  starting y0 → rtc step y0 y1 → rtc step y1 y2 →
  NoDup (ids_of (accepted y2)) ∧
  accepted y1 `prefix_of` accepted y2 ∧
  sy_done y1 `prefix_of` sy_done y2 ∧ sy_done y2 `prefix_of` accepted y2 ∧
  (∃ chunks, st_sent (sy_state y2) = mjoin chunks ∧ Forall2 story (sy_done y2) chunks) ∧
  config_ok (st_config (sy_state y2)).
Proof.
  intros H0 H1 H2. pose proof (reached_inv _ _ H0 H1) as Hinv.
  destruct (run_inv _ _ H2 Hinv) as [[[S1 S2 S3 S4 _ S5] _] (M1&M2&_)]. done.
Qed.

(** C5: The statuses of a job are told to the connection that submitted it and to no other
    connection open at the time: the status entries a connection was told are, in the
    order they were sent and no more often, entries about jobs it submitted itself and
    the print worker finished; no other open connection submitted them, and none was told
    them.  (The answer to [get_print_queue], which names the waiting jobs of everybody,
    is not a status.) *)
Theorem system_isolation y0 y i j c d e :
  starting y0 → rtc step y0 y →
  sy_connections y !! i = Some c → sy_connections y !! j = Some d → i ≠ j →
  e ∈ cn_told c →
  cn_told c `sublist_of` st_sent (sy_state y) ∧ e ∉ cn_told d ∧
  ∃ q, q ∈ sy_done y ∧ entry_of q e ∧ qj_id q ∈ cn_accepted c ∧ qj_id q ∉ cn_accepted d.
Proof.
  intros H0 Hr Hi Hj Hne He. destruct (reached_inv _ _ H0 Hr) as (Hs&[Hc Hdis]&_).
  destruct (Hc i c Hi) as [_ _ Ht Ho _], (Hc j d Hj) as [_ _ Htd _ _].
  assert (cn_told c `sublist_of` st_sent (sy_state y)) as Hsub by (etrans; [exact Ho|apply sublist_take]).
  rewrite Forall_forall in Ht, Htd. destruct (Ht e He) as (k&Ha&Hk).
  assert (k ∉ cn_accepted d) as Hkd by (intros ?; by eapply (Hdis i j c d)).
  split; [done|]. split.
  - intros Hed. destruct (Htd e Hed) as (k'&Ha'&Hk'). unfold about in *. congruence.
  - destruct Hs as [_ _ _ (chunks&Hs&Hf) _ _].
    assert (e ∈ mjoin chunks) as Hin by (rewrite <-Hs; by eapply elem_of_sublist).
    destruct (stories_entry _ _ _ Hf Hin) as (q&Hq&Hent&Ha'). exists q.
    assert (k = qj_id q) as <-; [|done]. unfold about in *. congruence.
Qed.

(** C6: A connection that never fell behind and has read the whole channel was told,
    of every job it submitted and the print worker finished, its whole story, and of
    a job not finished nothing. *)
Theorem system_tells_whole_story y0 y i c q :
  starting y0 → rtc step y0 y → sy_connections y !! i = Some c →
  cn_lagged c = false → cn_next c = length (st_sent (sy_state y)) →
  q ∈ accepted y → qj_id q ∈ cn_accepted c →
  (q ∈ sy_done y → story q (filter (about (qj_id q)) (cn_told c))) ∧
  (q ∉ sy_done y → filter (about (qj_id q)) (cn_told c) = []).
Proof.
  intros H0 Hr Hi Hl Hn Hq Hacc. destruct (reached_inv _ _ H0 Hr) as (Hs&[Hc _]&_).
  destruct (Hc i c Hi) as [_ _ _ _ Hcomplete].
  rewrite Hcomplete, Hn, firstn_all by done. destruct Hs as [Hnd _ Hpre (chunks&->&Hf) _ _].
  destruct Hpre as [rest Hrest]. pose proof Hnd as Hnd0.
  rewrite Hrest, map_app in Hnd. apply NoDup_app in Hnd as (Hnd&Hdis&_). split.
  - intros Hdone. by eapply stories_of.
  - intros Hnot. apply filter_none. intros e He Ha.
    destruct (stories_entry _ _ _ Hf He) as (q'&Hq'&_&Ha').
    apply (Hdis (qj_id q)).
    + apply list_elem_of_fmap. exists q'. split; [unfold about in *; congruence|done].
    + rewrite Hrest in Hq. apply elem_of_app in Hq as [Hq|Hq]; [done|].
      apply list_elem_of_fmap. by exists q.
Qed.

(** A step hands [c] to the print queue: it is the one in which the print worker
    processes the job in its hands, and [c] is within the limits of the configuration in
    force at that moment, or the execution of a command that prints. *)
Definition submits (y y' : System) (c : BackendCall) : Prop :=
  (∃ q, sy_worker y = Working q ∧ sy_done y' = sy_done y ++ [q] ∧
     submission_within (st_config (sy_state y)) q c) ∨
  (∃ command, prints command = true ∧ sy_commands y' = sy_commands y ++ [command]).

(** A step submits nothing, or one thing. *)
Lemma step_submits y y' :
  step y y' → st_calls (sy_state y') = st_calls (sy_state y) ∨
  ∃ c, st_calls (sy_state y') = st_calls (sy_state y) ++ [c] ∧ submits y y' c.
Proof.
  intros [i addr header origin Hi Hup|i c frame can_send frames acc' s' go Hi Hss
    |i c e can_send frames acc' s' go Hi He Hss|i c k can_send frames acc' s' go Hi Hk Hn Hss
    |q queue Hw Hp|queue Hw Hp|Hw Hp|q Hw|e s' Hrm He|Hrm|Hrm|command r s' He]; try by left.
  - left. apply socket_frame_feeds in Hss as [_ (_&_&Hcalls)]. exact Hcalls.
  - left. apply socket_status_sends in Hss as (_&->&_). done.
  - left. simpl in Hss. by injection Hss as <- <- <- <-.
  - destruct (submissions_within q (sy_state y)) as (calls&Hcalls&Hl&Hf). cbn [sy_state].
    destruct calls as [|c [|c' calls]]; [left; by rewrite Hcalls, app_nil_r| |simpl in Hl; lia].
    right. exists c. split; [done|]. left. exists q. split_and!; [done..|by inversion Hf].
  - left. pose proof (remote_round_queued false (sy_state y)) as Hq. rewrite He in Hq.
    destruct Hq as (_&_&_&Hcalls). exact Hcalls.
  - pose proof (command_effect command (sy_state y)) as Hce. rewrite He in Hce.
    destruct Hce as (_&_&_&_&[Hcalls|[Hp [c Hcalls]]]); [by left|right].
    exists c. split; [exact Hcalls|]. right. by exists command.
Qed.
(** So every submission of a run was made by one of its steps. *)
Lemma run_submits y0 y pre c post :
  rtc step y0 y → st_calls (sy_state y0) = [] → st_calls (sy_state y) = pre ++ c :: post →
  ∃ y1 y2, rtc step y0 y1 ∧ step y1 y2 ∧ rtc step y2 y ∧
    st_calls (sy_state y1) = pre ∧ submits y1 y2 c.
Proof.
  intros Hr H0. revert post. revert y Hr. refine (rtc_ind_r _ y0 _ _).
  { intros post Hc. rewrite H0 in Hc. by destruct pre. }
  intros z y Hrz Hstep IH post Hc.
  assert (∀ post', st_calls (sy_state z) = pre ++ c :: post' →
    ∃ y1 y2, rtc step y0 y1 ∧ step y1 y2 ∧ rtc step y2 y ∧ st_calls (sy_state y1) = pre ∧ submits y1 y2 c)
    as Hbefore.
  { intros post' Hz. destruct (IH _ Hz) as (y1&y2&H1&H2&H3&H4). exists y1, y2.
    split_and!; [done|done|by eapply rtc_r|by destruct H4..]. }
  destruct (step_submits z y Hstep) as [Hs|(c'&Hs&Hsub)]; rewrite Hs in Hc; [by eapply Hbefore|].
  destruct post as [|x post _] using rev_ind.
  - apply app_inj_tail in Hc as [Hz ->]. by exists z, y.
  - rewrite app_comm_cons, app_assoc in Hc. apply app_inj_tail in Hc as [Hz _]. by eapply Hbefore.
Qed.

(** C7: Whatever runs interleaved, what reaches the print queue is accounted for.  Every
    submission was made in one step of the run: either the print worker processed the
    job in its hands and finished it, and the submission is to the printer, on the paper
    and within the limits this job and the configuration in force at that moment give;
    or a command that prints was executed.  Each job and each such command makes at most
    one. *)
Theorem system_prints_once y0 y :
  starting y0 → rtc step y0 y →
  printed (sy_done y) (sy_commands y) (st_calls (sy_state y)) ∧
  (length (st_calls (sy_state y)) ≤
     length (sy_done y) + length (filter (λ command, prints command) (sy_commands y)))%nat ∧
  ∀ pre c post, st_calls (sy_state y) = pre ++ c :: post →
    ∃ y1 y2, rtc step y0 y1 ∧ step y1 y2 ∧ rtc step y2 y ∧
      st_calls (sy_state y1) = pre ∧ submits y1 y2 c.
Proof.
  intros H0 Hr. destruct (reached_inv _ _ H0 Hr) as [[_ _ _ _ Hp _] _].
  split; [done|]. split; [by apply printed_bounded|]. intros pre c post. apply run_submits; [done|apply H0].
Qed.

(** Looking at the queue and processing, one job after the other. *)
Definition worker_turns (n : nat) : list Turn := mjoin (replicate n [Look; Process]).

Lemma process_job_queue q s : st_queue (process_job q s).2 = st_queue s.
Proof. destruct (spec_process_job (st_config s) q s eq_refl) as (t&Ht&_). by destruct Ht. Qed.
Lemma worker_turns_finish jobs y :
  pending (st_queue (sy_state y)) = jobs → sy_worker y = Polling ∨ jobs = [] →
  let y' := performs io to_str listen_addr y (worker_turns (length jobs)) in
  sy_done y' = sy_done y ++ jobs ∧ pending (st_queue (sy_state y')) = [] ∧
  in_hands (sy_worker y') = in_hands (sy_worker y).
Proof.
  revert y. induction jobs as [|q jobs IH]; intros y Hp Hw; [by rewrite app_nil_r|].
  destruct Hw as [Hw|Hw]; [|done].
  change (worker_turns (length (q :: jobs))) with ([Look; Process] ++ worker_turns (length jobs)).
  unfold performs. rewrite foldl_app. cbn [foldl].
  set (y1 := perform io to_str listen_addr y Look).
  assert (y1 = mkSystem (set_queue (mkQueueState jobs (seen_job_ids (st_queue (sy_state y)))
    (seen_batch_ids (st_queue (sy_state y)))) (sy_state y)) (sy_connections y) (Working q) (sy_done y)
    (sy_commands y) (sy_remote y)) as -> by (unfold y1; cbn [perform]; unfold pop_next; by rewrite Hw, Hp).
  cbn [perform sy_worker].
  match goal with |- context [foldl _ ?z (worker_turns _)] => set (y2 := z) end.
  destruct (IH y2) as (H1&H2&H3); [unfold y2; cbn; by rewrite process_job_queue|by left|].
  unfold performs in H1, H2, H3. rewrite H1, H2, H3, Hw. unfold y2. cbn. by rewrite <-app_assoc.
Qed.

(** C9: From every state the agent can reach, the turns of the print worker alone finish
    every accepted job, the one in its hands first and then the waiting ones in
    order: it finishes its job or wakes up, and takes two turns for each waiting job.
    No wake-up is ever lost. *)
Theorem system_drains y0 y :
  starting y0 → rtc step y0 y →
  let ts := Process :: Wake :: worker_turns (length (pending (st_queue (sy_state y)))) in
  let y' := performs io to_str listen_addr y ts in
  rtc step y y' ∧ sy_done y' = accepted y ∧ in_hands (sy_worker y') = [] ∧
  pending (st_queue (sy_state y')) = [].
Proof.
  intros H0 Hr ts y'. split; [apply performs_steps|].
  destruct (reached_inv _ _ H0 Hr) as (_&_&Haw). unfold awake in Haw.
  set (y1 := perform io to_str listen_addr y Process).
  set (y2 := perform io to_str listen_addr y1 Wake).
  change y' with (performs io to_str listen_addr y2
    (worker_turns (length (pending (st_queue (sy_state y)))))).
  assert (pending (st_queue (sy_state y2)) = pending (st_queue (sy_state y)) ∧
    sy_done y2 = sy_done y ++ in_hands (sy_worker y) ∧ in_hands (sy_worker y2) = [] ∧
    (sy_worker y2 = Polling ∨ pending (st_queue (sy_state y)) = [])) as (Hp&Hd&Hh&Hw).
  { unfold y2, y1. cbn [perform]. destruct (sy_worker y) as [| |q] eqn:Hw; cbn [in_hands].
    - rewrite Hw, app_nil_r. split_and!; try done; [by rewrite Hw|by left].
    - rewrite Hw, app_nil_r. destruct (st_permit (sy_state y)) eqn:Hpm; cbn.
      + split_and!; try done. by left.
      + rewrite Hw. split_and!; try done. right.
        destruct (pending (st_queue (sy_state y))); [done|]. by discriminate Haw.
    - cbn. rewrite process_job_queue. split_and!; try done. by left. }
  destruct (worker_turns_finish (pending (st_queue (sy_state y))) y2) as (H1&H2&H3); [done|done|].
  rewrite H1, H2, H3, Hd, Hh. unfold accepted. by rewrite <-app_assoc.
Qed.
End invariant.


(** ** Witnesses: two clients and one job each *)

#[local] Instance toy_http : HttpOps := {|
  http_client _ := Ok tt;
  http_get _ _ := Err "offline";
  http_status_error _ := "status"
|}.
#[local] Instance toy_zip : ZipOps := {|
  ZipArchive := unit; zip_open _ := Ok tt; zip_has _ _ := false
|}.
Definition toy_raw (id : string) : PrintJobInput :=
  mkPrintJobInput id Raw (Some "office") None (Some "AAAA") None None None None.
Definition toy_system_io : SocketIo := mkSocketIo (λ text, Ok (Print "r" (toy_raw text))) (λ _, Ok "{}").
Definition toy_start : System :=
  mkSystem (set_config {|
    cfg_service := cfg_service AgentConfig_default;
    cfg_security := mkSecurityConfig ["https://shop.example"] default_allowed_ips;
    cfg_printing := cfg_printing AgentConfig_default;
    cfg_limits := cfg_limits AgentConfig_default;
    cfg_app := cfg_app AgentConfig_default;
    cfg_remote := cfg_remote AgentConfig_default
  |} toy_state) ∅ Polling [] [] RReady.
Definition toy_step : System → System → Prop :=
  system_step (J := toy_config_codec) (V := toy_converters) (JP := toy_payload_codec)
    (JF := toy_file_codec) toy_system_io Some (mkSocketAddr (v4 127 0 0 1) 17890).
Definition toy_performs (ts : list Turn) : System :=
  performs (J := toy_config_codec) (V := toy_converters) (JP := toy_payload_codec)
    (JF := toy_file_codec) toy_system_io Some (mkSocketAddr (v4 127 0 0 1) 17890) toy_start ts.
Definition toy_client : option SocketAddr := Some (mkSocketAddr (v4 127 0 0 1) 50000).
Definition toy_submit : list Turn :=
  [Upgrade 0 toy_client (Some "https://shop.example");
   Upgrade 1 toy_client (Some "https://shop.example");
   Frame 0 (Some (Ok (WsText "a"))); Frame 1 (Some (Ok (WsText "b")))].
Definition toy_print : list Turn :=
  [Look; Status 0; Process; Status 0; Status 1; Status 0; Status 1; Status 0; Status 1; Remote].
Definition toy_shop : System := toy_performs (toy_submit ++ toy_print).

Lemma toy_starting : starting toy_start.
Proof.
  do 8 (split; [done|]).
  split; [apply Forall_singleton; vm_compute; reflexivity|].
  split; [vm_compute; reflexivity|]. split; [done|]. split; [done|].
  apply Forall_singleton. by left.
Qed.
Lemma toy_run ts : rtc toy_step toy_start (toy_performs ts).
Proof. apply performs_steps. Qed.
Lemma toy_continues ts ts' : rtc toy_step (toy_performs ts) (toy_performs (ts ++ ts')).
Proof. unfold toy_performs, performs. rewrite foldl_app. apply performs_steps. Qed.

Lemma system_jobs_in_order_witness :
  ids_of (accepted (toy_performs toy_submit)) = ["a"; "b"] ∧
  ids_of (sy_done toy_shop) = ["a"] ∧ NoDup (ids_of (accepted toy_shop)) ∧
  ∃ chunks, st_sent (sy_state toy_shop) = mjoin chunks ∧ Forall2 story (sy_done toy_shop) chunks.
Proof.
  split; [vm_compute; reflexivity|]. split; [vm_compute; reflexivity|].
  destruct (system_jobs_in_order _ _ _ toy_start (toy_performs toy_submit) toy_shop
    toy_starting (toy_run toy_submit) (toy_continues toy_submit toy_print))
    as (H&_&_&_&Hs&_).
  split; [exact H|exact Hs].
Defined.

Lemma system_isolation_witness :
  ∃ c d e, sy_connections toy_shop !! 0%nat = Some c ∧ sy_connections toy_shop !! 1%nat = Some d ∧
    e ∈ cn_told c ∧ tl_status e = Queued ∧ e ∉ cn_told d.
Proof.
  eexists _, _, _.
  match goal with |- ?A ∧ _ => assert A as Hc by (vm_compute; reflexivity) end.
  match goal with |- _ ∧ ?A ∧ _ => assert A as Hd by (vm_compute; reflexivity) end.
  match goal with |- _ ∧ _ ∧ ?A ∧ _ => assert A as He by (apply list_elem_of_here) end.
  destruct (system_isolation _ _ _ toy_start toy_shop 0 1 _ _ _ toy_starting
    (toy_run (toy_submit ++ toy_print)) Hc Hd ltac:(done) He) as (_&Hn&_).
  split; [exact Hc|]. split; [exact Hd|]. split; [exact He|]. split; [reflexivity|exact Hn].
Defined.

Lemma system_tells_whole_story_witness :
  ∃ c q, sy_connections toy_shop !! 0%nat = Some c ∧ sy_done toy_shop = [q] ∧
    story q (filter (about "a") (cn_told c)) ∧ length (cn_told c) = 3%nat.
Proof.
  eexists _, _.
  match goal with |- ?A ∧ _ => assert A as Hc by (vm_compute; reflexivity) end.
  match goal with |- _ ∧ ?A ∧ _ => assert A as Hq by (vm_compute; reflexivity) end.
  match type of Hq with _ = [?x] => set (q := x) in * end.
  assert (q ∈ sy_done toy_shop) as Hin by (rewrite Hq; apply list_elem_of_here).
  assert (q ∈ accepted toy_shop) as Hall by (apply elem_of_app; left; exact Hin).
  destruct (system_tells_whole_story _ _ _ toy_start toy_shop 0 _ q toy_starting
    (toy_run (toy_submit ++ toy_print)) Hc) as [H _]; [reflexivity|by vm_compute|exact Hall|by vm_compute|].
  split; [exact Hc|]. split; [exact Hq|]. split; [exact (H Hin)|reflexivity].
Defined.

Lemma system_prints_once_witness :
  st_calls (sy_state toy_shop) ≠ [] ∧ sy_commands toy_shop = [] ∧
  (length (st_calls (sy_state toy_shop)) ≤ 1)%nat.
Proof.
  destruct (system_prints_once _ _ _ toy_start toy_shop toy_starting
    (toy_run (toy_submit ++ toy_print))) as (_&H&_).
  split; [by vm_compute|]. split; [reflexivity|exact H].
Defined.

(** Both jobs are done, the print worker sleeps, and one more job comes in. *)
Definition toy_late : list Turn :=
  toy_submit ++ [Look; Process; Look; Process; Look; Frame 0 (Some (Ok (WsText "c")))].
Definition toy_asleep : System := toy_performs toy_late.
Definition toy_drained : System :=
  performs (J := toy_config_codec) (V := toy_converters) (JP := toy_payload_codec)
    (JF := toy_file_codec) toy_system_io Some (mkSocketAddr (v4 127 0 0 1) 17890) toy_asleep
    (Process :: Wake :: worker_turns (length (pending (st_queue (sy_state toy_asleep))))).

Lemma system_drains_witness :
  bool_decide (ids_of (accepted toy_asleep) = ["a"; "b"; "c"]) = true ∧
  in_hands (sy_worker toy_asleep) = [] ∧ length (sy_done toy_asleep) = 2%nat ∧
  sy_done toy_drained = accepted toy_asleep.
Proof.
  split; [vm_compute; reflexivity|]. split; [vm_compute; reflexivity|].
  split; [vm_compute; reflexivity|].
  destruct (system_drains (J := toy_config_codec) (V := toy_converters) (JP := toy_payload_codec)
    (JF := toy_file_codec) toy_system_io Some (mkSocketAddr (v4 127 0 0 1) 17890) toy_start
    toy_asleep toy_starting (toy_run toy_late)) as (_&H&_).
  exact H.
Defined.

(** Enabling remote printing between the remote worker's look at the configuration and
    its wait goes unnoticed: it waits although the configuration in force enables it,
    and would poll if it looked again. *)
Lemma remote_wake_up_lost :
  let y := toy_performs [Remote; Execute (SaveConfig toy_agent_config); RemoteWaits] in
  rtc toy_step toy_start y ∧ sy_remote y = RWaiting ∧
  rc_enabled (cfg_remote (st_config (sy_state y))) = true ∧
  ∀ ts, Forall (λ t, match t with Execute command => saves command = false | _ => True end) ts →
    sy_remote (performs (J := toy_config_codec) (V := toy_converters) (JP := toy_payload_codec)
      (JF := toy_file_codec) toy_system_io Some (mkSocketAddr (v4 127 0 0 1) 17890) y ts) = RWaiting.
Proof.
  split; [apply toy_run|]. split; [by vm_compute|]. split; [by vm_compute|].
  match goal with |- context [performs _ _ _ ?z _] => assert (sy_remote z = RWaiting) as Hz
    by (vm_compute; reflexivity); generalize dependent z end.
  intros y Hy ts Hts. revert y Hy.
  induction Hts as [|t ts Ht _ IH]; intros y Hy; [done|]. apply IH.
  destruct t; cbn [perform]; repeat case_match; cbn [sy_remote after_turn]; try done;
    try congruence. by rewrite Ht, Hy.
Qed.
