(* ===== verification/Interleave.v ===== *)
(** * Clients during a job ([crates/runtime/src/queue.rs], [server.rs])

    A step of [System] processes a whole job.  In the program the print worker holds
    no lock while it works: between any two of its actions a client may submit jobs,
    ask for the queue or hang up, and the remote worker may go to sleep or wake.
    [fine_step] lets them; [interleaving_adds_nothing] shows that the states
    reachable are the same, so that the theorems of [System] hold of the program with
    the finer steps. *)

From S2P Require Import Prelude RustStr F64 NetAddr Externs Toy FileSys PrintTypes Printing.
From S2P Require Import Protocol IpWhitelist Config JobQueue Download Document Office Converters.
From S2P Require Import Activity Sqlite TaskHistory RemoteStore State TestPrint ResourcePolicy.
From S2P Require Import Proxy Browser Renderer ConfigTransfer Worker WorkerSpec Server RemoteClient.
From S2P Require Import RemoteWorker Commands Doctor Executor System.
Open Scope string_scope.
Open Scope N_scope.
Open Scope list_scope.

(** ** What the worker does not look at *)

(** The state with another queue and another permit. *)
Definition elsewhere (Q : QueueState) (P : bool) (s : AgentState) : AgentState :=
  set_permit P (set_queue Q s).

(** The handler keeps the configuration, and neither reads nor changes the queue and
    the permit. *)
Definition framed {E A} (m : Handler E A) : Prop :=
  ∀ s, st_config (m s).2 = st_config s ∧
    ∀ Q P, m (elsewhere Q P s) = ((m s).1, elsewhere Q P (m s).2).

Lemma elsewhere_same s : elsewhere (st_queue s) (st_permit s) s = s.
Proof. by destruct s. Qed.
Lemma framed_keeps {E A} (m : Handler E A) s :
  framed m → st_queue (m s).2 = st_queue s ∧ st_permit (m s).2 = st_permit s.
Proof.
  intros Hm. destruct (Hm s) as [_ H]. specialize (H (st_queue s) (st_permit s)).
  rewrite elsewhere_same in H. by rewrite H.
Qed.

Lemma framed_ret {E A} (a : A) : framed (mret a : Handler E A).
Proof. by intros s. Qed.
Lemma framed_raise {E A} (e : E) : framed (raise e : Handler E A).
Proof. by intros s. Qed.
Lemma framed_lift {E A} (r : result E A) : framed (lift r : Handler E A).
Proof. by intros s. Qed.
Lemma framed_bind {E A B} (m : Handler E A) (k : A → Handler E B) :
  framed m → (∀ a, framed (k a)) → framed (m ≫= k).
Proof.
  intros Hm Hk s. rewrite M_bind_eq. destruct (Hm s) as [Hc Hm'].
  setoid_rewrite M_bind_eq. setoid_rewrite Hm'. destruct (m s) as [[a|e] s1]; [|done].
  simpl in *. destruct (Hk a s1) as [Hc' Hk']. split; [congruence|done].
Qed.
Lemma framed_attempt {E E' A} (m : Handler E' A) :
  framed m → framed (attempt m : Handler E (result E' A)).
Proof.
  intros Hm s. unfold attempt. destruct (Hm s) as [Hc Hm']. setoid_rewrite Hm'.
  by destruct (m s).
Qed.
Lemma framed_mapping {E E' A} (f : E' → E) (m : Handler E' A) :
  framed m → framed (mapping_err f m).
Proof.
  intros Hm s. unfold mapping_err. destruct (Hm s) as [Hc Hm']. setoid_rewrite Hm'.
  by destruct (m s).
Qed.
Lemma framed_gets {E A} (f : AgentState → A) :
  (∀ Q P s, f (elsewhere Q P s) = f s) → framed (gets f : Handler E A).
Proof. intros H s. split; [done|]. intros Q P. unfold gets. by rewrite H. Qed.
Lemma framed_modify {E} (f : AgentState → AgentState) :
  (∀ s, st_config (f s) = st_config s) →
  (∀ Q P s, f (elsewhere Q P s) = elsewhere Q P (f s)) → framed (modify f : Handler E unit).
Proof. intros Hc H s. split; [apply Hc|]. intros Q P. unfold modify. by rewrite H. Qed.
Lemma framed_tick {E} : framed (tick : Handler E nat).
Proof. by intros s. Qed.
Lemma framed_on_fs {E A} (m : M Fs E A) : framed (on_fs m).
Proof. intros s. unfold on_fs, zoom. cbn. by destruct (m (st_fs s)). Qed.
Lemma framed_when {E} (b : bool) (m : Handler E unit) : framed m → framed (when b m).
Proof. intros H. destruct b; [exact H|apply framed_ret]. Qed.

Create HintDb framed.
#[export] Hint Resolve framed_ret framed_raise framed_lift framed_bind framed_attempt framed_mapping
  framed_tick framed_on_fs framed_when : framed.
Ltac framed_step :=
  cbv zeta;
  match goal with
  | |- framed (_ ≫= _) => apply framed_bind; [|intros ?]
  | |- framed (gets _) => by apply framed_gets
  | |- framed (modify _) => by apply framed_modify
  | |- framed (if ?b then _ else _) => destruct b
  | |- framed (match ?x with _ => _ end) => destruct x
  | |- framed _ => solve [eauto with framed]
  | |- framed (attempt _) => apply framed_attempt
  | |- framed (mapping_err _ _) => apply framed_mapping
  end.
Ltac solve_framed := repeat framed_step.

Section framed_worker.
Context `{U : UrlOps, HT : !HttpOps, B : Base64Ops, IM : !ImageOps, ZI : !ZipOps, R : !RuntimeEnv}.

Lemma broadcast_framed {E} entry : framed (broadcast_status (E := E) entry).
Proof. unfold broadcast_status. solve_framed. Qed.
Lemma record_history_framed {E} n ev : framed (record_task_history (E := E) n ev).
Proof. unfold record_task_history. solve_framed. Qed.
Lemma enqueue_report_framed {E} q status message :
  framed (enqueue_remote_status_event (E := E) q status message).
Proof. unfold enqueue_remote_status_event. solve_framed. Qed.
#[local] Hint Resolve broadcast_framed record_history_framed enqueue_report_framed : framed.
Lemma push_framed {E} q status message metadata b :
  framed (push_log_with_print_metadata_and_remote (E := E) q status message metadata b).
Proof. unfold push_log_with_print_metadata_and_remote. solve_framed. Qed.
#[local] Hint Resolve push_framed : framed.
#[local] Hint Unfold push_log push_log_with_metadata push_log_with_metadata_without_remote
  push_log_with_raw_metadata push_log_with_raw_metadata_without_remote cleanup_file : framed.

Lemma submit_framed q options path : framed (submit_pdf_and_track q options path).
Proof. unfold submit_pdf_and_track. solve_framed. Qed.
Lemma raw_framed q options config : framed (print_raw_job q options config).
Proof. unfold print_raw_job. solve_framed. Qed.
#[local] Hint Resolve submit_framed raw_framed : framed.
Lemma html_framed q options : framed (print_html_job q options).
Proof. unfold print_html_job. solve_framed. Qed.
Lemma downloaded_framed q options path : framed (print_downloaded_file q options path).
Proof. unfold print_downloaded_file. solve_framed. Qed.
#[local] Hint Resolve html_framed downloaded_framed : framed.
Lemma inner_framed q : framed (process_job_inner q).
Proof. unfold process_job_inner. solve_framed. Qed.
#[local] Hint Resolve inner_framed : framed.
Lemma process_job_framed q : framed (process_job q).
Proof. unfold process_job. solve_framed. Qed.
End framed_worker.

(** ** What others do meanwhile *)

(** Two states with the same configuration, queue and permit. *)
Definition alike (s t : AgentState) : Prop :=
  st_config s = st_config t ∧ st_queue s = st_queue t ∧ st_permit s = st_permit t.
Lemma alike_same s t : alike s t → elsewhere (st_queue t) (st_permit t) s = s.
Proof. intros (_&<-&<-). apply elsewhere_same. Qed.
(** [f] reads no more of the shared state than the configuration, the queue and the
    permit, and changes no more of it than the last two. *)
Definition outside (f : System → System) : Prop :=
  ∀ y s, alike s (sy_state y) →
    f (with_state s y) =
      with_state (elsewhere (st_queue (sy_state (f y))) (st_permit (sy_state (f y))) s) (f y).

(** A handler on the shared state of the system, and changes of it in order. *)
Definition run_on {E A} (m : Handler E A) : M System E A := zoom sy_state with_state m.
Definition afterwards (fs : list (System → System)) (y : System) : System :=
  foldl (λ y f, f y) y fs.

(** [shuffled fs m m']: [m'] is [m] with the changes [fs] made, in their order, while
    it runs: before it, after it, between or inside its parts. *)
Inductive shuffled : ∀ {E A}, list (System → System) → Handler E A → M System E A → Prop :=
  | sh_alone {E A} (m : Handler E A) : shuffled [] m (run_on m)
  | sh_before {E A} f fs (m : Handler E A) m' :
      shuffled fs m m' → shuffled (f :: fs) m (λ y, m' (f y))
  | sh_after {E A} f fs (m : Handler E A) m' :
      framed m → shuffled fs m m' → shuffled (fs ++ [f]) m (λ y, let '(r, y') := m' y in (r, f y'))
  | sh_bind {E A C} fs1 fs2 (m : Handler E C) m' (k : C → Handler E A) k' :
      framed m → shuffled fs1 m m' → (∀ c, shuffled fs2 (k c) (k' c)) →
      shuffled (fs1 ++ fs2) (m ≫= k)
        (λ y, match m' y with
              | (Ok c, y') => k' c y'
              | (Err e, y') => (Err e, afterwards fs2 y')
              end)
  | sh_attempt {E F A} fs (m : Handler F A) m' :
      shuffled fs m m' → shuffled fs (attempt m : Handler E _) (attempt m')
  | sh_mapping {E F A} fs (g : F → E) (m : Handler F A) m' :
      shuffled fs m m' → shuffled fs (mapping_err g m) (mapping_err g m').

Lemma outside_shares f y : outside f →
  f y = with_state (elsewhere (st_queue (sy_state (f y))) (st_permit (sy_state (f y)))
                      (sy_state y)) (f y).
Proof.
  intros Hf. rewrite <-(Hf y (sy_state y)) by done. by destruct y.
Qed.
Lemma outside_afterwards fs : Forall outside fs → outside (afterwards fs).
Proof.
  induction fs as [|f fs IH] using rev_ind; intros Hfs y s Hs.
  { unfold afterwards. simpl. by rewrite alike_same. }
  apply Forall_app in Hfs as [Hfs [Hf _]%Forall_cons].
  assert (∀ z, afterwards (fs ++ [f]) z = f (afterwards fs z)) as E
    by (intros z; unfold afterwards; by rewrite foldl_app).
  rewrite !E, (IH Hfs y s Hs), Hf; [done|].
  destruct Hs as (Hc&_). split_and!; [|done|done].
  rewrite (outside_shares _ y (IH Hfs)). simpl. done.
Qed.
Lemma outside_state f y : outside f →
  sy_state (f y) = elsewhere (st_queue (sy_state (f y))) (st_permit (sy_state (f y))) (sy_state y).
Proof. intros Hf. rewrite (outside_shares f y Hf) at 1. done. Qed.
Lemma run_on_outside {E A} (m : Handler E A) f y :
  framed m → outside f → run_on m (f y) = (let '(r, y') := run_on m y in (r, f y')).
Proof.
  intros Hm Hf. unfold run_on, zoom. destruct (Hm (sy_state y)) as [Hc Hm'].
  destruct (framed_keeps m (sy_state y) Hm) as [Hq Hp].
  rewrite (outside_state f y Hf), Hm'. destruct (m (sy_state y)) as [r s']. simpl in *.
  by rewrite (Hf y s').
Qed.
Lemma run_on_bind {E A C} (m : Handler E C) (k : C → Handler E A) y :
  run_on (m ≫= k) y = match run_on m y with
                      | (Ok c, y') => run_on (k c) y'
                      | (Err e, y') => (Err e, y')
                      end.
Proof. unfold run_on, zoom. rewrite M_bind_eq. by destruct (m (sy_state y)) as [[c|e] s1]. Qed.
Lemma afterwards_app fs1 fs2 y : afterwards (fs1 ++ fs2) y = afterwards fs2 (afterwards fs1 y).
Proof. unfold afterwards. by rewrite foldl_app. Qed.

(** Wherever the changes are made, the handler returns the same, and they might as
    well have been made before it. *)
Lemma shuffled_first {E A} fs (m : Handler E A) m' :
  shuffled fs m m' → Forall outside fs → ∀ y, m' y = run_on m (afterwards fs y).
Proof.
  induction 1 as [| E A f fs m m' _ IH | E A f fs m m' Hm _ IH
    | E A C fs1 fs2 m m' k k' Hm _ IH1 _ IH2 | E F A fs m m' _ IH | E F A fs g m m' _ IH];
    intros Hfs y.
  - done.
  - apply Forall_cons in Hfs as [_ Hfs]. by rewrite IH.
  - apply Forall_app in Hfs as [Hfs [Hf _]%Forall_cons]. rewrite IH, afterwards_app by done.
    cbn. by rewrite (run_on_outside m f _ Hm Hf).
  - apply Forall_app in Hfs as [H1 H2]. rewrite IH1, afterwards_app, run_on_bind by done.
    rewrite (run_on_outside m (afterwards fs2)) by eauto using outside_afterwards.
    destruct (run_on m (afterwards fs1 y)) as [[c|e] y']; [by apply IH2|done].
  - unfold attempt, run_on, zoom. rewrite IH by done. unfold run_on, zoom.
    by destruct (m (sy_state (afterwards fs y))).
  - unfold mapping_err, run_on, zoom. rewrite IH by done. unfold run_on, zoom.
    by destruct (m (sy_state (afterwards fs y))).
Qed.

(** ** The finer steps *)

Section interleave.
Context `{U : UrlOps, HT : !HttpOps, B : Base64Ops, I : IpNetOps, J : !JsonCodec AgentConfig,
          IM : !ImageOps, ZI : !ZipOps, P : !ProxyEnv, R : !RuntimeEnv, TJ : !TaskJson,
          RE : !RemoteEnv, V : !ConverterEnv, D : !DoctorEnv, C : !TransferCrypto,
          JP : !JsonCodec ConfigTransferPayload, JF : !JsonCodec EncryptedConfigFile,
          X : !ExecutorEnv}.
Context (io : SocketIo) (to_str : string → option string) (listen_addr : SocketAddr).

(** The frames that do not ask the print system: everything but the two questions
    about printers. *)
Definition quick (frame : option (result string WsMessage)) : bool :=
  match frame with
  | Some (Ok (WsText text)) =>
      match io_parse io text with
      | Ok (GetPrintersList _ | GetPrinterInfo _ _) => false
      | _ => true
      end
  | _ => true
  end.

(** What may happen while a job is processed: a connection receives such a frame, or
    the remote worker starts or ends its wait. *)
Inductive Arrival :=
  | Receives (i : nat) (can_send : bool) (frame : option (result string WsMessage))
  | RemoteParks
  | RemoteResumes.
Definition welcome (a : Arrival) : bool :=
  match a with Receives _ _ frame => quick frame | _ => true end.
Definition with_remote (r : RemoteState) (y : System) : System :=
  mkSystem (sy_state y) (sy_connections y) (sy_worker y) (sy_done y) (sy_commands y) r.
Definition arrive (a : Arrival) (y : System) : System :=
  match a with
  | Receives i can_send frame =>
      match sy_connections y !! i with
      | Some c =>
          let '(_, accepted', s', go) :=
            socket_step io (cn_origin c) can_send (cn_accepted c) (sy_state y) (Received frame) in
          after_turn i go
            (mkConnection (cn_origin c) accepted' (cn_next c) (cn_told c) (cn_lagged c)) s' y
      | None => y
      end
  | RemoteParks => match sy_remote y with RBeforeWait => with_remote RWaiting y | _ => y end
  | RemoteResumes => match sy_remote y with RAsleep => with_remote RReady y | _ => y end
  end.

(** The job in the worker's hands is done. *)
Definition finish (q : QueuedJob) (y : System) : System :=
  mkSystem (sy_state y) (sy_connections y) Polling (sy_done y ++ [q]) (sy_commands y) (sy_remote y).

(** A step of [System], or a whole job with arrivals anywhere in it. *)
Inductive fine_step (y : System) : System → Prop :=
  | fine_other y' : system_step io to_str listen_addr y y' → fine_step y y'
  | fine_process q arrivals m' :
      sy_worker y = Working q → Forall (λ a, welcome a = true) arrivals →
      shuffled (map arrive arrivals) (process_job q) m' →
      fine_step y (finish q (m' y).2).

(** A handler that looks at no more of the state than the configuration, the queue and
    the permit, and changes no more than the last two. *)
Definition local {E A} (m : Handler E A) : Prop :=
  ∀ s t, alike s t → (m s).1 = (m t).1 ∧ alike (m s).2 (m t).2 ∧
    (m s).2 = elsewhere (st_queue (m t).2) (st_permit (m t).2) s.

Lemma local_lift {E A} (r : result E A) : local (lift r : Handler E A).
Proof. intros s t H. split_and!; [done..|]. symmetry. by apply alike_same. Qed.
Lemma local_ret {E A} (a : A) : local (mret a : Handler E A).
Proof. apply (local_lift (Ok a)). Qed.
Lemma local_gets {E A} (f : AgentState → A) :
  (∀ s t, alike s t → f s = f t) → local (gets f : Handler E A).
Proof.
  intros Hf s t H. split; [|split; [done|symmetry; by apply alike_same]].
  unfold gets. simpl. by rewrite (Hf s t H).
Qed.
Lemma local_modify {E} (f : AgentState → AgentState) :
  (∀ s t, alike s t → f s = elsewhere (st_queue (f t)) (st_permit (f t)) s ∧
     st_config (f t) = st_config t) →
  local (modify f : Handler E unit).
Proof.
  intros Hf s t H. destruct (Hf s t H) as [H1 H2]. cbn. split; [done|]. split; [|done].
  unfold alike. rewrite H1, H2. split_and!; [apply H|done|done].
Qed.
Lemma local_bind {E A B'} (m : Handler E A) (k : A → Handler E B') :
  local m → (∀ a, local (k a)) → local (m ≫= k).
Proof.
  intros Hm Hk s t H. destruct (Hm s t H) as (H1&H2&H3). rewrite !M_bind_eq.
  destruct (m s) as [r s1], (m t) as [r' t1]. cbn in H1, H2, H3. subst r'.
  destruct r as [a|e]; [|done]. destruct (Hk a s1 t1 H2) as (H4&H5&H6).
  split_and!; [done|done|]. by rewrite H6, H3.
Qed.
Ltac alike_cases := intros [] [] (?&?&?); simpl in *; by subst.
Lemma on_queue_local request_id op : local (on_queue request_id op).
Proof.
  unfold on_queue. apply local_bind; [by apply local_gets; intros s t (?&?&?)|intros queue].
  destruct (op queue) as [r queue'].
  apply local_bind; [apply local_modify; alike_cases|intros _].
  apply local_bind; [apply local_lift|intros _].
  apply local_modify. alike_cases.
Qed.

(** The answer to a quick frame is such a handler. *)
Lemma quick_local text m origin :
  quick (Some (Ok (WsText text))) = true → io_parse io text = Ok m →
  local (handle_client_message m origin).
Proof.
  unfold quick. intros Hq Hm. rewrite Hm in Hq.
  assert (∀ s t, alike s t → st_config s = st_config t) as Hc by by intros s t (?&_).
  destruct m; try done; cbn [handle_client_message].
  - apply local_ret.
  - unfold get_print_queue. apply local_bind; [|intros ?; apply local_ret].
    apply local_gets. by intros s t (_&->&_).
  - unfold handle_print.
    repeat (apply local_bind; [first [apply local_lift | apply on_queue_local
      | apply local_gets; by intros s t ->%Hc]|intros ?]). apply local_ret.
  - unfold handle_print_batch. apply local_bind; [apply local_gets; by intros s t ->%Hc|intros limit].
    case_match; [apply (local_lift (Err _))|].
    repeat (apply local_bind; [first [apply local_lift | apply on_queue_local
      | apply local_gets; by intros s t ->%Hc]|intros ?]). apply local_ret.
Qed.
Lemma answered_alike s t text origin :
  quick (Some (Ok (WsText text))) = true → alike s t →
  let '(out, t') := handle_client_text (io_parse io) t text origin in
  handle_client_text (io_parse io) s text origin =
    (out, elsewhere (st_queue t') (st_permit t') s).
Proof.
  unfold handle_client_text. intros Hq H. destruct (io_parse io text) as [m|e] eqn:Hm.
  2:{ by rewrite alike_same. }
  destruct (quick_local text m origin Hq Hm s t H) as (H1&_&H2). unfold answer.
  destruct (handle_client_message m origin t) as [[out|e] t'],
    (handle_client_message m origin s) as [r s']; cbn in H1, H2; by subst.
Qed.
Lemma stepped_alike can_send acc origin s t frame :
  quick frame = true → alike s t →
  let '(frames, acc', t', go) := socket_step io origin can_send acc t (Received frame) in
  socket_step io origin can_send acc s (Received frame) =
    (frames, acc', elsewhere (st_queue t') (st_permit t') s, go).
Proof.
  intros Hq H. pose proof (alike_same s t H) as Hs.
  destruct frame as [[[text|payload| |]|e]|]; cbn [socket_step]; try (by rewrite Hs).
  - pose proof (answered_alike s t text origin Hq H) as Ha.
    destruct (handle_client_text (io_parse io) t text origin) as [out t']. rewrite Ha.
    by destruct (send_message io can_send (co_response out)).
  - destruct can_send; by rewrite Hs.
Qed.

Lemma arrive_outside a : welcome a = true → outside (arrive a).
Proof.
  intros Ha y s H. assert (with_state s y = with_state
    (elsewhere (st_queue (sy_state y)) (st_permit (sy_state y)) s) y) as Hs
    by by rewrite (alike_same s (sy_state y) H).
  destruct a as [i can_send frame| |]; cbn [arrive sy_connections sy_state sy_remote with_state].
  - destruct (sy_connections y !! i) as [c|]; [|exact Hs].
    pose proof (stepped_alike can_send (cn_accepted c) (cn_origin c) s (sy_state y) frame Ha H) as Hst.
    destruct (socket_step io (cn_origin c) can_send (cn_accepted c) (sy_state y) (Received frame))
      as [[[frames acc] t'] go]. by rewrite Hst.
  - destruct (sy_remote y); cbn [sy_state with_remote]; by rewrite (alike_same s (sy_state y) H).
  - destruct (sy_remote y); cbn [sy_state with_remote]; by rewrite (alike_same s (sy_state y) H).
Qed.
(** An arrival is a step of [System], or nothing; the worker keeps its job. *)
Lemma arrive_steps a y :
  sy_worker (arrive a y) = sy_worker y ∧ rtc (system_step io to_str listen_addr) y (arrive a y).
Proof.
  destruct a as [i can_send frame| |]; cbn [arrive].
  - destruct (sy_connections y !! i) as [c|] eqn:Hc; [|by split].
    destruct (socket_step _ _ _ _ _ _) as [[[frames acc] t'] go] eqn:Hst.
    split; [done|]. eapply rtc_once, step_frame; [exact Hc|exact Hst].
  - destruct (sy_remote y) eqn:Hr; try by split.
    split; [done|]. by apply rtc_once, step_remote_waits.
  - destruct (sy_remote y) eqn:Hr; try by split.
    split; [done|]. by apply rtc_once, step_remote_timer.
Qed.
Lemma arrivals_steps arrivals y :
  sy_worker (afterwards (map arrive arrivals) y) = sy_worker y ∧
  rtc (system_step io to_str listen_addr) y (afterwards (map arrive arrivals) y).
Proof.
  revert y. induction arrivals as [|a arrivals IH]; intros y; [by split|].
  destruct (arrive_steps a y) as [H1 H2], (IH (arrive a y)) as [H3 H4].
  split; [by rewrite <-H1|by etrans].
Qed.

(** C8: The finer steps reach nothing new: whatever clients send, but for the questions
    about printers, and whenever the remote worker starts or ends its wait, between any
    two actions of the print worker in the course of a job, the system gets exactly to
    the states it gets to when a job is one step. *)
Theorem interleaving_adds_nothing (y y' : System) :
  rtc fine_step y y' ↔ rtc (system_step io to_str listen_addr) y y'.
Proof.
  split; induction 1 as [|y y1 y2 Hstep _ IH]; try done.
  - etrans; [|exact IH]. destruct Hstep as [y1 Hstep|q arrivals m' Hw Ha Hm]; [by apply rtc_once|].
    rewrite (shuffled_first _ _ _ Hm) by
      (apply Forall_map; eapply Forall_impl; [exact Ha|apply arrive_outside]).
    destruct (arrivals_steps arrivals y) as [H1 H2]. etrans; [exact H2|].
    rewrite Hw in H1. eapply rtc_once. revert H1. generalize (afterwards (map arrive arrivals) y).
    intros z Hz. unfold run_on, zoom.
    pose proof (step_process io to_str listen_addr z q Hz) as Hp.
    by destruct (process_job q (sy_state z)).
  - eapply rtc_l; [by apply fine_other|exact IH].
Qed.
End interleave.

(** ** Witness: a client submits while the job of another is processed *)

#[local] Existing Instance toy_http.
#[local] Existing Instance toy_zip.
Definition toy_busy : System := toy_performs (toy_submit ++ [Look]).
Definition toy_arrival : System → System := arrive toy_system_io (Receives 1 true (Some (Ok (WsText "c")))).
Definition toy_taken : QueuedJob := mkQueuedJob "r" None (toy_raw "a") None false.
(** It arrives after the job was announced and before its options are looked up. *)
Definition toy_disturbed : M System Empty_set unit := λ y,
  match run_on (push_log toy_taken Queued "queued") y with
  | (Ok _, y1) =>
      run_on (r ← attempt (process_job_inner toy_taken);
              match r with
              | Ok _ => mret tt
              | Err error => push_log toy_taken Failed (ProcessJobError_display error)
              end) (toy_arrival y1)
  | (Err e, y1) => (Err e, toy_arrival y1)
  end.
Definition toy_crowded : System := finish toy_taken (toy_disturbed toy_busy).2.

Lemma interleaving_adds_nothing_witness :
  sy_worker toy_busy = Working toy_taken ∧
  bool_decide (ids_of (accepted toy_crowded) = ["a"; "b"; "c"]) = true ∧
  ids_of (sy_done toy_crowded) = ["a"] ∧ rtc toy_step toy_start toy_crowded.
Proof.
  assert (sy_worker toy_busy = Working toy_taken) as Hw by (vm_compute; reflexivity).
  split; [exact Hw|]. split; [vm_compute; reflexivity|]. split; [vm_compute; reflexivity|].
  etrans; [apply (toy_run (toy_submit ++ [Look]))|].
  apply (interleaving_adds_nothing toy_system_io Some (mkSocketAddr (v4 127 0 0 1) 17890)).
  apply rtc_once. unfold toy_crowded.
  apply (fine_process _ _ _ _ _ [Receives 1 true (Some (Ok (WsText "c")))]);
    [exact Hw|by constructor|].
  unfold process_job, toy_disturbed. apply (sh_bind [] [toy_arrival]); [apply push_framed|apply sh_alone|].
  intros []. apply sh_before, sh_alone.
Defined.
