(* ===== verification/Session.v ===== *)
(** * A session of the desktop application ([apps/desktop/src-tauri/src/lib.rs], [tray.rs])

    [run] and what it wires together: the setup that assembles and starts the agent,
    the events of the main window, the menu and the icon of the tray, the calls of the
    window, and the tasks the tray spawns.  The agent is the system of [System]; a
    session runs it and everything else interleaved ([session_step]), until the
    application ends.

    [session_refines_agent] carries every theorem of [System] over to the desktop
    application; [session_lifecycle] says what ends it; [setup_outcome] that it starts
    where those theorems ask. *)

From S2P Require Import Prelude RustStr F64 NetAddr Externs Toy FileSys PrintTypes Printing.
From S2P Require Import Protocol IpWhitelist Config JobQueue Download Document Office Converters.
From S2P Require Import Activity Sqlite TaskHistory RemoteStore State TestPrint ResourcePolicy.
From S2P Require Import Proxy Browser Renderer ConfigTransfer Worker WorkerSpec Server RemoteClient.
From S2P Require Import RemoteWorker Commands Doctor Executor Cli Ipc Agent Desktop Apps System.
Open Scope string_scope.
Open Scope N_scope.
Open Scope list_scope.

(** ** The application *)

(** The main window. *)
Record Window := mkWindow { wd_visible : bool; wd_minimized : bool; wd_focused : bool }.
Definition hide (w : Window) : Window := mkWindow false (wd_minimized w) false.
Definition unminimize (w : Window) : Window := mkWindow (wd_visible w) false (wd_focused w).
Definition show (w : Window) : Window := mkWindow true (wd_minimized w) (wd_focused w).
Definition set_focus (w : Window) : Window := mkWindow (wd_visible w) (wd_minimized w) true.

(** A task the tray spawned: a test print; the end of a toggle of the autostart entry,
    about to read the configuration; the same, about to save what it made of it. *)
Inductive SpawnedTask := PrintTask | ReadConfigTask (next_enabled : bool) | SaveConfigTask (config : AgentConfig).
(** How the application ends. *)
Inductive AppExit := Exited (code : N) | Restarting.

(** The agent, whether its state was handed to the application ([app.manage]), the
    autostart entry, the language of the tray menu, the window, whether the dock shows
    the application (macOS), the spawned tasks, the errors logged, and the end. *)
Record Session := mkSession {
  se_agent : System;
  se_managed : bool;
  se_autostart : bool;
  se_tray : UiLanguage;
  se_tick : nat;
  se_window : option Window;
  se_dock : bool;
  se_tasks : list SpawnedTask;
  se_errors : list string;
  se_exit : option AppExit
}.
Definition put_agent (y : System) (d : Session) : Session :=
  mkSession y (se_managed d) (se_autostart d) (se_tray d) (se_tick d) (se_window d) (se_dock d)
    (se_tasks d) (se_errors d) (se_exit d).
Definition put_window (w : option Window) (d : Session) : Session :=
  mkSession (se_agent d) (se_managed d) (se_autostart d) (se_tray d) (se_tick d) w (se_dock d)
    (se_tasks d) (se_errors d) (se_exit d).
Definition put_dock (b : bool) (d : Session) : Session :=
  mkSession (se_agent d) (se_managed d) (se_autostart d) (se_tray d) (se_tick d) (se_window d) b
    (se_tasks d) (se_errors d) (se_exit d).
Definition put_tasks (l : list SpawnedTask) (d : Session) : Session :=
  mkSession (se_agent d) (se_managed d) (se_autostart d) (se_tray d) (se_tick d) (se_window d)
    (se_dock d) l (se_errors d) (se_exit d).
Definition log_error (e : string) (d : Session) : Session :=
  mkSession (se_agent d) (se_managed d) (se_autostart d) (se_tray d) (se_tick d) (se_window d)
    (se_dock d) (se_tasks d) (se_errors d ++ [e]) (se_exit d).
Definition end_app (e : AppExit) (d : Session) : Session :=
  mkSession (se_agent d) (se_managed d) (se_autostart d) (se_tray d) (se_tick d) (se_window d)
    (se_dock d) (se_tasks d) (se_errors d) (Some e).
Definition next_question (d : Session) : Session :=
  mkSession (se_agent d) (se_managed d) (se_autostart d) (se_tray d) (S (se_tick d)) (se_window d)
    (se_dock d) (se_tasks d) (se_errors d) (se_exit d).
Definition spawn_task (t : SpawnedTask) (d : Session) : Session := put_tasks (se_tasks d ++ [t]) d.

(** The part of it the handlers of [Desktop] run on, and what they leave: the commands
    run, and whether the configuration was saved, which wakes the remote worker. *)
Definition gui_of (d : Session) : Gui :=
  mkGui (sy_state (se_agent d)) (se_autostart d) (se_tray d) (se_tick d).
Definition put_gui (g : Gui) (ran : list Command) (saved : bool) (d : Session) : Session :=
  let y := se_agent d in
  mkSession (mkSystem (gu_state g) (sy_connections y) (sy_worker y) (sy_done y)
               (sy_commands y ++ ran) (notify_waiters saved (sy_remote y)))
    (se_managed d) (gu_autostart g) (gu_tray g) (gu_tick g) (se_window d) (se_dock d)
    (se_tasks d) (se_errors d) (se_exit d).

(** The directory of the configuration, the creation of the tray, the resource of the
    print backend, whether the [n]-th call on the window or the dock works, and whether
    this is a debug build. *)
Class SessionEnv := {
  sx_config_dir : result string string;
  sx_setup_tray : result string unit;
  sx_sumatra : result string string;
  sx_works : nat → bool;
  sx_debug : bool
}.

(** What happens to the application.  [PageRelaunch] is the page's call of the process
    plugin ([relaunchApp] of updater.ts); [FrameworkExit] is any other end that comes
    from outside this code: the [exit] of the same plugin, an update that installs
    itself, the default menu of macOS, the platform. *)
Inductive MouseButton := LeftButton | RightButton | MiddleButton.
Inductive AppEvent :=
  | WindowClose (label : string)
  | WindowOther (label : string)
  | TrayMenu (id : string)
  | TrayClick (button : MouseButton) (up : bool)
  | TrayOther
  | Reopen (has_visible_windows : bool)
  | Invoke (call : GuiCall)
  | PageRelaunch
  | FrameworkExit (code : N).

Definition call_command (c : GuiCall) : Command :=
  match c with
  | GGetConfig => GetConfig
  | GRunDoctor => Doctor Desktop
  | GSaveConfig config => SaveConfig config
  | GExport path password options => ExportConfig path password options
  | GPreview path password => PreviewConfigImport path password
  | GImport path password hash => ImportConfig path password hash
  | GTestRemote config => TestRemoteConnection config
  | GLogs => GetLogs
  | GHistory => GetTaskHistory
  | GHistoryEvents job_id => GetTaskHistoryEvents job_id
  | GClearHistory => ClearTaskHistory
  | GPrintTest config => TestPrint config
  | GPrinters => ListPrinters
  | GPapers printer_name => ListPapers printer_name
  end.

Section session.
Context (pf : Platform) `{U : UrlOps, HT : !HttpOps, B : Base64Ops, I : IpNetOps,
          J : !JsonCodec AgentConfig, IM : !ImageOps, ZI : !ZipOps, P : !ProxyEnv, R : !RuntimeEnv,
          TJ : !TaskJson, RE : !RemoteEnv, V : !ConverterEnv, D : !DoctorEnv, C : !TransferCrypto,
          JP : !JsonCodec ConfigTransferPayload, JF : !JsonCodec EncryptedConfigFile,
          X : !ExecutorEnv, G : !GuiEnv, L : !LaunchEnv, SE : !SessionEnv}.
Context (io : SocketIo) (to_str : string → option string) (listen_addr : SocketAddr).

(** ** The window *)

(** A call on the window or the dock; its failure is ignored. *)
Definition on_window (f : Window → Window) (d : Session) : Session :=
  let works := sx_works (se_tick d) in
  let d := next_question d in
  match se_window d with
  | Some w => if works : bool then put_window (Some (f w)) d else d
  | None => d
  end.
Definition set_dock_visibility (visible : bool) (d : Session) : Session :=
  match pf with
  | MacOs =>
      let works := sx_works (se_tick d) in
      let d := next_question d in
      if works : bool then put_dock visible d else d
  | _ => d
  end.

Definition show_main_window (d : Session) : Session :=
  let d := set_dock_visibility true d in
  match se_window d with
  | None => d
  | Some _ => on_window set_focus (on_window show (on_window unminimize d))
  end.

(** The closure of [on_window_event], and whether it prevented the closing. *)
Definition on_window_event (label : string) (close : bool) (d : Session) : bool * Session :=
  if bool_decide (label = "main") && close
  then (true, set_dock_visibility false (on_window hide d))
  else (false, d).
(** A window that is closed is destroyed, and with the last one, the main window, the
    application ends. *)
Definition close_requested (label : string) (d : Session) : Session :=
  let '(prevented, d) := on_window_event label true d in
  if prevented : bool then d
  else if bool_decide (label = "main") then end_app (Exited 0) (put_window None d)
  else d.

(** The closure of [app.run]. *)
Definition should_show_main_window_on_reopen (has_visible_windows : bool) : bool :=
  negb has_visible_windows.
Definition on_run_event (has_visible_windows : bool) (d : Session) : Session :=
  match pf with
  | MacOs => if should_show_main_window_on_reopen has_visible_windows then show_main_window d else d
  | _ => d
  end.

(** ** The tray *)

Definition test_print (d : Session) : Session :=
  if se_managed d then spawn_task PrintTask d
  else log_error "failed to run test print: app state is not initialized" d.
Definition toggle (d : Session) : Session :=
  let '(r, g) := toggle_entry (gui_of d) in
  let d := put_gui g [] false d in
  match r with
  | Err error => log_error error d
  | Ok next_enabled =>
      if se_managed d then spawn_task (ReadConfigTask next_enabled) d
      else log_error "failed to persist autostart state: app state is not initialized" d
  end.
(** The closure of [on_menu_event]. *)
Definition on_menu_event (id : string) (d : Session) : Session :=
  match menu_event id with
  | ShowWindow => show_main_window d
  | RunTestPrint => test_print d
  | RestartApp => end_app Restarting d
  | ToggleAutostart => toggle d
  | Quit => end_app (Exited 0) d
  | NoAction => d
  end.
(** [is_debug_build], the handler. *)
Definition is_debug_build : bool := sx_debug.
(** An item that is not enabled cannot be chosen. *)
Definition menu_enabled (id : string) : bool := negb (bool_decide (id = "restart_app")) || negb sx_debug.
(** The closure of [on_tray_icon_event]. *)
Definition on_tray_icon_event (click : option (MouseButton * bool)) (d : Session) : Session :=
  match click with Some (LeftButton, true) => show_main_window d | _ => d end.

(** ** The calls of the window *)

(** What [save_config] does before it saves. *)
Definition prepare_save (config : AgentConfig) : M Gui HandlerError unit :=
  current ← gets (λ g, st_config (gu_state g));
  _ ← (if negb (sv_port (cfg_service config) =? sv_port (cfg_service current))
       then handler_error KInvalidInput (check_service_port_available (sv_port (cfg_service config)))
       else mret tt);
  handler_error KRuntime (apply_autostart (ap_autostart (cfg_app config))).
(** The command a call runs, if it gets that far. *)
Definition commands_of (c : GuiCall) (g : Gui) : list Command :=
  match c with
  | GSaveConfig config => if is_ok (prepare_save config g).1 then [SaveConfig config] else []
  | _ => [call_command c]
  end.
Definition invoke (c : GuiCall) (d : Session) : Session :=
  let '(r, g) := gui_run listen_addr c (gui_of d) in
  put_gui g (commands_of c (gui_of d)) (saves (call_command c) && is_ok r) d.

(** ** The steps of a session *)

Definition deliver (e : AppEvent) (d : Session) : Session :=
  match e with
  | WindowClose label => close_requested label d
  | WindowOther label => (on_window_event label false d).2
  | TrayMenu id => if menu_enabled id then on_menu_event id d else d
  | TrayClick button up => on_tray_icon_event (Some (button, up)) d
  | TrayOther => on_tray_icon_event None d
  | Reopen has_visible_windows => on_run_event has_visible_windows d
  | Invoke c => invoke c d
  | PageRelaunch => end_app Restarting d
  | FrameworkExit code => end_app (Exited code) d
  end.

(** The next part of the [k]-th spawned task. *)
Definition run_task (k : nat) (d : Session) : Session :=
  let config := st_config (sy_state (se_agent d)) in
  match se_tasks d !! k with
  | None => d
  | Some PrintTask =>
      let '(r, g) := tray_test_print (gui_of d) in
      let d := put_tasks (delete k (se_tasks d)) (put_gui g [TestPrint config] false d) in
      match r with Ok _ => d | Err error => log_error ("test print failed: " +:+ error) d end
  | Some (ReadConfigTask next_enabled) =>
      put_tasks (<[k := SaveConfigTask (with_autostart next_enabled config)]> (se_tasks d)) d
  | Some (SaveConfigTask config) =>
      let '(r, g) := on_state (save_config config) (gui_of d) in
      let d := put_tasks (delete k (se_tasks d)) (put_gui g [SaveConfig config] (is_ok r) d) in
      match r with
      | Ok _ => d
      | Err error => log_error ("failed to persist autostart config: " +:+ io_message error) d
      end
  end.

Inductive Label := AgentWorks | Happens (e : AppEvent) | TaskRuns (k : nat).
Inductive session_step (d : Session) : Label → Session → Prop :=
  | ss_agent y :
      se_exit d = None → system_step io to_str listen_addr (se_agent d) y →
      session_step d AgentWorks (put_agent y d)
  | ss_event e : se_exit d = None → session_step d (Happens e) (deliver e d)
  | ss_task k : se_exit d = None → session_step d (TaskRuns k) (run_task k d).
Inductive session_run (d : Session) : list Label → Session → Prop :=
  | sr_nil : session_run d [] d
  | sr_snoc ls l d1 d2 : session_run d ls d1 → session_step d1 l d2 → session_run d (ls ++ [l]) d2.

(** The same, executable, for the events and the tasks. *)
Definition play (l : Label) (d : Session) : option Session :=
  match l, se_exit d with
  | Happens e, None => Some (deliver e d)
  | TaskRuns k, None => Some (run_task k d)
  | _, _ => None
  end.
Fixpoint plays (ls : list Label) (d : Session) : option Session :=
  match ls with
  | [] => Some d
  | l :: ls => d' ← play l d; plays ls d'
  end.
Lemma plays_run d0 ls1 ls d d' :
  session_run d0 ls1 d → plays ls d = Some d' → session_run d0 (ls1 ++ ls) d'.
Proof.
  revert ls1 d. induction ls as [|l ls IH]; intros ls1 d Hr Hp.
  { injection Hp as <-. by rewrite app_nil_r. }
  simpl in Hp. destruct (play l d) as [d1|] eqn:Hl; [|done].
  change (l :: ls) with ([l] ++ ls). rewrite app_assoc. apply (IH _ d1); [|exact Hp].
  apply (sr_snoc _ _ _ d); [exact Hr|]. unfold play in Hl. destruct (se_exit d) eqn:He; [by destruct l|].
  destruct l; [done|injection Hl as <-; by apply ss_event|injection Hl as <-; by apply ss_task].
Qed.

(** ** Setting up *)

(** [print_backend] *)
Definition print_backend_ready : result string unit :=
  match pf with Windows => _ ← sx_sumatra; Ok tt | _ => Ok tt end.
(** The closure of [setup], with the text of its error; [display] is rusqlite's for
    its errors.  The agent's tasks begin with nothing done. *)
Definition setup (display : SqlError → string) (autostart : bool) : M Fs string (SocketAddr * Session) :=
  app_config_dir ← lift sx_config_dir;
  _ ← mapping_err io_message (fs_create_dir_all app_config_dir);
  let config_path := path_join pf app_config_dir "config.json" in
  config ← mapping_err io_message (load config_path);
  _ ← lift sx_setup_tray;
  _ ← lift print_backend_ready;
  let paths := mkRuntimePaths config_path app_config_dir (path_join pf app_config_dir "run") in
  state ← mapping_err (RuntimeError_display display) (build pf paths);
  λ _, let '(r, s) := start pf paths state in
       (addr ← map_err (RuntimeError_display display) r;
        Ok (addr,
          mkSession (mkSystem s ∅ Polling [] [] RReady) true autostart (ap_language (cfg_app config)) 0
            (Some (mkWindow false false false)) (negb (bool_decide (pf = MacOs))) [] [] None),
        st_fs s).
End session.

(** ** What the handlers do to the agent *)

Section handlers.
Context `{U : UrlOps, HT : !HttpOps, B : Base64Ops, I : IpNetOps,
          J : !JsonCodec AgentConfig, IM : !ImageOps, ZI : !ZipOps, P : !ProxyEnv, R : !RuntimeEnv,
          TJ : !TaskJson, RE : !RemoteEnv, V : !ConverterEnv, D : !DoctorEnv, C : !TransferCrypto,
          JP : !JsonCodec ConfigTransferPayload, JF : !JsonCodec EncryptedConfigFile,
          X : !ExecutorEnv, G : !GuiEnv}.
Context (listen_addr : SocketAddr).
Implicit Types (g : Gui).

(** The service of the window is its executor: it always answers. *)
Lemma gui_service_online command g :
  service_execute (gui_service listen_addr) command g = gui_executor listen_addr command g.
Proof.
  unfold service_execute. destruct (policy command); [by cbn|cbn [gui_service cs_online]|done].
  rewrite attempt_bind. unfold gui_executor, on_state, zoom.
  pose proof (executor_kinds listen_addr command (gu_state g)) as Hk.
  destruct (runtime_execute listen_addr command (gu_state g)) as [[r|e] s]; [done|].
  rewrite bool_decide_eq_false_2; [done|]. intros He.
  specialize (Hk e eq_refl). unfold executor_kind in Hk. rewrite He in Hk. naive_solver.
Qed.

(** The handler runs [command] and nothing else, and succeeds when it does. *)
Definition runs {A} (m : M Gui HandlerError A) (command : Command) : Prop :=
  ∀ g, gu_state (m g).2 = (runtime_execute listen_addr command (gu_state g)).2 ∧
    is_ok (m g).1 = is_ok (runtime_execute listen_addr command (gu_state g)).1.

Lemma call_runs {A} command unexpected (project : CommandResult → option A) :
  (∀ r, answers command r = true → is_some (project r) = true) →
  runs (call listen_addr command unexpected project) command.
Proof.
  intros Hp g. unfold call. rewrite M_bind_eq. unfold mapping_err. rewrite gui_service_online.
  pose proof (gui_executor_typed listen_addr command g) as Ht. revert Ht.
  unfold gui_executor, on_state, zoom.
  destruct (runtime_execute listen_addr command (gu_state g)) as [[r|e] s]; intros Ht; simpl; [|done].
  specialize (Hp r (Ht r eq_refl)). by destruct (project r).
Qed.
Lemma call_unit_runs command : runs (call_unit listen_addr command) command.
Proof.
  intros g. unfold call_unit. rewrite M_bind_eq. unfold mapping_err. rewrite gui_service_online.
  unfold gui_executor, on_state, zoom.
  by destruct (runtime_execute listen_addr command (gu_state g)) as [[r|e] s].
Qed.
Lemma drop_runs {A} (m : M Gui HandlerError A) command : runs m command → runs (drop_result m) command.
Proof.
  intros H g. destruct (H g) as [H1 H2]. unfold drop_result. rewrite M_bind_eq.
  destruct (m g) as [[a|e] g']; by split.
Qed.

Lemma prepare_state config g : gu_state (prepare_save config g).2 = gu_state g.
Proof.
  unfold prepare_save. rewrite gets_bind, M_bind_eq.
  match goal with |- context [(if ?b then ?m else ?k) g] =>
    destruct ((if b then m else k) g) as [r1 g1] eqn:H1 end.
  assert (gu_state g1 = gu_state g) as Hg.
  { destruct (negb _) in H1; [|by injection H1 as _ <-].
    unfold handler_error, mapping_err, check_service_port_available in H1.
    destruct (negb _) in H1; [by injection H1 as _ <-|].
    unfold gui_tick in H1. cbv [mbind M_bind] in H1. by destruct (gx_bind _ _); injection H1 as _ <-. }
  destruct r1 as [[]|e]; [|exact Hg]. unfold handler_error, mapping_err.
  pose proof (apply_autostart_outcome (ap_autostart (cfg_app config)) g1) as Ha.
  destruct (apply_autostart _ g1) as [r2 g2]. destruct Ha as [Ha _]. simpl. congruence.
Qed.
(** What [save_config] does after its preparation. *)
Definition finish_save (config current : AgentConfig) : M Gui HandlerError AgentConfig :=
  result ← attempt (service_execute (gui_service listen_addr) (SaveConfig config));
  match result with
  | Ok (RConfig saved) =>
      _ ← attempt (apply_tray_language (ap_language (cfg_app saved)));
      mret saved
  | Ok _ => raise (HUnreachable "SaveConfig returned an unexpected result")
  | Err error =>
      restored ← attempt (apply_autostart (ap_autostart (cfg_app current)));
      match restored with
      | Err rollback_error =>
          raise (HError (mkCommandError KRuntime
            (ce_message error +:+ "; failed to restore the previous autostart setting: " +:+
             rollback_error)))
      | Ok _ => raise (HError error)
      end
  end.
Lemma save_parts config g :
  h_save_config listen_addr config g =
    (_ ← prepare_save config; finish_save config (st_config (gu_state g))) g.
Proof.
  unfold h_save_config, prepare_save. rewrite gets_bind, !M_bind_eq.
  cbv [gets]. cbv beta iota. rewrite M_bind_eq.
  match goal with |- context [(if ?b then ?m else ?k) g] =>
    by destruct ((if b then m else k) g) as [[[]|e] g1] end.
Qed.
Lemma finish_save_runs config current : runs (finish_save config current) (SaveConfig config).
Proof.
  intros g. unfold finish_save. rewrite attempt_bind, gui_service_online.
  pose proof (gui_executor_typed listen_addr (SaveConfig config) g) as Ht. revert Ht.
  unfold gui_executor, on_state, zoom.
  destruct (runtime_execute listen_addr (SaveConfig config) (gu_state g)) as [[r|e] s]; intros Ht.
  - specialize (Ht r eq_refl). destruct r; try discriminate Ht. rewrite attempt_bind.
    unfold apply_tray_language, gui_tick. cbv [mbind M_bind]. by destruct (gx_tray _).
  - rewrite attempt_bind.
    pose proof (apply_autostart_outcome (ap_autostart (cfg_app current)) (gu_set_state s g)) as Ha.
    destruct (apply_autostart _ _) as [[[]|e'] g']; destruct Ha as [Ha _]; by split.
Qed.

(** A call of the window runs its command, or fails before and leaves the agent alone. *)
Definition ran (command : Command) (commands : list Command) (g : Gui) (out : result HandlerError unit * Gui)
  : Prop :=
  (commands = [] ∧ gu_state out.2 = gu_state g ∧ is_ok out.1 = false) ∨
  (commands = [command] ∧ gu_state out.2 = (runtime_execute listen_addr command (gu_state g)).2 ∧
   is_ok out.1 = is_ok (runtime_execute listen_addr command (gu_state g)).1).
Lemma runs_ran m command g : runs m command → ran command [command] g (m g).
Proof. intros H. right. split; [done|apply H]. Qed.
Lemma save_ran config g :
  ran (SaveConfig config) (commands_of (GSaveConfig config) g) g
    (gui_run listen_addr (GSaveConfig config) g).
Proof.
  cbn [gui_run]. unfold drop_result. rewrite M_bind_eq, save_parts, M_bind_eq.
  pose proof (prepare_state config g) as Hp. unfold commands_of.
  destruct (prepare_save config g) as [[[]|e] g1]; simpl in Hp; [right|by left].
  destruct (finish_save_runs config (st_config (gu_state g)) g1) as [H1 H2]. rewrite Hp in H1, H2.
  by destruct (finish_save config (st_config (gu_state g)) g1) as [[a|e] g2].
Qed.
Lemma gui_run_ran c g : ran (call_command c) (commands_of c g) g (gui_run listen_addr c g).
Proof.
  destruct c; try apply save_ran; cbn [commands_of call_command]; apply runs_ran; cbn [gui_run];
    first [apply call_unit_runs | apply drop_runs, call_runs; by intros []].
Qed.
End handlers.

(** ** The agent in a session *)

Section refinement.
Context (pf : Platform) `{U : UrlOps, HT : !HttpOps, B : Base64Ops, I : IpNetOps,
          J : !JsonCodec AgentConfig, IM : !ImageOps, ZI : !ZipOps, P : !ProxyEnv, R : !RuntimeEnv,
          TJ : !TaskJson, RE : !RemoteEnv, V : !ConverterEnv, D : !DoctorEnv, C : !TransferCrypto,
          JP : !JsonCodec ConfigTransferPayload, JF : !JsonCodec EncryptedConfigFile,
          X : !ExecutorEnv, G : !GuiEnv, SE : !SessionEnv}.
Context (io : SocketIo) (to_str : string → option string) (listen_addr : SocketAddr).
Implicit Types (d : Session) (g : Gui).
Abbreviation agent_step := (system_step io to_str listen_addr).
Abbreviation sstep := (session_step pf io to_str listen_addr).

(** What the window, the dock and the end of the application are about is none of the
    agent's business. *)
Lemma on_window_agent f d : se_agent (on_window f d) = se_agent d.
Proof. unfold on_window. cbv zeta. by repeat case_match. Qed.
Lemma dock_agent b d : se_agent (set_dock_visibility pf b d) = se_agent d.
Proof. unfold set_dock_visibility. cbv zeta. by repeat case_match. Qed.
Lemma show_agent d : se_agent (show_main_window pf d) = se_agent d.
Proof.
  unfold show_main_window. destruct (se_window _); [|apply dock_agent].
  by rewrite !on_window_agent, dock_agent.
Qed.
Lemma reopen_agent b d : se_agent (on_run_event pf b d) = se_agent d.
Proof.
  unfold on_run_event. pose proof (show_agent d) as H.
  destruct (should_show_main_window_on_reopen b); by destruct pf.
Qed.
Lemma close_agent label d : se_agent (close_requested pf label d) = se_agent d.
Proof.
  unfold close_requested, on_window_event. destruct (_ && true).
  - by rewrite dock_agent, on_window_agent.
  - by case_bool_decide.
Qed.
Lemma quiet_gui g d : gu_state g = sy_state (se_agent d) → se_agent (put_gui g [] false d) = se_agent d.
Proof.
  intros Hg. unfold put_gui. simpl. rewrite Hg, app_nil_r. destruct (se_agent d) as [s c w l k r].
  by destruct r.
Qed.

Lemma toggle_state g : gu_state (toggle_entry g).2 = gu_state g.
Proof.
  unfold toggle_entry, autostart_is_enabled, autostart_set, gui_tick, mapping_err.
  cbv [mbind M_bind]. destruct (gx_read_autostart _); simpl; [done|]. by destruct (gx_write_autostart _).
Qed.
Lemma toggle_agent d : se_agent (toggle d) = se_agent d.
Proof.
  unfold toggle. pose proof (toggle_state (gui_of d)) as H.
  destruct (toggle_entry (gui_of d)) as [[b|e] g]; simpl in H; [|by apply quiet_gui].
  destruct (se_managed _); by apply quiet_gui.
Qed.
Lemma menu_agent id d : se_agent (on_menu_event pf id d) = se_agent d.
Proof.
  unfold on_menu_event. destruct (menu_event id); try done;
    [apply show_agent|unfold test_print; by destruct (se_managed d)|apply toggle_agent].
Qed.

(** A command that ran is a step of the agent. *)
Lemma put_gui_steps g command saved d :
  gu_state g = (runtime_execute listen_addr command (sy_state (se_agent d))).2 →
  saved = saves command && is_ok (runtime_execute listen_addr command (sy_state (se_agent d))).1 →
  agent_step (se_agent d) (se_agent (put_gui g [command] saved d)).
Proof.
  intros Hg ->. unfold put_gui. simpl. rewrite Hg. apply step_command. by destruct (runtime_execute _ _ _).
Qed.
Lemma invoke_steps c d : rtc agent_step (se_agent d) (se_agent (invoke listen_addr c d)).
Proof.
  unfold invoke. pose proof (gui_run_ran listen_addr c (gui_of d)) as H.
  destruct (gui_run listen_addr c (gui_of d)) as [r g]. destruct H as [(->&Hg&Hr)|(->&Hg&Hr)];
    simpl in Hg, Hr; rewrite Hr.
  - rewrite andb_false_r, quiet_gui; done.
  - by apply rtc_once, put_gui_steps.
Qed.
Lemma test_print_runs config s : st_config s = config →
  (print_calibration_page s).2 = (runtime_execute listen_addr (TestPrint config) s).2.
Proof.
  intros <-. unfold print_calibration_page. rewrite gets_bind. simpl. rewrite M_bind_eq. unfold mapping_err.
  by destruct (print_calibration_page_with_config (st_config s) s) as [[]].
Qed.
Lemma save_runs config s :
  (save_config config s).2 = (runtime_execute listen_addr (SaveConfig config) s).2 ∧
  is_ok (save_config config s).1 = is_ok (runtime_execute listen_addr (SaveConfig config) s).1.
Proof.
  simpl. rewrite M_bind_eq. unfold mapping_err. by destruct (save_config config s) as [[]].
Qed.
Lemma task_steps k d : rtc agent_step (se_agent d) (se_agent (run_task k d)).
Proof.
  unfold run_task. destruct (se_tasks d !! k) as [[|next_enabled|config]|]; try done.
  - unfold tray_test_print, mapping_err, on_state, zoom.
    pose proof (test_print_runs (st_config (sy_state (se_agent d))) (sy_state (se_agent d)) eq_refl) as H.
    cbn [gui_of gu_state]. destruct (print_calibration_page (sy_state (se_agent d))) as [r s].
    assert (agent_step (se_agent d) (se_agent (put_gui (gu_set_state s (gui_of d))
      [TestPrint (st_config (sy_state (se_agent d)))] false d))) as Hs by by apply put_gui_steps.
    destruct r as [[]|e]; by apply rtc_once.
  - unfold on_state, zoom. cbn [gui_of gu_state].
    destruct (save_runs config (sy_state (se_agent d))) as [H1 H2].
    destruct (save_config config (sy_state (se_agent d))) as [r s]. simpl in H1, H2.
    assert (agent_step (se_agent d) (se_agent (put_gui (gu_set_state s (gui_of d)) [SaveConfig config]
      (is_ok r) d))) as Hs by by apply put_gui_steps.
    destruct r as [c|e]; by apply rtc_once.
Qed.
Lemma step_steps d l d' : sstep d l d' → rtc agent_step (se_agent d) (se_agent d').
Proof.
  intros [y _ H|e _|k _]; [by apply rtc_once| |apply task_steps].
  destruct e as [label|label|id|button up| |b|c| |code]; cbn [deliver]; [..|done|done].
  - by rewrite close_agent.
  - unfold on_window_event. by rewrite andb_false_r.
  - destruct (menu_enabled id); by rewrite ?menu_agent.
  - unfold on_tray_icon_event. destruct button, up; by rewrite ?show_agent.
  - done.
  - by rewrite reopen_agent.
  - apply invoke_steps.
Qed.

(** C10: Whatever happens in a session of the desktop application, the agent in it goes
    through steps of the agent alone: a call of the window, a click in the tray or a
    task it spawned is a command or nothing to it.  Every theorem about what an agent
    reaches holds of the desktop application. *)
Theorem session_refines_agent d0 ls d :
  session_run pf io to_str listen_addr d0 ls d →
  rtc (system_step io to_str listen_addr) (se_agent d0) (se_agent d).
Proof.
  induction 1 as [|ls l d1 d2 _ IH Hs]; [done|]. etrans; [exact IH|by eapply step_steps].
Qed.
End refinement.

(** ** The life of a session *)

Section lifecycle.
Context (pf : Platform) `{U : UrlOps, HT : !HttpOps, B : Base64Ops, I : IpNetOps,
          J : !JsonCodec AgentConfig, IM : !ImageOps, ZI : !ZipOps, P : !ProxyEnv, R : !RuntimeEnv,
          TJ : !TaskJson, RE : !RemoteEnv, V : !ConverterEnv, D : !DoctorEnv, C : !TransferCrypto,
          JP : !JsonCodec ConfigTransferPayload, JF : !JsonCodec EncryptedConfigFile,
          X : !ExecutorEnv, G : !GuiEnv, SE : !SessionEnv}.
Context (io : SocketIo) (to_str : string → option string) (listen_addr : SocketAddr).
Implicit Types (d : Session).
Abbreviation lstep := (session_step pf io to_str listen_addr).

(** A session just set up, its window hidden. *)
Definition opened d : Prop :=
  se_managed d = true ∧ se_window d = Some (mkWindow false false false) ∧
  se_dock d = negb (bool_decide (pf = MacOs)) ∧ se_tasks d = [] ∧ se_errors d = [] ∧ se_exit d = None.

(** The dock shows the application when its window is shown. *)
Definition dock_follows d : Prop :=
  (∀ n, sx_works n = true) → pf = MacOs → wd_visible <$> se_window d = Some (se_dock d).
Record kept d d' : Prop := {
  kp_exit : se_exit d' = se_exit d;
  kp_managed : se_managed d' = se_managed d;
  kp_window : is_some (se_window d') = is_some (se_window d);
  kp_dock : dock_follows d → dock_follows d'
}.
#[local] Instance kept_preorder : PreOrder kept.
Proof.
  split; [by split|]. intros d1 d2 d3 [] []. split; [congruence..|]. auto.
Qed.

Lemma kept_same d d' :
  se_exit d' = se_exit d → se_managed d' = se_managed d → se_window d' = se_window d →
  se_dock d' = se_dock d → kept d d'.
Proof. intros ? ? Hw Hd. split; try done; [by rewrite Hw|]. unfold dock_follows. by rewrite Hw, Hd. Qed.
(** A call on the window or the dock leaves the rest alone, and does what it says when
    it works. *)
Definition same_frame d d' : Prop :=
  se_exit d' = se_exit d ∧ se_managed d' = se_managed d ∧ is_some (se_window d') = is_some (se_window d).
#[local] Instance same_frame_preorder : PreOrder same_frame.
Proof. split; [by intros d|]. intros d1 d2 d3 (?&?&?) (?&?&?). split_and!; congruence. Qed.
Lemma on_window_frame f d : same_frame d (on_window f d).
Proof. unfold on_window. destruct d as [? ? ? ? ? [?|] ? ? ? ?]; cbn; [|done]. by destruct (sx_works _). Qed.
Lemma dock_frame b d : same_frame d (set_dock_visibility pf b d).
Proof.
  unfold set_dock_visibility. destruct pf; try reflexivity. destruct d; cbn. by destruct (sx_works _).
Qed.
Lemma on_window_works f d :
  (∀ n, sx_works n = true) →
  se_window (on_window f d) = f <$> se_window d ∧ se_dock (on_window f d) = se_dock d.
Proof.
  intros Hworks. unfold on_window. rewrite Hworks. destruct d as [? ? ? ? ? [?|] ? ? ? ?]; by cbn.
Qed.
Lemma dock_works b d :
  (∀ n, sx_works n = true) →
  se_window (set_dock_visibility pf b d) = se_window d ∧
  (pf = MacOs → se_dock (set_dock_visibility pf b d) = b).
Proof.
  intros Hworks. unfold set_dock_visibility. rewrite Hworks. destruct d. by destruct pf; cbn.
Qed.
Lemma show_frame d : same_frame d (show_main_window pf d).
Proof.
  unfold show_main_window. etrans; [apply (dock_frame true)|].
  destruct (se_window _); [|reflexivity].
  do 2 (etrans; [|apply on_window_frame]). apply on_window_frame.
Qed.
Lemma show_works d :
  (∀ n, sx_works n = true) →
  se_window (show_main_window pf d) = (λ _, mkWindow true false true) <$> se_window d ∧
  (pf = MacOs → se_dock (show_main_window pf d) = true).
Proof.
  intros Hworks. unfold show_main_window. destruct (dock_works true d Hworks) as [Hw Hd].
  destruct (se_window (set_dock_visibility pf true d)) as [w|] eqn:He; rewrite <-Hw; [|by rewrite He].
  do 3 match goal with |- context [on_window ?f ?z] =>
    destruct (on_window_works f z Hworks) as [-> ->] end. by rewrite He.
Qed.
Lemma show_kept d : kept d (show_main_window pf d).
Proof.
  destruct (show_frame d) as (H1&H2&H3). split; [done..|]. intros Hd Hworks Hpf.
  destruct (show_works d Hworks) as [-> ->]; [|done]. specialize (Hd Hworks Hpf).
  by destruct (se_window d).
Qed.
Lemma hide_kept d : kept d (set_dock_visibility pf false (on_window hide d)).
Proof.
  assert (same_frame d (set_dock_visibility pf false (on_window hide d))) as (H1&H2&H3)
    by (etrans; [apply on_window_frame|apply dock_frame]).
  split; [done..|]. intros Hd Hworks Hpf. specialize (Hd Hworks Hpf).
  destruct (dock_works false (on_window hide d) Hworks) as [-> ->]; [|done].
  destruct (on_window_works hide d Hworks) as [-> _]. by destruct (se_window d).
Qed.
Lemma reopen_kept b d : kept d (on_run_event pf b d).
Proof.
  unfold on_run_event. pose proof (show_kept d) as H.
  destruct (should_show_main_window_on_reopen b); destruct pf; done || reflexivity.
Qed.
Lemma close_kept label d : kept d (close_requested pf label d).
Proof.
  unfold close_requested, on_window_event.
  case_bool_decide; simpl; [apply hide_kept|reflexivity].
Qed.
Lemma toggle_kept d : kept d (toggle d).
Proof.
  unfold toggle. destruct (toggle_entry (gui_of d)) as [[b|e] g]; cbn;
    [destruct (se_managed d) eqn:Hm|]; by apply kept_same.
Qed.
Lemma invoke_kept c d : kept d (invoke listen_addr c d).
Proof. unfold invoke. destruct (gui_run listen_addr c (gui_of d)) as [r g]. by apply kept_same. Qed.
Lemma task_kept k d : kept d (run_task k d).
Proof.
  unfold run_task. destruct (se_tasks d !! k) as [[|next_enabled|config]|]; try by apply kept_same.
  - destruct (tray_test_print (gui_of d)) as [[[]|e] g]; by apply kept_same.
  - destruct (on_state (save_config config) (gui_of d)) as [[c|e] g]; by apply kept_same.
Qed.

(** The events that end the application. *)
Definition ending (e : AppEvent) : option AppExit :=
  match e with
  | TrayMenu id =>
      if bool_decide (id = "quit") then Some (Exited 0)
      else if bool_decide (id = "restart_app") && negb sx_debug then Some Restarting
      else None
  | PageRelaunch => Some Restarting
  | FrameworkExit code => Some (Exited code)
  | _ => None
  end.
Lemma menu_outcome id d :
  kept d (deliver pf listen_addr (TrayMenu id) d) ∧ ending (TrayMenu id) = None ∨
  ∃ x, ending (TrayMenu id) = Some x ∧ deliver pf listen_addr (TrayMenu id) d = end_app x d.
Proof.
  cbn [deliver ending]. unfold menu_enabled, on_menu_event, menu_event.
  destruct (decide (id = "quit")) as [->|Hq]; [right; by eexists|].
  rewrite (bool_decide_eq_false_2 (id = "quit")) by done.
  destruct (decide (id = "restart_app")) as [->|Hr].
  - cbn. destruct sx_debug; cbn; [left; split; [reflexivity|done]|right; by eexists].
  - rewrite (bool_decide_eq_false_2 (id = "restart_app")) by done. cbn. left. split; [|done].
    destruct (_ || _); [apply show_kept|]. case_bool_decide.
    { unfold test_print. destruct (se_managed d); by apply kept_same. }
    case_bool_decide; [apply toggle_kept|reflexivity].
Qed.
Lemma deliver_outcome e d :
  kept d (deliver pf listen_addr e d) ∧ ending e = None ∨
  ∃ x, ending e = Some x ∧ deliver pf listen_addr e d = end_app x d.
Proof.
  destruct e as [label|label|id|button up| |b|c| |code];
    [left|left|apply menu_outcome|left..|right; by eexists|right; by eexists];
    (split; [cbn [deliver]|done]).
  - apply close_kept.
  - unfold on_window_event. by rewrite andb_false_r.
  - unfold on_tray_icon_event. destruct button, up; first [apply show_kept|reflexivity].
  - reflexivity.
  - apply reopen_kept.
  - apply invoke_kept.
Qed.

(** The label of a step that ends the application. *)
Definition ends (l : Label) : option AppExit := match l with Happens e => ending e | _ => None end.
Lemma step_outcome d l d' :
  lstep d l d' → se_exit d = None ∧ se_exit d' = ends l ∧ se_managed d' = se_managed d ∧
  is_some (se_window d') = is_some (se_window d) ∧ (dock_follows d → dock_follows d').
Proof.
  intros [y Hn _|e Hn|k Hn]; (split; [done|]).
  - done.
  - destruct (deliver_outcome e d) as [[[He Hm Hw Hd] Hend]|(x&Hend&->)]; cbn [ends]; rewrite Hend;
      [split_and!; congruence || done|done].
  - destruct (task_kept k d) as [He Hm Hw Hd]. cbn [ends]. split_and!; congruence || done.
Qed.

(** C11: A session of the desktop application ends only when somebody chooses Quit, or
    Restart in a release build, in the menu of the tray, when the page asks the process
    plugin for a relaunch, or when the framework or the platform ends it, and with the
    exit code this means; nothing happens in it afterwards.  Closing the window,
    whatever the window system answers, never ends it and never destroys the window; no
    handler finds the state of the agent missing; the dock of macOS shows the
    application exactly while its window is shown, as long as the calls on both work;
    and then the icon and the menu of the tray bring the window back. *)
Theorem session_lifecycle d0 ls d :
  opened d0 → session_run pf io to_str listen_addr d0 ls d →
  (match se_exit d with
   | None => Forall (λ l, ends l = None) ls
   | Some x => ∃ ls' l, ls = ls' ++ [l] ∧ ends l = Some x ∧ Forall (λ l, ends l = None) ls'
   end) ∧
  se_managed d = true ∧ is_some (se_window d) = true ∧
  ((∀ n, sx_works n = true) →
   (pf = MacOs → wd_visible <$> se_window d = Some (se_dock d)) ∧
   ∀ e, e ∈ [TrayMenu "open_settings"; TrayMenu "view_logs"; TrayClick LeftButton true] →
     se_window (deliver pf listen_addr e d) = Some (mkWindow true false true)).
Proof.
  intros (Hm&Hw&Hk&_&_&He) Hr.
  assert (match se_exit d with
   | None => Forall (λ l, ends l = None) ls
   | Some x => ∃ ls' l, ls = ls' ++ [l] ∧ ends l = Some x ∧ Forall (λ l, ends l = None) ls'
   end ∧ se_managed d = true ∧ is_some (se_window d) = true ∧ dock_follows d) as (H1&H2&H3&H4).
  { induction Hr as [|ls l d1 d2 _ IH Hs].
    - rewrite He, Hm, Hw. split_and!; try done. intros _ Hpf. by rewrite Hw, Hk, Hpf.
    - destruct IH as (I1&I2&I3&I4). apply step_outcome in Hs as (Hn&->&->&->&Hd).
      rewrite Hn in I1. split_and!; [|done|done|by apply Hd].
      destruct (ends l) as [x|] eqn:Hl; [by exists ls, l|]. by apply Forall_app; split; [|constructor]. }
  split; [done|]. split; [done|]. split; [done|]. intros Hworks. split; [by apply H4|].
  intros e Hin. assert (deliver pf listen_addr e d = show_main_window pf d) as ->.
  { repeat (apply elem_of_cons in Hin as [->|Hin]; [done|]). by apply elem_of_nil in Hin. }
  destruct (show_works d Hworks) as [-> _]. by destruct (se_window d).
Qed.
End lifecycle.

(** ** Setting up, and what the tray's tasks may undo *)

Section beginnings.
Context (pf : Platform) `{U : UrlOps, HT : !HttpOps, B : Base64Ops, I : IpNetOps,
          J : !JsonCodec AgentConfig, IM : !ImageOps, ZI : !ZipOps, P : !ProxyEnv, R : !RuntimeEnv,
          TJ : !TaskJson, RE : !RemoteEnv, V : !ConverterEnv, D : !DoctorEnv, C : !TransferCrypto,
          JP : !JsonCodec ConfigTransferPayload, JF : !JsonCodec EncryptedConfigFile,
          X : !ExecutorEnv, G : !GuiEnv, L : !LaunchEnv, SE : !SessionEnv}.
Context (listen_addr : SocketAddr).

(** A state with nothing done yet. *)
Definition fresh (s : AgentState) : Prop :=
  st_queue s = QueueState_default ∧ st_sent s = [] ∧ st_calls s = [] ∧ normalized (st_config s) = st_config s.
(** The configuration a file holds: the default one when there is no file. *)
Definition held_config (path : string) (fs : Fs) : result IoError AgentConfig :=
  match fs_files fs !! path with
  | None => Ok AgentConfig_default
  | Some content => map_err (mkIoError InvalidData) (normalized <$> from_json content)
  end.
Lemma held_normal path fs c : held_config path fs = Ok c → normalized c = c.
Proof.
  unfold held_config. destruct (fs_files fs !! path) as [t|]; [|intros [= <-]; apply default_normalized].
  intros H%map_err_ok. destruct (from_json t); [|done]. injection H as <-. apply normalized_idemp.
Qed.

(** The files are the same, and the faults to come are. *)
Definition later (fs fs' : Fs) : Prop :=
  fs_files fs' = fs_files fs ∧ (no_faults fs → no_faults fs').
#[local] Instance later_preorder : PreOrder later.
Proof. split; [by split|]. intros f1 f2 f3 [H1 ?] [H2 ?]. split; [by rewrite H2|auto]. Qed.
Lemma held_later path fs fs' : later fs fs' → held_config path fs' = held_config path fs.
Proof. intros [H _]. unfold held_config. by rewrite H. Qed.
Lemma create_dir_later path : respects later (fs_create_dir_all path).
Proof. intros fs. split; [done|apply no_faults_step]. Qed.
Lemma create_dir_quiet path fs : no_faults fs → (fs_create_dir_all path fs).1 = Ok tt.
Proof. intros H. unfold fs_create_dir_all. by rewrite no_faults_now. Qed.

(** Loading gives what the file holds, or a disk that fails had a part in it. *)
Lemma load_held path fs :
  let '(r, fs') := load path fs in
  later fs fs' ∧ (no_faults fs → r = held_config path fs) ∧
  ∀ c, r = Ok c → held_config path fs = Ok c ∨ ¬ no_faults fs ∧ c = AgentConfig_default.
Proof.
  unfold load, fs_exists, fs_read, mbind, M_bind, mret, M_ret, lift, held_config.
  destruct (fault_now fs) as [e|] eqn:Hf; simpl.
  { assert (¬ no_faults fs) as Hn by (intros H%no_faults_now; congruence).
    split_and!; [split; [done|apply no_faults_step]|done|]. intros c [= <-]. by right. }
  destruct (fs_files fs !! path) as [content|] eqn:Hp; simpl.
  2:{ split_and!; [split; [done|apply no_faults_step]|done|]. intros c [= <-]. by left. }
  assert (later fs (fs_step (fs_step fs))) as Hl
    by (split; [done|]; intros H; by do 2 apply no_faults_step).
  rewrite Hp. destruct (fault_now (fs_step fs)) as [[e x]|] eqn:Hf'; simpl.
  - split_and!; [done| |done]. intros H%no_faults_step%no_faults_now. congruence.
  - split_and!; [done..|]. intros c Hc. by left.
Qed.

(** Making the directories and then loading. *)
Lemma dirs_then_load paths fs :
  let '(r, fs') :=
    (_ ← fs_create_dir_all (rp_data_dir paths);
     _ ← fs_create_dir_all (rp_runtime_dir paths);
     _ ← match path_parent (rp_config_path paths) with
         | Some parent => fs_create_dir_all parent
         | None => mret tt
         end;
     load (rp_config_path paths)) fs in
  later fs fs' ∧ (no_faults fs → r = held_config (rp_config_path paths) fs) ∧
  ∀ c, r = Ok c → held_config (rp_config_path paths) fs = Ok c ∨
    ¬ no_faults fs ∧ c = AgentConfig_default.
Proof.
  rewrite M_bind_eq. pose proof (create_dir_later (rp_data_dir paths) fs) as L1.
  pose proof (create_dir_quiet (rp_data_dir paths) fs) as Q1.
  destruct (fs_create_dir_all (rp_data_dir paths) fs) as [[[]|e] f1]; cbn [fst snd] in *;
    [|split_and!; [done|intros H; by specialize (Q1 H)|done]].
  rewrite M_bind_eq. pose proof (create_dir_later (rp_runtime_dir paths) f1) as L2.
  pose proof (create_dir_quiet (rp_runtime_dir paths) f1) as Q2.
  assert (no_faults fs → no_faults f1) as N1 by apply L1.
  destruct (fs_create_dir_all (rp_runtime_dir paths) f1) as [[[]|e] f2]; cbn [fst snd] in *;
    [|split_and!; [by etrans|intros H; by specialize (Q2 (N1 H))|done]].
  rewrite M_bind_eq. set (parent := match path_parent _ with Some _ => _ | None => _ end).
  assert (later f2 (parent f2).2 ∧ (no_faults f2 → (parent f2).1 = Ok tt)) as [L3 Q3].
  { subst parent. destruct (path_parent _); [|by split].
    split; [apply create_dir_later|apply create_dir_quiet]. }
  assert (later fs f2) as L12 by by etrans.
  destruct (parent f2) as [[[]|e] f3]; cbn [fst snd] in *;
    [|split_and!; [by etrans|intros H; by specialize (Q3 (proj2 L12 H))|done]].
  assert (later fs f3) as L123 by by etrans. pose proof (load_held (rp_config_path paths) f3) as Hl.
  destruct (load _ f3) as [r f4]. destruct Hl as (L4&Hq&Hr). rewrite (held_later _ _ _ L123) in Hq, Hr.
  split_and!; [by etrans|intros H; by apply Hq, L123|]. intros c Hc.
  destruct (Hr c Hc) as [|[Hn ->]]; [by left|right]. split; [|done]. intros H. by apply Hn, L123.
Qed.

(** Assembling the state changes no file and starts with the configuration of the file;
    when no operation on the disk fails, it needs that configuration and the two
    databases, and nothing else. *)
Definition assembled (paths : RuntimePaths) (fs : Fs) : bool :=
  is_ok (held_config (rp_config_path paths) fs) &&
  is_ok (ln_open_remote (remote_store_path pf paths)) &&
  is_ok (ln_open_history (task_history_path pf paths)).
Lemma build_outcome paths fs :
  let '(r, fs') := build pf paths fs in
  later fs fs' ∧ (no_faults fs → is_ok r = assembled paths fs) ∧
  ∀ s, r = Ok s → fresh s ∧ st_fs s = fs' ∧
    (held_config (rp_config_path paths) fs = Ok (st_config s) ∨
     ¬ no_faults fs ∧ st_config s = AgentConfig_default).
Proof.
  unfold build, mapping_err, assembled. rewrite M_bind_eq.
  pose proof (dirs_then_load paths fs) as Hd. revert Hd.
  match goal with |- context [let '(r, fs') := ?m fs in later _ _ ∧ _] => destruct (m fs) as [r fs'] end.
  intros Hd.
  destruct Hd as (Hla&Hq&Hr). destruct r as [c|e]; cbn [map_err].
  2:{ split_and!; [done|intros H; by rewrite <-(Hq H)|done]. }
  rewrite lift_bind. specialize (Hr c eq_refl).
  assert (no_faults fs → is_ok (held_config (rp_config_path paths) fs) = true) as Hok
    by (intros H; by rewrite <-(Hq H)).
  destruct (ln_open_remote _) as [remote|e]; cbn [map_err];
    [|split_and!; [done|intros H; by rewrite (Hok H)|done]].
  rewrite lift_bind. destruct (ln_open_history _) as [history|e]; cbn [map_err];
    [|split_and!; [done|intros H; by rewrite (Hok H)|done]].
  split_and!; [done|intros H; by rewrite (Hok H)|]. intros s [= <-]. cbn.
  split_and!; [split_and!; try done; apply normalized_idemp|done|].
  destruct Hr as [Hr|[Hn ->]]; [left|right].
  - by rewrite (held_normal _ _ _ Hr).
  - split; [done|apply default_normalized].
Qed.

(** A start fails for the port or the address only, unless the disk does. *)
Lemma start_quiet paths s :
  no_faults (st_fs s) →
  is_ok (start pf paths s).1 =
    negb (ln_probe (probe_addr (st_config s))) && is_ok (bind_listener ln_bind (st_config s)).
Proof.
  intros Hn. unfold start, check_agent_port. rewrite gets_bind.
  destruct (ln_probe (probe_addr (st_config s))); [done|].
  rewrite M_bind_eq. cbn [mret M_ret]. rewrite lift_bind.
  destruct (bind_listener ln_bind (st_config s)) as [a|e]; cbn [map_err]; [|done].
  rewrite M_bind_eq. unfold mapping_err, on_fs, zoom.
  pose proof (ipc_bind_quiet (socket_path pf paths) (st_fs s) Hn) as Hi.
  destruct (ipc_bind (socket_path pf paths) (st_fs s)) as [[[]|e] fs]; [done|].
  by simpl in Hi.
Qed.

(** What a start of the application asks for in the directory [dir]. *)
Definition launchable (dir : string) (fs : Fs) : bool :=
  let paths := mkRuntimePaths (path_join pf dir "config.json") dir (path_join pf dir "run") in
  is_ok sx_setup_tray && is_ok (print_backend_ready pf) && assembled paths fs &&
  match held_config (rp_config_path paths) fs with
  | Ok config => negb (ln_probe (probe_addr config)) && is_ok (bind_listener ln_bind config)
  | Err _ => false
  end.

(** Up to the tray and the print backend. *)
Lemma setup_prefix display autostart dir fs :
  sx_config_dir = Ok dir →
  let paths := mkRuntimePaths (path_join pf dir "config.json") dir (path_join pf dir "run") in
  ∃ fs1, later fs fs1 ∧
  ((∃ e, setup pf display autostart fs = (Err e, fs1) ∧
     (no_faults fs → is_ok sx_setup_tray && is_ok (print_backend_ready pf) &&
        is_ok (held_config (rp_config_path paths) fs) = false)) ∨
   ∃ config, is_ok sx_setup_tray && is_ok (print_backend_ready pf) = true ∧
     setup pf display autostart fs =
     (state ← mapping_err (RuntimeError_display display) (build pf paths);
      λ _, let '(r, s) := start pf paths state in
       (addr ← map_err (RuntimeError_display display) r;
        Ok (addr,
          mkSession (mkSystem s ∅ Polling [] [] RReady) true autostart (ap_language (cfg_app config)) 0
            (Some (mkWindow false false false)) (negb (bool_decide (pf = MacOs))) [] [] None),
        st_fs s)) fs1).
Proof.
  intros Hdir paths. remember (setup pf display autostart fs) as out eqn:Hout.
  unfold setup in Hout. change (λ x, Fs → result string x * Fs) with (M Fs string) in Hout.
  rewrite Hdir, lift_bind, M_bind_eq in Hout. unfold mapping_err at 1 in Hout.
  pose proof (create_dir_later dir fs) as L1. pose proof (create_dir_quiet dir fs) as Q1.
  destruct (fs_create_dir_all dir fs) as [[[]|e] f1]; cbn [fst snd map_err] in *.
  2:{ exists f1. split; [done|]. left. exists (io_message e). split; [done|]. intros H. by specialize (Q1 H). }
  rewrite M_bind_eq in Hout. unfold mapping_err at 1 in Hout.
  pose proof (load_held (path_join pf dir "config.json") f1) as Hl.
  destruct (load _ f1) as [r f2]. destruct Hl as (L2&Hq&_). rewrite (held_later _ _ _ L1) in Hq.
  exists f2. split; [by etrans|].
  destruct r as [config|e]; cbn [map_err] in Hout.
  2:{ left. exists (io_message e). split; [done|]. intros H. cbn. rewrite <-Hq by (by apply L1).
      by rewrite andb_false_r. }
  rewrite lift_bind in Hout. destruct sx_setup_tray as [[]|e]; [|left; by exists e].
  rewrite lift_bind in Hout. destruct (print_backend_ready pf) as [[]|e]; [|left; by exists e].
  right. exists config. by split.
Qed.


(** A toggle of the autostart entry whose task has read the configuration puts this
    configuration back over whatever the window saved in the meantime. *)
Theorem toggle_overwrites_save (d : Session) (k : nat) (next_enabled : bool) (config : AgentConfig) :
  se_tasks d !! k = Some (ReadConfigTask next_enabled) →
  let before := st_config (sy_state (se_agent d)) in
  let d2 := invoke listen_addr (GSaveConfig config) (run_task k d) in
  let d3 := run_task k d2 in
  se_errors d3 = se_errors d2 →
  st_config (sy_state (se_agent d3)) = normalized (with_autostart next_enabled before).
Proof.
  intros Hk before d2 d3. assert (se_tasks d2 !! k = Some (SaveConfigTask (with_autostart next_enabled before)))
    as Hk2.
  { unfold d2, invoke. destruct (gui_run _ _ _) as [r g]. cbn. unfold run_task. rewrite Hk. cbn.
    apply list_lookup_insert_eq. by eapply lookup_lt_Some. }
  unfold d3, run_task. rewrite Hk2. unfold on_state, zoom. cbn [gui_of gu_state].
  pose proof (save_config_outcome (with_autostart next_enabled before) (sy_state (se_agent d2))) as Ho.
  destruct (save_config _ _) as [[c|e] s]; cbn.
  - intros _. by destruct Ho as (->&->&_).
  - intros He. apply (f_equal length) in He. rewrite length_app in He. simpl in He. lia.
Qed.

(** Quit ends the process as it is: the agent is not shut down, so the file of its
    socket stays.  Connecting to it is then refused, which the client does not take for
    a stopped agent: a command that could run offline fails instead. *)
Theorem quit_blocks_offline `{JQ : !JsonCodec CommandRequest, JR : !JsonCodec CommandResponse} {W : Type}
    (d : Session) (executor offline : CommandExecutor W) (t : Transport) (request_id : string)
    (refused : IoError) (command : Command) (world : W) :
  tr_connect t = Some refused → io_kind refused ≠ NotFound → policy command = OnlinePreferred →
  let d' := deliver pf listen_addr (TrayMenu "quit") d in
  se_exit d' = Some (Exited 0) ∧ st_fs (sy_state (se_agent d')) = st_fs (sy_state (se_agent d)) ∧
  ∃ e, service_execute (mkCommandService (Some (client_execute executor t request_id)) offline) command world =
    (Err e, world) ∧ ce_kind e ≠ KNotRunning.
Proof.
  intros Ht Hk Hp d'. split; [done|]. split; [done|]. exists (connect_error refused).
  assert (ce_kind (connect_error refused) ≠ KNotRunning) as He
    by (unfold connect_error; by destruct (io_kind refused)).
  split; [|done]. unfold service_execute. rewrite Hp. cbn [cs_online].
  rewrite attempt_bind. unfold client_execute. rewrite Ht. cbn.
  by rewrite bool_decide_eq_false_2.
Qed.
End beginnings.

(** ** Witnesses: the application on a fresh Mac *)

#[local] Existing Instance toy_http.
#[local] Existing Instance toy_zip.
#[export] Instance toy_session_env : SessionEnv := {|
  sx_config_dir := Ok "/Users/u/Library/Application Support/com.vergil.printbridge";
  sx_setup_tray := Ok tt;
  sx_sumatra := Ok "SumatraPDF.exe";
  sx_works _ := true;
  sx_debug := false
|}.
Definition toy_set_up : result string (SocketAddr * Session) * Fs :=
  setup MacOs (J := toy_config_codec) (λ _, "sql") false (mkFs ∅ ∅ 0 (λ _, None)).
Definition toy_session : Session :=
  match toy_set_up with
  | (Ok (_, d), _) => d
  | _ => mkSession toy_start true false En 0 None true [] [] None
  end.
Definition toy_plays (ls : list Label) (d : Session) : option Session :=
  plays MacOs (J := toy_config_codec) (V := toy_converters) (JP := toy_payload_codec)
    (JF := toy_file_codec) (mkSocketAddr (v4 0 0 0 0) 17890) ls d.
Definition toy_afterwards (ls : list Label) : Session := default toy_session (toy_plays ls toy_session).

Lemma toy_session_opened : opened MacOs toy_session ∧ starting (se_agent toy_session).
Proof.
  split; [vm_compute; by split_and!|]. do 8 (split; [vm_compute; reflexivity|]).
  replace (st_config (sy_state (se_agent toy_session))) with AgentConfig_default
    by (vm_compute; reflexivity). apply default_config_ok.
Qed.

(** Starting again after a configuration was saved. *)
Definition toy_saved : AgentConfig := with_autostart true AgentConfig_default.
Definition toy_flag_codec : JsonCodec AgentConfig :=
  {| to_json c := if ap_autostart (cfg_app c) then "on" else "off";
     from_json text := Ok (with_autostart (bool_decide (text = "on")) AgentConfig_default) |}.
Definition toy_disk : Fs :=
  mkFs {["/Users/u/Library/Application Support/com.vergil.printbridge/config.json" :=
           to_json (JsonCodec := toy_flag_codec) toy_saved]} ∅ 0 (λ _, None).

(** A toggle from the menu, and a save from the window before its task ends. *)
Definition toy_evening : list Label :=
  [Happens (TrayClick LeftButton true); Happens (TrayMenu "autostart"); TaskRuns 0;
   Happens (Invoke (GSaveConfig toy_agent_config)); TaskRuns 0; Happens (WindowClose "main")].
Definition toy_goodnight : list Label := toy_evening ++ [Happens (TrayMenu "quit")].
Lemma toy_session_run ls : is_some (toy_plays ls toy_session) = true →
  session_run MacOs (J := toy_config_codec) (V := toy_converters) (JP := toy_payload_codec)
    (JF := toy_file_codec) toy_system_io Some (mkSocketAddr (v4 0 0 0 0) 17890) toy_session ls
    (toy_afterwards ls).
Proof.
  unfold toy_afterwards. intros H. destruct (toy_plays ls toy_session) as [d|] eqn:Hp; [|done].
  apply (plays_run MacOs toy_system_io Some _ _ [] _ toy_session); [apply sr_nil|exact Hp].
Qed.

Lemma session_lifecycle_witness :
  (se_window (toy_afterwards toy_evening), se_exit (toy_afterwards toy_evening)) =
    (Some (mkWindow false false false), None) ∧
  ends (TaskRuns 0) = None ∧ se_exit (toy_afterwards toy_goodnight) = Some (Exited 0) ∧
  is_some (se_window (toy_afterwards toy_goodnight)) = true.
Proof.
  split; [vm_compute; reflexivity|]. split; [reflexivity|]. split; [vm_compute; reflexivity|].
  destruct (session_lifecycle MacOs (J := toy_config_codec) (V := toy_converters)
    (JP := toy_payload_codec) (JF := toy_file_codec) toy_system_io Some (mkSocketAddr (v4 0 0 0 0) 17890)
    toy_session toy_goodnight (toy_afterwards toy_goodnight)) as (_&_&H&_).
  - apply toy_session_opened.
  - apply toy_session_run. vm_compute. reflexivity.
  - exact H.
Defined.

Lemma session_refines_agent_witness :
  sy_commands (se_agent (toy_afterwards toy_goodnight)) =
    [SaveConfig toy_agent_config;
     SaveConfig (with_autostart true (st_config (sy_state (se_agent toy_session))))] ∧
  rtc (system_step (J := toy_config_codec) (V := toy_converters) (JP := toy_payload_codec)
    (JF := toy_file_codec) toy_system_io Some (mkSocketAddr (v4 0 0 0 0) 17890))
    (se_agent toy_session) (se_agent (toy_afterwards toy_goodnight)).
Proof.
  split; [vm_compute; reflexivity|].
  apply (session_refines_agent MacOs _ _ _ _ toy_goodnight).
  apply toy_session_run. vm_compute. reflexivity.
Defined.

(** The save of the window is lost: the configuration is what it was before but for the
    autostart flag, and the entry of the operating system is not what it says. *)
Lemma toggle_overwrites_save_witness :
  let d := toy_afterwards toy_evening in
  st_config (sy_state (se_agent d)) =
    normalized (with_autostart true (st_config (sy_state (se_agent toy_session)))) ∧
  se_errors d = [] ∧ se_autostart d = false ∧
  rc_enabled (cfg_remote (st_config (sy_state (se_agent d)))) = false ∧
  rc_enabled (cfg_remote toy_agent_config) = true.
Proof.
  split; [|vm_compute; split_and!; done].
  pose proof (toggle_overwrites_save (J := toy_config_codec) (V := toy_converters)
    (JP := toy_payload_codec) (JF := toy_file_codec) (mkSocketAddr (v4 0 0 0 0) 17890)
    (toy_afterwards [Happens (TrayClick LeftButton true); Happens (TrayMenu "autostart")])
    0 true toy_agent_config) as H.
  etrans; [|exact (H ltac:(vm_compute; reflexivity) ltac:(vm_compute; reflexivity))].
  vm_compute. reflexivity.
Defined.
