(* ===== verification/CliIntegration.v ===== *)
(** * The command of the installed application
      ([apps/desktop/src-tauri/src/cli_integration/])

    Making [print-bridge] available in a terminal: an entry of the user's [PATH] in
    the Windows registry, a symbolic link on Linux (for an AppImage) and on macOS
    (through a script with administrator rights).  The file system with its links,
    the registry with its calls and what other processes do to it are states of
    the model. *)

From S2P Require Import Prelude RustStr Wide FileSys Config Browser.
From Stdlib Require Import Ascii.
Open Scope string_scope.
Open Scope N_scope.
Open Scope list_scope.

Inductive CliIntegrationStatusKind :=
  | NotInstalled | Installed | InstalledSystem | Stale | Conflict | Unavailable | Unsupported.
#[export] Instance CliIntegrationStatusKind_eq_dec : EqDecision CliIntegrationStatusKind.
Proof. solve_decision. Defined.
Record CliIntegrationStatus := mkCliIntegrationStatus {
  ci_kind : CliIntegrationStatusKind;
  ci_command_path : option string;
  ci_path_ready : bool
}.
Definition unsupported : CliIntegrationStatus := mkCliIntegrationStatus Unsupported None false.

(** ** Windows: the entries of a path ([windows.rs]) *)

Definition double_quote : ascii := "034".

Definition normalized_entry (entry : string) : string :=
  to_ascii_lowercase (of_bytes (Bytes.trim_end [["\"%char]; ["/"%char]]
    (Bytes.trim [[double_quote]] (to_bytes (trim entry))))).

Definition contains_path_entry (value entry : string) : bool :=
  let expected := normalized_entry entry in
  existsb (λ candidate, negb (is_empty (trim candidate)) &&
             String.eqb (normalized_entry candidate) expected)
    (split_char ";" value).

Definition add_path_entry (value entry : string) : string :=
  if contains_path_entry value entry then value
  else
    let value := trim_end_matches ";" value in
    if is_empty value then entry else value +:+ ";" +:+ entry.

Definition remove_path_entry (value entry : string) : string :=
  let expected := normalized_entry entry in
  join ";" (filter (λ candidate, negb (is_empty (trim candidate)) &&
                      negb (String.eqb (normalized_entry candidate) expected))
    (split_char ";" value)).

(** The entries of a path, without the blank ones. *)
Definition path_entries (value : string) : list string :=
  filter (λ candidate, negb (is_empty (trim candidate))) (split_char ";" value).

(** An entry a path can hold: not blank, and without the separator. *)
Definition proper_entry (entry : string) : Prop :=
  trim entry ≠ "" ∧ ";"%char ∉ to_bytes entry.

Lemma contains_path_entries value entry :
  contains_path_entry value entry = true ↔
  ∃ c, c ∈ path_entries value ∧ normalized_entry c = normalized_entry entry.
Proof.
  unfold contains_path_entry, path_entries. rewrite existsb_exists. split.
  - intros (c&Hc&[Hb He%String.eqb_eq]%andb_prop). exists c. split; [|done].
    apply list_elem_of_filter. split; [by apply Is_true_true|by apply list_elem_of_In].
  - intros (c&[Hb Hc]%list_elem_of_filter&He). exists c. split; [by apply list_elem_of_In|].
    apply andb_true_intro. split; [by apply Is_true_true|by apply String.eqb_eq].
Qed.

Lemma path_entries_nil : path_entries "" = [].
Proof. reflexivity. Qed.
Lemma split_by_app_sep c l k :
  Bytes.split_by (Ascii.eqb c) (l ++ c :: k) =
  Bytes.split_by (Ascii.eqb c) l ++ Bytes.split_by (Ascii.eqb c) k.
Proof.
  induction l as [|x l IH]; cbn; [by rewrite Ascii.eqb_refl|].
  destruct (Ascii.eqb c x); [by rewrite IH|]. rewrite IH.
  pose proof (BytesFacts.split_by_nonempty (Ascii.eqb c) l).
  by destruct (Bytes.split_by (Ascii.eqb c) l).
Qed.
Lemma split_char_app_sep c a b :
  split_char c (a +:+ String c b) = split_char c a ++ split_char c b.
Proof. unfold split_char. rewrite to_bytes_app, <-map_app, <-split_by_app_sep. done. Qed.
Lemma path_entries_app a b : path_entries (a +:+ String ";" b) = path_entries a ++ path_entries b.
Proof. unfold path_entries. by rewrite split_char_app_sep, filter_app. Qed.
Lemma path_entries_single entry :
  ";"%char ∉ to_bytes entry → path_entries entry = if is_empty (trim entry) then [] else [entry].
Proof.
  intros H. unfold path_entries, split_char. rewrite split_by_no by done. cbn [map].
  rewrite of_to_bytes. cbn. by destruct (is_empty (trim entry)).
Qed.

(** Trimming the separators at the end is taking them off one by one. *)
Lemma trim_end_ind (P : string → Prop) value :
  (∀ s, P (s +:+ String ";" "") → P s) → P value → P (trim_end_matches ";" value).
Proof.
  intros Hs Hv. unfold trim_end_matches, Bytes.trim_end, Bytes.trim_start.
  change (reverse <$> [to_bytes ";"]) with [[";"%char]].
  assert (∀ n r, P (of_bytes (reverse r)) →
    P (of_bytes (reverse (Bytes.trim_any n [[";"%char]] r)))) as H.
  { intros n. induction n as [|n IH]; [done|]. intros r Hr. cbn [Bytes.trim_any].
    destruct (Bytes.strip_any [[";"%char]] r) as [r'|] eqn:Hr'; [|done].
    apply BytesFacts.strip_any_spec in Hr' as (p&->%list_elem_of_singleton&->).
    apply IH, Hs. cbn [app] in Hr. rewrite reverse_cons in Hr.
    replace (of_bytes (reverse r') +:+ String ";" "") with (of_bytes (reverse r' ++ [";"%char]));
      [done|]. apply to_bytes_inj. by rewrite to_bytes_app, !to_of_bytes. }
  apply H. by rewrite reverse_involutive, of_to_bytes.
Qed.
Lemma path_entries_trim_end value : path_entries (trim_end_matches ";" value) = path_entries value.
Proof.
  apply (trim_end_ind (λ s, path_entries s = path_entries value)); [|done].
  intros s <-. by rewrite path_entries_app, path_entries_nil, app_nil_r.
Qed.

(** The entries after an addition and after a removal. *)
Lemma add_new_entries value entry :
  contains_path_entry value entry = false →
  path_entries (add_path_entry value entry) = path_entries value ++ path_entries entry.
Proof.
  intros Hc. unfold add_path_entry. rewrite Hc. cbv zeta. rewrite <-(path_entries_trim_end value).
  destruct (is_empty (trim_end_matches ";" value)) eqn:Hv.
  - apply is_empty_true in Hv. by rewrite Hv.
  - change (";" +:+ entry) with (String ";" entry). by rewrite path_entries_app.
Qed.
Lemma add_path_entries value entry :
  proper_entry entry →
  path_entries (add_path_entry value entry) =
  path_entries value ++ (if contains_path_entry value entry then [] else [entry]).
Proof.
  intros [Hb Hs]. destruct (contains_path_entry value entry) eqn:Hc.
  - unfold add_path_entry. by rewrite Hc, app_nil_r.
  - rewrite add_new_entries, (path_entries_single entry) by done.
    destruct (trim entry); [done|reflexivity].
Qed.

Lemma join_entries ps :
  Forall (λ w, ";"%char ∉ to_bytes w) ps →
  path_entries (join ";" ps) = filter (λ c, negb (is_empty (trim c))) ps.
Proof.
  intros Hf. destruct ps as [|p ps]; [reflexivity|]. unfold path_entries. f_equal.
  apply split_char_spec. by split_and!.
Qed.
Lemma split_char_free c s : Forall (λ w, c ∉ to_bytes w) (split_char c s).
Proof.
  apply Forall_map, Forall_forall. intros w Hw. rewrite to_of_bytes. by eapply split_by_free.
Qed.
Lemma remove_path_entries value entry :
  path_entries (remove_path_entry value entry) =
  filter (λ c, normalized_entry c ≠ normalized_entry entry) (path_entries value).
Proof.
  unfold remove_path_entry. cbv zeta. rewrite join_entries.
  - unfold path_entries. rewrite !list_filter_filter. apply list_filter_iff. intros c.
    rewrite !Is_true_true, !andb_true_iff, !negb_true_iff, String.eqb_neq. tauto.
  - apply Forall_forall. intros w [_ Hw]%list_elem_of_filter.
    pose proof (split_char_free ";" value) as Hf. rewrite Forall_forall in Hf. by apply Hf.
Qed.

(** Normalising neither adds nor removes a separator. *)
Lemma trim_any_keeps c n ps l : Forall (λ p, c ∉ p) ps → c ∈ Bytes.trim_any n ps l ↔ c ∈ l.
Proof.
  intros Hps. revert l. induction n as [|n IH]; [done|]. intros l. cbn [Bytes.trim_any].
  destruct (Bytes.strip_any ps l) as [r|] eqn:Hs; [|done].
  apply BytesFacts.strip_any_spec in Hs as (p&Hp&->). rewrite IH, elem_of_app.
  rewrite Forall_forall in Hps. specialize (Hps p Hp). tauto.
Qed.
Lemma trim_end_keeps c ps l : Forall (λ p, c ∉ p) ps → c ∈ Bytes.trim_end ps l ↔ c ∈ l.
Proof.
  intros Hps. unfold Bytes.trim_end, Bytes.trim_start.
  rewrite elem_of_reverse, trim_any_keeps, elem_of_reverse; [done|].
  apply Forall_fmap. eapply Forall_impl; [exact Hps|]. intros p Hp. simpl. by rewrite elem_of_reverse.
Qed.
Lemma trim_keeps c ps l : Forall (λ p, c ∉ p) ps → c ∈ Bytes.trim ps l ↔ c ∈ l.
Proof.
  intros Hps. unfold Bytes.trim. rewrite trim_end_keeps by done. by apply trim_any_keeps.
Qed.
Lemma ascii_lower_semicolon x : ascii_lower x = ";"%char ↔ x = ";"%char.
Proof. by destruct x as [[] [] [] [] [] [] [] []]. Qed.
Lemma normalized_semicolon entry :
  ";"%char ∈ to_bytes (normalized_entry entry) ↔ ";"%char ∈ to_bytes entry.
Proof.
  unfold normalized_entry, to_ascii_lowercase. rewrite !to_of_bytes.
  rewrite (list_elem_of_fmap ascii_lower). split.
  - intros (x&Hx&Hin). symmetry in Hx. apply ascii_lower_semicolon in Hx as ->.
    apply trim_end_keeps, trim_keeps in Hin; [|by apply (bool_decide_unpack _); vm_compute..].
    unfold trim in Hin. rewrite to_of_bytes in Hin.
    by apply trim_keeps in Hin; [|by apply (bool_decide_unpack _); vm_compute].
  - intros Hin. exists ";"%char. split; [done|].
    apply trim_end_keeps, trim_keeps; [by apply (bool_decide_unpack _); vm_compute..|].
    unfold trim. rewrite to_of_bytes.
    apply trim_keeps; [by apply (bool_decide_unpack _); vm_compute|done].
Qed.

(** A directory with a semicolon is never found in a path. *)
Lemma semicolon_never_contained value entry :
  ";"%char ∈ to_bytes entry → contains_path_entry value entry = false.
Proof.
  intros H. apply not_true_iff_false. intros Hc. apply contains_path_entries in Hc as (c&Hc&Hn).
  apply list_elem_of_filter in Hc as [_ Hc].
  apply normalized_semicolon in H. rewrite <-Hn in H. apply (proj1 (normalized_semicolon c)) in H.
  pose proof (split_char_free ";" value) as Hf. rewrite Forall_forall in Hf. by apply (Hf c Hc).
Qed.

(** ** Windows: the registry ([windows.rs], [platform]) *)

(** A predefined root, by its name, and a subkey; the value [Path] of a key, if
    there is one: its type and its bytes. *)
Abbreviation RegKey := (string * string)%type.
Abbreviation PathValue := (option (N * list N)).
Definition HKEY_CURRENT_USER : string := "HKEY_CURRENT_USER".
Definition HKEY_LOCAL_MACHINE : string := "HKEY_LOCAL_MACHINE".
Definition USER_ENVIRONMENT : string := "Environment".
Definition MACHINE_ENVIRONMENT : string :=
  "SYSTEM\CurrentControlSet\Control\Session Manager\Environment".
Definition ERROR_SUCCESS : N := 0.
Definition ERROR_FILE_NOT_FOUND : N := 2.
Definition ERROR_MORE_DATA : N := 234.
Definition ERROR_KEY_DELETED : N := 1018.
Definition REG_SZ : N := 1.
Definition REG_EXPAND_SZ : N := 2.

(** The keys with their [Path], the open handles and the broadcasts sent.  Every
    call may be refused with an error code, and before every call other processes
    may have changed the keys. *)
Record Registry := mkRegistry {
  rg_keys : gmap RegKey PathValue;
  rg_open : nat;
  rg_broadcasts : nat;
  rg_tick : nat;
  rg_refuse : nat → N;
  rg_others : nat → gmap RegKey PathValue → gmap RegKey PathValue
}.
(** What happens before a call takes effect. *)
Definition reg_next (s : Registry) : Registry :=
  mkRegistry (rg_others s (rg_tick s) (rg_keys s)) (rg_open s) (rg_broadcasts s)
    (S (rg_tick s)) (rg_refuse s) (rg_others s).
Definition with_open (n : nat) (s : Registry) : Registry :=
  mkRegistry (rg_keys s) n (rg_broadcasts s) (rg_tick s) (rg_refuse s) (rg_others s).
Definition with_keys (keys : gmap RegKey PathValue) (s : Registry) : Registry :=
  mkRegistry keys (rg_open s) (rg_broadcasts s) (rg_tick s) (rg_refuse s) (rg_others s).
Definition with_broadcast (s : Registry) : Registry :=
  mkRegistry (rg_keys s) (rg_open s) (S (rg_broadcasts s)) (rg_tick s) (rg_refuse s) (rg_others s).

(** An error the code returns, or a write outside of a buffer. *)
Inductive RegFault := RegError (message : string) | RegUndefined.
Abbreviation Reg := (M Registry RegFault).

(** The code of a call: refused, the key deleted, or what [f] makes of its value. *)
Definition reg_call {A} (key : RegKey) (failed : A) (f : PathValue → N * A) : Reg (N * A) := λ s,
  let s' := reg_next s in
  (Ok (if negb (rg_refuse s (rg_tick s) =? 0) then (rg_refuse s (rg_tick s), failed)
       else match rg_keys s' !! key with
            | None => (ERROR_KEY_DELETED, failed)
            | Some value => f value
            end), s').
Definition RegOpenKeyExW (root subkey : string) : Reg N := λ s,
  let s' := reg_next s in
  let code := if negb (rg_refuse s (rg_tick s) =? 0) then rg_refuse s (rg_tick s)
              else match rg_keys s' !! (root, subkey) with
                   | None => ERROR_FILE_NOT_FOUND | Some _ => ERROR_SUCCESS
                   end in
  (Ok code, if code =? ERROR_SUCCESS then with_open (S (rg_open s')) s' else s').
(** [RegQueryValueExW] without a buffer: the type and the number of bytes. *)
Definition RegQueryLength (key : RegKey) : Reg (N * (N * N)) :=
  reg_call key (REG_EXPAND_SZ, 0) (λ value,
    match value with
    | None => (ERROR_FILE_NOT_FOUND, (REG_EXPAND_SZ, 0))
    | Some (kind, data) => (ERROR_SUCCESS, (kind, N.of_nat (length data)))
    end).
(** [RegQueryValueExW] into a buffer that is said to have [claimed] bytes. *)
Definition RegQueryValueExW (key : RegKey) (kind : N) (buffer : list N) (claimed : N)
  : Reg (N * (N * list N)) :=
  answer ← reg_call key None (λ value, (ERROR_SUCCESS, Some value));
  match answer with
  | (code, None) => mret (code, (kind, buffer))
  | (_, Some None) => mret (ERROR_FILE_NOT_FOUND, (kind, buffer))
  | (_, Some (Some (kind', data))) =>
      if claimed <? N.of_nat (length data) then mret (ERROR_MORE_DATA, (kind', buffer))
      else if (length data <=? length buffer)%nat
      then mret (ERROR_SUCCESS, (kind', data ++ drop (length data) buffer))
      else raise RegUndefined
  end.
Definition RegSetValueExW (key : RegKey) (kind : N) (data : list N) : Reg N := λ s,
  match reg_call key tt (λ _, (ERROR_SUCCESS, tt)) s with
  | (Ok (code, _), s') =>
      (Ok code, if code =? ERROR_SUCCESS
                then with_keys (<[key := Some (kind, data)]> (rg_keys s')) s' else s')
  | (Err e, s') => (Err e, s')
  end.
Definition RegCloseKey : Reg unit := modify (λ s, with_open (pred (rg_open s)) s).

(** [while buffer.last() == Some(&0) { buffer.pop(); }] *)
Fixpoint drop_zeros (units : list N) : list N :=
  match units with
  | 0 :: units' => drop_zeros units'
  | _ => units
  end.
Definition pop_zeros (units : list N) : list N := reverse (drop_zeros (reverse units)).

Section windows.
Context (os_error : N → string).

Definition read_path (root subkey : string) : Reg (string * N) :=
  let key := (root, subkey) in
  code ← RegOpenKeyExW root subkey;
  if negb (code =? ERROR_SUCCESS) then raise (RegError (os_error code))
  else
    '(code, (kind, length)) ← RegQueryLength key;
    if code =? ERROR_FILE_NOT_FOUND then
      _ ← RegCloseKey; mret ("", REG_EXPAND_SZ)
    else if negb (code =? ERROR_SUCCESS) then
      _ ← RegCloseKey; raise (RegError (os_error code))
    else
      let buffer := replicate (2 * N.to_nat (length / 2)) 0 in
      '(code, (kind, buffer)) ← RegQueryValueExW key kind buffer length;
      _ ← RegCloseKey;
      if negb (code =? ERROR_SUCCESS) then raise (RegError (os_error code))
      else mret (from_utf16_lossy (pop_zeros (u16s buffer)), kind).

Definition write_user_path (value : string) (kind : N) : Reg unit :=
  code ← RegOpenKeyExW HKEY_CURRENT_USER USER_ENVIRONMENT;
  if negb (code =? ERROR_SUCCESS) then raise (RegError (os_error code))
  else
    let encoded := wide_null value in
    let value_kind := if kind =? REG_SZ then REG_SZ else REG_EXPAND_SZ in
    let size := (2 * N.of_nat (length encoded)) mod 2 ^ 32 in
    code ← RegSetValueExW (HKEY_CURRENT_USER, USER_ENVIRONMENT) value_kind
             (take (N.to_nat size) (unit_bytes encoded));
    _ ← RegCloseKey;
    if code =? ERROR_SUCCESS then mret tt else raise (RegError (os_error code)).

(** [SendMessageTimeoutW]: what it returns is not looked at. *)
Definition broadcast_environment_change : Reg unit := modify with_broadcast.

(** The program's own file, and the files of the machine. *)
Context (current_exe : result string string) (is_file : string → bool).

(** [Path::parent] of the absolute path of a file; a drive keeps its root. *)
Definition windows_parent (path : string) : option string :=
  '(directory, _) ← rsplit_once "\" path;
  Some (if ends_with ":" directory then directory +:+ "\" else directory).
Definition install_directory : Reg string :=
  exe ← lift (map_err RegError current_exe);
  lift (ok_or (RegError "PrintBridge executable has no parent directory") (windows_parent exe)).

Definition windows_status : Reg CliIntegrationStatus :=
  directory ← install_directory;
  let cli := path_join Windows directory "print-bridge.exe" in
  if negb (is_file cli) then mret (mkCliIntegrationStatus Unavailable (Some cli) false)
  else
    let entry := directory in
    '(user_path, _) ← read_path HKEY_CURRENT_USER USER_ENVIRONMENT;
    '(machine_path, _) ← read_path HKEY_LOCAL_MACHINE MACHINE_ENVIRONMENT;
    let kind :=
      if contains_path_entry user_path entry then Installed
      else if contains_path_entry machine_path entry then InstalledSystem
      else NotInstalled in
    mret (mkCliIntegrationStatus kind (Some cli)
            (contains_path_entry user_path entry || contains_path_entry machine_path entry)).

Definition windows_install : Reg CliIntegrationStatus :=
  directory ← install_directory;
  if negb (is_file (path_join Windows directory "print-bridge.exe")) then windows_status
  else
    let entry := directory in
    '(value, kind) ← read_path HKEY_CURRENT_USER USER_ENVIRONMENT;
    _ ← write_user_path (add_path_entry value entry) kind;
    _ ← broadcast_environment_change;
    windows_status.

Definition windows_uninstall : Reg CliIntegrationStatus :=
  directory ← install_directory;
  let entry := directory in
  '(value, kind) ← read_path HKEY_CURRENT_USER USER_ENVIRONMENT;
  _ ← write_user_path (remove_path_entry value entry) kind;
  _ ← broadcast_environment_change;
  windows_status.
End windows.

(** *** The memory of [read_path] *)

(** The values have whole units, whatever the other processes do. *)
Definition whole_units (keys : gmap RegKey PathValue) : Prop :=
  ∀ key kind data, keys !! key = Some (Some (kind, data)) → Nat.Even (length data).
Record honest (s : Registry) : Prop := {
  ho_keys : whole_units (rg_keys s);
  ho_others : ∀ n keys, whole_units keys → whole_units (rg_others s n keys)
}.

(** Runs that stay within memory and change the number of open handles by [d]. *)
Definition keeps_memory {A} (d : result RegFault A → nat → nat) (m : Reg A) : Prop :=
  ∀ s, honest s → (m s).1 ≠ Err RegUndefined ∧ honest (m s).2 ∧
    rg_open (m s).2 = d (m s).1 (rg_open s).
Abbreviation balanced := (λ _ n, n).

Section memory.
Lemma keeps_ret {A} (a : A) : keeps_memory balanced (mret a : Reg A).
Proof. by intros s H. Qed.
Lemma keeps_raise {A} message : keeps_memory balanced (raise (RegError message) : Reg A).
Proof. by intros s H. Qed.
Lemma keeps_lift {A} (r : result RegFault A) :
  r ≠ Err RegUndefined → keeps_memory balanced (lift r).
Proof. by intros Hr s H. Qed.
Lemma keeps_bind {A B} (m : Reg A) (k : A → Reg B) :
  keeps_memory balanced m → (∀ a, keeps_memory balanced (k a)) → keeps_memory balanced (m ≫= k).
Proof.
  intros Hm Hk s H. rewrite M_bind_eq. destruct (Hm s H) as (H1&H2&H3).
  destruct (m s) as [[a|e] s1]; cbn [fst snd] in *.
  - destruct (Hk a s1 H2) as (H4&H5&H6). rewrite H6, H3. done.
  - split_and!; [intros [= ->]; done|done|done].
Qed.

Lemma honest_next s : honest s → honest (reg_next s).
Proof. intros [H1 H2]. split; [by apply H2|done]. Qed.
Lemma honest_open n s : honest s → honest (with_open n s).
Proof. by intros [H1 H2]. Qed.
Lemma honest_set key kind data s :
  honest s → Nat.Even (length data) → honest (with_keys (<[key := Some (kind, data)]> (rg_keys s)) s).
Proof.
  intros [H1 H2] He. split; [|done]. intros k kd d.
  destruct (decide (k = key)) as [->|Hne]; simpl.
  - rewrite lookup_insert_eq. by intros [= <- <-].
  - rewrite lookup_insert_ne by done. apply H1.
Qed.

(** Opening a key: one more handle exactly when the code is success. *)
Lemma open_spec root subkey s :
  honest s → ∃ code s', RegOpenKeyExW root subkey s = (Ok code, s') ∧ honest s' ∧
    rg_open s' = if code =? ERROR_SUCCESS then S (rg_open s) else rg_open s.
Proof.
  intros H. eexists _, _. split; [reflexivity|].
  destruct (_ =? ERROR_SUCCESS); split; try done; [apply honest_open|]; by apply honest_next.
Qed.
Lemma query_length_spec key s :
  honest s → ∃ code kind len s', RegQueryLength key s = (Ok (code, (kind, len)), s') ∧
    honest s' ∧ rg_open s' = rg_open s ∧ N.Even len.
Proof.
  intros H. unfold RegQueryLength, reg_call. apply honest_next in H as H'.
  destruct (negb _).
  { eexists _, _, _, _. split_and!; [reflexivity|done|done|by exists 0]. }
  destruct (rg_keys (reg_next s) !! key) as [[[kind data]|]|] eqn:Hk.
  - eexists _, _, _, _. split_and!; [reflexivity|done|done|].
    destruct (ho_keys _ H' _ _ _ Hk) as [n Hn]. exists (N.of_nat n). lia.
  - eexists _, _, _, _. split_and!; [reflexivity|done|done|by exists 0].
  - eexists _, _, _, _. split_and!; [reflexivity|done|done|by exists 0].
Qed.
Lemma query_value_spec key kind0 buffer claimed s :
  honest s → claimed = N.of_nat (length buffer) →
  ∃ code kind bytes s', RegQueryValueExW key kind0 buffer claimed s = (Ok (code, (kind, bytes)), s') ∧
    honest s' ∧ rg_open s' = rg_open s.
Proof.
  intros H Hc. unfold RegQueryValueExW. rewrite M_bind_eq. unfold reg_call. cbv beta iota zeta.
  apply honest_next in H as H'.
  destruct (negb _); [by eexists _, _, _, _|].
  destruct (rg_keys (reg_next s) !! key) as [[[kind data]|]|]; try by eexists _, _, _, _.
  destruct (claimed <? N.of_nat (length data)) eqn:Hl; [by eexists _, _, _, _|].
  apply N.ltb_ge in Hl. rewrite (proj2 (Nat.leb_le _ _)) by lia. by eexists _, _, _, _.
Qed.
End memory.

Section windows_memory.
Context (os_error : N → string) (current_exe : result string string) (is_file : string → bool).

Lemma read_path_memory root subkey : keeps_memory balanced (read_path os_error root subkey).
Proof.
  intros s H. unfold read_path. destruct (open_spec root subkey s H) as (code&s1&E1&H1&O1).
  rewrite M_bind_eq, E1. destruct (code =? ERROR_SUCCESS); cbn [negb]; [|done].
  destruct (query_length_spec (root, subkey) s1 H1) as (c2&kind&len&s2&E2&H2&O2&Hev).
  rewrite M_bind_eq, E2. cbv beta iota zeta.
  assert (∀ s', honest s' → rg_open s' = S (rg_open s) →
    honest (with_open (pred (rg_open s')) s') ∧ pred (rg_open s') = rg_open s) as Hclose.
  { intros s' Hs' ->. split; [by apply honest_open|done]. }
  rewrite O1 in O2. destruct (c2 =? ERROR_FILE_NOT_FOUND).
  { by destruct (Hclose s2 H2 O2). }
  destruct (c2 =? ERROR_SUCCESS); cbn [negb]; [|by destruct (Hclose s2 H2 O2)].
  destruct (query_value_spec (root, subkey) kind (replicate (2 * N.to_nat (len / 2)) 0) len s2 H2)
    as (c3&kind'&bytes&s3&E3&H3&O3).
  { rewrite length_replicate. destruct Hev as [n ->]. rewrite N.mul_comm, N.div_mul by done. lia. }
  rewrite M_bind_eq, E3. cbv beta iota zeta. rewrite O2 in O3.
  destruct (Hclose s3 H3 O3). by destruct (c3 =? ERROR_SUCCESS).
Qed.

Lemma length_unit_bytes units : length (unit_bytes units) = (2 * length units)%nat.
Proof. induction units as [|u units IH]; [done|]. cbn. unfold unit_bytes in IH. lia. Qed.

Lemma write_user_path_memory value kind : keeps_memory balanced (write_user_path os_error value kind).
Proof.
  intros s H. unfold write_user_path.
  destruct (open_spec HKEY_CURRENT_USER USER_ENVIRONMENT s H) as (code&s1&E1&H1&O1).
  rewrite M_bind_eq, E1. destruct (code =? ERROR_SUCCESS); cbn [negb]; [|done]. cbv zeta.
  set (kd := if kind =? REG_SZ then _ else _).
  set (data := take _ _). assert (Nat.Even (length data)) as Hd.
  { subst data. rewrite length_take, length_unit_bytes.
    set (n := length (wide_null value)).
    exists (Nat.min (N.to_nat (N.of_nat n mod 2 ^ 31)) n).
    change (2 ^ 32) with (2 * 2 ^ 31). rewrite N.Div0.mul_mod_distr_l, N2Nat.inj_mul. lia. }
  assert (∃ c s2, RegSetValueExW (HKEY_CURRENT_USER, USER_ENVIRONMENT) kd data s1 = (Ok c, s2) ∧
    honest s2 ∧ rg_open s2 = rg_open s1) as (c&s2&E2&H2&O2).
  { unfold RegSetValueExW, reg_call. destruct (if negb _ then _ else _) as [c []].
    eexists _, _. split; [reflexivity|]. destruct (c =? ERROR_SUCCESS); [|split; [by apply honest_next|done]].
    split; [|done]. apply honest_set; [by apply honest_next|done]. }
  rewrite M_bind_eq, E2. cbv beta iota. rewrite O1 in O2.
  assert (honest (with_open (pred (rg_open s2)) s2)) by by apply honest_open.
  rewrite M_bind_eq. cbn [RegCloseKey modify]. destruct (c =? ERROR_SUCCESS);
    (split_and!; [done|done|cbn; by rewrite O2]).
Qed.

Lemma install_directory_memory : keeps_memory balanced (install_directory current_exe).
Proof.
  apply keeps_bind; [|intros exe]; apply keeps_lift; [by destruct current_exe|].
  by destruct (windows_parent exe).
Qed.
Lemma broadcast_memory : keeps_memory balanced broadcast_environment_change.
Proof. by intros s [H1 H2]. Qed.
#[local] Hint Resolve keeps_ret keeps_raise read_path_memory write_user_path_memory
  install_directory_memory broadcast_memory : core.
Ltac memory_step :=
  cbv zeta;
  match goal with
  | |- keeps_memory _ (_ ≫= _) => apply keeps_bind; [auto|intros ?]
  | |- keeps_memory _ (let '(_, _) := ?p in _) => destruct p
  | |- keeps_memory _ (if ?b then _ else _) => destruct b
  | |- keeps_memory _ _ => auto
  end.
Lemma windows_status_memory : keeps_memory balanced (windows_status os_error current_exe is_file).
Proof. unfold windows_status. repeat memory_step. Qed.
#[local] Hint Resolve windows_status_memory : core.

Lemma windows_install_memory : keeps_memory balanced (windows_install os_error current_exe is_file).
Proof. unfold windows_install. repeat memory_step. Qed.
Lemma windows_uninstall_memory : keeps_memory balanced (windows_uninstall os_error current_exe is_file).
Proof. unfold windows_uninstall. repeat memory_step. Qed.

(** C36: While every value of the registry has whole units, whatever the calls answer and
    other processes change in between, no operation on the path entry writes outside
    of its buffer, and each closes every key it opened. *)
Theorem registry_memory_safe s :
  honest s →
  Forall (λ m : Reg CliIntegrationStatus,
    (m s).1 ≠ Err RegUndefined ∧ honest (m s).2 ∧ rg_open (m s).2 = rg_open s)
    [windows_status os_error current_exe is_file; windows_install os_error current_exe is_file;
     windows_uninstall os_error current_exe is_file].
Proof.
  intros H. apply Forall_cons. split; [by apply windows_status_memory|].
  apply Forall_cons. split; [by apply windows_install_memory|].
  apply Forall_singleton. by apply windows_uninstall_memory.
Qed.
End windows_memory.

(** *** Texts *)

(** A text without a NUL, as the paths of the system are. *)
Definition plain_text (s : string) : Prop :=
  utf8_valid (to_bytes s) = true ∧ "000"%char ∉ to_bytes s.

Lemma plain_app a b : plain_text a → plain_text b → plain_text (a +:+ b).
Proof.
  intros [Ha1 Ha2] [Hb1 Hb2]. split; rewrite to_bytes_app; [by rewrite utf8_valid_app|].
  rewrite elem_of_app. tauto.
Qed.
Lemma plain_split a c b :
  byte_value c < 128 → plain_text (a +:+ String c b) → plain_text a ∧ plain_text b.
Proof.
  intros Hc [H1 H2]. rewrite to_bytes_app in H1, H2. cbn [to_bytes String.list_ascii_of_string] in H1, H2.
  apply utf8_valid_split in H1 as [? ?]; [|done].
  rewrite elem_of_app, elem_of_cons in H2. unfold plain_text. unfold to_bytes in *. tauto.
Qed.
Lemma plain_entries value : plain_text value → Forall plain_text (split_char ";" value).
Proof.
  intros H. remember (split_char ";" value) as ps eqn:Hps. symmetry in Hps.
  apply split_char_spec in Hps as (Hne&->&_).
  induction ps as [|p ps IH]; [done|]. destruct ps as [|q ps].
  - by constructor.
  - cbn [join] in H. apply plain_split in H as [Hp H]; [|done]. constructor; [done|by apply IH].
Qed.
Lemma plain_join ps : Forall plain_text ps → plain_text (join ";" ps).
Proof.
  induction 1 as [|p ps Hp Hps IH]; [split; [done|apply not_elem_of_nil]|].
  destruct ps as [|q ps]; [done|]. cbn [join]. apply plain_app; [done|].
  change (plain_text (";" +:+ join ";" (q :: ps))). apply plain_app; [|done].
  split; [done|]. by apply (bool_decide_unpack _); vm_compute.
Qed.
Lemma plain_trim_end value : plain_text value → plain_text (trim_end_matches ";" value).
Proof.
  apply (trim_end_ind plain_text). intros s H. by apply plain_split in H as [H _].
Qed.
Lemma plain_add value entry :
  plain_text value → plain_text entry → plain_text (add_path_entry value entry).
Proof.
  intros Hv He. unfold add_path_entry. destruct (contains_path_entry value entry); [done|].
  cbv zeta. destruct (is_empty _); [done|]. apply plain_app; [by apply plain_trim_end|].
  apply plain_app; [|done]. split; [done|]. by apply (bool_decide_unpack _); vm_compute.
Qed.
Lemma plain_remove value entry : plain_text value → plain_text (remove_path_entry value entry).
Proof.
  intros Hv. apply plain_join, Forall_forall. intros w [_ Hw]%list_elem_of_filter.
  apply plain_entries in Hv. rewrite Forall_forall in Hv. by apply Hv.
Qed.

(** What [read_path] makes of the bytes [write_user_path] stores. *)
Lemma pop_zeros_terminated units : 0 ∉ units → pop_zeros (units ++ [0]) = units.
Proof.
  intros H. unfold pop_zeros. rewrite reverse_app. cbn.
  destruct (reverse units) as [|u us] eqn:Hu; cbn.
  - apply (f_equal reverse) in Hu. rewrite reverse_involutive in Hu. by rewrite Hu.
  - rewrite <-(reverse_involutive units), Hu. destruct u; [|done].
    exfalso. apply H. rewrite <-(reverse_involutive units), Hu, elem_of_reverse. by left.
Qed.
Lemma stored_text value :
  plain_text value → from_utf16_lossy (pop_zeros (u16s (unit_bytes (wide_null value)))) = value.
Proof.
  intros [Hv Hn]. unfold wide_null. rewrite u16s_unit_bytes, pop_zeros_terminated.
  - by apply wide_roundtrip.
  - by apply encode_wide_no_zero.
Qed.

(** *** A quiet registry *)

(** No call is refused and no other process changes anything. *)
Definition quiet (s : Registry) : Prop :=
  (∀ n, rg_refuse s n = 0) ∧ ∀ n keys, rg_others s n keys = keys.
(** The key has this [Path]; without one it is read as empty. *)
Definition path_is (keys : gmap RegKey PathValue) (key : RegKey) (value : string) (kind : N) : Prop :=
  keys !! key = Some (Some (kind, unit_bytes (wide_null value))) ∨
  keys !! key = Some None ∧ value = "" ∧ kind = REG_EXPAND_SZ.
Definition only_keys (keys : gmap RegKey PathValue) (s s' : Registry) : Prop :=
  quiet s' ∧ rg_keys s' = keys ∧ rg_open s' = rg_open s.

Abbreviation user_path := (HKEY_CURRENT_USER, USER_ENVIRONMENT).
Abbreviation machine_path := (HKEY_LOCAL_MACHINE, MACHINE_ENVIRONMENT).

Section quiet.
Context (os_error : N → string).

Lemma quiet_open root subkey s value :
  quiet s → rg_keys s !! (root, subkey) = Some value →
  RegOpenKeyExW root subkey s = (Ok ERROR_SUCCESS, with_open (S (rg_open s)) (reg_next s)).
Proof.
  intros [Hr Ho] Hk. unfold RegOpenKeyExW. rewrite Hr. cbn [reg_next rg_keys].
  by rewrite Ho, Hk.
Qed.
Lemma quiet_call {A} key (failed : A) f s value :
  quiet s → rg_keys s !! key = Some value →
  reg_call key failed f s = (Ok (f value), reg_next s).
Proof.
  intros [Hr Ho] Hk. unfold reg_call. rewrite Hr. cbn [reg_next rg_keys]. by rewrite Ho, Hk.
Qed.

Lemma quiet_read root subkey value kind s :
  quiet s → plain_text value → path_is (rg_keys s) (root, subkey) value kind →
  ∃ s', read_path os_error root subkey s = (Ok (value, kind), s') ∧ only_keys (rg_keys s) s s' ∧
    rg_broadcasts s' = rg_broadcasts s.
Proof.
  intros Hq Ht Hp. assert (∃ v, rg_keys s !! (root, subkey) = Some v) as [v Hv].
  { destruct Hp as [Hp|[Hp _]]; eexists; exact Hp. }
  assert (∀ s, quiet s → quiet (reg_next s) ∧ rg_keys (reg_next s) = rg_keys s) as Hnext.
  { intros s0 [H1 H2]. split; [done|]. apply H2. }
  unfold read_path. rewrite M_bind_eq, (quiet_open _ _ _ v) by done.
  set (s1 := with_open _ _). cbn [negb N.eqb ERROR_SUCCESS Pos.eqb].
  destruct (Hnext s Hq) as [Hq1 Hk1]. assert (quiet s1) as Hq1' by done.
  assert (rg_keys s1 !! (root, subkey) = Some v) as Hv1 by by rewrite <-Hv, <-Hk1.
  rewrite M_bind_eq. unfold RegQueryLength. rewrite (quiet_call _ _ _ _ v) by done.
  destruct (Hnext s1 Hq1') as [Hq2 Hk2].
  assert (rg_keys (reg_next s1) = rg_keys s) as Hks by by rewrite Hk2, <-Hk1.
  destruct Hp as [Hp|(Hp&->&->)]; rewrite Hv in Hp; injection Hp as ->.
  2: { eexists. split; [reflexivity|]. split; [|done]. split_and!; done. }
  cbv beta iota zeta. change (ERROR_SUCCESS =? ERROR_FILE_NOT_FOUND) with false.
  change (ERROR_SUCCESS =? ERROR_SUCCESS) with true. cbn [negb]. cbv beta iota zeta.
  rewrite M_bind_eq. unfold RegQueryValueExW.
  rewrite M_bind_eq. rewrite (quiet_call _ _ _ _ (Some (kind, unit_bytes (wide_null value)))).
  2: done. 2: { rewrite Hks. done. }
  destruct (Hnext (reg_next s1) Hq2) as [Hq3 Hk3].
  cbv beta iota zeta. rewrite length_unit_bytes.
  set (n := length (wide_null value)).
  rewrite (proj2 (N.ltb_ge _ _)) by lia. rewrite length_replicate.
  assert (2 * N.to_nat (N.of_nat (2 * n) / 2) = 2 * n)%nat as Hlen.
  { rewrite Nat2N.inj_mul, N.mul_comm, N.div_mul by done. lia. }
  rewrite Hlen, Nat.leb_refl. cbv beta iota zeta.
  rewrite drop_ge by (rewrite length_replicate; lia). rewrite app_nil_r.
  eexists. split; [|split; [split_and!|]].
  - unfold mret, M_ret at 1. cbv beta iota zeta. rewrite M_bind_eq. unfold RegCloseKey, modify.
    cbv beta iota zeta. change (negb (ERROR_SUCCESS =? ERROR_SUCCESS)) with false.
    cbv beta iota zeta. rewrite stored_text by done. reflexivity.
  - done.
  - cbn [with_open rg_keys]. by rewrite Hk3.
  - done.
  - done.
Qed.

(** The type a value is stored with. *)
Definition stored_kind (kind : N) : N := if kind =? REG_SZ then REG_SZ else REG_EXPAND_SZ.
(** The registry can hold the text. *)
Definition fits (value : string) : Prop := 2 * N.of_nat (length (wide_null value)) < 2 ^ 32.

Lemma quiet_write value kind old kind0 s :
  quiet s → path_is (rg_keys s) user_path old kind0 → fits value →
  ∃ s', write_user_path os_error value kind s = (Ok tt, s') ∧
    only_keys (<[user_path := Some (stored_kind kind, unit_bytes (wide_null value))]> (rg_keys s)) s s'
    ∧ rg_broadcasts s' = rg_broadcasts s.
Proof.
  intros Hq Hp Hf. assert (∃ v, rg_keys s !! user_path = Some v) as [v Hv].
  { destruct Hp as [Hp|[Hp _]]; eexists; exact Hp. }
  unfold write_user_path. rewrite M_bind_eq, (quiet_open _ _ _ v) by done.
  change (negb (ERROR_SUCCESS =? ERROR_SUCCESS)) with false. cbv beta iota zeta.
  set (s1 := with_open _ _). destruct Hq as [Hr Ho].
  assert (rg_keys s1 = rg_keys s) as Hk1 by apply Ho.
  rewrite M_bind_eq. unfold RegSetValueExW.
  rewrite (quiet_call _ _ _ _ v); [|done|by rewrite Hk1].
  change (ERROR_SUCCESS =? ERROR_SUCCESS) with true. cbv beta iota zeta.
  rewrite (N.mod_small _ _ Hf), firstn_all2 by (rewrite length_unit_bytes; lia).
  eexists. split; [reflexivity|]. split; [|done]. split_and!; [done| |done].
  cbn [with_open with_keys rg_keys]. unfold stored_kind. f_equal. cbn [reg_next rg_keys].
  rewrite Hk1. apply Ho.
Qed.
End quiet.

Section windows_roundtrip.
Context (os_error : N → string) (exe directory : string) (is_file : string → bool).
Context (Hparent : windows_parent exe = Some directory)
        (Hfile : is_file (path_join Windows directory "print-bridge.exe") = true).
Context (Htext : plain_text directory).
Abbreviation status := (windows_status os_error (Ok exe) is_file).
Abbreviation install := (windows_install os_error (Ok exe) is_file).
Abbreviation uninstall := (windows_uninstall os_error (Ok exe) is_file).

(** What [status] tells of the two paths. *)
Definition told_status (user machine : string) : CliIntegrationStatus :=
  mkCliIntegrationStatus
    (if contains_path_entry user directory then Installed
     else if contains_path_entry machine directory then InstalledSystem else NotInstalled)
    (Some (path_join Windows directory "print-bridge.exe"))
    (contains_path_entry user directory || contains_path_entry machine directory).

Lemma quiet_directory s : install_directory (Ok exe) s = (Ok directory, s).
Proof. unfold install_directory. rewrite M_bind_eq. cbn. by rewrite Hparent. Qed.

Lemma quiet_status user ukind machine mkind s :
  quiet s → plain_text user → plain_text machine →
  path_is (rg_keys s) user_path user ukind → path_is (rg_keys s) machine_path machine mkind →
  ∃ s', status s = (Ok (told_status user machine), s') ∧ only_keys (rg_keys s) s s' ∧
    rg_broadcasts s' = rg_broadcasts s.
Proof.
  intros Hq Hu Hm Hpu Hpm. unfold windows_status. rewrite M_bind_eq, quiet_directory.
  cbv beta iota zeta. rewrite Hfile. cbn [negb].
  destruct (quiet_read os_error _ _ user ukind s Hq Hu Hpu) as (s1&E1&(Q1&K1&O1)&B1).
  rewrite M_bind_eq, E1. cbv beta iota zeta. rewrite <-K1 in Hpm.
  destruct (quiet_read os_error _ _ machine mkind s1 Q1 Hm Hpm) as (s2&E2&(Q2&K2&O2)&B2).
  rewrite M_bind_eq, E2. cbv beta iota zeta.
  eexists. split; [reflexivity|]. split; [|congruence]. split_and!; [done|congruence..].
Qed.

(** Changing the user's path and telling the result. *)
Lemma quiet_edit (edit : string → string) user ukind machine mkind s :
  quiet s → plain_text user → plain_text machine → plain_text (edit user) → fits (edit user) →
  path_is (rg_keys s) user_path user ukind → path_is (rg_keys s) machine_path machine mkind →
  ∃ s',
    ('(value, kind) ← read_path os_error HKEY_CURRENT_USER USER_ENVIRONMENT;
     _ ← write_user_path os_error (edit value) kind;
     _ ← broadcast_environment_change; status) s = (Ok (told_status (edit user) machine), s') ∧
    only_keys (<[user_path := Some (stored_kind ukind, unit_bytes (wide_null (edit user)))]>
      (rg_keys s)) s s' ∧
    rg_broadcasts s' = S (rg_broadcasts s).
Proof.
  intros Hq Hu Hm He Hf Hpu Hpm.
  destruct (quiet_read os_error _ _ user ukind s Hq Hu Hpu) as (s1&E1&(Q1&K1&O1)&B1).
  rewrite M_bind_eq, E1. cbv beta iota zeta. rewrite <-K1 in Hpu.
  destruct (quiet_write os_error (edit user) ukind user ukind s1 Q1 Hpu Hf) as (s2&E2&(Q2&K2&O2)&B2).
  rewrite M_bind_eq, E2. cbv beta iota. rewrite M_bind_eq.
  cbn [broadcast_environment_change modify]. unfold broadcast_environment_change, modify.
  cbv beta iota.
  destruct (quiet_status (edit user) (stored_kind ukind) machine mkind (with_broadcast s2))
    as (s3&E3&(Q3&K3&O3)&B3); [done|done|done| | |].
  - left. cbn [with_broadcast rg_keys]. rewrite K2. apply lookup_insert_eq.
  - cbn [with_broadcast rg_keys]. rewrite K2. unfold path_is. rewrite lookup_insert_ne by done.
    by rewrite K1.
  - exists s3. rewrite E3. split; [done|]. split; [split_and!; [done| |]|].
    + rewrite K3. cbn [with_broadcast rg_keys]. by rewrite K2, K1.
    + rewrite O3. cbn [with_broadcast rg_open]. congruence.
    + rewrite B3. cbn [with_broadcast rg_broadcasts]. congruence.
Qed.

(** C37: Installing appends the program's directory to the user's path unless it is
    there, and changes nothing else of the registry; uninstalling afterwards takes it
    out again and leaves the other entries as they were.  Both tell the state they
    left behind, close what they opened and announce the change once.  This is for a
    directory that makes one entry, not blank and without a semicolon
    ([proper_entry]; otherwise [semicolon_accumulates] is what happens), paths in
    valid text without a null character that fit the registry, a registry that
    refuses nothing, and no other program that writes to it meanwhile ([quiet]). *)
Theorem windows_install_roundtrip user ukind machine mkind s :
  proper_entry directory → quiet s → plain_text user → plain_text machine →
  fits (add_path_entry user directory) →
  fits (remove_path_entry (add_path_entry user directory) directory) →
  path_is (rg_keys s) user_path user ukind → path_is (rg_keys s) machine_path machine mkind →
  let user1 := add_path_entry user directory in
  let user2 := remove_path_entry user1 directory in
  path_entries user1 =
    path_entries user ++ (if contains_path_entry user directory then [] else [directory]) ∧
  path_entries user2 =
    filter (λ c, normalized_entry c ≠ normalized_entry directory) (path_entries user) ∧
  ∃ s1, install s =
      (Ok (mkCliIntegrationStatus Installed
             (Some (path_join Windows directory "print-bridge.exe")) true), s1) ∧
    only_keys (<[user_path := Some (stored_kind ukind, unit_bytes (wide_null user1))]> (rg_keys s)) s s1 ∧
    rg_broadcasts s1 = S (rg_broadcasts s) ∧
    ∃ s2, uninstall s1 =
        (Ok (mkCliIntegrationStatus
               (if contains_path_entry machine directory then InstalledSystem else NotInstalled)
               (Some (path_join Windows directory "print-bridge.exe"))
               (contains_path_entry machine directory)), s2) ∧
      only_keys (<[user_path := Some (stored_kind ukind, unit_bytes (wide_null user2))]> (rg_keys s)) s1 s2 ∧
      rg_broadcasts s2 = S (rg_broadcasts s1).
Proof.
  intros Hp Hq Hu Hm Hf1 Hf2 Hpu Hpm user1 user2.
  pose proof (add_path_entries user directory Hp) as He1. fold user1 in He1.
  assert (contains_path_entry user1 directory = true) as Hc1.
  { apply contains_path_entries. destruct (contains_path_entry user directory) eqn:Hc.
    - apply contains_path_entries in Hc as (c&Hc&?). exists c. rewrite He1. set_solver.
    - exists directory. rewrite He1. split; [set_solver|done]. }
  assert (contains_path_entry user2 directory = false) as Hc2.
  { apply not_true_iff_false. intros H. apply contains_path_entries in H as (c&Hc&Hn).
    unfold user2 in Hc. rewrite remove_path_entries in Hc. apply list_elem_of_filter in Hc as [? _]. done. }
  assert (plain_text user1) as Ht1 by by apply plain_add.
  assert (plain_text user2) as Ht2 by by apply plain_remove.
  split; [done|]. split.
  { unfold user2. rewrite remove_path_entries, He1, filter_app.
    destruct (contains_path_entry user directory); [by rewrite app_nil_r|].
    rewrite filter_cons_False by (intros H; by apply H). by rewrite app_nil_r. }
  destruct (quiet_edit (λ v, add_path_entry v directory) user ukind machine mkind s)
    as (s1&E1&(Q1&K1&O1)&B1); [done..|].
  exists s1. split.
  { unfold windows_install. rewrite M_bind_eq, quiet_directory. cbv beta iota zeta. rewrite Hfile.
    cbn [negb]. rewrite E1. unfold told_status. fold user1. by rewrite Hc1. }
  split; [done|]. split; [done|].
  destruct (quiet_edit (λ v, remove_path_entry v directory) user1 (stored_kind ukind) machine mkind s1)
    as (s2&E2&(Q2&K2&O2)&B2); [done..| | |].
  { left. rewrite K1. apply lookup_insert_eq. }
  { rewrite K1. unfold path_is. by rewrite lookup_insert_ne. }
  exists s2. split.
  { unfold windows_uninstall. rewrite M_bind_eq, quiet_directory. cbv beta iota zeta.
    rewrite E2. unfold told_status. fold user2. by rewrite Hc2. }
  split; [|done]. split_and!; [done| |done]. rewrite K2, K1, insert_insert_eq. unfold user2, stored_kind.
  by destruct (ukind =? REG_SZ).
Qed.
End windows_roundtrip.

(** *** Where the code goes wrong *)

(** A value with an odd number of bytes is written one byte past the end of the
    buffer, whose size is rounded down to whole units. *)
Theorem odd_value_overflows os_error root subkey kind data s :
  quiet s → rg_keys s !! (root, subkey) = Some (Some (kind, data)) → Nat.Odd (length data) →
  (read_path os_error root subkey s).1 = Err RegUndefined.
Proof.
  intros Hq Hk [n Hn]. unfold read_path. rewrite M_bind_eq, (quiet_open _ _ _ _ Hq Hk).
  change (negb (ERROR_SUCCESS =? ERROR_SUCCESS)) with false. cbv beta iota zeta.
  set (s1 := with_open _ _). destruct Hq as [Hr Ho].
  assert (quiet s1) as Hq1 by done.
  assert (rg_keys s1 !! (root, subkey) = Some (Some (kind, data))) as Hk1.
  { rewrite <-Hk. f_equal. apply Ho. }
  rewrite M_bind_eq. unfold RegQueryLength. rewrite (quiet_call _ _ _ _ _ Hq1 Hk1).
  change (ERROR_SUCCESS =? ERROR_FILE_NOT_FOUND) with false.
  change (ERROR_SUCCESS =? ERROR_SUCCESS) with true. cbn [negb]. cbv beta iota zeta.
  rewrite M_bind_eq. unfold RegQueryValueExW. rewrite M_bind_eq.
  rewrite (quiet_call _ _ _ (reg_next s1) (Some (kind, data))); [|done|].
  2:{ rewrite <-Hk1. cbn [reg_next rg_keys]. by rewrite (proj2 Hq1). }
  cbv beta iota zeta. rewrite (proj2 (N.ltb_ge _ _)) by lia.
  rewrite length_replicate. rewrite Hn.
  assert (2 * N.to_nat (N.of_nat (2 * n + 1) / 2) = 2 * n)%nat as ->.
  { replace (N.of_nat (2 * n + 1)) with (1 + N.of_nat n * 2) by lia.
    rewrite N.div_add by done. change (1 / 2) with 0. lia. }
  rewrite (proj2 (Nat.leb_gt _ _)) by lia. done.
Qed.

(** A directory with a semicolon in its name is never found in a path: every
    installation appends it once more, and uninstalling removes nothing. *)
Theorem semicolon_accumulates value entry :
  ";"%char ∈ to_bytes entry →
  contains_path_entry (add_path_entry value entry) entry = false ∧
  path_entries (add_path_entry (add_path_entry value entry) entry) =
    path_entries value ++ path_entries entry ++ path_entries entry ∧
  path_entries (remove_path_entry (add_path_entry value entry) entry) =
    path_entries value ++ path_entries entry.
Proof.
  intros H. pose proof (λ v, semicolon_never_contained v entry H) as Hn.
  split; [done|]. rewrite remove_path_entries, !add_new_entries by done. rewrite <-app_assoc.
  split; [done|]. rewrite <-add_new_entries by done. apply filter_all. intros c Hc He.
  assert (contains_path_entry (add_path_entry value entry) entry = true) as Ht
    by (apply contains_path_entries; by exists c). by rewrite Hn in Ht.
Qed.

(** ** Witnesses *)

Definition toy_exe : string := "C:\Apps\PrintBridge\print-bridge-desktop.exe".
Definition toy_directory : string := "C:\Apps\PrintBridge".
Definition toy_registry : Registry :=
  mkRegistry
    {[(HKEY_CURRENT_USER, USER_ENVIRONMENT) :=
        Some (REG_SZ, unit_bytes (wide_null "C:\Tools;c:\go\bin;"));
      (HKEY_LOCAL_MACHINE, MACHINE_ENVIRONMENT) :=
        Some (REG_EXPAND_SZ, unit_bytes (wide_null "C:\Windows"))]}
    0 0 0 (λ _, 0) (λ _ keys, keys).

Lemma toy_quiet : quiet toy_registry.
Proof. by split. Qed.
Lemma toy_honest : honest toy_registry.
Proof.
  split; [|done]. intros key kind data. unfold toy_registry. cbn [rg_keys].
  intros [[_ [= _ <-]]|[_ [_ [= _ <-]]%lookup_singleton_Some]]%lookup_insert_Some.
  - by exists 20%nat.
  - by exists 11%nat.
Qed.

Lemma registry_memory_safe_witness :
  honest toy_registry ∧
  (windows_install (λ _, "error") (Ok toy_exe) (λ _, true) toy_registry).1 ≠ Err RegUndefined ∧
  rg_open (windows_install (λ _, "error") (Ok toy_exe) (λ _, true) toy_registry).2 = 0%nat.
Proof.
  pose proof (registry_memory_safe (λ _, "error") (Ok toy_exe) (λ _, true) toy_registry toy_honest) as H.
  apply Forall_cons in H as [_ H]. apply Forall_cons in H as [(H1&_&H2) _].
  split; [exact toy_honest|]. split; [exact H1|exact H2].
Defined.

Lemma plain_text_computed s :
  bool_decide (utf8_valid (to_bytes s) = true) && bool_decide ("000"%char ∉ to_bytes s) = true →
  plain_text s.
Proof. intros [H1 H2]%andb_prop. split; by eapply bool_decide_eq_true_1. Qed.

Lemma windows_install_roundtrip_witness :
  ∃ s1 s2, windows_install (λ _, "error") (Ok toy_exe) (λ _, true) toy_registry =
      (Ok (mkCliIntegrationStatus Installed (Some "C:\Apps\PrintBridge\print-bridge.exe") true), s1) ∧
    windows_uninstall (λ _, "error") (Ok toy_exe) (λ _, true) s1 =
      (Ok (mkCliIntegrationStatus NotInstalled (Some "C:\Apps\PrintBridge\print-bridge.exe") false), s2) ∧
    rg_keys s2 !! (HKEY_CURRENT_USER, USER_ENVIRONMENT) =
      Some (Some (REG_SZ, unit_bytes (wide_null "C:\Tools;c:\go\bin"))).
Proof.
  destruct (windows_install_roundtrip (λ _, "error") toy_exe toy_directory (λ _, true)
    ltac:(vm_compute; reflexivity) eq_refl ltac:(apply plain_text_computed; vm_compute; reflexivity)
    "C:\Tools;c:\go\bin;" REG_SZ "C:\Windows" REG_EXPAND_SZ toy_registry)
    as (_&_&s1&E1&_&_&s2&E2&(_&K2&_)&_).
  - split; [by vm_compute|]. by apply (bool_decide_unpack _); vm_compute.
  - exact toy_quiet.
  - apply plain_text_computed; vm_compute; reflexivity.
  - apply plain_text_computed; vm_compute; reflexivity.
  - vm_compute; reflexivity.
  - vm_compute; reflexivity.
  - left. reflexivity.
  - left. reflexivity.
  - exists s1, s2. split; [exact E1|]. split; [exact E2|]. rewrite K2. apply lookup_insert_eq.
Defined.

Lemma odd_value_overflows_witness :
  let s := mkRegistry {[("HKCU", "Environment") := Some (REG_SZ, [67; 0; 58])]} 0 0 0 (λ _, 0) (λ _ k, k) in
  (read_path (λ _, "error") "HKCU" "Environment" s).1 = Err RegUndefined.
Proof.
  intros s. apply (odd_value_overflows _ _ _ REG_SZ [67; 0; 58]); [done|reflexivity|].
  by exists 1%nat.
Defined.

Lemma semicolon_accumulates_witness :
  path_entries (add_path_entry (add_path_entry "C:\Windows" "C:\a;b") "C:\a;b") =
    ["C:\Windows"; "C:\a"; "b"; "C:\a"; "b"].
Proof.
  destruct (semicolon_accumulates "C:\Windows" "C:\a;b") as (_&H&_).
  - by apply (bool_decide_unpack _); vm_compute.
  - rewrite H. vm_compute. reflexivity.
Defined.
