(* ===== verification/CliLinks.v ===== *)
(** * The command of the installed application on Linux and macOS
      ([apps/desktop/src-tauri/src/cli_integration/unix_link.rs], [linux.rs],
      [macos.rs], [mod.rs])

    A symbolic link to the application, which the code classifies before it touches
    it.  Other processes may change the file system before every operation; what
    the program removes or replaces is recorded, so that the theorems can say that
    it never destroys what is not a link. *)

From S2P Require Import Prelude RustStr FileSys Config Browser.
From S2P Require Import CliIntegration.
From S2P Require Import Commands.
From Stdlib Require Import Ascii.
Open Scope string_scope.
Open Scope list_scope.

(** ** Paths

    Two paths are equal when their components are; a dot counts only at the start
    of a relative path. *)
Definition unix_components (path : string) : bool * list string :=
  let parts := filter (λ part, part ≠ "") (split_char "/" path) in
  let absolute := starts_with "/" path in
  (absolute,
   match parts with
   | "." :: rest => if absolute then filter (λ part, part ≠ ".") rest
                    else "." :: filter (λ part, part ≠ ".") rest
   | _ => filter (λ part, part ≠ ".") parts
   end).
Definition same_path (a b : string) : Prop := unix_components a = unix_components b.
#[export] Instance same_path_dec a b : Decision (same_path a b).
Proof. unfold same_path. apply _. Defined.
#[export] Instance same_path_equivalence : Equivalence same_path.
Proof. split; [by intros a|by intros a b|]. intros a b c Hab Hbc. unfold same_path in *. congruence. Qed.

(** ** A file system with links *)

Inductive Node := File (content : string) | Directory | Link (source : string).
#[export] Instance Node_eq_dec : EqDecision Node.
Proof. solve_decision. Defined.

(** The nodes, the answers to come, and what the program destroyed. *)
Record LinkFs := mkLinkFs {
  lf_nodes : gmap string Node;
  lf_tick : nat;
  lf_fault : nat → option IoError;
  lf_others : nat → gmap string Node → gmap string Node;
  lf_lost : list (string * Node)
}.
Definition lf_next (s : LinkFs) : LinkFs :=
  mkLinkFs (lf_others s (lf_tick s) (lf_nodes s)) (S (lf_tick s)) (lf_fault s) (lf_others s) (lf_lost s).
Definition lf_put (path : string) (node : Node) (s : LinkFs) : LinkFs :=
  mkLinkFs (<[path := node]> (lf_nodes s)) (lf_tick s) (lf_fault s) (lf_others s)
    (lf_lost s ++ option_list ((λ old, (path, old)) <$> lf_nodes s !! path)).
Definition lf_delete (path : string) (s : LinkFs) : LinkFs :=
  mkLinkFs (delete path (lf_nodes s)) (lf_tick s) (lf_fault s) (lf_others s)
    (lf_lost s ++ option_list ((λ old, (path, old)) <$> lf_nodes s !! path)).

Abbreviation LIO := (M LinkFs IoError).
(** An operation: refused, or what it does after the others had their turn. *)
Definition lf_call {A} (f : LinkFs → result IoError A * LinkFs) : LIO A := λ s,
  let s' := lf_next s in
  match lf_fault s (lf_tick s) with Some e => (Err e, s') | None => f s' end.

(** [fs::symlink_metadata], without following a link. *)
Definition symlink_metadata (path : string) : LIO Node :=
  lf_call (λ s, (ok_or not_found (lf_nodes s !! path), s)).
Definition read_link (path : string) : LIO string :=
  lf_call (λ s, (match lf_nodes s !! path with
                 | Some (Link source) => Ok source
                 | Some _ => Err (mkIoError InvalidInput "Invalid argument")
                 | None => Err not_found
                 end, s)).
Definition remove_file (path : string) : LIO unit :=
  lf_call (λ s, match lf_nodes s !! path with
                | Some Directory => (Err (mkIoError OtherKind "Is a directory"), s)
                | Some _ => (Ok tt, lf_delete path s)
                | None => (Err not_found, s)
                end).
(** [fs::create_dir_all] of a parent directory: only a failure is visible. *)
Definition create_dir_all (path : string) : LIO unit := lf_call (λ s, (Ok tt, s)).
Definition symlink (source path : string) : LIO unit :=
  lf_call (λ s, match lf_nodes s !! path with
                | Some _ => (Err (mkIoError AlreadyExists "File exists"), s)
                | None => (Ok tt, lf_put path (Link source) s)
                end).

(** ** [unix_link.rs] *)

Inductive LinkState := LinkNotInstalled | LinkInstalled | LinkStale | LinkConflict.
#[export] Instance LinkState_eq_dec : EqDecision LinkState.
Proof. solve_decision. Defined.

Definition classify_link (target expected_source : string) : LIO LinkState :=
  metadata ← attempt (symlink_metadata target);
  match metadata with
  | Err e => if bool_decide (io_kind e = NotFound) then mret LinkNotInstalled else raise e
  | Ok (Link _) =>
      source ← read_link target;
      let source := if starts_with "/" source then source
                    else path_join OtherUnix (unwrap_or (path_parent target) "") source in
      mret (if bool_decide (same_path source expected_source) then LinkInstalled else LinkStale)
  | Ok _ => mret LinkConflict
  end.

Definition link_status_kind (state : LinkState) : CliIntegrationStatusKind :=
  match state with
  | LinkNotInstalled => NotInstalled
  | LinkInstalled => Installed
  | LinkStale => Stale
  | LinkConflict => Conflict
  end.
Definition occupied (path : string) : string := path +:+ " is occupied by a non-symbolic-link entry".

(** ** Linux ([linux.rs]) *)

Abbreviation LinkM := (M LinkFs string).
Definition io {A} (m : LIO A) : LinkM A := mapping_err io_message m.

Inductive LinuxInstallKind :=
  | System (command : string)
  | AppImage (source command : string)
  | NotAvailable.

Section linux.
Context (current_exe : result IoError string) (env : Env).

Definition detect_install_kind (current_exe : string) (appimage : option string) (home : string)
  : LinuxInstallKind :=
  match appimage with
  | Some source => AppImage source (path_join OtherUnix home ".local/bin/print-bridge")
  | None =>
      if bool_decide (same_path current_exe "/usr/bin/print-bridge") then System current_exe
      else NotAvailable
  end.
Definition current_install_kind : result string LinuxInstallKind :=
  current_exe ← map_err io_message current_exe;
  home ← ok_or "HOME is not set" (env "HOME");
  Ok (detect_install_kind current_exe (env "APPIMAGE") home).

Definition linux_status_for (kind : LinuxInstallKind) : LinkM CliIntegrationStatus :=
  match kind with
  | System command => mret (mkCliIntegrationStatus InstalledSystem (Some command) true)
  | AppImage source command =>
      state ← io (classify_link command source);
      parent ← lift (ok_or "invalid command path" (path_parent command));
      let path_ready :=
        match env "PATH" with
        | Some value => existsb (λ entry, bool_decide (same_path entry parent))
                          (split_paths OtherUnix value)
        | None => false
        end in
      mret (mkCliIntegrationStatus (link_status_kind state) (Some command) path_ready)
  | NotAvailable => mret (mkCliIntegrationStatus Unavailable None false)
  end.
Definition linux_status : LinkM CliIntegrationStatus :=
  kind ← lift current_install_kind; linux_status_for kind.

Definition linux_install : LinkM CliIntegrationStatus :=
  kind ← lift current_install_kind;
  match kind with
  | AppImage source command =>
      let link :=
        parent ← lift (ok_or "invalid command path" (path_parent command));
        _ ← io (create_dir_all parent);
        _ ← io (symlink source command);
        linux_status_for kind in
      state ← io (classify_link command source);
      match state with
      | LinkConflict => raise (occupied command)
      | LinkInstalled => linux_status_for kind
      | LinkStale => _ ← io (remove_file command); link
      | LinkNotInstalled => link
      end
  | _ => linux_status_for kind
  end.
Definition linux_uninstall : LinkM CliIntegrationStatus :=
  kind ← lift current_install_kind;
  match kind with
  | AppImage source command =>
      state ← io (classify_link command source);
      _ ← when (bool_decide (state = LinkInstalled)) (io (remove_file command));
      linux_status_for kind
  | _ => linux_status_for kind
  end.
End linux.

(** ** macOS ([macos.rs]) *)

Definition COMMAND_PATH : string := "/usr/local/bin/print-bridge".

(** The two scripts, and what becomes of one: [osascript] does not start, the user
    refuses the rights, or the shell program runs. *)
Inductive Script := InstallScript (source : string) | UninstallScript.
Inductive ScriptRun := SpawnFails (error : IoError) | Refused (stderr : string) | Runs.

(** The shell programs of the scripts: their exit code and the node left at
    [COMMAND_PATH].  A node that is not a link makes either exit with 73. *)
Definition script_shell (script : Script) (node : option Node) : nat * option Node :=
  match script, node with
  | InstallScript source, (None | Some (Link _)) => (0%nat, Some (Link source))
  | UninstallScript, Some (Link _) => (0%nat, None)
  | _, _ => (73%nat, node)
  end.

Section macos.
Context (current_exe : result IoError string).
(** What becomes of a script at each moment, and the text [osascript] reports when
    the shell program fails. *)
Context (script_run : nat → ScriptRun) (shell_failed : nat → string).

Definition osascript_error (stderr : string) : string :=
  let message := trim stderr in
  if is_empty message then "macOS command-line tool operation failed" else message.
Definition run_osascript (script : Script) : LinkM unit := λ s,
  let s' := lf_next s in
  match script_run (lf_tick s) with
  | SpawnFails e => (Err (io_message e), s')
  | Refused stderr => (Err (osascript_error stderr), s')
  | Runs =>
      match script_shell script (lf_nodes s' !! COMMAND_PATH) with
      | (O, Some node) => (Ok tt, lf_put COMMAND_PATH node s')
      | (O, None) => (Ok tt, lf_delete COMMAND_PATH s')
      | (code, _) => (Err (osascript_error (shell_failed code)), s')
      end
  end.

Definition macos_status_for (source : string) : LinkM CliIntegrationStatus :=
  state ← io (classify_link COMMAND_PATH source);
  mret (mkCliIntegrationStatus (link_status_kind state) (Some COMMAND_PATH) true).
Definition macos_status : LinkM CliIntegrationStatus :=
  source ← lift (map_err io_message current_exe); macos_status_for source.
Definition macos_install : LinkM CliIntegrationStatus :=
  source ← lift (map_err io_message current_exe);
  state ← io (classify_link COMMAND_PATH source);
  if bool_decide (state = LinkConflict) then raise (occupied COMMAND_PATH)
  else
    _ ← run_osascript (InstallScript source);
    macos_status_for source.
Definition macos_uninstall : LinkM CliIntegrationStatus :=
  source ← lift (map_err io_message current_exe);
  state ← io (classify_link COMMAND_PATH source);
  _ ← when (bool_decide (state = LinkInstalled)) (run_osascript UninstallScript);
  macos_status_for source.
End macos.

(** [run_cli_integration] ([commands.rs]), which the handlers of the window run the
    operations with: every error reaches the window as a runtime error. *)
Definition run_cli_integration {S} (operation : M S string CliIntegrationStatus)
  : M S CommandError CliIntegrationStatus :=
  mapping_err (mkCommandError KRuntime) operation.
(** The handlers of the window: [get_cli_integration_status], [install_cli_integration]
    and [uninstall_cli_integration], over the operations of the platform. *)
Record CliIntegrationOps (S : Type) := mkCliIntegrationOps {
  op_status : M S string CliIntegrationStatus;
  op_install : M S string CliIntegrationStatus;
  op_uninstall : M S string CliIntegrationStatus
}.
Arguments mkCliIntegrationOps {S}.
Arguments op_status {S}.
Arguments op_install {S}.
Arguments op_uninstall {S}.
Definition get_cli_integration_status {S} (ops : CliIntegrationOps S) := run_cli_integration (op_status ops).
Definition install_cli_integration {S} (ops : CliIntegrationOps S) := run_cli_integration (op_install ops).
Definition uninstall_cli_integration {S} (ops : CliIntegrationOps S) := run_cli_integration (op_uninstall ops).

(** ** Nothing but a link is ever destroyed *)

(** From one state to another only links at [path] were removed or replaced. *)
Definition spares (path : string) (s s' : LinkFs) : Prop :=
  ∃ lost, lf_lost s' = lf_lost s ++ lost ∧ Forall (λ '(p, node), p = path ∧ ∃ source, node = Link source) lost.
#[export] Instance spares_preorder path : PreOrder (spares path).
Proof.
  split.
  - intros s. exists []. by rewrite app_nil_r.
  - intros s1 s2 s3 (l1&H1&F1) (l2&H2&F2). exists (l1 ++ l2). rewrite H2, H1, app_assoc.
    split; [done|]. by apply Forall_app.
Qed.

Section spares.
Context (path : string).

Lemma spares_same s s' : lf_lost s' = lf_lost s → spares path s s'.
Proof. intros H. exists []. by rewrite H, app_nil_r. Qed.
Lemma lf_call_spares {A} (f : LinkFs → result IoError A * LinkFs) :
  (∀ s, spares path s (f s).2) → respects (spares path) (lf_call f).
Proof.
  intros Hf s. unfold lf_call. cbv zeta. assert (spares path s (lf_next s)) by by apply spares_same.
  destruct (lf_fault s (lf_tick s)); [done|]. by etrans.
Qed.
Lemma symlink_metadata_spares p : respects (spares path) (symlink_metadata p).
Proof. by apply lf_call_spares. Qed.
Lemma read_link_spares p : respects (spares path) (read_link p).
Proof. by apply lf_call_spares. Qed.
Hint Resolve symlink_metadata_spares read_link_spares : respects.
Lemma classify_link_spares target source : respects (spares path) (classify_link target source).
Proof. unfold classify_link. solve_respects. Qed.
Hint Resolve classify_link_spares : respects.
Lemma io_spares {A} (m : LIO A) : respects (spares path) m → respects (spares path) (io m).
Proof. unfold io. solve_respects. Qed.
End spares.
#[export] Hint Resolve classify_link_spares io_spares : respects.

(** A script runs its own check at the moment it acts. *)
Lemma run_osascript_spares script_run shell_failed script :
  respects (spares COMMAND_PATH) (run_osascript script_run shell_failed script).
Proof.
  intros s. unfold run_osascript. cbv zeta.
  assert (spares COMMAND_PATH s (lf_next s)) as Hn by by apply spares_same.
  destruct (script_run (lf_tick s)); [done|done|].
  destruct (lf_nodes (lf_next s) !! COMMAND_PATH) as [[c| |old]|] eqn:Hnode;
    destruct script as [source|]; simpl; try done;
    (etrans; [exact Hn|]);
    first [exists [(COMMAND_PATH, Link old)] | exists []];
    unfold lf_put, lf_delete; cbn [lf_lost]; rewrite Hnode; (split; [done|]);
    repeat constructor; by eexists.
Qed.

Section macos_safety.
Context (current_exe : result IoError string).
Context (script_run : nat → ScriptRun) (shell_failed : nat → string).
Hint Resolve run_osascript_spares : respects.

(** On macOS no operation on the command ever removes or replaces anything but a
    symbolic link at its path, whatever other processes do to the file system between
    its steps and whatever fails. *)
Theorem macos_spares_files s :
  spares COMMAND_PATH s (macos_status current_exe s).2 ∧
  spares COMMAND_PATH s (macos_install current_exe script_run shell_failed s).2 ∧
  spares COMMAND_PATH s (macos_uninstall current_exe script_run shell_failed s).2.
Proof.
  split_and!.
  - revert s. change (respects (spares COMMAND_PATH) (macos_status current_exe)).
    unfold macos_status, macos_status_for. solve_respects.
  - revert s. change (respects (spares COMMAND_PATH) (macos_install current_exe script_run shell_failed)).
    unfold macos_install, macos_status_for. solve_respects.
  - revert s. change (respects (spares COMMAND_PATH) (macos_uninstall current_exe script_run shell_failed)).
    unfold macos_uninstall, macos_status_for, when. solve_respects.
Qed.
End macos_safety.

(** ** Calm: no other process, no failure *)

Definition calm (s : LinkFs) : Prop :=
  (∀ n, lf_fault s n = None) ∧ ∀ n nodes, lf_others s n nodes = nodes.
Definition leaves (nodes : gmap string Node) (s s' : LinkFs) : Prop := calm s' ∧ lf_nodes s' = nodes.

(** What [classify_link] tells of a node. *)
Definition resolve_link (target source : string) : string :=
  if starts_with "/" source then source
  else path_join OtherUnix (unwrap_or (path_parent target) "") source.
Definition state_of (target expected : string) (node : option Node) : LinkState :=
  match node with
  | None => LinkNotInstalled
  | Some (Link source) =>
      if bool_decide (same_path (resolve_link target source) expected) then LinkInstalled else LinkStale
  | Some _ => LinkConflict
  end.

Lemma calm_next s : calm s → leaves (lf_nodes s) s (lf_next s).
Proof. intros [Hf Ho]. split; [done|]. apply Ho. Qed.
Lemma calm_call {A} (f : LinkFs → result IoError A * LinkFs) s :
  calm s → lf_call f s = f (lf_next s).
Proof. intros [Hf Ho]. unfold lf_call. by rewrite Hf. Qed.

Lemma calm_classify target expected s :
  calm s →
  ∃ s', classify_link target expected s = (Ok (state_of target expected (lf_nodes s !! target)), s') ∧
    leaves (lf_nodes s) s s'.
Proof.
  intros Hc. unfold classify_link. rewrite attempt_bind. unfold symlink_metadata.
  rewrite calm_call by done. destruct (calm_next s Hc) as [Hc1 Hn1]. rewrite Hn1.
  destruct (lf_nodes s !! target) as [[c| |source]|] eqn:Hnode; simpl; try (by eexists).
  rewrite M_bind_eq. unfold read_link. rewrite calm_call by done.
  destruct (calm_next (lf_next s) Hc1) as [Hc2 Hn2]. rewrite Hn2, Hn1, Hnode. cbn.
  eexists. split; [reflexivity|]. split; [done|]. by rewrite Hn2.
Qed.

(** The parent of a file in a directory. *)
Lemma path_parent_join dir name :
  "/"%char ∉ to_bytes name → path_parent (dir +:+ String "/" name) = Some dir.
Proof.
  intros Hn. unfold path_parent, rsplit_once, Bytes.rsplit_once.
  assert (Bytes.split_once [ "/"%char ] (reverse (to_bytes (dir +:+ String "/" name))) =
    Some (reverse (to_bytes name), reverse (to_bytes dir))) as H.
  { apply BytesFacts.b_split_once_char. rewrite to_bytes_app. cbn [to_bytes String.list_ascii_of_string].
    rewrite reverse_app, reverse_cons, <-app_assoc. split; [done|by rewrite elem_of_reverse]. }
  change (reverse (to_bytes "/")) with ["/"%char]. rewrite H. cbn.
  by rewrite !reverse_involutive, of_to_bytes.
Qed.

Section linux_calm.
Context (exe : string) (env : Env) (source home : string).
Context (Happimage : env "APPIMAGE" = Some source) (Hhome : env "HOME" = Some home).
Abbreviation command := (path_join OtherUnix home ".local/bin/print-bridge").
Abbreviation status := (linux_status (Ok exe) env).
Abbreviation install := (linux_install (Ok exe) env).
Abbreviation uninstall := (linux_uninstall (Ok exe) env).

Lemma command_parent : ∃ parent, path_parent command = Some parent.
Proof.
  assert (∃ dir, command = dir +:+ String "/" "print-bridge") as (dir&->).
  { unfold path_join. cbn [path_sep starts_with]. change (starts_with "/" ".local/bin/print-bridge") with false.
    destruct (is_empty home || ends_with "/" home).
    - exists (home +:+ ".local/bin"). by rewrite <-str_app_assoc.
    - exists (home +:+ "/" +:+ ".local/bin"). by rewrite <-!str_app_assoc. }
  exists dir. apply path_parent_join. by apply (bool_decide_unpack _); vm_compute.
Qed.

(** Whether a terminal finds the command. *)
Definition on_path : bool :=
  match env "PATH", path_parent command with
  | Some value, Some parent =>
      existsb (λ entry, bool_decide (same_path entry parent)) (split_paths OtherUnix value)
  | _, _ => false
  end.
Definition told (state : LinkState) : CliIntegrationStatus :=
  mkCliIntegrationStatus (link_status_kind state) (Some command) on_path.

Lemma install_kind : current_install_kind (Ok exe) env = Ok (AppImage source command).
Proof. unfold current_install_kind. cbn. rewrite Hhome, Happimage. reflexivity. Qed.
Lemma io_ok {A} (m : LIO A) s a s' : m s = (Ok a, s') → io m s = (Ok a, s').
Proof. intros H. unfold io, mapping_err. by rewrite H. Qed.

Lemma calm_status_for s :
  calm s → ∃ s', linux_status_for env (AppImage source command) s =
    (Ok (told (state_of command source (lf_nodes s !! command))), s') ∧ leaves (lf_nodes s) s s'.
Proof.
  intros Hc. destruct (calm_classify command source s Hc) as (s1&E1&H1).
  destruct command_parent as [parent Hp].
  exists s1. split; [|done]. unfold linux_status_for. rewrite M_bind_eq, (io_ok _ _ _ _ E1).
  unfold told, on_path. rewrite Hp. cbn. by destruct (env "PATH").
Qed.

(** The link is made, and told. *)
Lemma calm_link s :
  calm s → lf_nodes s !! command = None → starts_with "/" source = true →
  ∃ s', (parent ← lift (ok_or "invalid command path" (path_parent command));
         _ ← io (create_dir_all parent); _ ← io (symlink source command);
         linux_status_for env (AppImage source command)) s = (Ok (told LinkInstalled), s') ∧
    leaves (<[command := Link source]> (lf_nodes s)) s s'.
Proof.
  intros Hc Hnone Habs. destruct command_parent as [parent ->]. rewrite M_bind_eq. cbn [ok_or lift].
  unfold lift. cbv beta iota. rewrite M_bind_eq. unfold create_dir_all at 1.
  destruct (calm_next s Hc) as [Hc1 Hn1].
  rewrite (io_ok _ _ tt (lf_next s)) by by rewrite calm_call.
  destruct (calm_next _ Hc1) as [Hc2 Hn2]. rewrite Hn1 in Hn2.
  rewrite M_bind_eq. unfold symlink.
  rewrite (io_ok _ _ tt (lf_put command (Link source) (lf_next (lf_next s)))).
  2:{ rewrite calm_call by done. by rewrite Hn2, Hnone. }
  destruct (calm_status_for (lf_put command (Link source) (lf_next (lf_next s)))) as (s'&E&Hl); [done|].
  assert (lf_nodes (lf_put command (Link source) (lf_next (lf_next s))) =
    <[command := Link source]> (lf_nodes s)) as Hput by (cbn [lf_put lf_nodes]; by rewrite Hn2).
  rewrite Hput in E, Hl. exists s'. rewrite E, lookup_insert_eq. split; [|done].
  do 3 f_equal. unfold state_of, resolve_link. rewrite Habs. by rewrite bool_decide_eq_true_2.
Qed.

Lemma calm_uninstall s :
  calm s → let state := state_of command source (lf_nodes s !! command) in
  ∃ s', uninstall s =
      (Ok (told (if bool_decide (state = LinkInstalled) then LinkNotInstalled else state)), s') ∧
    leaves (if bool_decide (state = LinkInstalled) then delete command (lf_nodes s)
            else lf_nodes s) s s'.
Proof.
  intros Hc state. unfold uninstall, linux_uninstall. rewrite lift_bind, install_kind.
  destruct (calm_classify command source s Hc) as (s1&E1&Hc1&Hn1).
  rewrite M_bind_eq, (io_ok _ _ _ _ E1). cbv beta iota. fold state.
  destruct (bool_decide (state = LinkInstalled)) eqn:Hst; cbn [when].
  - rewrite M_bind_eq. destruct (calm_next s1 Hc1) as [Hc2 Hn2]. rewrite Hn1 in Hn2.
    rewrite (io_ok _ _ tt (lf_delete command (lf_next s1))).
    + destruct (calm_status_for (lf_delete command (lf_next s1))) as (s'&E&Hl); [done|].
      assert (lf_nodes (lf_delete command (lf_next s1)) = delete command (lf_nodes s)) as Hd
        by (cbn [lf_delete lf_nodes]; by rewrite Hn2).
      rewrite Hd in E, Hl. rewrite lookup_delete_eq in E. by exists s'.
    + apply bool_decide_eq_true in Hst. unfold remove_file. rewrite calm_call by done. rewrite Hn2.
      unfold state, state_of in Hst. by destruct (lf_nodes s !! command) as [[| |]|].
  - rewrite M_bind_eq. cbn [mret M_ret]. unfold mret, M_ret. cbv beta iota.
    destruct (calm_status_for s1 Hc1) as (s'&E&Hl). rewrite Hn1 in E, Hl. fold state in E.
    by exists s'.
Qed.

Lemma calm_install s :
  calm s → starts_with "/" source = true →
  let state := state_of command source (lf_nodes s !! command) in
  ∃ s', install s =
      (if bool_decide (state = LinkConflict) then Err (occupied command)
       else Ok (told LinkInstalled), s') ∧
    leaves (if bool_decide (state = LinkInstalled ∨ state = LinkConflict) then lf_nodes s
            else <[command := Link source]> (lf_nodes s)) s s'.
Proof.
  intros Hc Habs state. unfold linux_install. rewrite lift_bind, install_kind.
  destruct (calm_classify command source s Hc) as (s1&E1&Hc1&Hn1). cbv zeta.
  rewrite M_bind_eq, (io_ok _ _ _ _ E1). cbv beta iota. fold state.
  destruct state eqn:Hst.
  - destruct (calm_link s1) as (s'&E&Hl); [done| |done|].
    { rewrite Hn1. unfold state, state_of in Hst.
      destruct (lf_nodes s !! command) as [[| |]|]; try done. by case_bool_decide. }
    rewrite Hn1 in Hl. exists s'. by rewrite E.
  - destruct (calm_status_for s1 Hc1) as (s'&E&Hl). rewrite Hn1 in E, Hl. fold state in E.
    rewrite Hst in E. exists s'. by rewrite E.
  - rewrite M_bind_eq. destruct (calm_next s1 Hc1) as [Hc2 Hn2]. rewrite Hn1 in Hn2.
    rewrite (io_ok _ _ tt (lf_delete command (lf_next s1))).
    2:{ unfold remove_file. rewrite calm_call by done. rewrite Hn2.
        unfold state, state_of in Hst. by destruct (lf_nodes s !! command) as [[| |]|]. }
    assert (lf_nodes (lf_delete command (lf_next s1)) = delete command (lf_nodes s)) as Hd
      by (cbn [lf_delete lf_nodes]; by rewrite Hn2).
    destruct (calm_link (lf_delete command (lf_next s1))) as (s'&E&Hl); [done| |done|].
    { by rewrite Hd, lookup_delete_eq. }
    rewrite Hd, insert_delete_eq in Hl. exists s'. by rewrite E.
  - by exists s1.
Qed.

(** Installing an AppImage refuses to touch what is not a link, keeps a link that is
    already right, and otherwise leaves exactly the new link; uninstalling takes away
    the link of this AppImage, also one just installed, and nothing else.  Every
    other node stays, and the answer tells the state that was left. *)
Theorem linux_link_lifecycle s :
  calm s → starts_with "/" source = true →
  let state := state_of command source (lf_nodes s !! command) in
  (state = LinkConflict →
     ∃ s', install s = (Err (occupied command), s') ∧ leaves (lf_nodes s) s s') ∧
  (state ≠ LinkConflict →
     ∃ s1, install s = (Ok (told LinkInstalled), s1) ∧
       leaves (if bool_decide (state = LinkInstalled) then lf_nodes s
               else <[command := Link source]> (lf_nodes s)) s s1 ∧
       ∃ s2, uninstall s1 = (Ok (told LinkNotInstalled), s2) ∧
         leaves (delete command (lf_nodes s)) s1 s2) ∧
  (state ≠ LinkInstalled →
     ∃ s', uninstall s = (Ok (told state), s') ∧ leaves (lf_nodes s) s s').
Proof.
  intros Hc Habs state. destruct (calm_install s Hc Habs) as (s1&E1&Hl1). fold state in E1, Hl1.
  split_and!; intros Hst.
  - rewrite Hst in E1, Hl1. by exists s1.
  - rewrite bool_decide_eq_false_2 in E1 by done. exists s1. split; [done|].
    assert (leaves (if bool_decide (state = LinkInstalled) then lf_nodes s
               else <[command := Link source]> (lf_nodes s)) s s1) as Hl.
    { destruct (bool_decide (state = LinkInstalled)) eqn:Hb.
      - apply bool_decide_eq_true in Hb. by rewrite bool_decide_eq_true_2 in Hl1 by tauto.
      - apply bool_decide_eq_false in Hb. by rewrite bool_decide_eq_false_2 in Hl1 by tauto. }
    split; [done|]. destruct Hl as [Hc1 Hn1]. destruct (calm_uninstall s1 Hc1) as (s2&E2&Hl2).
    assert (state_of command source (lf_nodes s1 !! command) = LinkInstalled ∧
      delete command (lf_nodes s1) = delete command (lf_nodes s)) as [Hs1 Hd].
    { rewrite Hn1. destruct (bool_decide (state = LinkInstalled)) eqn:Hb.
      - by apply bool_decide_eq_true in Hb.
      - rewrite lookup_insert_eq, delete_insert_eq. split; [|done].
        unfold state_of, resolve_link. rewrite Habs. by rewrite bool_decide_eq_true_2. }
    rewrite Hs1, Hd in *. by exists s2.
  - destruct (calm_uninstall s Hc) as (s2&E2&Hl2). fold state in E2, Hl2.
    rewrite bool_decide_eq_false_2 in E2, Hl2 by done. by exists s2.
Qed.
End linux_calm.

(** ** Witnesses *)

Definition toy_vars : Env := λ name,
  if bool_decide (name = "APPIMAGE") then Some "/opt/PrintBridge.AppImage"
  else if bool_decide (name = "HOME") then Some "/home/user"
  else if bool_decide (name = "PATH") then Some "/usr/bin:/home/user/.local/bin/"
  else None.
Definition toy_command : string := "/home/user/.local/bin/print-bridge".
Definition toy_links (node : Node) : LinkFs :=
  mkLinkFs {[toy_command := node]} 0 (λ _, None) (λ _ nodes, nodes) [].

Lemma linux_link_lifecycle_witness :
  ∃ s1, linux_install (Ok "/tmp/.mount/usr/bin/print-bridge") toy_vars (toy_links (Link "/opt/old")) =
      (Ok (mkCliIntegrationStatus Installed (Some toy_command) true), s1) ∧
    lf_nodes s1 = {[toy_command := Link "/opt/PrintBridge.AppImage"]} ∧
    ∃ s2, linux_uninstall (Ok "/tmp/.mount/usr/bin/print-bridge") toy_vars s1 =
        (Ok (mkCliIntegrationStatus NotInstalled (Some toy_command) true), s2) ∧ lf_nodes s2 = ∅.
Proof.
  destruct (linux_link_lifecycle "/tmp/.mount/usr/bin/print-bridge" toy_vars
    "/opt/PrintBridge.AppImage" "/home/user" eq_refl eq_refl (toy_links (Link "/opt/old")))
    as (_&H&_); [by split|reflexivity|].
  destruct H as (s1&E1&(_&N1)&s2&E2&(_&N2)); [by vm_compute|].
  exists s1. split; [exact E1|]. split; [exact N1|]. exists s2. split; [exact E2|exact N2].
Defined.

(** Between the check and the removal another process may put a file where the stale
    link was; on Linux the program then deletes it. *)
Lemma linux_race_destroys_file :
  ∃ s, lf_nodes s !! toy_command = Some (Link "/opt/old") ∧ lf_lost s = [] ∧
    (toy_command, File "data") ∈
      lf_lost (linux_install (Ok "/tmp/.mount/usr/bin/print-bridge") toy_vars s).2.
Proof.
  exists (mkLinkFs {[toy_command := Link "/opt/old"]} 0 (λ _, None)
    (λ n nodes, if bool_decide (n = 2%nat) then <[toy_command := File "data"]> nodes else nodes) []).
  split; [reflexivity|]. split; [reflexivity|]. vm_compute. left.
Qed.
